(** * Pinit recommendations: scoring and ranking engine

    A shallow embedding of the scoring core of the Pinit recommender
    (venue tagging from reviews and from rules, the tag catalog, user tag
    affinities, the hidden-gem signal and scores, the global blender and the
    proximal recommender) together with the properties its design document
    states about it and further properties read off the code.

    Conventions of the embedding.
    - Python floats are idealised as real numbers ([R]); [NaN] and missing
      values are [None] in an [option]; [float('inf')] is written out where
      the source produces it.
    - A pandas frame is the list of its rows, a row is a record holding the
      columns the modelled code reads or writes.
    - A Python [dict] is an association list in insertion order, a [set] of
      integers is a duplicate-free list.
    - The wall clock read by [pd.Timestamp.utcnow()] is explicit (in
      seconds): the weighting of the actions takes its reading [now], a run
      of the pipeline takes the sequence [clock] of its successive readings.
    - The draws of the seeded random generator are an explicit sequence.
    - [sort_values] is modelled by a stable sort. *)

From Stdlib Require Import Ascii String.
From Stdlib Require Import Reals Lra Lia ZArith Bool List OrderedTypeEx.
From Stdlib Require Import Permutation Sorted.
Import ListNotations.

Open Scope R_scope.

(* ================================================================== *)
(** * Shared numeric and list helpers *)
(* ================================================================== *)

Definition Rleb (x y : R) : bool := if Rle_dec x y then true else false.
Definition Rltb (x y : R) : bool := if Rlt_dec x y then true else false.
Definition Reqb (x y : R) : bool := if Req_dec_T x y then true else false.

(** [np.log1p]. *)
Definition log1p (x : R) : R := ln (1 + x).

(** [Series.sum()]. *)
Definition Rsum (l : list R) : R := fold_right Rplus 0 l.

(** [Series.fillna(d)] on one cell. *)
Definition fillna (d : R) (x : option R) : R :=
  match x with Some v => v | None => d end.

(** Insertion of [x] into a list ordered by [leb]: [x] goes in front of the
    first element it is [leb] to. *)
Fixpoint insert_by {A : Type} (leb : A -> A -> bool) (x : A) (l : list A) : list A :=
  match l with
  | [] => [x]
  | y :: l' => if leb x y then x :: y :: l' else y :: insert_by leb x l'
  end.

(** [sort_values] / [sorted]: a stable sort for the order [leb]. *)
Definition sort_by {A : Type} (leb : A -> A -> bool) (l : list A) : list A :=
  fold_right (insert_by leb) [] l.

(** [DataFrame.head(n)] and the slice [rows[:n]]: the first [n] rows, and all
    but the last [-n] rows when [n] is negative. *)
Definition head {A : Type} (n : Z) (l : list A) : list A :=
  if (0 <=? n)%Z then firstn (Z.to_nat n) l
  else firstn (length l - Z.to_nat (- n)) l.

(** [len(frame)] as a Python integer. *)
Definition len {A : Type} (l : list A) : Z := Z.of_nat (length l).

(** [frame.empty]. *)
Definition is_empty {A : Type} (l : list A) : bool :=
  match l with [] => true | _ => false end.

(** [str.lower()] on the ASCII letters. *)
Definition lower_ascii (c : ascii) : ascii :=
  let n := nat_of_ascii c in
  if ((65 <=? n) && (n <=? 90))%nat then ascii_of_nat (n + 32) else c.

Fixpoint lower (s : string) : string :=
  match s with
  | EmptyString => EmptyString
  | String c s' => String (lower_ascii c) (lower s')
  end.

(** Python dictionaries, in insertion order. *)
Section Dict.
Context {K V : Type} (eqb : K -> K -> bool).

(** [d.get(k)]. *)
Fixpoint dict_get (k : K) (d : list (K * V)) : option V :=
  match d with
  | [] => None
  | (k', v) :: d' => if eqb k' k then Some v else dict_get k d'
  end.

(** [d[k] = v]: an existing key keeps its place, a new one goes last. *)
Fixpoint dict_set (k : K) (v : V) (d : list (K * V)) : list (K * V) :=
  match d with
  | [] => [(k, v)]
  | (k', v') :: d' =>
      if eqb k' k then (k', v) :: d' else (k', v') :: dict_set k v d'
  end.

(** [Series.to_dict()] of an index/value pairing: a later duplicate of a
    key overwrites the earlier value. *)
Definition to_dict (pairs : list (K * V)) : list (K * V) :=
  fold_left (fun d kv => dict_set (fst kv) (snd kv) d) pairs [].

(** The distinct elements of a list, by first occurrence. *)
Fixpoint dedup (l : list K) : list K :=
  match l with
  | [] => []
  | x :: l' => x :: filter (fun y => negb (eqb x y)) (dedup l')
  end.
End Dict.

(** [s.add(x)] on a set of integers kept as a duplicate-free list. *)
Definition set_add (x : Z) (s : list Z) : list Z :=
  if existsb (Z.eqb x) s then s else s ++ [x].

(** [s.update(xs)]. *)
Definition set_update (s : list Z) (xs : list Z) : list Z :=
  fold_left (fun acc x => set_add x acc) xs s.

(** [x in s]. *)
Definition set_mem (x : Z) (s : list Z) : bool := existsb (Z.eqb x) s.

(** The largest value of a non-empty series whose first cell is [x]. *)
Fixpoint list_max (x : R) (l : list R) : R :=
  match l with
  | [] => x
  | y :: l' => list_max (Rmax x y) l'
  end.

Fixpoint list_min (x : R) (l : list R) : R :=
  match l with
  | [] => x
  | y :: l' => list_min (Rmin x y) l'
  end.

(* ================================================================== *)
(** * Data model: the tables shared by the components *)
(* ================================================================== *)

(** A row of the venue inventory ([locations]), with the columns the
    modelled code reads. [None] is a missing (NaN) cell. *)
Record Location := mkLocation {
  location_id : Z;
  google_place_id : string;
  lat : option R;
  lng : option R;
  rating : option R;
  user_ratings_total : option R;
  popularity_score : R;
  hidden_gem_score : R;
  quality_score : R
}.

(** A row of the venue tag evidence ([location_tags]). *)
Record LocationTag := mkLocationTag {
  lt_location_id : Z;
  lt_tag_id : Z;
  lt_tag_text : string;
  lt_score : R
}.

(** A row of the user tag affinities ([user_tags]); [ut_raw_score] is the
    [raw_score] of its metadata. *)
Record UserTag := mkUserTag {
  ut_user_id : string;
  ut_tag_id : Z;
  ut_tag_text : string;
  ut_score : R;
  ut_raw_score : R
}.

(** A row of the action log ([user_actions]); [ua_created_at] is the parsed
    timestamp in seconds, [None] when it does not parse (NaT). *)
Record UserAction := mkUserAction {
  ua_user_id : string;
  ua_place_id : string;
  ua_action : string;
  ua_created_at : option R
}.

(** A row of the user history summary ([user_history]). *)
Record UserHistory := mkUserHistory {
  uh_user_id : string;
  uh_n_actions : Z
}.

(* ================================================================== *)
(** * Proximal recommender ([recommendation/proximal_recommendation.py]) *)
(* ================================================================== *)

Module Proximal.

(** [ProximalConfig]. *)
Record ProximalConfig := mkProximalConfig {
  radius_km : R;
  min_results : Z;
  max_results : Z;
  taste_weight : R;
  proximity_weight : R;
  quality_weight : R
}.

(** A row of the frame returned by [build_proximal_recommendations]. *)
Record Recommendation := mkRecommendation {
  rec_location_id : Z;
  distance_km : R;
  taste_score : R;
  proximity_score : R;
  rec_quality_score : R;
  final_score : R;
  rank : Z
}.

(** [math.radians]. *)
Definition radians (deg : R) : R := deg * PI / 180.

Definition haversine_distance (lat1 lon1 lat2 lon2 : R) : R :=
  let lat1_rad := radians lat1 in
  let lat2_rad := radians lat2 in
  let delta_lat := radians (lat2 - lat1) in
  let delta_lon := radians (lon2 - lon1) in
  let a := (sin (delta_lat / 2)) ^ 2
           + cos lat1_rad * cos lat2_rad * (sin (delta_lon / 2)) ^ 2 in
  let c := 2 * asin (sqrt a) in
  let r := 6371 in
  c * r.

(** One entry of [calculate_distances]: [None] stands for [float('inf')],
    the distance given to a location with a missing coordinate. *)
Definition distance_of (center_lat center_lon : R) (row : Location) : option R :=
  match lat row, lng row with
  | Some la, Some lo => Some (haversine_distance center_lat center_lon la lo)
  | _, _ => None
  end.

Definition calculate_distances (center_lat center_lon : R)
    (locations : list Location) : list (option R) :=
  map (distance_of center_lat center_lon) locations.

(** [result[result['distance_km'] <= radius_km]]: an infinite distance is
    never within a radius. *)
Definition within (radius : R) (d : option R) : bool :=
  match d with
  | Some x => Rleb x radius
  | None => false
  end.

(** Rows of [filter_by_radius]: the location with its [distance_km]. *)
Definition Nearby : Type := (Location * R)%type.

Fixpoint keep_within (radius : R) (rows : list (Location * option R)) : list Nearby :=
  match rows with
  | [] => []
  | (l, Some d) :: rest =>
      if Rleb d radius then (l, d) :: keep_within radius rest
      else keep_within radius rest
  | (_, None) :: rest => keep_within radius rest
  end.

Definition filter_by_radius (center_lat center_lon : R)
    (locations : list Location) (radius : R) : list Nearby :=
  let distances := calculate_distances center_lat center_lon locations in
  let result := combine locations distances in
  let result := keep_within radius result in
  sort_by (fun a b => Rleb (snd a) (snd b)) result.

(** The inner merge of the user's profile with the tags of the listed
    locations, with the [component] column; one pair per matching
    (profile row, tag row). *)
Definition taste_merged (user_id : string) (location_ids : list Z)
    (user_tags : list UserTag) (location_tags : list LocationTag) : list (Z * R) :=
  let user_profile := filter (fun u => String.eqb (ut_user_id u) user_id) user_tags in
  let relevant_tags :=
    filter (fun t => existsb (Z.eqb (lt_location_id t)) location_ids) location_tags in
  flat_map (fun u =>
    map (fun t => (lt_location_id t, (ut_score u / 100) * (lt_score t / 100)))
        (filter (fun t => Z.eqb (ut_tag_id u) (lt_tag_id t)) relevant_tags))
    user_profile.

(** [compute_taste_score], read at one location: the sum of the components
    of its group capped at 1, and 0 for a location absent from the merge
    (which covers the three early returns of an all-zero series). *)
Definition compute_taste_score (user_id : string) (location_ids : list Z)
    (user_tags : list UserTag) (location_tags : list LocationTag) (loc : Z) : R :=
  let merged := taste_merged user_id location_ids user_tags location_tags in
  let group := filter (fun p => Z.eqb (fst p) loc) merged in
  if is_empty group then 0
  else Rmin (Rsum (map snd group)) 1.

Definition compute_proximity_score (distance max_distance : R) : R :=
  exp (-2 * distance / max_distance).

Definition compute_quality_score (row : Location) : R :=
  let rating_score := fillna 3 (rating row) / 5 in
  let review_score := log1p (fillna 0 (user_ratings_total row)) / 10 in
  let review_score := Rmin review_score 1 in
  Rmin (0.7 * rating_score + 0.3 * review_score) 1.

(** The scored rows ([nearby_copy] before sorting); the rank is filled in
    after the sort. *)
Definition score_row (config : ProximalConfig) (user_id : string)
    (location_ids : list Z) (user_tags : list UserTag)
    (location_tags : list LocationTag) (row : Nearby) : Recommendation :=
  let taste := compute_taste_score user_id location_ids user_tags location_tags
                 (location_id (fst row)) in
  let proximity := compute_proximity_score (snd row) (radius_km config) in
  let quality := compute_quality_score (fst row) in
  mkRecommendation (location_id (fst row)) (snd row) taste proximity quality
    (taste_weight config * taste + proximity_weight config * proximity
     + quality_weight config * quality) 0.

(** [nearby_copy['rank'] = range(1, len(nearby_copy) + 1)]. *)
Fixpoint add_rank (start : Z) (rows : list Recommendation) : list Recommendation :=
  match rows with
  | [] => []
  | r :: rest =>
      mkRecommendation (rec_location_id r) (distance_km r) (taste_score r)
        (proximity_score r) (rec_quality_score r) (final_score r) start
      :: add_rank (start + 1) rest
  end.

(** The rows found for a configuration: the filter at the configured radius
    and, when that is empty, the filter at twice the radius. *)
Definition nearby_rows (center_lat center_lon : R) (locations : list Location)
    (config : ProximalConfig) : list Nearby :=
  let nearby := filter_by_radius center_lat center_lon locations (radius_km config) in
  if is_empty nearby
  then filter_by_radius center_lat center_lon locations (radius_km config * 2)
  else nearby.

(** [nearby_copy]: scored, sorted by descending final score, ranked. *)
Definition ranked_rows (user_id : string) (user_tags : list UserTag)
    (location_tags : list LocationTag) (config : ProximalConfig)
    (nearby : list Nearby) : list Recommendation :=
  let ids := map (fun row => location_id (fst row)) nearby in
  let scored := map (score_row config user_id ids user_tags location_tags) nearby in
  let sorted := sort_by (fun a b => Rleb (final_score b) (final_score a)) scored in
  add_rank 1 sorted.

(** The configuration of the recursive call made by one invocation, if it
    makes one: the "ensure minimum results" branch. *)
Definition expansion (center_lat center_lon : R) (locations : list Location)
    (config : ProximalConfig) (nearby : list Nearby)
    (nearby_copy result : list Recommendation) : option ProximalConfig :=
  if ((len result <? min_results config) && (len nearby_copy <? min_results config))%Z
  then
    let expanded :=
      filter_by_radius center_lat center_lon locations (radius_km config * 3) in
    if (len nearby <? len expanded)%Z
    then Some (mkProximalConfig (radius_km config * 3) (min_results config)
                 (max_results config) (taste_weight config)
                 (proximity_weight config) (quality_weight config))
    else None
  else None.

(** [build_proximal_recommendations]. The recursion of the source is on the
    widened configuration; [fuel] bounds its depth and [None] is "out of
    fuel". *)
Fixpoint build_proximal_recommendations (fuel : nat) (user_id : string)
    (center_lat center_lon : R) (locations : list Location)
    (user_tags : list UserTag) (location_tags : list LocationTag)
    (config : ProximalConfig) : option (list Recommendation) :=
  match fuel with
  | O => None
  | S fuel' =>
      let nearby := nearby_rows center_lat center_lon locations config in
      if is_empty nearby then Some []
      else
        let nearby_copy := ranked_rows user_id user_tags location_tags config nearby in
        let result := head (max_results config) nearby_copy in
        match expansion center_lat center_lon locations config nearby nearby_copy result with
        | Some expanded_config =>
            build_proximal_recommendations fuel' user_id center_lat center_lon
              locations user_tags location_tags expanded_config
        | None => Some result
        end
  end.

(** The radii of the successive invocations, the requested one first:
    the trace of the recursion above. *)
Fixpoint radius_trace (fuel : nat) (center_lat center_lon : R)
    (locations : list Location) (user_id : string) (user_tags : list UserTag)
    (location_tags : list LocationTag) (config : ProximalConfig) : list R :=
  match fuel with
  | O => []
  | S fuel' =>
      radius_km config ::
      let nearby := nearby_rows center_lat center_lon locations config in
      if is_empty nearby then []
      else
        let nearby_copy := ranked_rows user_id user_tags location_tags config nearby in
        let result := head (max_results config) nearby_copy in
        match expansion center_lat center_lon locations config nearby nearby_copy result with
        | Some expanded_config =>
            radius_trace fuel' center_lat center_lon locations user_id user_tags
              location_tags expanded_config
        | None => []
        end
  end.

End Proximal.

(* ================================================================== *)
(** * Configuration constants ([config.py]) *)
(* ================================================================== *)

Definition DEFAULT_ACTION_WEIGHTS : list (string * R) :=
  [ ("save"%string, 3.0);
    ("like"%string, 2.0);
    ("share_to_bubble"%string, 2.5);
    ("detail_view"%string, 0.5);
    ("impression"%string, 0.1);
    ("dismiss"%string, -1.5) ].

Definition RECENCY_HALFLIFE_DAYS : R := 30.0.

(** [ReviewTagConfig]. *)
Record ReviewTagConfig := mkReviewTagConfig {
  min_unique_authors : Z;
  min_mentions : Z;
  english_only : bool;
  score_floor : R;
  score_cap : R
}.

(** [RecommendationWeights]; [asdict] of it is the weights dictionary the
    blender works on, whose six keys are the fields below. *)
Record RecommendationWeights := mkRecommendationWeights {
  taste : R;
  trend_app : R;
  hidden_gems : R;
  quality : R;
  friend : R;
  bubble : R
}.

(* ================================================================== *)
(** * User profile builder ([recommendation/user_profiles.py]) *)
(* ================================================================== *)

Module UserProfiles.

(** An action after the join with the inventory and the weighting: the
    columns [user_id], [action] (lower-cased), [location_id], [weight]. *)
Record WeightedAction := mkWeightedAction {
  wa_user_id : string;
  wa_action : string;
  wa_location_id : Z;
  wa_weight : R
}.

(** [age_days] of one action: the time since its timestamp in days, 0 for a
    timestamp that did not parse, and never negative. *)
Definition age_days (now : R) (created_at : option R) : R :=
  Rmax (fillna 0 (option_map (fun ts => (now - ts) / 86400) created_at)) 0.

(** The [decay] factor of one action; 1 when the log has no [created_at]
    column. *)
Definition decay (now : R) (has_created_at : bool) (created_at : option R) : R :=
  if has_created_at
  then exp (- age_days now created_at / RECENCY_HALFLIFE_DAYS)
  else 1.0.

(** The [weight] column of [_apply_action_weights] before the zero filter. *)
Definition action_weight (now : R) (has_created_at : bool) (a : UserAction) : R :=
  fillna 0.0 (dict_get String.eqb (lower (ua_action a)) DEFAULT_ACTION_WEIGHTS)
  * decay now has_created_at (ua_created_at a).

(** [_apply_action_weights], on the log already joined with the inventory
    (each action paired with its [location_id]). *)
Definition _apply_action_weights (now : R) (has_created_at : bool)
    (actions : list (UserAction * Z)) : list WeightedAction :=
  let df := map (fun al =>
                   mkWeightedAction (ua_user_id (fst al)) (lower (ua_action (fst al)))
                     (snd al) (action_weight now has_created_at (fst al)))
                actions in
  filter (fun r => negb (Reqb (wa_weight r) 0)) df.

(** [place_to_location]. *)
Definition place_to_location (locations : list Location) : list (string * Z) :=
  to_dict String.eqb (map (fun l => (google_place_id l, location_id l)) locations).

(** The action log with its [location_id] column, unresolved rows dropped. *)
Definition resolve_actions (locations : list Location)
    (user_actions : list UserAction) : list (UserAction * Z) :=
  flat_map (fun a =>
              match dict_get String.eqb (ua_place_id a) (place_to_location locations) with
              | Some loc => [(a, loc)]
              | None => []
              end)
           user_actions.

(** A row of [merged]: the group key (user, tag id, tag text) and [contrib]. *)
Definition Key : Type := (string * Z * string)%type.

Definition key_user (k : Key) : string := fst (fst k).
Definition key_tag_id (k : Key) : Z := snd (fst k).
Definition key_tag_text (k : Key) : string := snd k.

Definition key_eqb (a b : Key) : bool :=
  String.eqb (key_user a) (key_user b)
  && Z.eqb (key_tag_id a) (key_tag_id b)
  && String.eqb (key_tag_text a) (key_tag_text b).

(** The order in which [groupby] lists its keys. *)
Definition key_leb (a b : Key) : bool :=
  match String.compare (key_user a) (key_user b) with
  | Lt => true
  | Gt => false
  | Eq =>
      match Z.compare (key_tag_id a) (key_tag_id b) with
      | Lt => true
      | Gt => false
      | Eq => String.leb (key_tag_text a) (key_tag_text b)
      end
  end.

(** The inner merge of the weighted actions with the tag evidence on
    [location_id], with the [contrib] column. *)
Definition merge_actions (df_actions : list WeightedAction)
    (location_tags : list LocationTag) : list (Key * R) :=
  flat_map (fun a =>
    map (fun t => ((wa_user_id a, lt_tag_id t, lt_tag_text t),
                   wa_weight a * (lt_score t / 100.0)))
        (filter (fun t => Z.eqb (wa_location_id a) (lt_location_id t)) location_tags))
    df_actions.

(** [merged.groupby([user_id, tag_id, tag_text])["contrib"].sum()]. *)
Definition aggregate (merged : list (Key * R)) : list (Key * R) :=
  let keys := sort_by key_leb (dedup key_eqb (map fst merged)) in
  map (fun k => (k, Rsum (map snd (filter (fun r => key_eqb (fst r) k) merged)))) keys.

(** [_normalize] on the rows of one user. *)
Definition _normalize (group : list (Key * R)) : list UserTag :=
  match group with
  | [] => []
  | first :: rest =>
      let max_val := list_max (snd first) (map snd rest) in
      map (fun r =>
             mkUserTag (key_user (fst r)) (key_tag_id (fst r)) (key_tag_text (fst r))
               (if Rleb max_val 0 then 0.0 else (snd r / max_val) * 100.0)
               (snd r))
          group
  end.

(** [agg.groupby("user_id", group_keys=False).apply(_normalize)]. *)
Definition normalize_all (agg : list (Key * R)) : list UserTag :=
  let users := sort_by String.leb (dedup String.eqb (map (fun r => key_user (fst r)) agg)) in
  flat_map (fun u => _normalize (filter (fun r => String.eqb (key_user (fst r)) u) agg))
           users.

(** The order of [sort_values(by=["user_id", "score"], ascending=[True, False])]. *)
Definition affinity_leb (a b : UserTag) : bool :=
  match String.compare (ut_user_id a) (ut_user_id b) with
  | Lt => true
  | Gt => false
  | Eq => Rleb (ut_score b) (ut_score a)
  end.

(** [groupby("user_id").head(n)]: the first [n] rows of every user, in frame
    order; [prev] lists the users of the rows already passed. *)
Fixpoint group_head (n : nat) (prev : list string) (rows : list UserTag) : list UserTag :=
  match rows with
  | [] => []
  | r :: rest =>
      if (count_occ string_dec prev (ut_user_id r) <? n)%nat
      then r :: group_head n (ut_user_id r :: prev) rest
      else group_head n (ut_user_id r :: prev) rest
  end.

(** [df_actions.groupby("user_id").size()] sorted by descending count. *)
Definition history_of (df_actions : list WeightedAction) : list UserHistory :=
  let users := sort_by String.leb (dedup String.eqb (map wa_user_id df_actions)) in
  let sizes := map (fun u =>
                      mkUserHistory u
                        (len (filter (fun a => String.eqb (wa_user_id a) u) df_actions)))
                   users in
  sort_by (fun a b => (uh_n_actions b <=? uh_n_actions a)%Z) sizes.

(** [build_user_tag_affinities]: the affinity table and the history
    summary. [now] is the clock reading of the run and [has_created_at]
    tells whether the log has a [created_at] column. *)
Definition build_user_tag_affinities (now : R) (has_created_at : bool)
    (user_actions : list UserAction) (location_tags : list LocationTag)
    (locations : list Location) : list UserTag * list UserHistory :=
  if is_empty user_actions || is_empty location_tags then ([], [])
  else
    let df_actions := resolve_actions locations user_actions in
    let df_actions := _apply_action_weights now has_created_at df_actions in
    if is_empty df_actions then ([], [])
    else
      let merged := merge_actions df_actions location_tags in
      if is_empty merged then ([], [])
      else
        let agg := aggregate merged in
        let normalized := normalize_all agg in
        let normalized := sort_by affinity_leb normalized in
        let normalized := group_head 25 [] normalized in
        (normalized, history_of df_actions).

(** An entry of [SYNTHETIC_PROFILES]. *)
Record Profile := mkProfile {
  pf_user_id : string;
  pf_tags : list string
}.

Definition SYNTHETIC_PROFILES : list Profile :=
  [ mkProfile "demo_date_night"
      ["date_night"%string; "italian"%string; "wine_bar"%string];
    mkProfile "demo_vegan"
      ["vegan_vegetarian"%string; "vegan_friendly"%string; "cafe"%string];
    mkProfile "demo_group_hang"
      ["group_hang"%string; "mexican"%string; "cocktails"%string] ].

(** A row of [tag_scores]. *)
Record TagScore := mkTagScore {
  tg_tag_text : string;
  tg_location_id : Z;
  tg_score : R
}.

(** [Series.mean()]. *)
Definition mean (l : list R) : R := Rsum l / INR (length l).

Definition TagGroup : Type := (string * Z)%type.

Definition tag_group_eqb (a b : TagGroup) : bool :=
  String.eqb (fst a) (fst b) && Z.eqb (snd a) (snd b).

Definition tag_group_leb (a b : TagGroup) : bool :=
  match String.compare (fst a) (fst b) with
  | Lt => true
  | Gt => false
  | Eq => (snd a <=? snd b)%Z
  end.

(** [location_tags.groupby(["tag_text", "location_id"])["score"].mean()
    .reset_index()]. *)
Definition tag_scores_of (location_tags : list LocationTag) : list TagScore :=
  let group_of t := (lt_tag_text t, lt_location_id t) in
  let groups := sort_by tag_group_leb (dedup tag_group_eqb (map group_of location_tags)) in
  map (fun g =>
         mkTagScore (fst g) (snd g)
           (mean (map lt_score
                    (filter (fun t => tag_group_eqb (group_of t) g) location_tags))))
      groups.

(** [chosen] for the tags of one profile: the rows of its tags sorted by
    descending score, the first row of every location in the order of the
    location ids, and of these the first 12. An empty [subset] gives no
    row (the [continue] of the loop). *)
Definition chosen_for (tag_scores : list TagScore) (tags : list string) : list TagScore :=
  let subset := filter (fun r => existsb (String.eqb (tg_tag_text r)) tags) tag_scores in
  if is_empty subset then []
  else
    let subset := sort_by (fun a b => Rleb (tg_score b) (tg_score a)) subset in
    let ids := sort_by Z.leb (dedup Z.eqb (map tg_location_id subset)) in
    let subset :=
      flat_map (fun id =>
                  match find (fun r => Z.eqb (tg_location_id r) id) subset with
                  | Some r => [r]
                  | None => []
                  end)
               ids in
    head 12 subset.

Section Synthesis.

(** The draws of [np.random.default_rng(42)]: the action and the number of
    days of the k-th generated row. The generator is seeded, so the draws
    are the same in every run; their values are left open. *)
Variable rng : nat -> string * Z.

(** The clock readings of [synthesize_user_actions], one per generated
    row. *)
Variable clock : nat -> R.

(** The body of the inner loop: the rows so far, extended by the row of one
    record unless its location has no place id. *)
Definition synthesize_row (place_lookup : list (Z * string)) (user_id : string)
    (rows : list UserAction) (record : TagScore) : list UserAction :=
  let loc_id := tg_location_id record in
  match dict_get Z.eqb loc_id place_lookup with
  | None => rows
  | Some EmptyString => rows
  | Some place_id =>
      let k := length rows in
      let action := fst (rng k) in
      let days_ago := IZR (snd (rng k)) in
      let timestamp := clock k - days_ago * 86400 in
      rows ++ [mkUserAction user_id place_id action (Some timestamp)]
  end.

(** [synthesize_user_actions]; no [profiles] is the empty list. *)
Definition synthesize_user_actions (locations : list Location)
    (location_tags : list LocationTag) (profiles : list Profile) : list UserAction :=
  let profiles := if is_empty profiles then SYNTHETIC_PROFILES else profiles in
  let place_lookup :=
    to_dict Z.eqb (map (fun l => (location_id l, google_place_id l)) locations) in
  let tag_scores := tag_scores_of location_tags in
  fold_left (fun rows profile =>
               let chosen := chosen_for tag_scores (pf_tags profile) in
               fold_left (synthesize_row place_lookup (pf_user_id profile)) chosen rows)
            profiles [].

(** [ensure_user_actions], on the log read from the input file: the log
    the run works on and whether it is synthetic. *)
Definition ensure_user_actions (user_actions : list UserAction)
    (locations : list Location) (location_tags : list LocationTag)
    (allow_synthetic : bool) : list UserAction * bool :=
  if is_empty user_actions && allow_synthetic
  then (synthesize_user_actions locations location_tags [], true)
  else (user_actions, false).

End Synthesis.

End UserProfiles.

(* ================================================================== *)
(** * Venue tagger, review-derived evidence ([pinit/tagging.py]) *)
(* ================================================================== *)

Module Tagging.

Open Scope string_scope.

Definition REVIEW_TAG_KEYWORDS : list (string * list string) :=
  [ ("cozy", ["cozy"; "cosy"; "snug"; "warm lighting"]);
    ("romantic", ["romantic"; "date night"; "special date"]);
    ("lively", ["lively"; "buzzy"; "energetic"; "party"]);
    ("quiet", ["quiet"; "peaceful"; "calm"; "relaxed"]);
    ("trendy", ["trendy"; "instagrammable"; "aesthetic"]);
    ("casual", ["casual"; "laid back"; "chill vibes"]);
    ("formal", ["formal"; "fine dining"; "tasting menu"]);
    ("family_friendly", ["family"; "kids"; "child friendly"; "pram"]);
    ("date_night", ["date night"; "romantic"; "anniversary"]);
    ("brunch", ["brunch"; "poached eggs"; "avocado toast"]);
    ("quick_bite", ["quick bite"; "fast service"; "grab and go"]);
    ("group_hang", ["group of friends"; "hen party"; "stag do"]);
    ("business_meeting", ["business meeting"; "client lunch"; "power lunch"]);
    ("solo_friendly", ["solo"; "ate alone"; "counter seating"]);
    ("cocktails", ["cocktails"; "mixology"; "negroni"; "margarita"]);
    ("wine_bar", ["wine list"; "sommelier"; "wine flight"]);
    ("craft_beer", ["craft beer"; "tap list"; "ipa"; "lager"]);
    ("vegetarian_friendly", ["vegetarian options"; "vegetarian friendly"]);
    ("vegan_friendly", ["vegan options"; "plant based"; "plant-based"]);
    ("halal_friendly", ["halal"; "halal friendly"]);
    ("gluten_free_options", ["gluten free"; "gluten-free"; "celiac"]) ].

Close Scope string_scope.

(** A row of the review table. *)
Record Review := mkReview {
  rv_location_id : Z;
  rv_language : string;
  rv_author_name : string;
  rv_text : string
}.

(** An entry of [grouped]: the set of authors and the mention count. *)
Record GroupInfo := mkGroupInfo {
  authors : list string;
  mentions : Z
}.

(** A record appended by [_add_tag_record] for a review-derived tag; the
    two counts are its metadata. *)
Record TagRecord := mkTagRecord {
  tr_location_id : Z;
  tr_tag_text : string;
  tr_score : R;
  tr_source : string;
  tr_mentions : Z;
  tr_unique_authors : Z
}.

(** [kw in text]. *)
Fixpoint contains (kw text : string) : bool :=
  String.prefix kw text
  || match text with
     | EmptyString => false
     | String _ rest => contains kw rest
     end.

(** The tags a normalised review text hits: one per tag whose keyword list
    has a keyword occurring in the text. *)
Definition found_tags (text : string) : list string :=
  map fst (filter (fun entry => existsb (fun kw => contains kw text) (snd entry))
                  REVIEW_TAG_KEYWORDS).

Definition GroupKey : Type := (Z * string)%type.

Definition group_key_eqb (a b : GroupKey) : bool :=
  Z.eqb (fst a) (fst b) && String.eqb (snd a) (snd b).

(** [authors.add(name)]. *)
Definition author_add (name : string) (s : list string) : list string :=
  if existsb (String.eqb name) s then s else s ++ [name].

(** [row.author_name or "anon"]. *)
Definition author_or_anon (name : string) : string :=
  match name with
  | EmptyString => "anon"%string
  | _ => name
  end.

(** One hit: [entry = grouped.setdefault(key, ...)], one more mention, the
    author added. *)
Definition add_hit (author : string) (grouped : list (GroupKey * GroupInfo))
    (key : GroupKey) : list (GroupKey * GroupInfo) :=
  let entry := match dict_get group_key_eqb key grouped with
               | Some e => e
               | None => mkGroupInfo [] 0
               end in
  dict_set group_key_eqb key
    (mkGroupInfo (author_add (author_or_anon author) (authors entry))
                 (mentions entry + 1))
    grouped.

(** The body of the loop over the reviews. *)
Definition add_review (grouped : list (GroupKey * GroupInfo)) (row : Review)
    : list (GroupKey * GroupInfo) :=
  let text := lower (rv_text row) in
  fold_left (fun g tag_text => add_hit (rv_author_name row) g (rv_location_id row, tag_text))
            (found_tags text) grouped.

(** The dictionary [grouped] after the loop. *)
Definition group_hits (reviews : list Review) (config : ReviewTagConfig)
    : list (GroupKey * GroupInfo) :=
  let df := if english_only config
            then filter (fun r => String.prefix "en" (rv_language r)) reviews
            else reviews in
  fold_left add_review df [].

(** The confidence of a retained group. *)
Definition review_score (config : ReviewTagConfig) (unique_authors mentions : Z) : R :=
  let score := score_floor config + 15 * log1p (IZR unique_authors)
               + 10 * log1p (IZR mentions) in
  Rmin (score_cap config) score.

(** The second loop: the gate and the record of one group. *)
Definition group_record (config : ReviewTagConfig) (g : GroupKey * GroupInfo)
    : list TagRecord :=
  let mentions := mentions (snd g) in
  let unique_authors := len (authors (snd g)) in
  if ((unique_authors <? min_unique_authors config)
      && (mentions <? min_mentions config))%Z
  then []
  else [mkTagRecord (fst (fst g)) (snd (fst g))
          (review_score config unique_authors mentions)
          "reviews" mentions unique_authors].

Definition _review_tag_records (reviews : list Review) (config : ReviewTagConfig)
    : list TagRecord :=
  if is_empty reviews then []
  else flat_map (group_record config) (group_hits reviews config).

End Tagging.

(* ================================================================== *)
(** * Hidden-gem model, primary path ([pinit/hidden_gems.py]) *)
(* ================================================================== *)

Module HiddenGems.

Definition MIN_MODEL_ROWS : Z := 50.

(** A row of the model frame: a venue with a rating. The feature columns
    are read by the regression only and are kept abstract in [features]. *)
Record ModelRow {F : Type} := mkModelRow {
  mr_rating : R;
  mr_user_ratings_total : R;
  mr_features : F
}.
Arguments ModelRow : clear implicits.

(** [np.isclose] with its default tolerances. *)
Definition isclose (a b : R) : bool :=
  Rleb (Rabs (a - b)) (1e-8 + 1e-5 * Rabs b).

Definition _min_max_scale (values : list R) : list R :=
  match values with
  | [] => []
  | x :: rest =>
      let v_min := list_min x rest in
      let v_max := list_max x rest in
      if isclose v_min v_max then map (fun _ => 0) values
      else map (fun v => (v - v_min) / (v_max - v_min)) values
  end.

(** Row-wise combination of two aligned series. *)
Definition map2 {A B C : Type} (f : A -> B -> C) (l1 : list A) (l2 : list B) : list C :=
  map (fun p => f (fst p) (snd p)) (combine l1 l2).

Section FitHypeModel.
Context {F : Type}.

(** Whether the regression library could be imported. *)
Variable _SKLEARN_AVAILABLE : bool.

(** The fitted regression pipeline: [pipe.fit(X, y)] followed by
    [pipe.predict(X)], [None] when the fit raises. *)
Variable fit_predict : list (ModelRow F) -> option (list R).

(** The guard on the feature columns is left out: the model frame built by
    [_prepare_model_frame] always has them. *)
Definition _fit_hype_model (model_df : list (ModelRow F)) (min_reviews : Z)
    : option (list R * list R * list R) :=
  if negb _SKLEARN_AVAILABLE then None
  else if (len model_df <? MIN_MODEL_ROWS)%Z then None
  else
    match fit_predict model_df with
    | None => None
    | Some expected_rating =>
        let y := map mr_rating model_df in
        let hype_residual := map2 Rminus y expected_rating in
        let review_counts := map mr_user_ratings_total model_df in
        let review_weight := _min_max_scale (map log1p review_counts) in
        let signal := map (fun r => Rmax r 0) hype_residual in
        let signal := map2 (fun s w => s * (0.35 + 0.65 * w)) signal review_weight in
        let signal := map2 (fun s c => if Rleb (IZR min_reviews) c then s else 0.0)
                           signal review_counts in
        Some (expected_rating, hype_residual, signal)
    end.
End FitHypeModel.

End HiddenGems.

(* ================================================================== *)
(** * Recommendation blender ([pinit/recommendation.py]) *)
(* ================================================================== *)

Module Blender.

(** [PipelineConfig], without the paths and the review-tagging parameters. *)
Record PipelineConfig := mkPipelineConfig {
  recommendation_weights : RecommendationWeights;
  synthetic_users : bool;
  top_k_per_user : Z
}.

(** [sum(weights.values())]. *)
Definition weights_total (w : RecommendationWeights) : R :=
  taste w + trend_app w + hidden_gems w + quality w + friend w + bubble w.

Definition _adaptive_weights (base : RecommendationWeights) (history_size : Z)
    : RecommendationWeights :=
  let taste_weight := taste base in
  let weights :=
    if (history_size <? 5)%Z then
      let cold_ratio := IZR history_size / 5.0 in
      let reduction := taste_weight * (1 - cold_ratio) in
      mkRecommendationWeights
        (taste_weight * cold_ratio)
        (trend_app base + reduction * 0.6)
        (hidden_gems base)
        (quality base + reduction * 0.4)
        (friend base)
        (bubble base)
    else base in
  let total := weights_total weights in
  if Reqb total 0 then weights
  else mkRecommendationWeights
         (taste weights / total) (trend_app weights / total)
         (hidden_gems weights / total) (quality weights / total)
         (friend weights / total) (bubble weights / total).

(** A row of [taste_scores]. *)
Record TasteRow := mkTasteRow {
  ts_user_id : string;
  ts_location_id : Z;
  ts_taste_score : R
}.

Definition TasteKey : Type := (string * Z)%type.

Definition taste_key_eqb (a b : TasteKey) : bool :=
  String.eqb (fst a) (fst b) && Z.eqb (snd a) (snd b).

Definition taste_key_leb (a b : TasteKey) : bool :=
  match String.compare (fst a) (fst b) with
  | Lt => true
  | Gt => false
  | Eq => (snd a <=? snd b)%Z
  end.

(** The [taste_scores] frame of [_taste_contributions]: the components of
    the merge on [tag_id], summed per (user, location). The explanatory
    [detail_map] is not part of the model. *)
Definition _taste_contributions (user_tags : list UserTag)
    (location_tags : list LocationTag) : list TasteRow :=
  if is_empty user_tags || is_empty location_tags then []
  else
    let merged :=
      flat_map (fun u =>
        map (fun t => ((ut_user_id u, lt_location_id t),
                       (ut_score u / 100.0) * (lt_score t / 100.0)))
            (filter (fun t => Z.eqb (ut_tag_id u) (lt_tag_id t)) location_tags))
        user_tags in
    let keys := sort_by taste_key_leb (dedup taste_key_eqb (map fst merged)) in
    map (fun k =>
           mkTasteRow (fst k) (snd k)
             (Rsum (map snd (filter (fun r => taste_key_eqb (fst r) k) merged))))
        keys.

(** A row of the output frame; [br_weights] is the weight vector recorded
    in the row's [reason] payload. *)
Record Recommendation := mkRecommendation {
  br_user_id : string;
  br_location_id : Z;
  br_rank : Z;
  br_score : R;
  br_taste_score : R;
  br_trend_score : R;
  br_hidden_gem_score : R;
  br_quality_score : R;
  br_weights : RecommendationWeights
}.

Section Blend.

(** The order in which a Python [set] of strings is iterated: it depends
    on the string hashes and is left open. *)
Variable set_iter : list string -> list string.

(** [candidates.setdefault(user_id, set())], then the set's contents. *)
Definition bucket_of (candidates : list (string * list Z)) (user_id : string) : list Z :=
  match dict_get String.eqb user_id candidates with
  | Some b => b
  | None => []
  end.

Definition _candidate_sets (taste_scores : list TasteRow)
    (top_trend_ids top_hidden_ids : list Z) (all_user_ids : list string)
    : list (string * list Z) :=
  let candidates :=
    fold_left (fun c row =>
                 dict_set String.eqb (ts_user_id row)
                   (set_add (ts_location_id row) (bucket_of c (ts_user_id row))) c)
              taste_scores [] in
  let top_trend := dedup Z.eqb top_trend_ids in
  let top_hidden := dedup Z.eqb top_hidden_ids in
  fold_left (fun c user_id =>
               let bucket := bucket_of c user_id in
               let bucket := set_update bucket top_trend in
               let bucket := set_update bucket top_hidden in
               dict_set String.eqb user_id bucket c)
            (set_iter (dedup String.eqb (map fst candidates ++ all_user_ids)))
            candidates.

Definition _user_seen_locations (user_actions : list UserAction)
    (locations : list Location) : list (string * list Z) :=
  if is_empty user_actions then []
  else
    let actions := UserProfiles.resolve_actions locations user_actions in
    fold_left (fun grouped row =>
                 dict_set String.eqb (ua_user_id (fst row))
                   (set_add (snd row) (bucket_of grouped (ua_user_id (fst row))))
                   grouped)
              actions [].

(** The ids of the 250 best locations for a score column. *)
Definition top_ids (score : Location -> R) (locations : list Location) : list Z :=
  map location_id
      (head 250 (sort_by (fun a b => Rleb (score b) (score a)) locations)).

(** [int(hist_lookup.get(user_id, len(candidate_ids) // 4))]. *)
Definition history_size_of (hist_lookup : list (string * Z)) (user_id : string)
    (candidate_ids : list Z) : Z :=
  match dict_get String.eqb user_id hist_lookup with
  | Some n => n
  | None => (len candidate_ids / 4)%Z
  end.

(** [taste_subset.get(loc_id, 0.0)]. *)
Definition taste_of (taste_scores : list TasteRow) (user_id : string) (loc_id : Z) : R :=
  match find (fun r => Z.eqb (ts_location_id r) loc_id)
             (filter (fun r => String.eqb (ts_user_id r) user_id) taste_scores) with
  | Some r => ts_taste_score r
  | None => 0.0
  end.

(** The body of the inner loop: the row of one candidate, none for a
    seen or unknown location. *)
Definition candidate_row (locations : list Location) (taste_scores : list TasteRow)
    (weights : RecommendationWeights) (seen : list Z) (user_id : string) (loc_id : Z)
    : list Recommendation :=
  if set_mem loc_id seen then []
  else
    match find (fun l => Z.eqb (location_id l) loc_id) locations with
    | None => []
    | Some metrics =>
        let taste_val := taste_of taste_scores user_id loc_id in
        let pop_val := popularity_score metrics in
        let hidden_val := hidden_gem_score metrics in
        let quality_val := quality_score metrics in
        let score := taste weights * taste_val
                     + trend_app weights * pop_val
                     + hidden_gems weights * hidden_val
                     + quality weights * quality_val in
        [mkRecommendation user_id loc_id 0 score taste_val pop_val hidden_val
           quality_val weights]
    end.

(** [enumerate(rows[:top_k], start=1)]. *)
Fixpoint add_rank (start : Z) (rows : list Recommendation) : list Recommendation :=
  match rows with
  | [] => []
  | r :: rest =>
      mkRecommendation (br_user_id r) (br_location_id r) start (br_score r)
        (br_taste_score r) (br_trend_score r) (br_hidden_gem_score r)
        (br_quality_score r) (br_weights r)
      :: add_rank (start + 1) rest
  end.

(** The body of the loop over [candidate_map.items()]. *)
Definition user_recommendations (locations : list Location)
    (taste_scores : list TasteRow) (seen_locations : list (string * list Z))
    (hist_lookup : list (string * Z)) (config : PipelineConfig)
    (entry : string * list Z) : list Recommendation :=
  let user_id := fst entry in
  let candidate_ids := snd entry in
  let history_size := history_size_of hist_lookup user_id candidate_ids in
  let weights := _adaptive_weights (recommendation_weights config) history_size in
  let seen := bucket_of seen_locations user_id in
  let rows := flat_map (candidate_row locations taste_scores weights seen user_id)
                       candidate_ids in
  let rows := sort_by (fun a b => Rleb (br_score b) (br_score a)) rows in
  add_rank 1 (head (top_k_per_user config) rows).

(** The candidate map built by [build_recommendations]. *)
Definition candidate_map_of (locations : list Location) (user_tags : list UserTag)
    (location_tags : list LocationTag) (user_history : list UserHistory)
    (user_actions : list UserAction) : list (string * list Z) :=
  let taste_scores := _taste_contributions user_tags location_tags in
  let top_trend_ids := top_ids popularity_score locations in
  let top_hidden_ids := top_ids hidden_gem_score locations in
  let user_ids := map ut_user_id user_tags ++ map uh_user_id user_history
                  ++ map ua_user_id user_actions in
  _candidate_sets taste_scores top_trend_ids top_hidden_ids
    (sort_by String.leb (dedup String.eqb user_ids)).

(** [hist_lookup]. *)
Definition hist_lookup_of (user_history : list UserHistory) : list (string * Z) :=
  to_dict String.eqb (map (fun h => (uh_user_id h, uh_n_actions h)) user_history).

Definition build_recommendations (locations : list Location)
    (user_tags : list UserTag) (location_tags : list LocationTag)
    (user_history : list UserHistory) (user_actions : list UserAction)
    (config : PipelineConfig) : list Recommendation :=
  let taste_scores := _taste_contributions user_tags location_tags in
  let candidate_map :=
    candidate_map_of locations user_tags location_tags user_history user_actions in
  let seen_locations := _user_seen_locations user_actions locations in
  let hist_lookup := hist_lookup_of user_history in
  flat_map (user_recommendations locations taste_scores seen_locations hist_lookup config)
           candidate_map.

End Blend.

End Blender.

(* ================================================================== *)
(** * The pipeline core ([pinit/pipeline.py]) *)
(* ================================================================== *)

Module Pipeline.

Section Run.

(** The iteration order of a set of strings (see the blender). *)
Variable set_iter : list string -> list string.

(** The draws of the seeded generator (see the synthesis of the log). *)
Variable rng : nat -> string * Z.

(** The successive clock readings of the run: one for each synthesized
    row, then the one of the weighting of the actions. *)
Variable clock : nat -> R.

(** The tables written by [run_pipeline] that are computed from the action
    log: the affinities, the history summary and the recommendations. The
    inventory and its tag evidence are taken as loaded; [user_actions] is
    the log read from the input file and [has_created_at] tells whether it
    has a [created_at] column (a synthetic log has one). *)
Definition run_pipeline (has_created_at : bool)
    (locations : list Location) (location_tags : list LocationTag)
    (user_actions : list UserAction) (config : Blender.PipelineConfig)
    : list UserTag * list UserHistory * list Blender.Recommendation :=
  let '(user_actions, synthetic) :=
    UserProfiles.ensure_user_actions rng clock user_actions locations location_tags
      (Blender.synthetic_users config) in
  let now := clock (if synthetic then length user_actions else O) in
  let '(user_tags, user_history) :=
    UserProfiles.build_user_tag_affinities now (has_created_at || synthetic)
      user_actions location_tags locations in
  (user_tags, user_history,
   Blender.build_recommendations set_iter locations user_tags location_tags
     user_history user_actions config).

End Run.

End Pipeline.

(* ================================================================== *)

(** * Vocabulary of the properties, and the examples they are checked on *)

(* ================================================================== *)

Section ProximalVocabulary.
Import Proximal.

(** The longitude, in degrees, of the point of the equator at great-circle
    distance [d] km east of longitude 0. *)
Definition lon_at (d : R) : R := d * 180 / (6371 * PI).

(** A venue on the equator at great-circle distance [d] km from (0, 0). *)
Definition equator_venue (id : Z) (d : R) : Location :=
  mkLocation id ""%string (Some 0) (Some (lon_at d)) None None 0 0 0.

(** The number of locations within a radius. *)
Definition count_within (lat0 lon0 : R) (locations : list Location) (radius : R) : nat :=
  length (filter (fun l => within radius (distance_of lat0 lon0 l)) locations).

(** Each radius of a trace is three times the one before it. *)
Fixpoint tripling (trace : list R) : Prop :=
  match trace with
  | r :: ((r' :: _) as rest) => r' = r * 3 /\ tripling rest
  | _ => True
  end.

(** The configuration of a recursive call. *)
Definition widened (config : ProximalConfig) : ProximalConfig :=
  mkProximalConfig (radius_km config * 3) (min_results config) (max_results config)
    (taste_weight config) (proximity_weight config) (quality_weight config).

(** The recursive call made by the invocation on a configuration, if it
    makes one: the configuration it passes on. *)
Definition recursive_call (user_id : string) (center_lat center_lon : R)
    (locations : list Location) (user_tags : list UserTag)
    (location_tags : list LocationTag) (config : ProximalConfig)
    : option ProximalConfig :=
  let nearby := nearby_rows center_lat center_lon locations config in
  if is_empty nearby then None
  else
    let nearby_copy := ranked_rows user_id user_tags location_tags config nearby in
    expansion center_lat center_lon locations config nearby nearby_copy
      (head (max_results config) nearby_copy).

(** No venue within 2 km of the centre, three within 4 km. *)
Definition example_locations : list Location :=
  [equator_venue 1 2.5; equator_venue 2 3; equator_venue 3 3.5].

(** A requested radius of 2 km, at least 5 and at most 50 results, the
    default weights. *)
Definition example_config : ProximalConfig := mkProximalConfig 2 5 50 0.2 0.6 0.2.

(** One venue at 1 km, one at 5 km, one at 17 km. *)
Definition sparse_locations : list Location :=
  [equator_venue 1 1; equator_venue 2 5; equator_venue 3 17].

(** The same request on the sparse inventory. *)
Definition sparse_config : ProximalConfig := mkProximalConfig 2 5 50 0.2 0.6 0.2.

End ProximalVocabulary.

Section UserProfilesVocabulary.
Import UserProfiles.

(** The per-action-type weight as a case analysis on the action type: the
    six entries of the weight table, 0 for any other type. *)
Definition table_weight (action_type : string) : R :=
  if String.eqb action_type "save" then 3.0
  else if String.eqb action_type "like" then 2.0
  else if String.eqb action_type "share_to_bubble" then 2.5
  else if String.eqb action_type "detail_view" then 0.5
  else if String.eqb action_type "impression" then 0.1
  else if String.eqb action_type "dismiss" then -1.5
  else 0.

(** The accumulated weighted sums ([agg]) of a run: one row per (user, tag). *)
Definition accumulated (now : R) (has_created_at : bool)
    (user_actions : list UserAction) (location_tags : list LocationTag)
    (locations : list Location) : list (Key * R) :=
  aggregate
    (merge_actions
       (_apply_action_weights now has_created_at (resolve_actions locations user_actions))
       location_tags).

(** The maximum accumulated sum of a user, if the user has any. *)
Definition user_max (agg : list (Key * R)) (u : string) : option R :=
  match filter (fun r => String.eqb (key_user (fst r)) u) agg with
  | [] => None
  | first :: rest => Some (list_max (snd first) (map snd rest))
  end.

(** An inventory of one venue, tagged "italian" (tag 1 of the catalog) by
    the cuisine rule, at confidence 92. *)
Definition italian_venue : list Location :=
  [mkLocation 1 "p1" None None None None 0 0 0].

Definition italian_tags : list LocationTag := [mkLocationTag 1 1 "italian" 92].

(** A log in which user "u" dismissed the venue at time 0. *)
Definition dismiss_log : list UserAction :=
  [mkUserAction "u" "p1" "dismiss" (Some 0)].

(** A log in which user "u" liked the venue at time 0. *)
Definition like_log : list UserAction := [mkUserAction "u" "p1" "like" (Some 0)].

(** Two actions that differ at most by their timestamps. *)
Definition same_event (a b : UserAction) : Prop :=
  ua_user_id a = ua_user_id b /\ ua_place_id a = ua_place_id b
  /\ ua_action a = ua_action b.

(** Two resolved actions that differ at most by their timestamps. *)
Definition same_resolved (p q : UserAction * Z) : Prop :=
  same_event (fst p) (fst q) /\ snd p = snd q.

(** Two weighted actions that differ at most by their weights. *)
Definition same_weighted (a b : WeightedAction) : Prop :=
  wa_user_id a = wa_user_id b /\ wa_action a = wa_action b
  /\ wa_location_id a = wa_location_id b.

(** A clock that reads [t] at every reading. *)
Definition at_instant (t : R) : nat -> R := fun _ => t.

(** A clock that advances by [step] seconds from one reading to the
    next. *)
Definition ticking (step : R) : nat -> R := fun k => INR k * step.

(** A generator whose every draw is a save made today. *)
Definition constant_draws : nat -> string * Z := fun _ => ("save"%string, 0%Z).

(** The default [RecommendationWeights] and [PipelineConfig]. *)
Definition default_weights : RecommendationWeights :=
  mkRecommendationWeights 0.5 0.15 0.2 0.15 0.0 0.0.

Definition default_pipeline_config : Blender.PipelineConfig :=
  Blender.mkPipelineConfig default_weights true 30.

End UserProfilesVocabulary.

Section TaggingVocabulary.
Import Tagging.

(** Two English reviews of one venue by two authors. *)
Definition sample_reviews : list Review :=
  [ mkReview 1 "en" "ann" "Such a COZY little place";
    mkReview 1 "en" "bob" "Cosy, and romantic too" ].

(** The default [ReviewTagConfig]. *)
Definition default_review_config : ReviewTagConfig := mkReviewTagConfig 2 3 true 20.0 100.0.

(** The hits of the review table, in the order the loop meets them: the
    group key and the author of each (review, tag) hit. *)
Definition hit_events (reviews : list Review) (config : ReviewTagConfig)
    : list (GroupKey * string) :=
  flat_map (fun row =>
              map (fun tag_text =>
                     ((rv_location_id row, tag_text), author_or_anon (rv_author_name row)))
                  (found_tags (lower (rv_text row))))
           (if english_only config
            then filter (fun r => String.prefix "en" (rv_language r)) reviews
            else reviews).

(** The entry of a key in [grouped], the entry of [setdefault] when the key
    is absent. *)
Definition info_of (grouped : list (GroupKey * GroupInfo)) (key : GroupKey) : GroupInfo :=
  match dict_get group_key_eqb key grouped with
  | Some e => e
  | None => mkGroupInfo [] 0
  end.

(** One hit recorded in [grouped]. *)
Definition record_hit (grouped : list (GroupKey * GroupInfo)) (ev : GroupKey * string)
    : list (GroupKey * GroupInfo) :=
  dict_set group_key_eqb (fst ev)
    (mkGroupInfo (author_add (snd ev) (authors (info_of grouped (fst ev))))
                 (mentions (info_of grouped (fst ev)) + 1))
    grouped.

(** The number of hits of a key. *)
Definition hit_count (events : list (GroupKey * string)) (key : GroupKey) : Z :=
  len (filter (fun ev => group_key_eqb (fst ev) key) events).

End TaggingVocabulary.

Section HiddenGemsVocabulary.
Import HiddenGems.

(** The min-max scaled value of [v] within the series [values]: 0 when the
    series is degenerate (its extremes are close). *)
Definition min_max (values : list R) (v : R) : R :=
  match values with
  | [] => 0
  | x :: rest =>
      if isclose (list_min x rest) (list_max x rest) then 0
      else (v - list_min x rest) / (list_max x rest - list_min x rest)
  end.

(** The review-count confidence factor of a venue with [count] reviews
    among the venues of the model frame. *)
Definition review_confidence {F : Type} (model_df : list (ModelRow F)) (count : R) : R :=
  0.35 + 0.65 * min_max (map (fun r => log1p (mr_user_ratings_total r)) model_df)
                        (log1p count).

(** A frame of fifty venues rated 4.8 with 5 reviews each, and a regression
    that expects 4.0 everywhere. *)
Definition fifty_small_venues : list (ModelRow unit) := repeat (mkModelRow unit 4.8 5 tt) 50.

Definition flat_fit (df : list (ModelRow unit)) : option (list R) :=
  Some (map (fun _ => 4.0) df).

End HiddenGemsVocabulary.

Section BlenderVocabulary.
Import Blender.

(** The base weights divided by their sum, left as they are when the sum
    is 0. *)
Definition normalized (w : RecommendationWeights) : RecommendationWeights :=
  if Reqb (weights_total w) 0 then w
  else mkRecommendationWeights
         (taste w / weights_total w) (trend_app w / weights_total w)
         (hidden_gems w / weights_total w) (quality w / weights_total w)
         (friend w / weights_total w) (bubble w / weights_total w).

(** The weights after the cold-start adjustment, before renormalisation:
    the taste weight scaled by [history_size / 5], the removed mass split
    60/40 between trend and quality. *)
Definition cold_adjusted (base : RecommendationWeights) (history_size : Z)
    : RecommendationWeights :=
  let removed := taste base - taste base * (IZR history_size / 5) in
  mkRecommendationWeights
    (taste base * (IZR history_size / 5))
    (trend_app base + 0.6 * removed)
    (hidden_gems base)
    (quality base + 0.4 * removed)
    (friend base)
    (bubble base).

(** A candidate set of twenty venues. *)
Definition twenty_candidates : list Z :=
  [1; 2; 3; 4; 5; 6; 7; 8; 9; 10; 11; 12; 13; 14; 15; 16; 17; 18; 19; 20]%Z.

(** One step of the loop of [_user_seen_locations]. *)
Definition seen_step (grouped : list (string * list Z)) (row : UserAction * Z)
    : list (string * list Z) :=
  dict_set String.eqb (ua_user_id (fst row))
    (set_add (snd row) (bucket_of grouped (ua_user_id (fst row)))) grouped.

(** Two venues, the first of which the user has liked. *)
Definition two_venues : list Location :=
  [ mkLocation 1 "p1" None None None None 1 0 1;
    mkLocation 2 "p2" None None None None 0 0 0 ].

End BlenderVocabulary.

Section ProximalFrameVocabulary.
Import Proximal.

(** The ranks of a result frame count up from [start]. *)
Fixpoint ranked_from (start : Z) (rows : list Recommendation) : Prop :=
  match rows with
  | [] => True
  | r :: rest => rank r = start /\ ranked_from (start + 1) rest
  end.

(** The final scores of a result frame never increase down the frame. *)
Definition by_descending_score (rows : list Recommendation) : Prop :=
  StronglySorted (fun a b => final_score b <= final_score a) rows.

End ProximalFrameVocabulary.

Section UserProfilesFurtherVocabulary.
Import UserProfiles.

(** The actions of a log that enter the aggregation: those the join with
    the inventory resolves and whose weight is not zero. *)
Definition kept_actions (now : R) (has_created_at : bool)
    (user_actions : list UserAction) (locations : list Location) : list WeightedAction :=
  _apply_action_weights now has_created_at (resolve_actions locations user_actions).

(** The venue of the action is in the inventory. *)
Definition known_place (locations : list Location) (a : UserAction) : bool :=
  match dict_get String.eqb (ua_place_id a) (place_to_location locations) with
  | Some _ => true
  | None => false
  end.

(** The lower-cased type of the action is a key of the weight table. *)
Definition in_weight_table (a : UserAction) : bool :=
  match dict_get String.eqb (lower (ua_action a)) DEFAULT_ACTION_WEIGHTS with
  | Some _ => true
  | None => false
  end.

(** The (user, tag id, tag text) key of an affinity row. *)
Definition affinity_key (r : UserTag) : Key := (ut_user_id r, ut_tag_id r, ut_tag_text r).

(** The rows of one user in an affinity table. *)
Definition rows_of_user (u : string) (table : list UserTag) : list UserTag :=
  filter (fun r => String.eqb (ut_user_id r) u) table.

End UserProfilesFurtherVocabulary.

Section BlenderFurtherVocabulary.
Import Blender.

(** No weight of the vector is negative. *)
Definition weights_nonneg (w : RecommendationWeights) : Prop :=
  0 <= taste w /\ 0 <= trend_app w /\ 0 <= hidden_gems w
  /\ 0 <= quality w /\ 0 <= friend w /\ 0 <= bubble w.

(** Every weight of the vector lies between 0 and 1. *)
Definition weights_in_unit (w : RecommendationWeights) : Prop :=
  0 <= taste w <= 1 /\ 0 <= trend_app w <= 1 /\ 0 <= hidden_gems w <= 1
  /\ 0 <= quality w <= 1 /\ 0 <= friend w <= 1 /\ 0 <= bubble w <= 1.

(** One step of a grouping loop,
    [grouped.setdefault(user, set()).add(id)], for the row [x] whose user
    is [ku x] and whose id is [kv x]. *)
Definition group_step {A : Type} (ku : A -> string) (kv : A -> Z)
    (c : list (string * list Z)) (x : A) : list (string * list Z) :=
  dict_set String.eqb (ku x) (set_add (kv x) (bucket_of c (ku x))) c.

(** One step of the second loop of [_candidate_sets]: the bucket of the
    user takes the popular and the hidden-gem venues. *)
Definition top_step (top_trend top_hidden : list Z)
    (c : list (string * list Z)) (user_id : string) : list (string * list Z) :=
  dict_set String.eqb user_id
    (set_update (set_update (bucket_of c user_id) top_trend) top_hidden) c.

(** The user has a row in the taste frame. *)
Definition has_taste_row (taste_scores : list TasteRow) (u : string) : Prop :=
  exists row, In row taste_scores /\ ts_user_id row = u.

(** The (user, location) key of a taste row. *)
Definition taste_key (r : TasteRow) : TasteKey := (ts_user_id r, ts_location_id r).

(** The frame [merged] of [_taste_contributions]: the (user, location) key
    and the component of every pair of an affinity and a piece of evidence
    on the same tag. *)
Definition taste_merge (user_tags : list UserTag) (location_tags : list LocationTag)
    : list (TasteKey * R) :=
  flat_map (fun u =>
    map (fun t => ((ut_user_id u, lt_location_id t),
                   (ut_score u / 100.0) * (lt_score t / 100.0)))
        (filter (fun t => Z.eqb (ut_tag_id u) (lt_tag_id t)) location_tags))
    user_tags.

(** The components of one user and one venue, read off the two tables: one
    for every affinity of the user and every piece of the venue's evidence
    on the same tag. *)
Definition taste_components (user_tags : list UserTag) (location_tags : list LocationTag)
    (u : string) (loc : Z) : list R :=
  flat_map (fun ut =>
    if String.eqb (ut_user_id ut) u
    then map (fun t => (ut_score ut / 100.0) * (lt_score t / 100.0))
             (filter (fun t => Z.eqb (ut_tag_id ut) (lt_tag_id t)
                               && Z.eqb (lt_location_id t) loc)
                     location_tags)
    else [])
    user_tags.

(** The rows of one user in the output frame. *)
Definition rows_for (u : string) (frame : list Recommendation) : list Recommendation :=
  filter (fun r => String.eqb (br_user_id r) u) frame.

(** The ranks of the rows count up from [start]. *)
Fixpoint ranks_from (start : Z) (rows : list Recommendation) : Prop :=
  match rows with
  | [] => True
  | r :: rest => br_rank r = start /\ ranks_from (start + 1) rest
  end.

(** A set iteration order that visits the elements in the order given. *)
Definition in_given_order : list string -> list string := fun l => l.

(** Two users with one affinity each, and the evidence of two venues. *)
Definition two_user_tags : list UserTag :=
  [mkUserTag "ann" 1 "italian" 100 2; mkUserTag "bob" 2 "indian" 100 2].

Definition two_venue_tags : list LocationTag :=
  [mkLocationTag 1 1 "italian" 92; mkLocationTag 2 2 "indian" 92].

End BlenderFurtherVocabulary.

(* ================================================================== *)
(** * Tag catalog ([pinit/tag_taxonomy.py]) *)
(* ================================================================== *)

Module TagTaxonomy.

Open Scope string_scope.

(** [TagDefinition], without the prompt and the colour. *)
Record TagDefinition := mkTagDefinition {
  td_text : string;
  td_tag_type : string
}.

Definition _make_def (text tag_type : string) : TagDefinition :=
  mkTagDefinition text tag_type.

Definition _cuisine_tags : list TagDefinition :=
  map (fun text => _make_def text "CUISINE")
    [ "italian"; "indian"; "japanese"; "korean"; "thai"; "chinese"; "vietnamese";
      "mexican"; "mediterranean"; "british"; "pub"; "bakery"; "cafe"; "seafood";
      "steakhouse"; "vegan_vegetarian" ].

Definition _dietary_tags : list TagDefinition :=
  map (fun text => _make_def text "DIETARY")
    [ "vegetarian_friendly"; "vegan_friendly"; "halal_friendly"; "gluten_free_options" ].

Definition _vibe_tags : list TagDefinition :=
  map (fun text => _make_def text "VIBE")
    [ "cozy"; "romantic"; "lively"; "quiet"; "trendy"; "casual"; "formal";
      "family_friendly" ].

Definition _occasion_tags : list TagDefinition :=
  map (fun text => _make_def text "OCCASION")
    [ "date_night"; "brunch"; "quick_bite"; "group_hang"; "business_meeting";
      "solo_friendly" ].

Definition _drinks_tags : list TagDefinition :=
  map (fun text => _make_def text "DRINKS") [ "cocktails"; "wine_bar"; "craft_beer" ].

Definition _schedule_tags : list TagDefinition :=
  map (fun text => _make_def text "SCHEDULE") [ "open_late"; "open_early"; "sunday_open" ].

Definition _value_tags : list TagDefinition :=
  [ _make_def "great_value" "VALUE"; _make_def "pricey" "VALUE";
    _make_def "hidden_gem" "VALUE" ].

Definition _category_tags : list TagDefinition :=
  map (fun text => _make_def text "CATEGORY") [ "restaurant"; "cafe"; "bar"; "takeaway" ].

Definition iter_tag_definitions : list TagDefinition :=
  fold_left (fun defs builder => (defs ++ builder)%list)
    [ _cuisine_tags; _dietary_tags; _vibe_tags; _occasion_tags; _drinks_tags;
      _schedule_tags; _value_tags; _category_tags ]
    [].

(** [tag_dataframe]: the definitions with their ids, [enumerate(defs, start=1)]. *)
Definition tag_dataframe : list (Z * TagDefinition) :=
  combine (map Z.of_nat (seq 1 (length iter_tag_definitions))) iter_tag_definitions.

Close Scope string_scope.

End TagTaxonomy.

(* ================================================================== *)
(** * Rule-based tags and the join with the catalog ([pinit/tagging.py]) *)
(* ================================================================== *)

Module TaggingRules.

Open Scope string_scope.

Definition CATEGORY_TYPES : list (string * string) :=
  [ ("restaurant", "restaurant");
    ("meal_delivery", "takeaway");
    ("meal_takeaway", "takeaway");
    ("cafe", "cafe");
    ("bar", "bar") ].

Close Scope string_scope.

(** [math.isclose] with its default tolerances. *)
Definition isclose (a b : R) : bool :=
  Rleb (Rabs (a - b)) (Rmax (1e-9 * Rmax (Rabs a) (Rabs b)) 0.0).

(** [_min_max_scale] on a series without missing cells. *)
Definition _min_max_scale (values : list R) : list R :=
  match values with
  | [] => []
  | x :: rest =>
      let v_min := list_min x rest in
      let v_max := list_max x rest in
      if isclose v_min v_max then map (fun _ => 0) values
      else map (fun v => (v - v_min) / (v_max - v_min)) values
  end.

(** [_price_bucket]; [None] is a missing or NaN price level. *)
Definition _price_bucket (price_level : option R) : string :=
  match price_level with
  | None => "unknown"
  | Some p =>
      if Rleb p 1 then "value"
      else if Reqb p 2 then "mid"
      else if Rleb 3 p then "premium"
      else "unknown"
  end.

(** A row of the venue frame, with the columns [_deterministic_tags] reads. *)
Record LocationRow := mkLocationRow {
  lr_location_id : Z;
  lr_cuisine_primary : string;
  lr_types_list : list string;
  lr_price_level : option R;
  lr_price_bucket : string;
  lr_is_open_late : bool;
  lr_is_open_early : bool;
  lr_is_sunday_open : bool
}.

(** The metadata dictionary of a record, before its serialisation. *)
Inductive Metadata :=
| MetaField (field : string)
| MetaType (type : string)
| MetaPriceLevel (price_level : option R)
| MetaEmpty
| MetaReview (mentions unique_authors : Z).

(** A record appended by [_add_tag_record]. *)
Record TagRow := mkTagRow {
  row_location_id : Z;
  row_tag_text : string;
  row_score : R;
  row_source : string;
  row_metadata : Metadata
}.

Definition _add_tag_record (records : list TagRow) (location_id : Z) (tag_text : string)
    (score : R) (source : string) (metadata : Metadata) : list TagRow :=
  records ++ [mkTagRow location_id tag_text score source metadata].

(** The body of the loop of [_deterministic_tags] over the rows. *)
Definition row_tags (records : list TagRow) (row : LocationRow) : list TagRow :=
  let records :=
    if negb (String.eqb (lr_cuisine_primary row) EmptyString)
       && negb (String.eqb (lr_cuisine_primary row) "unknown")
    then _add_tag_record records (lr_location_id row) (lr_cuisine_primary row) 92
           "cuisine_detected" (MetaField "cuisine_primary")
    else records in
  let records :=
    fold_left (fun records t =>
                 match dict_get String.eqb t CATEGORY_TYPES with
                 | Some tag_text =>
                     _add_tag_record records (lr_location_id row) tag_text 75
                       "google_types" (MetaType t)
                 | None => records
                 end)
              (lr_types_list row) records in
  let records :=
    if String.eqb (lr_price_bucket row) "value"
    then _add_tag_record records (lr_location_id row) "great_value" 80 "price_level"
           (MetaPriceLevel (lr_price_level row))
    else if String.eqb (lr_price_bucket row) "premium"
    then _add_tag_record records (lr_location_id row) "pricey" 80 "price_level"
           (MetaPriceLevel (lr_price_level row))
    else records in
  let records :=
    if lr_is_open_late row
    then _add_tag_record records (lr_location_id row) "open_late" 70 "opening_hours"
           MetaEmpty
    else records in
  let records :=
    if lr_is_open_early row
    then _add_tag_record records (lr_location_id row) "open_early" 70 "opening_hours"
           MetaEmpty
    else records in
  if lr_is_sunday_open row
  then _add_tag_record records (lr_location_id row) "sunday_open" 65 "opening_hours"
         MetaEmpty
  else records.

Definition _deterministic_tags (df : list LocationRow) : list TagRow :=
  fold_left row_tags df [].

(** A review-derived record as a row of the record table. *)
Definition review_row (r : Tagging.TagRecord) : TagRow :=
  mkTagRow (Tagging.tr_location_id r) (Tagging.tr_tag_text r) (Tagging.tr_score r)
    (Tagging.tr_source r)
    (MetaReview (Tagging.tr_mentions r) (Tagging.tr_unique_authors r)).

(** A row of the frame [build_location_tags] returns. *)
Record LocationTagRow := mkLocationTagRow {
  ltr_location_id : Z;
  ltr_tag_id : Z;
  ltr_tag_text : string;
  ltr_score : R;
  ltr_source : string;
  ltr_metadata : Metadata
}.

(** [build_location_tags]: the records joined with the catalog on the tag
    text (an inner merge, which keeps the order of the records and, for a
    record, the order of the catalog). *)
Definition build_location_tags (locations : list LocationRow)
    (reviews : list Tagging.Review) (config : ReviewTagConfig) : list LocationTagRow :=
  let deterministic := _deterministic_tags locations in
  let review_based := map review_row (Tagging._review_tag_records reviews config) in
  let records := deterministic ++ review_based in
  let tags_df := TagTaxonomy.tag_dataframe in
  if is_empty records then []
  else
    flat_map (fun rec =>
      map (fun tag =>
             mkLocationTagRow (row_location_id rec) (fst tag) (row_tag_text rec)
               (row_score rec) (row_source rec) (row_metadata rec))
          (filter (fun tag => String.eqb (row_tag_text rec)
                                (TagTaxonomy.td_text (snd tag)))
                  tags_df))
      records.

End TaggingRules.

Section TaggingRulesVocabulary.
Import TaggingRules.

(** The records of one row of the venue frame. *)
Definition records_of_row (row : LocationRow) : list TagRow := _deterministic_tags [row].

(** The catalog ids of a tag text. *)
Definition catalog_ids (tag_text : string) : list Z :=
  map fst (filter (fun tag => String.eqb tag_text (TagTaxonomy.td_text (snd tag)))
                  TagTaxonomy.tag_dataframe).

(** The rows one record contributes to the frame of [build_location_tags]. *)
Definition rows_of_record (rec : TagRow) : list LocationTagRow :=
  map (fun tag_id =>
         mkLocationTagRow (row_location_id rec) tag_id (row_tag_text rec)
           (row_score rec) (row_source rec) (row_metadata rec))
      (catalog_ids (row_tag_text rec)).

End TaggingRulesVocabulary.

(* ================================================================== *)
(** * Hidden-gem scores of the venue frame ([pinit/hidden_gems.py]) *)
(* ================================================================== *)

Module HiddenGemScores.
Import HiddenGems.

Definition DEFAULT_MIN_REVIEWS : Z := 40.

(** [np.clip(y, lo, hi)] on one cell. *)
Definition clip (y lo hi : R) : R := Rmin (Rmax y lo) hi.

Definition _rating_transform (y_in : list R) : list R :=
  map (fun y =>
         let y_clamped := clip y 1.01 4.99 in
         let y_norm := (y_clamped - 1) / 4.0 in
         ln (y_norm / (1 - y_norm)))
      y_in.

Definition _rating_inverse_transform (z : list R) : list R :=
  map (fun z =>
         let y_norm := 1 / (1 + exp (- z)) in
         y_norm * 4.0 + 1.0)
      z.

(** A row of the venue frame, with the columns the scoring reads; [None]
    is a missing cell. The columns that only the regression reads are kept
    abstract in [vr_features]. *)
Record VenueRow {F : Type} := mkVenueRow {
  vr_rating : option R;
  vr_user_ratings_total : option R;
  vr_residual_popularity : option R;
  vr_features : F
}.
Arguments VenueRow : clear implicits.

(** The columns [add_hidden_gem_scores] adds to a row; [hidden_gem_signal]
    is [None] where the frame has no such column. *)
Record ScoredRow := mkScoredRow {
  hidden_gem_score : R;
  hidden_gem_source : string;
  expected_rating : option R;
  hype_residual : option R;
  hidden_gem_signal : option R
}.

(** [full.loc[part.index] = part] read at the label [i]: the cell of the
    part with that label, the cell of the full series where the part has
    none. *)
Definition at_index {A : Type} (default : A) (index : list nat) (values : list A)
    (i : nat) : A :=
  match dict_get Nat.eqb i (combine index values) with
  | Some v => v
  | None => default
  end.

(** [float(series.max()) <= 0]; the maximum of an empty series is NaN,
    which compares false. *)
Definition max_le_zero (series : list R) : bool :=
  match series with
  | [] => false
  | x :: rest => Rleb (list_max x rest) 0
  end.

Section AddHiddenGemScores.
Context {F : Type}.

Variable _SKLEARN_AVAILABLE : bool.
Variable fit_predict : list (ModelRow F) -> option (list R).

(** [_prepare_model_frame]: the rows with a rating, each under the label
    it has in the venue frame (its position, for the default index). *)
Definition _prepare_model_frame (locations : list (VenueRow F))
    : list (nat * ModelRow F) :=
  flat_map (fun ir =>
              match vr_rating (snd ir) with
              | Some y =>
                  [(fst ir,
                    mkModelRow F y (fillna 0 (vr_user_ratings_total (snd ir)))
                      (vr_features (snd ir)))]
              | None => []
              end)
           (combine (seq 0 (length locations)) locations).

(** [_legacy_hidden_gem]; [has_residual_popularity] tells whether the frame
    has the column. *)
Definition _legacy_hidden_gem (has_residual_popularity : bool)
    (df : list (VenueRow F)) : list R :=
  if negb has_residual_popularity then map (fun _ => 0) df
  else
    let legacy := map (fun r => Rabs (Rmin (fillna 0 (vr_residual_popularity r)) 0)) df in
    _min_max_scale legacy.

(** The new columns of the frame, row by row. *)
Definition with_columns (scores : list R) (source : string)
    (expected hype signal : nat -> option R) : list ScoredRow :=
  map (fun p => mkScoredRow (snd p) source (expected (fst p)) (hype (fst p))
                  (signal (fst p)))
      (combine (seq 0 (length scores)) scores).

Definition add_hidden_gem_scores (has_residual_popularity : bool)
    (locations : list (VenueRow F)) (min_reviews : Z) : list ScoredRow :=
  let df := locations in
  let model_df := _prepare_model_frame df in
  let result := _fit_hype_model _SKLEARN_AVAILABLE fit_predict (map snd model_df)
                  min_reviews in
  match result with
  | None =>
      with_columns (_legacy_hidden_gem has_residual_popularity df) "popularity_residual"
        (fun _ => None) (fun _ => None) (fun _ => None)
  | Some (exp, resid, signal) =>
      let index := map fst model_df in
      let expected_rating := at_index None index (map Some exp) in
      let hype_residual := at_index None index (map Some resid) in
      let signal_full := map (at_index 0.0 index signal) (seq 0 (length df)) in
      if max_le_zero signal_full
      then with_columns (_legacy_hidden_gem has_residual_popularity df)
             "popularity_residual" expected_rating hype_residual (fun _ => None)
      else with_columns (_min_max_scale (map (fun s => Rmax s 0) signal_full))
             "rating_model" expected_rating hype_residual
             (fun i => Some (at_index 0.0 index signal i))
  end.

End AddHiddenGemScores.

End HiddenGemScores.

Section HiddenGemScoresVocabulary.
Import HiddenGems HiddenGemScores.

(** What a min-max scaling with the test [close] of its extremes does to
    any series: the length is kept, the results lie between 0 and 1 and are
    in the order of the cells, a smallest cell is sent to 0; when the
    smallest and the largest cell are [close] every cell is sent to 0, and
    otherwise a largest cell is sent to 1; a constant series is sent to
    zeros. *)
Definition min_max_scaling (close : R -> R -> bool) (scale : list R -> list R) : Prop :=
  forall values,
    length (scale values) = length values
    /\ Forall (fun s => 0 <= s <= 1) (scale values)
    /\ (forall i j v w sv sw,
          nth_error values i = Some v -> nth_error values j = Some w ->
          nth_error (scale values) i = Some sv -> nth_error (scale values) j = Some sw ->
          v <= w -> sv <= sw)
    /\ (forall i v,
          nth_error values i = Some v -> (forall w, In w values -> v <= w) ->
          nth_error (scale values) i = Some 0)
    /\ (forall lo hi,
          In lo values -> In hi values -> (forall w, In w values -> lo <= w <= hi) ->
          if close lo hi
          then Forall (fun s => s = 0) (scale values)
          else forall i, nth_error values i = Some hi ->
                         nth_error (scale values) i = Some 1)
    /\ ((forall v w, In v values -> In w values -> v = w) ->
        Forall (fun s => s = 0) (scale values)).

(** The scaling for a test [close] of whether the extremes coincide. *)
Definition scale_with (close : R -> R -> bool) (values : list R) : list R :=
  match values with
  | [] => []
  | x :: rest =>
      if close (list_min x rest) (list_max x rest) then map (fun _ => 0) values
      else map (fun v => (v - list_min x rest) / (list_max x rest - list_min x rest)) values
  end.

(** The rows with a rating among the rows of a frame labelled from [a] on;
    [_prepare_model_frame] is the case of the label 0. *)
Definition rated_from {F : Type} (a : nat) (locations : list (VenueRow F))
    : list (nat * ModelRow F) :=
  flat_map (fun ir =>
              match vr_rating (snd ir) with
              | Some y =>
                  [(fst ir,
                    mkModelRow F y (fillna 0 (vr_user_ratings_total (snd ir)))
                      (vr_features (snd ir)))]
              | None => []
              end)
           (combine (seq a (length locations)) locations).

(** A frame of sixty venues rated 4.8 with 50 reviews each, followed by one
    venue without a rating. *)
Definition sixty_rated_venues : list (VenueRow unit) :=
  repeat (mkVenueRow unit (Some 4.8) (Some 50) None tt) 60
  ++ [mkVenueRow unit None None None tt].

End HiddenGemScoresVocabulary.

(* ================================================================== *)
(** * Properties *)
(* ================================================================== *)

(** ** Comparisons, sorting and slicing *)

Lemma Rleb_true_iff (x y : R) : Rleb x y = true <-> x <= y.
Proof. unfold Rleb. destruct (Rle_dec x y); split; intros; auto; discriminate. Qed.

Lemma Rleb_false_iff (x y : R) : Rleb x y = false <-> y < x.
Proof.
  unfold Rleb. destruct (Rle_dec x y); split; intros; try discriminate; try lra; auto.
Qed.

Lemma Reqb_true_iff (x y : R) : Reqb x y = true <-> x = y.
Proof. unfold Reqb. destruct (Req_dec_T x y); split; intros; auto; discriminate. Qed.

Lemma Reqb_false_iff (x y : R) : Reqb x y = false <-> x <> y.
Proof.
  unfold Reqb. destruct (Req_dec_T x y); split; intros; auto; try discriminate.
  contradiction.
Qed.

Lemma Rleb_refl (x : R) : Rleb x x = true.
Proof. apply Rleb_true_iff. lra. Qed.

Section Sorting.
Context {A : Type} (leb : A -> A -> bool).

Lemma insert_by_perm (x : A) (l : list A) : Permutation (insert_by leb x l) (x :: l).
Proof.
  induction l as [|y l IH]; simpl.
  - apply Permutation_refl.
  - destruct (leb x y).
    + apply Permutation_refl.
    + eapply Permutation_trans; [apply perm_skip, IH | apply perm_swap].
Qed.

Lemma sort_by_perm (l : list A) : Permutation (sort_by leb l) l.
Proof.
  induction l as [|x l IH]; simpl.
  - apply perm_nil.
  - eapply Permutation_trans; [apply insert_by_perm | apply perm_skip, IH].
Qed.

Lemma sort_by_length (l : list A) : length (sort_by leb l) = length l.
Proof. apply Permutation_length, sort_by_perm. Qed.

Lemma sort_by_In (x : A) (l : list A) : In x (sort_by leb l) <-> In x l.
Proof.
  split; apply Permutation_in; [| apply Permutation_sym]; apply sort_by_perm.
Qed.

Lemma sort_by_is_empty (l : list A) : is_empty (sort_by leb l) = is_empty l.
Proof.
  pose proof (sort_by_length l) as H.
  destruct l, (sort_by leb _); simpl in *; auto; discriminate.
Qed.

Hypothesis leb_total : forall a b, leb a b = true \/ leb b a = true.
Hypothesis leb_trans : forall a b c, leb a b = true -> leb b c = true -> leb a c = true.

Lemma insert_by_sorted (x : A) (l : list A) :
  StronglySorted (fun a b => leb a b = true) l ->
  StronglySorted (fun a b => leb a b = true) (insert_by leb x l).
Proof.
  induction 1 as [|y l Hs IH Hy]; simpl.
  - constructor; constructor.
  - destruct (leb x y) eqn:E.
    + constructor; [constructor; assumption|].
      constructor; [assumption|].
      eapply Forall_impl; [| exact Hy]. intros z Hz. eapply leb_trans; eassumption.
    + constructor; [assumption|].
      assert (Hyx : leb y x = true) by (destruct (leb_total x y); congruence).
      eapply Permutation_Forall; [apply Permutation_sym, insert_by_perm|].
      constructor; assumption.
Qed.

Lemma sort_by_sorted (l : list A) :
  StronglySorted (fun a b => leb a b = true) (sort_by leb l).
Proof.
  induction l as [|x l IH]; simpl.
  - constructor.
  - apply insert_by_sorted, IH.
Qed.
End Sorting.

Lemma firstn_incl {A : Type} (n : nat) (l : list A) (x : A) :
  In x (firstn n l) -> In x l.
Proof.
  intros H. rewrite <- (firstn_skipn n l). apply in_or_app. left. exact H.
Qed.

Lemma head_In {A : Type} (n : Z) (l : list A) (x : A) : In x (head n l) -> In x l.
Proof.
  unfold head. destruct (0 <=? n)%Z; intros H; eapply firstn_incl; exact H.
Qed.

Lemma head_all {A : Type} (n : Z) (l : list A) :
  (len l <= n)%Z -> head n l = l.
Proof.
  unfold head, len. intros H.
  destruct (0 <=? n)%Z eqn:E.
  - apply firstn_all2. lia.
  - apply Z.leb_gt in E. lia.
Qed.

Lemma is_empty_length {A : Type} (l : list A) : is_empty l = (length l =? 0)%nat.
Proof. destruct l; reflexivity. Qed.

(** Dictionaries. *)
Section DictFacts.
Context {K V : Type} (eqb : K -> K -> bool).
Hypothesis eqb_eq : forall a b, eqb a b = true <-> a = b.

Lemma dict_set_keys (k : K) (v : V) (d : list (K * V)) :
  map fst (dict_set eqb k v d)
  = if existsb (fun k' => eqb k' k) (map fst d) then map fst d else map fst d ++ [k].
Proof.
  induction d as [|[k' v'] d IH]; simpl; [reflexivity|].
  destruct (eqb k' k) eqn:E; simpl; [reflexivity|].
  rewrite IH. destruct (existsb _ (map fst d)); reflexivity.
Qed.

Lemma dict_set_NoDup (k : K) (v : V) (d : list (K * V)) :
  NoDup (map fst d) -> NoDup (map fst (dict_set eqb k v d)).
Proof.
  intros H. rewrite dict_set_keys.
  destruct (existsb _ (map fst d)) eqn:E; [exact H|].
  apply NoDup_app; [exact H | constructor; [intros [] | constructor] |].
  intros x Hx [Hk|[]]. subst x.
  assert (Ht : existsb (fun k' => eqb k' k) (map fst d) = true).
  { apply existsb_exists. exists k. split; [exact Hx | apply eqb_eq; reflexivity]. }
  congruence.
Qed.

Lemma NoDup_keys_functional (d : list (K * V)) (k : K) (v1 v2 : V) :
  NoDup (map fst d) -> In (k, v1) d -> In (k, v2) d -> v1 = v2.
Proof.
  induction d as [|[k' v'] d IH]; simpl; intros Hnd H1 H2; [contradiction|].
  inversion Hnd as [|? ? Hnotin Hnd']; subst.
  destruct H1 as [H1|H1], H2 as [H2|H2].
  - congruence.
  - inversion H1; subst. exfalso. apply Hnotin. apply in_map_iff. exists (k, v2). auto.
  - inversion H2; subst. exfalso. apply Hnotin. apply in_map_iff. exists (k, v1). auto.
  - apply IH; assumption.
Qed.
Lemma dict_get_set_same (k : K) (v : V) (d : list (K * V)) :
  dict_get eqb k (dict_set eqb k v d) = Some v.
Proof.
  assert (Hrefl : eqb k k = true) by (apply eqb_eq; reflexivity).
  induction d as [|[k' v'] d IH]; simpl.
  - rewrite Hrefl. reflexivity.
  - destruct (eqb k' k) eqn:E; simpl; rewrite E; [reflexivity | exact IH].
Qed.

Lemma dict_get_set_other (k k' : K) (v : V) (d : list (K * V)) :
  k' <> k -> dict_get eqb k' (dict_set eqb k v d) = dict_get eqb k' d.
Proof.
  intros Hne.
  assert (Hkk' : eqb k k' = false).
  { destruct (eqb k k') eqn:E; [apply eqb_eq in E; congruence | reflexivity]. }
  induction d as [|[k0 v0] d IH]; simpl.
  - rewrite Hkk'. reflexivity.
  - destruct (eqb k0 k) eqn:E; simpl.
    + apply eqb_eq in E. subst k0. rewrite Hkk'. reflexivity.
    + rewrite IH. reflexivity.
Qed.

Lemma dict_get_In (k : K) (v : V) (d : list (K * V)) :
  In (k, v) d -> NoDup (map fst d) -> dict_get eqb k d = Some v.
Proof.
  induction d as [|[k' v'] d IH]; simpl; intros Hin Hnd; [contradiction|].
  inversion Hnd as [|? ? Hnotin Hnd']; subst.
  destruct Hin as [Hin|Hin].
  - inversion Hin; subst.
    replace (eqb k k) with true by (symmetry; apply eqb_eq; reflexivity). reflexivity.
  - destruct (eqb k' k) eqn:E.
    + apply eqb_eq in E. subst k'. exfalso. apply Hnotin.
      apply in_map_iff. exists (k, v). auto.
    + apply IH; assumption.
Qed.
End DictFacts.

(* ================================================================== *)
(** ** Proximal recommender *)
(* ================================================================== *)

Section ProximalProperties.
Import Proximal.

Lemma haversine_equator (d : R) :
  0 <= d <= 6371 -> haversine_distance 0 0 0 (lon_at d) = d.
Proof.
  intros Hd. unfold haversine_distance, radians, lon_at.
  pose proof PI_RGT_0 as Hpi. pose proof PI2_1 as Hpi2.
  replace ((0 - 0) * PI / 180 / 2) with 0 by lra.
  replace (0 * PI / 180) with 0 by lra.
  replace ((d * 180 / (6371 * PI) - 0) * PI / 180 / 2) with (d / 12742) by (field; lra).
  rewrite sin_0, cos_0.
  replace (0 ^ 2 + 1 * 1 * sin (d / 12742) ^ 2) with (sin (d / 12742) ^ 2) by ring.
  assert (Hx : 0 <= d / 12742 <= 1 / 2) by (split; lra).
  rewrite sqrt_pow2 by (apply sin_ge_0; lra).
  rewrite asin_sin by lra.
  lra.
Qed.

Lemma distance_of_equator (id : Z) (d : R) :
  0 <= d <= 6371 -> distance_of 0 0 (equator_venue id d) = Some d.
Proof.
  intros H. unfold distance_of, equator_venue. simpl.
  rewrite haversine_equator by exact H. reflexivity.
Qed.

(** The rows kept by the radius filter, before they are sorted. *)
Lemma keep_within_In (radius : R) (rows : list (Location * option R)) (l : Location) (d : R) :
  In (l, d) (keep_within radius rows) <-> In (l, Some d) rows /\ d <= radius.
Proof.
  induction rows as [|[l' [d'|]] rows IH]; simpl.
  - tauto.
  - destruct (Rleb d' radius) eqn:E.
    + simpl. rewrite IH. apply Rleb_true_iff in E.
      split.
      * intros [H|H]; [inversion H; subst; auto | tauto].
      * intros [[H|H] Hd]; [inversion H; subst; auto | auto].
    + rewrite IH. apply Rleb_false_iff in E.
      split.
      * tauto.
      * intros [[H|H] Hd]; [inversion H; subst; lra | auto].
  - rewrite IH. split; [tauto|]. intros [[H|H] Hd]; [discriminate | auto].
Qed.

Lemma combine_map_In {A B : Type} (f : A -> B) (l : list A) (a : A) (b : B) :
  In (a, b) (combine l (map f l)) <-> In a l /\ f a = b.
Proof.
  induction l as [|x l IH]; simpl.
  - tauto.
  - rewrite IH. split.
    + intros [H|H]; [inversion H; subst; auto | tauto].
    + intros [[H|H] Hf]; [subst; auto | auto].
Qed.

Lemma filter_by_radius_In (lat0 lon0 : R) (locations : list Location) (radius : R)
    (l : Location) (d : R) :
  In (l, d) (filter_by_radius lat0 lon0 locations radius)
  <-> In l locations /\ distance_of lat0 lon0 l = Some d /\ d <= radius.
Proof.
  unfold filter_by_radius, calculate_distances.
  rewrite sort_by_In, keep_within_In, combine_map_In. tauto.
Qed.

Lemma keep_within_length (radius : R) (f : Location -> option R) (locations : list Location) :
  length (keep_within radius (combine locations (map f locations)))
  = length (filter (fun l => within radius (f l)) locations).
Proof.
  induction locations as [|l locations IH]; simpl; [reflexivity|].
  destruct (f l) as [d|]; simpl; [|exact IH].
  destruct (Rleb d radius); simpl; rewrite IH; reflexivity.
Qed.

Lemma filter_by_radius_length (lat0 lon0 : R) (locations : list Location) (radius : R) :
  length (filter_by_radius lat0 lon0 locations radius)
  = count_within lat0 lon0 locations radius.
Proof.
  unfold filter_by_radius, calculate_distances, count_within.
  rewrite sort_by_length. apply keep_within_length.
Qed.

Lemma count_within_le (lat0 lon0 : R) (locations : list Location) (radius : R) :
  (count_within lat0 lon0 locations radius <= length locations)%nat.
Proof. unfold count_within. apply filter_length_le. Qed.

Lemma add_rank_In (start : Z) (rows : list Recommendation) (r : Recommendation) :
  In r (add_rank start rows) ->
  exists r0, In r0 rows
    /\ rec_location_id r = rec_location_id r0
    /\ distance_km r = distance_km r0
    /\ taste_score r = taste_score r0
    /\ proximity_score r = proximity_score r0
    /\ rec_quality_score r = rec_quality_score r0
    /\ final_score r = final_score r0.
Proof.
  revert start. induction rows as [|x rows IH]; simpl; intros start H.
  - contradiction.
  - destruct H as [H|H].
    + exists x. subst r. simpl. repeat split; auto.
    + destruct (IH _ H) as [r0 [Hin Hr]]. exists r0. split; auto.
Qed.

Lemma add_rank_length (start : Z) (rows : list Recommendation) :
  length (add_rank start rows) = length rows.
Proof.
  revert start. induction rows as [|x rows IH]; simpl; intros; [reflexivity|].
  rewrite IH. reflexivity.
Qed.

Lemma ranked_rows_length (user_id : string) (user_tags : list UserTag)
    (location_tags : list LocationTag) (config : ProximalConfig) (nearby : list Nearby) :
  length (ranked_rows user_id user_tags location_tags config nearby) = length nearby.
Proof.
  unfold ranked_rows. rewrite add_rank_length, sort_by_length, length_map. reflexivity.
Qed.

(** Every scored row carries the distance of a filtered location and the
    proximity score of that distance against the configured radius. *)
Lemma ranked_rows_In (user_id : string) (user_tags : list UserTag)
    (location_tags : list LocationTag) (config : ProximalConfig) (nearby : list Nearby)
    (r : Recommendation) :
  In r (ranked_rows user_id user_tags location_tags config nearby) ->
  exists row, In row nearby
    /\ rec_location_id r = location_id (fst row)
    /\ distance_km r = snd row
    /\ proximity_score r = compute_proximity_score (snd row) (radius_km config).
Proof.
  unfold ranked_rows. intros H.
  apply add_rank_In in H. destruct H as [r0 [Hin [Hid [Hd [_ [Hp _]]]]]].
  apply sort_by_In in Hin. apply in_map_iff in Hin.
  destruct Hin as [row [Hrow Hin]]. exists row. split; [exact Hin|].
  subst r0. simpl in *. auto.
Qed.

Lemma nearby_rows_length_ge (lat0 lon0 : R) (locations : list Location)
    (config : ProximalConfig) :
  (count_within lat0 lon0 locations (radius_km config)
   <= length (nearby_rows lat0 lon0 locations config))%nat.
Proof.
  unfold nearby_rows. rewrite is_empty_length, filter_by_radius_length.
  destruct (count_within lat0 lon0 locations (radius_km config) =? 0)%nat eqn:E.
  - apply Nat.eqb_eq in E. lia.
  - rewrite filter_by_radius_length. lia.
Qed.

(** What a recursive call looks like: the radius tripled, everything else
    kept, and strictly more locations inside the tripled radius than rows
    found by the calling invocation. *)
Lemma expansion_Some (lat0 lon0 : R) (locations : list Location)
    (config config' : ProximalConfig) (nearby : list Nearby)
    (nearby_copy result : list Recommendation) :
  expansion lat0 lon0 locations config nearby nearby_copy result = Some config' ->
  config' = mkProximalConfig (radius_km config * 3) (min_results config)
              (max_results config) (taste_weight config) (proximity_weight config)
              (quality_weight config)
  /\ (length nearby < count_within lat0 lon0 locations (radius_km config * 3))%nat.
Proof.
  unfold expansion.
  destruct ((len result <? min_results config) && (len nearby_copy <? min_results config))%Z;
    [|discriminate].
  destruct (len nearby <? len (filter_by_radius lat0 lon0 locations (radius_km config * 3)))%Z
    eqn:E; [|discriminate].
  intros H. inversion H. split; [reflexivity|].
  apply Z.ltb_lt in E. unfold len in E. rewrite filter_by_radius_length in E. lia.
Qed.

Section ProximalRecursion.
Variables (user_id : string) (lat0 lon0 : R) (locations : list Location).
Variables (user_tags : list UserTag) (location_tags : list LocationTag).

Lemma build_terminates (fuel : nat) (config : ProximalConfig) :
  (length locations - count_within lat0 lon0 locations (radius_km config) < fuel)%nat ->
  exists rows,
    build_proximal_recommendations fuel user_id lat0 lon0 locations user_tags
      location_tags config = Some rows.
Proof.
  revert config. induction fuel as [|fuel IH]; intros config Hfuel; [lia|].
  simpl.
  destruct (is_empty (nearby_rows lat0 lon0 locations config)); [eexists; reflexivity|].
  destruct (expansion _ _ _ _ _ _ _) as [config'|] eqn:E; [|eexists; reflexivity].
  apply expansion_Some in E. destruct E as [-> Hlt].
  apply IH. simpl.
  pose proof (nearby_rows_length_ge lat0 lon0 locations config).
  pose proof (count_within_le lat0 lon0 locations (radius_km config * 3)).
  lia.
Qed.

Lemma radius_trace_length (fuel : nat) (config : ProximalConfig) :
  (length (radius_trace fuel lat0 lon0 locations user_id user_tags location_tags config)
   <= S (length locations - count_within lat0 lon0 locations (radius_km config)))%nat.
Proof.
  revert config. induction fuel as [|fuel IH]; intros config; simpl; [lia|].
  destruct (is_empty (nearby_rows lat0 lon0 locations config)); simpl; [lia|].
  destruct (expansion _ _ _ _ _ _ _) as [config'|] eqn:E; simpl; [|lia].
  apply expansion_Some in E. destruct E as [-> Hlt].
  specialize (IH (mkProximalConfig (radius_km config * 3) (min_results config)
                    (max_results config) (taste_weight config)
                    (proximity_weight config) (quality_weight config))).
  simpl in IH.
  pose proof (nearby_rows_length_ge lat0 lon0 locations config).
  pose proof (count_within_le lat0 lon0 locations (radius_km config * 3)).
  lia.
Qed.

Lemma radius_trace_tripling (fuel : nat) (config : ProximalConfig) :
  tripling (radius_trace fuel lat0 lon0 locations user_id user_tags location_tags config).
Proof.
  revert config. induction fuel as [|fuel IH]; intros config; simpl; [exact I|].
  destruct (is_empty (nearby_rows lat0 lon0 locations config)); [exact I|].
  destruct (expansion _ _ _ _ _ _ _) as [config'|] eqn:E; [|exact I].
  apply expansion_Some in E. destruct E as [-> _].
  specialize (IH (mkProximalConfig (radius_km config * 3) (min_results config)
                    (max_results config) (taste_weight config)
                    (proximity_weight config) (quality_weight config))).
  destruct fuel as [|fuel]; [exact I|].
  split; [reflexivity | exact IH].
Qed.
(** The rows a call returns are those of its last invocation, and they
    are scored against the configured radius of that invocation. *)
Lemma build_scored_against_last_radius (fuel : nat) (config : ProximalConfig)
    (rows : list Recommendation) :
  build_proximal_recommendations fuel user_id lat0 lon0 locations user_tags
    location_tags config = Some rows ->
  Forall (fun row =>
            proximity_score row
            = exp (-2 * distance_km row
                   / last (radius_trace fuel lat0 lon0 locations user_id user_tags
                             location_tags config) 0))
         rows.
Proof.
  revert config. induction fuel as [|fuel IH]; intros config; [discriminate|].
  cbn [build_proximal_recommendations radius_trace].
  destruct (is_empty (nearby_rows lat0 lon0 locations config)).
  { intros H. inversion H. constructor. }
  destruct (expansion _ _ _ _ _ _ _) as [config'|] eqn:E.
  - intros H. specialize (IH config' H).
    destruct fuel as [|fuel]; [discriminate|].
    exact IH.
  - intros H. inversion H. apply Forall_forall. intros row Hin.
    apply head_In, ranked_rows_In in Hin.
    destruct Hin as [near [_ [_ [Hd Hp]]]].
    rewrite Hp, Hd. reflexivity.
Qed.
End ProximalRecursion.

Lemma nearby_rows_nonempty (lat0 lon0 : R) (locations : list Location)
    (config : ProximalConfig) :
  count_within lat0 lon0 locations (radius_km config) <> O ->
  nearby_rows lat0 lon0 locations config
  = filter_by_radius lat0 lon0 locations (radius_km config).
Proof.
  intros H. unfold nearby_rows. rewrite is_empty_length, filter_by_radius_length.
  apply Nat.eqb_neq in H. rewrite H. reflexivity.
Qed.

Lemma nearby_rows_doubled (lat0 lon0 : R) (locations : list Location)
    (config : ProximalConfig) :
  count_within lat0 lon0 locations (radius_km config) = O ->
  nearby_rows lat0 lon0 locations config
  = filter_by_radius lat0 lon0 locations (radius_km config * 2).
Proof.
  intros H. unfold nearby_rows. rewrite is_empty_length, filter_by_radius_length, H.
  reflexivity.
Qed.

(** The decision of the "ensure minimum results" branch, in terms of the
    number of rows found and of the number of locations within the tripled
    radius. *)
Lemma expansion_decision (lat0 lon0 : R) (locations : list Location)
    (user_id : string) (user_tags : list UserTag) (location_tags : list LocationTag)
    (config : ProximalConfig) (nearby : list Nearby) :
  (len nearby <= max_results config)%Z ->
  expansion lat0 lon0 locations config nearby
    (ranked_rows user_id user_tags location_tags config nearby)
    (head (max_results config) (ranked_rows user_id user_tags location_tags config nearby))
  = if ((len nearby <? min_results config)%Z
        && (length nearby <? count_within lat0 lon0 locations (radius_km config * 3))%nat)
    then Some (widened config) else None.
Proof.
  intros Hmax. unfold expansion.
  assert (Hlen : len (ranked_rows user_id user_tags location_tags config nearby) = len nearby).
  { unfold len. rewrite ranked_rows_length. reflexivity. }
  rewrite head_all by (rewrite Hlen; exact Hmax).
  rewrite Hlen. rewrite andb_diag.
  destruct (len nearby <? min_results config)%Z; simpl; [|reflexivity].
  unfold len at 1 2. rewrite filter_by_radius_length.
  destruct (length nearby <? count_within lat0 lon0 locations (radius_km config * 3))%nat eqn:E.
  - apply Nat.ltb_lt in E.
    replace (Z.of_nat (length nearby) <? Z.of_nat _)%Z with true
      by (symmetry; apply Z.ltb_lt; lia).
    reflexivity.
  - apply Nat.ltb_ge in E.
    replace (Z.of_nat (length nearby) <? Z.of_nat _)%Z with false
      by (symmetry; apply Z.ltb_ge; lia).
    reflexivity.
Qed.

Ltac decide_Rleb :=
  repeat match goal with
         | |- context [Rleb ?a ?b] =>
             first [ rewrite (proj2 (Rleb_true_iff a b)) by lra
                   | rewrite (proj2 (Rleb_false_iff a b)) by lra ]
         end.

(** Counting the venues of a list of equatorial venues. *)
Ltac count_equator :=
  unfold count_within; cbn [filter];
  repeat rewrite distance_of_equator by lra;
  cbn [within]; decide_Rleb; reflexivity.

Lemma example_count_2 : count_within 0 0 example_locations 2 = 0%nat.
Proof. unfold example_locations. count_equator. Qed.

Lemma example_count_4 : count_within 0 0 example_locations (2 * 2) = 3%nat.
Proof. unfold example_locations. count_equator. Qed.

Lemma example_count_6 : count_within 0 0 example_locations (2 * 3) = 3%nat.
Proof. unfold example_locations. count_equator. Qed.

(** C1. On the design document's radius-expansion example (radius 2 km,
    [min_results] 5, no venue within 2 km and three within 4 km) the search
    is retried at the doubled radius, 4 km, and the three venues found there
    are returned; their proximity score is [exp (-2 * distance / 2)], computed
    against the requested radius, and differs from
    [exp (-2 * distance / 4)], the score against the radius used for
    filtering. *)
Theorem C1_doubled_search_scored_against_requested_radius :
  exists rows,
    build_proximal_recommendations 1 "u" 0 0 example_locations [] [] example_config
      = Some rows
    /\ nearby_rows 0 0 example_locations example_config
       = filter_by_radius 0 0 example_locations (2 * 2)
    /\ length rows = 3%nat
    /\ forall r, In r rows ->
         2 < distance_km r <= 2 * 2
         /\ proximity_score r = exp (-2 * distance_km r / 2)
         /\ proximity_score r <> exp (-2 * distance_km r / (2 * 2)).
Proof.
  assert (Hnear : nearby_rows 0 0 example_locations example_config
                  = filter_by_radius 0 0 example_locations (2 * 2)).
  { apply (nearby_rows_doubled 0 0 example_locations example_config).
    exact example_count_2. }
  assert (Hlen : length (nearby_rows 0 0 example_locations example_config) = 3%nat).
  { rewrite Hnear, filter_by_radius_length. exact example_count_4. }
  exists (head 50 (ranked_rows "u" [] [] example_config
                     (nearby_rows 0 0 example_locations example_config))).
  split; [|split; [exact Hnear|]].
  - cbn [build_proximal_recommendations].
    rewrite is_empty_length, Hlen. cbn [Nat.eqb].
    change (max_results example_config) with 50%Z.
    rewrite (expansion_decision 0 0 example_locations "u" [] [] example_config)
      by (unfold len; rewrite Hlen; simpl; lia).
    unfold len. rewrite Hlen.
    change (radius_km example_config * 3) with (2 * 3).
    rewrite example_count_6. reflexivity.
  - assert (Hhead : head 50 (ranked_rows "u" [] [] example_config
                               (nearby_rows 0 0 example_locations example_config))
                    = ranked_rows "u" [] [] example_config
                        (nearby_rows 0 0 example_locations example_config)).
    { apply head_all. unfold len. rewrite ranked_rows_length, Hlen. lia. }
    rewrite Hhead. split; [rewrite ranked_rows_length; exact Hlen|].
    intros r Hin. apply ranked_rows_In in Hin.
    destruct Hin as [[l d] [Hrow [_ [Hd Hp]]]]. simpl in Hd, Hp.
    rewrite Hnear in Hrow. apply filter_by_radius_In in Hrow.
    destruct Hrow as [Hl [Hdist Hle]].
    assert (Hgt : 2 < d).
    { destruct (Rle_dec d 2) as [Hle2|Hgt2]; [|lra].
      assert (Hin2 : In (l, d) (filter_by_radius 0 0 example_locations 2))
        by (apply filter_by_radius_In; auto).
      pose proof (filter_by_radius_length 0 0 example_locations 2) as Hc.
      rewrite example_count_2 in Hc.
      destruct (filter_by_radius 0 0 example_locations 2); [contradiction|discriminate]. }
    rewrite Hd, Hp. unfold compute_proximity_score.
    change (radius_km example_config) with 2.
    split; [lra|]. split; [reflexivity|].
    intros Heq. apply exp_inv in Heq. lra.
Qed.

Lemma sparse_count_2 : count_within 0 0 sparse_locations 2 = 1%nat.
Proof. unfold sparse_locations. count_equator. Qed.

Lemma sparse_count_6 : count_within 0 0 sparse_locations (2 * 3) = 2%nat.
Proof. unfold sparse_locations. count_equator. Qed.

Lemma sparse_count_18 : count_within 0 0 sparse_locations (2 * 3 * 3) = 3%nat.
Proof. unfold sparse_locations. count_equator. Qed.

Lemma sparse_count_54 : count_within 0 0 sparse_locations (2 * 3 * 3 * 3) = 3%nat.
Proof. unfold sparse_locations. count_equator. Qed.

(** One step of the trace, when the configured radius holds [n > 0]
    locations. *)
Lemma radius_trace_step (fuel : nat) (lat0 lon0 : R) (locations : list Location)
    (user_id : string) (user_tags : list UserTag) (location_tags : list LocationTag)
    (config : ProximalConfig) (n : nat) :
  count_within lat0 lon0 locations (radius_km config) = n ->
  n <> O ->
  (Z.of_nat n <= max_results config)%Z ->
  radius_trace (S fuel) lat0 lon0 locations user_id user_tags location_tags config
  = radius_km config ::
    if ((Z.of_nat n <? min_results config)%Z
        && (n <? count_within lat0 lon0 locations (radius_km config * 3))%nat)
    then radius_trace fuel lat0 lon0 locations user_id user_tags location_tags
           (widened config)
    else [].
Proof.
  intros Hn Hpos Hmax. cbn [radius_trace].
  assert (Hlen : length (nearby_rows lat0 lon0 locations config) = n).
  { rewrite nearby_rows_nonempty by lia. rewrite filter_by_radius_length. exact Hn. }
  rewrite is_empty_length, Hlen.
  destruct (n =? 0)%nat eqn:E; [apply Nat.eqb_eq in E; lia|].
  rewrite expansion_decision by (unfold len; rewrite Hlen; exact Hmax).
  unfold len. rewrite Hlen.
  destruct ((Z.of_nat n <? min_results config)%Z
            && (n <? count_within lat0 lon0 locations (radius_km config * 3))%nat);
    reflexivity.
Qed.

Lemma sparse_trace :
  radius_trace 3 0 0 sparse_locations "u" [] [] sparse_config = [2; 2 * 3; 2 * 3 * 3].
Proof.
  rewrite (radius_trace_step 2 0 0 sparse_locations "u" [] [] sparse_config 1)
    by (try exact sparse_count_2; simpl; lia).
  change (radius_km sparse_config * 3) with (2 * 3).
  rewrite sparse_count_6. cbn [Z.ltb Z.of_nat Z.compare min_results sparse_config
                               Pos.of_succ_nat Pos.compare Pos.compare_cont andb Nat.ltb Nat.leb].
  rewrite (radius_trace_step 1 0 0 sparse_locations "u" [] [] (widened sparse_config) 2)
    by (try exact sparse_count_6; simpl; lia).
  change (radius_km (widened sparse_config) * 3) with (2 * 3 * 3).
  rewrite sparse_count_18. cbn [Z.ltb Z.of_nat Z.compare min_results sparse_config widened
                               Pos.of_succ_nat Pos.succ Pos.compare Pos.compare_cont andb Nat.ltb Nat.leb].
  rewrite (radius_trace_step 0 0 0 sparse_locations "u" [] []
             (widened (widened sparse_config)) 3)
    by (try exact sparse_count_18; simpl; lia).
  change (radius_km (widened (widened sparse_config)) * 3) with (2 * 3 * 3 * 3).
  rewrite sparse_count_54. reflexivity.
Qed.

(** An invocation that makes a recursive call returns what that call
    returns; one that makes none returns its own rows. The trace follows the
    same calls. *)
Lemma build_step (fuel : nat) (user_id : string) (lat0 lon0 : R)
    (locations : list Location) (user_tags : list UserTag)
    (location_tags : list LocationTag) (config : ProximalConfig) :
  match recursive_call user_id lat0 lon0 locations user_tags location_tags config with
  | Some config' =>
      build_proximal_recommendations (S fuel) user_id lat0 lon0 locations user_tags
        location_tags config
      = build_proximal_recommendations fuel user_id lat0 lon0 locations user_tags
          location_tags config'
      /\ radius_trace (S fuel) lat0 lon0 locations user_id user_tags location_tags config
         = radius_km config
           :: radius_trace fuel lat0 lon0 locations user_id user_tags location_tags config'
  | None =>
      (exists rows,
         build_proximal_recommendations (S fuel) user_id lat0 lon0 locations user_tags
           location_tags config = Some rows)
      /\ radius_trace (S fuel) lat0 lon0 locations user_id user_tags location_tags config
         = [radius_km config]
  end.
Proof.
  unfold recursive_call. cbn [build_proximal_recommendations radius_trace].
  destruct (is_empty (nearby_rows lat0 lon0 locations config)).
  - split; [eexists; reflexivity | reflexivity].
  - destruct (expansion _ _ _ _ _ _ _) as [config'|].
    + split; reflexivity.
    + split; [eexists; reflexivity | reflexivity].
Qed.

(** What a recursive call looks like. *)
Lemma recursive_call_Some (user_id : string) (lat0 lon0 : R)
    (locations : list Location) (user_tags : list UserTag)
    (location_tags : list LocationTag) (config config' : ProximalConfig) :
  recursive_call user_id lat0 lon0 locations user_tags location_tags config = Some config' ->
  config' = widened config
  /\ (len (nearby_rows lat0 lon0 locations config) < min_results config)%Z
  /\ (length (nearby_rows lat0 lon0 locations config)
      < length (filter_by_radius lat0 lon0 locations (radius_km config * 3)))%nat.
Proof.
  unfold recursive_call.
  destruct (is_empty (nearby_rows lat0 lon0 locations config)); [discriminate|].
  intros H. pose proof (expansion_Some _ _ _ _ _ _ _ _ H) as [Hc Hlt].
  split; [exact Hc|]. split; [|rewrite filter_by_radius_length; exact Hlt].
  unfold expansion in H.
  destruct (len (head _ _) <? min_results config)%Z; [|discriminate].
  destruct (len (ranked_rows _ _ _ _ _) <? min_results config)%Z eqn:E; [|discriminate].
  apply Z.ltb_lt in E. unfold len in *. rewrite ranked_rows_length in E. exact E.
Qed.

(** The decision of an invocation whose configured radius holds [n > 0]
    locations. *)
Lemma recursive_call_decision (user_id : string) (lat0 lon0 : R)
    (locations : list Location) (user_tags : list UserTag)
    (location_tags : list LocationTag) (config : ProximalConfig) (n : nat) :
  count_within lat0 lon0 locations (radius_km config) = n ->
  n <> O ->
  (Z.of_nat n <= max_results config)%Z ->
  recursive_call user_id lat0 lon0 locations user_tags location_tags config
  = if ((Z.of_nat n <? min_results config)%Z
        && (n <? count_within lat0 lon0 locations (radius_km config * 3))%nat)
    then Some (widened config) else None.
Proof.
  intros Hn Hpos Hmax. unfold recursive_call.
  assert (Hlen : length (nearby_rows lat0 lon0 locations config) = n).
  { rewrite nearby_rows_nonempty by lia. rewrite filter_by_radius_length. exact Hn. }
  rewrite is_empty_length, Hlen.
  destruct (n =? 0)%nat eqn:E; [apply Nat.eqb_eq in E; lia|].
  rewrite expansion_decision by (unfold len; rewrite Hlen; exact Hmax).
  unfold len. rewrite Hlen. reflexivity.
Qed.

Lemma sparse_call_at_2 :
  recursive_call "u" 0 0 sparse_locations [] [] sparse_config = Some (widened sparse_config).
Proof.
  rewrite (recursive_call_decision "u" 0 0 sparse_locations [] [] sparse_config 1)
    by (try exact sparse_count_2; simpl; lia).
  change (radius_km sparse_config * 3) with (2 * 3).
  rewrite sparse_count_6. reflexivity.
Qed.

Lemma sparse_call_at_6 :
  recursive_call "u" 0 0 sparse_locations [] [] (widened sparse_config)
  = Some (widened (widened sparse_config)).
Proof.
  rewrite (recursive_call_decision "u" 0 0 sparse_locations [] [] (widened sparse_config) 2)
    by (try exact sparse_count_6; simpl; lia).
  change (radius_km (widened sparse_config) * 3) with (2 * 3 * 3).
  rewrite sparse_count_18. reflexivity.
Qed.

Lemma sparse_call_at_18 :
  recursive_call "u" 0 0 sparse_locations [] [] (widened (widened sparse_config)) = None.
Proof.
  rewrite (recursive_call_decision "u" 0 0 sparse_locations [] []
             (widened (widened sparse_config)) 3)
    by (try exact sparse_count_18; simpl; lia).
  change (radius_km (widened (widened sparse_config)) * 3) with (2 * 3 * 3 * 3).
  rewrite sparse_count_54. reflexivity.
Qed.

(** C2, as stated, fails: with venues at 1, 5 and 17 km, a requested radius of
    2 km and [min_results] 5, the invocation at 2 km recurses at 6 km and that
    one recurses again at 18 km, a second widening: the radii of the
    invocations are 2, 6 and 18 km. Two invocations do not produce the
    result; the third does, and the three rows returned are scored against
    the radius of 18 km. *)
Lemma C2_counterexample_second_widening :
  recursive_call "u" 0 0 sparse_locations [] [] sparse_config
  = Some (widened sparse_config)
  /\ recursive_call "u" 0 0 sparse_locations [] [] (widened sparse_config)
     = Some (widened (widened sparse_config))
  /\ radius_trace 3 0 0 sparse_locations "u" [] [] sparse_config = [2; 2 * 3; 2 * 3 * 3]
  /\ build_proximal_recommendations 2 "u" 0 0 sparse_locations [] [] sparse_config = None
  /\ exists rows,
       build_proximal_recommendations 3 "u" 0 0 sparse_locations [] [] sparse_config
       = Some rows
       /\ length rows = 3%nat
       /\ Forall (fun r => proximity_score r = exp (-2 * distance_km r / (2 * 3 * 3))) rows.
Proof.
  split; [exact sparse_call_at_2|]. split; [exact sparse_call_at_6|].
  split; [exact sparse_trace|].
  pose proof (build_step 1 "u" 0 0 sparse_locations [] [] sparse_config) as H2.
  rewrite sparse_call_at_2 in H2. destruct H2 as [H2 _].
  pose proof (build_step 0 "u" 0 0 sparse_locations [] [] (widened sparse_config)) as H6.
  rewrite sparse_call_at_6 in H6. destruct H6 as [H6 _].
  split; [rewrite H2, H6; reflexivity|].
  pose proof (build_step 2 "u" 0 0 sparse_locations [] [] sparse_config) as H2'.
  rewrite sparse_call_at_2 in H2'. destruct H2' as [H2' _].
  pose proof (build_step 1 "u" 0 0 sparse_locations [] [] (widened sparse_config)) as H6'.
  rewrite sparse_call_at_6 in H6'. destruct H6' as [H6' _].
  set (last_config := widened (widened sparse_config)) in *.
  assert (Hlen : length (nearby_rows 0 0 sparse_locations last_config) = 3%nat).
  { rewrite nearby_rows_nonempty
      by (change (radius_km last_config) with (2 * 3 * 3); rewrite sparse_count_18; lia).
    rewrite filter_by_radius_length. exact sparse_count_18. }
  exists (head 50 (ranked_rows "u" [] [] last_config
                     (nearby_rows 0 0 sparse_locations last_config))).
  assert (Hhead : head 50 (ranked_rows "u" [] [] last_config
                             (nearby_rows 0 0 sparse_locations last_config))
                  = ranked_rows "u" [] [] last_config
                      (nearby_rows 0 0 sparse_locations last_config)).
  { apply head_all. unfold len. rewrite ranked_rows_length, Hlen. lia. }
  split; [|split].
  - rewrite H2', H6'. cbn [build_proximal_recommendations].
    pose proof sparse_call_at_18 as H18. unfold recursive_call in H18.
    fold last_config in H18.
    rewrite is_empty_length, Hlen in *. cbn [Nat.eqb] in *.
    rewrite H18. reflexivity.
  - rewrite Hhead, ranked_rows_length. exact Hlen.
  - rewrite Hhead. apply Forall_forall. intros r Hin.
    apply ranked_rows_In in Hin. destruct Hin as [row [_ [_ [Hd Hp]]]].
    rewrite Hp, Hd. reflexivity.
Qed.

(** C2, amended. An invocation recurses only when it found fewer than
    [min_results] rows and the tripled radius holds strictly more locations
    than it found; the recursive call has the radius tripled and the other
    settings, the weights among them, unchanged, and its result is the
    result of the invocation. The recursive call applies the same rule, so
    the radius may be tripled more than once; but the number of invocations
    is at most one more than the number of locations, every widening is a
    tripling, and the call returns. *)
Theorem C2_widening_bounded_by_inventory
    (user_id : string) (lat0 lon0 : R) (locations : list Location)
    (user_tags : list UserTag) (location_tags : list LocationTag)
    (config : ProximalConfig) :
  let build := fun fuel c =>
    build_proximal_recommendations fuel user_id lat0 lon0 locations user_tags
      location_tags c in
  let trace := fun fuel c =>
    radius_trace fuel lat0 lon0 locations user_id user_tags location_tags c in
  let call := recursive_call user_id lat0 lon0 locations user_tags location_tags in
  (exists rows, build (S (length locations)) config = Some rows)
  /\ (forall c c', call c = Some c' ->
        radius_km c' = radius_km c * 3
        /\ min_results c' = min_results c /\ max_results c' = max_results c
        /\ taste_weight c' = taste_weight c
        /\ proximity_weight c' = proximity_weight c
        /\ quality_weight c' = quality_weight c
        /\ (len (nearby_rows lat0 lon0 locations c) < min_results c)%Z
        /\ (length (nearby_rows lat0 lon0 locations c)
            < length (filter_by_radius lat0 lon0 locations (radius_km c * 3)))%nat
        /\ forall fuel,
             build (S fuel) c = build fuel c'
             /\ trace (S fuel) c = radius_km c :: trace fuel c')
  /\ (forall c, call c = None ->
        forall fuel,
          (exists rows, build (S fuel) c = Some rows)
          /\ trace (S fuel) c = [radius_km c])
  /\ (forall fuel, (length (trace fuel config) <= S (length locations))%nat)
  /\ (forall fuel, tripling (trace fuel config)).
Proof.
  cbn zeta. split; [|split; [|split; [|split]]].
  - apply build_terminates. lia.
  - intros c c' Hcall.
    destruct (recursive_call_Some _ _ _ _ _ _ _ _ Hcall) as [-> [Hfew Hmore]].
    cbn [widened radius_km min_results max_results taste_weight proximity_weight
         quality_weight].
    repeat (split; [reflexivity|]).
    split; [exact Hfew|]. split; [exact Hmore|].
    intros fuel.
    pose proof (build_step fuel user_id lat0 lon0 locations user_tags location_tags c) as H.
    rewrite Hcall in H. exact H.
  - intros c Hcall fuel.
    pose proof (build_step fuel user_id lat0 lon0 locations user_tags location_tags c) as H.
    rewrite Hcall in H. exact H.
  - intros fuel.
    pose proof (radius_trace_length user_id lat0 lon0 locations user_tags location_tags
                  fuel config).
    lia.
  - intros fuel. apply radius_trace_tripling.
Qed.

End ProximalProperties.

(* ================================================================== *)
(** ** User profiles and the pipeline *)
(* ================================================================== *)

Section UserProfilesProperties.
Import UserProfiles.

Lemma table_weight_lookup (t : string) :
  fillna 0.0 (dict_get String.eqb t DEFAULT_ACTION_WEIGHTS) = table_weight t.
Proof.
  unfold DEFAULT_ACTION_WEIGHTS, table_weight. cbn [dict_get].
  rewrite !(String.eqb_sym _ t).
  repeat (destruct (String.eqb t _); [reflexivity|]).
  simpl. lra.
Qed.

Lemma action_weight_eq (now : R) (a : UserAction) :
  action_weight now true a
  = table_weight (lower (ua_action a)) * exp (- age_days now (ua_created_at a) / 30).
Proof.
  unfold action_weight, decay, RECENCY_HALFLIFE_DAYS.
  rewrite table_weight_lookup.
  replace 30.0 with 30 by lra. reflexivity.
Qed.

Lemma action_weight_nonzero (now : R) (a : UserAction) :
  action_weight now true a <> 0 <-> table_weight (lower (ua_action a)) <> 0.
Proof.
  rewrite action_weight_eq.
  pose proof (exp_pos (- age_days now (ua_created_at a) / 30)) as Hpos.
  split; intros H.
  - intros H0. apply H. rewrite H0. ring.
  - intros H0. apply Rmult_integral in H0. destruct H0; [contradiction | lra].
Qed.

Lemma apply_action_weights_In (now : R) (has_created_at : bool)
    (actions : list (UserAction * Z)) (r : WeightedAction) :
  In r (_apply_action_weights now has_created_at actions) <->
  exists a loc,
    In (a, loc) actions
    /\ r = mkWeightedAction (ua_user_id a) (lower (ua_action a)) loc
             (action_weight now has_created_at a)
    /\ action_weight now has_created_at a <> 0.
Proof.
  unfold _apply_action_weights. rewrite filter_In, in_map_iff. split.
  - intros [[[a loc] [Hr Hin]] Hw]. exists a, loc. simpl in Hr. subst r. simpl in Hw.
    split; [exact Hin|]. split; [reflexivity|].
    apply negb_true_iff, Reqb_false_iff in Hw. exact Hw.
  - intros [a [loc [Hin [Hr Hw]]]]. split.
    + exists (a, loc). simpl. auto.
    + subst r. simpl. apply negb_true_iff, Reqb_false_iff. exact Hw.
Qed.

(** C3, as stated, fails: an action of type "share" is not in the weight
    table, so its weight is 0 rather than 2.5 times the decay factor, and
    the action is dropped. *)
Lemma C3_counterexample_share_has_no_weight :
  let a := mkUserAction "u" "p" "share" (Some 0) in
  action_weight 0 true a <> 2.5 * exp (- age_days 0 (ua_created_at a) / 30)
  /\ _apply_action_weights 0 true [(a, 1%Z)] = [].
Proof.
  cbn zeta.
  assert (Hw : action_weight 0 true (mkUserAction "u" "p" "share" (Some 0)) = 0).
  { rewrite action_weight_eq.
    replace (table_weight (lower (ua_action (mkUserAction "u" "p" "share" (Some 0)))))
      with 0 by reflexivity.
    ring. }
  split.
  - rewrite Hw.
    pose proof (exp_pos (- age_days 0 (ua_created_at (mkUserAction "u" "p" "share" (Some 0))) / 30)).
    lra.
  - unfold _apply_action_weights. cbn [map filter fst snd wa_weight].
    rewrite Hw. rewrite (proj2 (Reqb_true_iff 0 0)) by reflexivity. reflexivity.
Qed.

(** C3, amended. Each action's effective weight is the weight of its
    lower-cased action type in the table {save: 3.0, like: 2.0,
    share_to_bubble: 2.5, detail_view: 0.5, impression: 0.1, dismiss: -1.5},
    0 for any other type, multiplied by [exp (- age_days / 30)]; the actions
    kept for the aggregation are exactly those whose weight is not zero,
    that is those whose type is in the table; an action of type
    "share_to_bubble" receives 2.5 times the decay factor, one of type
    "share" receives 0. *)
Theorem C3_action_weight_table_and_decay
    (now : R) (actions : list (UserAction * Z)) (r : WeightedAction) :
  (In r (_apply_action_weights now true actions) <->
   exists a loc,
     In (a, loc) actions
     /\ r = mkWeightedAction (ua_user_id a) (lower (ua_action a)) loc
              (table_weight (lower (ua_action a))
               * exp (- age_days now (ua_created_at a) / 30))
     /\ table_weight (lower (ua_action a)) <> 0)
  /\ table_weight "save" = 3.0 /\ table_weight "like" = 2.0
  /\ table_weight "share_to_bubble" = 2.5 /\ table_weight "detail_view" = 0.5
  /\ table_weight "impression" = 0.1 /\ table_weight "dismiss" = -1.5
  /\ table_weight "share" = 0.
Proof.
  split; [|repeat split; reflexivity].
  rewrite apply_action_weights_In.
  split; intros [a [loc [Hin [Hr Hw]]]]; exists a, loc; (split; [exact Hin|]).
  - rewrite action_weight_eq in Hr. split; [exact Hr|].
    apply action_weight_nonzero in Hw. exact Hw.
  - split; [rewrite action_weight_eq; exact Hr|].
    apply action_weight_nonzero. exact Hw.
Qed.

Lemma age_days_zero : age_days 0 (Some 0) = 0.
Proof.
  unfold age_days. simpl. replace ((0 - 0) / 86400) with 0 by lra.
  apply Rmax_left. lra.
Qed.

Lemma dismiss_weight :
  action_weight 0 true (mkUserAction "u" "p1" "dismiss" (Some 0)) = -1.5.
Proof.
  rewrite action_weight_eq. simpl ua_created_at. rewrite age_days_zero.
  replace (- 0 / 30) with 0 by lra. rewrite exp_0.
  replace (table_weight (lower (ua_action (mkUserAction "u" "p1" "dismiss" (Some 0)))))
    with (-1.5) by reflexivity.
  lra.
Qed.

Lemma dismiss_affinities :
  build_user_tag_affinities 0 true dismiss_log italian_tags italian_venue
  = ([mkUserTag "u" 1 "italian" 0.0 (-1.5 * (92 / 100.0) + 0)],
     [mkUserHistory "u" 1]).
Proof.
  unfold build_user_tag_affinities, dismiss_log, italian_tags, italian_venue.
  cbn [is_empty orb].
  replace (resolve_actions _ _)
    with [(mkUserAction "u" "p1" "dismiss" (Some 0), 1%Z)] by reflexivity.
  unfold _apply_action_weights. cbn [map filter fst snd wa_weight ua_user_id ua_action].
  rewrite dismiss_weight.
  rewrite (proj2 (Reqb_false_iff (-1.5) 0)) by lra. cbn [negb is_empty].
  replace (merge_actions _ _)
    with [(("u"%string, 1%Z, "italian"%string), -1.5 * (92 / 100.0))] by reflexivity.
  cbn [is_empty].
  replace (aggregate _)
    with [(("u"%string, 1%Z, "italian"%string), -1.5 * (92 / 100.0) + 0)] by reflexivity.
  replace (normalize_all _)
    with [mkUserTag "u" 1 "italian"
            (if Rleb (-1.5 * (92 / 100.0) + 0) 0 then 0.0
             else (-1.5 * (92 / 100.0) + 0) / (-1.5 * (92 / 100.0) + 0) * 100.0)
            (-1.5 * (92 / 100.0) + 0)] by reflexivity.
  rewrite (proj2 (Rleb_true_iff (-1.5 * (92 / 100.0) + 0) 0)) by lra.
  reflexivity.
Qed.

(** *** Facts on the helpers *)

Lemma dedup_In {K : Type} (eqb : K -> K -> bool)
    (eqb_eq : forall a b, eqb a b = true <-> a = b) (l : list K) (x : K) :
  In x (dedup eqb l) <-> In x l.
Proof.
  induction l as [|y l IH]; simpl; [tauto|].
  rewrite filter_In, IH. split.
  - intros [H|[H _]]; auto.
  - intros [H|H]; [auto|].
    destruct (eqb y x) eqn:E.
    + left. apply eqb_eq. exact E.
    + right. split; [exact H | reflexivity].
Qed.

Lemma list_max_ge_init (x : R) (l : list R) : x <= list_max x l.
Proof.
  revert x. induction l as [|y l IH]; intros x; simpl; [lra|].
  eapply Rle_trans; [apply Rmax_l | apply IH].
Qed.

Lemma list_max_ge (x : R) (l : list R) (y : R) : In y l -> y <= list_max x l.
Proof.
  revert x. induction l as [|z l IH]; intros x; simpl; [contradiction|].
  intros [H|H].
  - subst z. eapply Rle_trans; [apply Rmax_r | apply list_max_ge_init].
  - apply IH. exact H.
Qed.

Lemma list_max_In (x : R) (l : list R) : In (list_max x l) (x :: l).
Proof.
  revert x. induction l as [|z l IH]; intros x; simpl; [auto|].
  destruct (IH (Rmax x z)) as [H|H].
  - unfold Rmax in H at 1. destruct (Rle_dec x z); rewrite <- H; auto.
  - auto.
Qed.

Lemma merge_actions_nil_r (df_actions : list WeightedAction) : merge_actions df_actions [] = [].
Proof. induction df_actions as [|a df IH]; simpl; [reflexivity | exact IH]. Qed.

(** The affinity table is the truncated, sorted normalisation of the
    accumulated sums, also on the early returns of the builder (where there
    are no sums). *)
Lemma build_fst (now : R) (has_created_at : bool) (user_actions : list UserAction)
    (location_tags : list LocationTag) (locations : list Location) :
  fst (build_user_tag_affinities now has_created_at user_actions location_tags locations)
  = group_head 25 []
      (sort_by affinity_leb
         (normalize_all
            (accumulated now has_created_at user_actions location_tags locations))).
Proof.
  unfold build_user_tag_affinities, accumulated.
  destruct user_actions as [|a user_actions]; [reflexivity|].
  destruct location_tags as [|t location_tags].
  { cbn [is_empty orb fst]. rewrite merge_actions_nil_r. reflexivity. }
  cbn [is_empty orb].
  destruct (_apply_action_weights _ _ _) as [|w df]; [reflexivity|].
  cbn [is_empty].
  destruct (merge_actions _ _) as [|m merged]; reflexivity.
Qed.

Lemma key_surjective (k : Key) : (key_user k, key_tag_id k, key_tag_text k) = k.
Proof. destruct k as [[u t] x]. reflexivity. Qed.

Lemma normalize_In (group : list (Key * R)) (r : UserTag) :
  In r (_normalize group) <->
  exists first rest row,
    group = first :: rest /\ In row group
    /\ r = mkUserTag (key_user (fst row)) (key_tag_id (fst row)) (key_tag_text (fst row))
             (if Rleb (list_max (snd first) (map snd rest)) 0 then 0.0
              else snd row / list_max (snd first) (map snd rest) * 100.0)
             (snd row).
Proof.
  unfold _normalize. destruct group as [|first rest].
  - split; [contradiction|]. intros [f [rs [row [H _]]]]. discriminate.
  - rewrite in_map_iff. split.
    + intros [row [Hr Hin]]. exists first, rest, row. auto.
    + intros [f [rs [row [Hg [Hin Hr]]]]]. inversion Hg; subst f rs.
      exists row. auto.
Qed.

Lemma normalize_all_In (agg : list (Key * R)) (r : UserTag) :
  In r (normalize_all agg) <->
  exists k c m,
    In (k, c) agg /\ user_max agg (key_user k) = Some m
    /\ r = mkUserTag (key_user k) (key_tag_id k) (key_tag_text k)
             (if Rleb m 0 then 0.0 else c / m * 100.0) c.
Proof.
  unfold normalize_all. rewrite in_flat_map. split.
  - intros [u [Hu Hin]]. apply normalize_In in Hin.
    destruct Hin as [first [rest [[k c] [Hg [Hrow Hr]]]]].
    rewrite Hg in Hrow. rewrite <- Hg in Hrow. apply filter_In in Hrow.
    destruct Hrow as [Hagg Hk]. simpl in Hk. apply String.eqb_eq in Hk.
    exists k, c, (list_max (snd first) (map snd rest)).
    split; [exact Hagg|]. split; [|exact Hr].
    unfold user_max. rewrite Hk, Hg. reflexivity.
  - intros [k [c [m [Hagg [Hm Hr]]]]].
    exists (key_user k). split.
    + apply sort_by_In. apply dedup_In; [apply String.eqb_eq|].
      apply in_map_iff. exists (k, c). auto.
    + apply normalize_In. unfold user_max in Hm.
      destruct (filter _ agg) as [|first rest] eqn:Hg; [discriminate|].
      inversion Hm; subst m.
      exists first, rest, (k, c). split; [reflexivity|]. split; [|exact Hr].
      rewrite <- Hg. apply filter_In. split; [exact Hagg|].
      simpl. apply String.eqb_refl.
Qed.

(** *** The order of the affinity table *)

Lemma string_compare_refl (s : string) : String.compare s s = Eq.
Proof. apply String_as_OT.cmp_eq. reflexivity. Qed.

Lemma string_compare_lt_trans (a b c : string) :
  String.compare a b = Lt -> String.compare b c = Lt -> String.compare a c = Lt.
Proof.
  intros H1 H2. apply String_as_OT.cmp_lt.
  apply String_as_OT.cmp_lt in H1. apply String_as_OT.cmp_lt in H2.
  eapply String_as_OT.lt_trans; eassumption.
Qed.

Lemma affinity_leb_total (a b : UserTag) :
  affinity_leb a b = true \/ affinity_leb b a = true.
Proof.
  unfold affinity_leb. rewrite (String.compare_antisym (ut_user_id b) (ut_user_id a)).
  destruct (String.compare (ut_user_id a) (ut_user_id b)); simpl; auto.
  destruct (Rle_dec (ut_score b) (ut_score a)) as [H|H].
  - left. apply Rleb_true_iff. exact H.
  - right. apply Rleb_true_iff. lra.
Qed.

Lemma affinity_leb_trans (a b c : UserTag) :
  affinity_leb a b = true -> affinity_leb b c = true -> affinity_leb a c = true.
Proof.
  unfold affinity_leb.
  destruct (String.compare (ut_user_id a) (ut_user_id b)) eqn:Eab; [| |discriminate];
    destruct (String.compare (ut_user_id b) (ut_user_id c)) eqn:Ebc; try discriminate.
  - apply String.compare_eq_iff in Eab. apply String.compare_eq_iff in Ebc.
    rewrite Eab, Ebc, string_compare_refl. rewrite !Rleb_true_iff. lra.
  - apply String.compare_eq_iff in Eab. rewrite Eab, Ebc. auto.
  - apply String.compare_eq_iff in Ebc. rewrite <- Ebc, Eab. auto.
  - rewrite (string_compare_lt_trans _ _ _ Eab Ebc). auto.
Qed.

Lemma group_head_In (n : nat) (prev : list string) (rows : list UserTag) (r : UserTag) :
  In r (group_head n prev rows) -> In r rows.
Proof.
  revert prev. induction rows as [|x rows IH]; simpl; intros prev H; [contradiction|].
  destruct (count_occ string_dec prev (ut_user_id x) <? n)%nat.
  - destruct H as [H|H]; [auto | right; eapply IH; exact H].
  - right. eapply IH; exact H.
Qed.

(** In a table sorted by [affinity_leb], the first row of a user survives
    the per-user truncation and is ahead of all the user's rows. *)
Lemma group_head_first (n : nat) (prev : list string) (rows : list UserTag) (a : UserTag) :
  StronglySorted (fun x y => affinity_leb x y = true) rows ->
  In a rows ->
  ~ In (ut_user_id a) prev ->
  exists b, In b (group_head (S n) prev rows)
    /\ ut_user_id b = ut_user_id a /\ affinity_leb b a = true.
Proof.
  intros Hs. revert prev. induction Hs as [|x rows Hs IH Hx]; intros prev Hin Hprev.
  - contradiction.
  - simpl. destruct (string_dec (ut_user_id x) (ut_user_id a)) as [Hu|Hu].
    + exists x.
      assert (Hc : count_occ string_dec prev (ut_user_id x) = O).
      { apply count_occ_not_In. rewrite Hu. exact Hprev. }
      rewrite Hc. cbn [Nat.ltb Nat.leb]. split; [left; reflexivity|]. split; [exact Hu|].
      destruct Hin as [Hin|Hin].
      * subst a. destruct (affinity_leb_total x x); assumption.
      * rewrite Forall_forall in Hx. apply Hx. exact Hin.
    + destruct Hin as [Hin|Hin]; [subst a; contradiction|].
      destruct (IH (ut_user_id x :: prev) Hin) as [b [Hb Hrest]].
      { intros [H|H]; [contradiction | apply Hprev; exact H]. }
      exists b. split; [|exact Hrest].
      destruct (count_occ string_dec prev (ut_user_id x) <? S n)%nat; [right|]; exact Hb.
Qed.

(** *** A user with one dismissed venue *)

Lemma dismiss_accumulated :
  accumulated 0 true dismiss_log italian_tags italian_venue
  = [(("u"%string, 1%Z, "italian"%string), -1.5 * (92 / 100.0) + 0)].
Proof.
  unfold accumulated, dismiss_log, italian_tags, italian_venue.
  replace (resolve_actions _ _)
    with [(mkUserAction "u" "p1" "dismiss" (Some 0), 1%Z)] by reflexivity.
  unfold _apply_action_weights. cbn [map filter fst snd wa_weight ua_user_id ua_action].
  rewrite dismiss_weight.
  rewrite (proj2 (Reqb_false_iff (-1.5) 0)) by lra. cbn [negb].
  reflexivity.
Qed.

(** C4, as stated, fails: a user whose only action is a "dismiss" of a
    tagged venue has no positive-weight action, yet the affinity table holds
    a row for that user, with score 0. *)
Lemma C4_counterexample_row_with_score_zero :
  (forall a loc, In (a, loc) (resolve_actions italian_venue dismiss_log) ->
                 action_weight 0 true a <= 0)
  /\ fst (build_user_tag_affinities 0 true dismiss_log italian_tags italian_venue)
     = [mkUserTag "u" 1 "italian" 0 (-1.5 * (92 / 100.0) + 0)].
Proof.
  split.
  - replace (resolve_actions italian_venue dismiss_log)
      with [(mkUserAction "u" "p1" "dismiss" (Some 0), 1%Z)] by reflexivity.
    intros a loc [H|[]]. inversion H; subst. rewrite dismiss_weight. lra.
  - rewrite dismiss_affinities. simpl. f_equal. f_equal. lra.
Qed.

Lemma user_max_ge (agg : list (Key * R)) (k : Key) (c m : R) :
  In (k, c) agg -> user_max agg (key_user k) = Some m -> c <= m.
Proof.
  unfold user_max. intros Hin Hm.
  assert (Hg : In (k, c) (filter (fun r => String.eqb (key_user (fst r)) (key_user k)) agg)).
  { apply filter_In. split; [exact Hin|]. simpl. apply String.eqb_refl. }
  destruct (filter _ agg) as [|first rest]; [discriminate|].
  inversion Hm; subst m. destruct Hg as [Hg|Hg].
  - subst first. simpl. apply list_max_ge_init.
  - apply list_max_ge. apply in_map_iff. exists (k, c). auto.
Qed.

Lemma user_max_attained (agg : list (Key * R)) (u : string) (m : R) :
  user_max agg u = Some m -> exists k, In (k, m) agg /\ key_user k = u.
Proof.
  unfold user_max. intros Hm.
  destruct (filter _ agg) as [|first rest] eqn:Hg; [discriminate|].
  inversion Hm as [Hmax].
  assert (Hin : exists row, In row (first :: rest) /\ snd row = list_max (snd first) (map snd rest)).
  { destruct (list_max_In (snd first) (map snd rest)) as [H|H].
    - exists first. split; [left; reflexivity | exact H].
    - apply in_map_iff in H. destruct H as [row [H1 H2]].
      exists row. split; [right; exact H2 | exact H1]. }
  destruct Hin as [[k c] [Hrow Hc]]. simpl in Hc. rewrite <- Hg in Hrow.
  apply filter_In in Hrow. destruct Hrow as [Hagg Hk]. simpl in Hk.
  apply String.eqb_eq in Hk. exists k. rewrite <- Hc. auto.
Qed.

Lemma key_eqb_eq (a b : Key) : key_eqb a b = true <-> a = b.
Proof.
  destruct a as [[u1 t1] x1], b as [[u2 t2] x2]. unfold key_eqb, key_user, key_tag_id,
    key_tag_text. simpl.
  rewrite !andb_true_iff, !String.eqb_eq, Z.eqb_eq. split.
  - intros [[-> ->] ->]. reflexivity.
  - intros H. inversion H. auto.
Qed.

Lemma aggregate_In (merged : list (Key * R)) (k : Key) (c : R) :
  In (k, c) (aggregate merged) <->
  In k (map fst merged)
  /\ c = Rsum (map snd (filter (fun r => key_eqb (fst r) k) merged)).
Proof.
  unfold aggregate. rewrite in_map_iff. split.
  - intros [k' [Heq Hin]]. inversion Heq as [[Hk Hc]]. subst k'.
    apply (proj1 (sort_by_In _ _ _)) in Hin.
    apply (proj1 (dedup_In key_eqb key_eqb_eq _ _)) in Hin.
    split; [exact Hin | reflexivity].
  - intros [Hin ->]. exists k. split; [reflexivity|].
    apply (proj2 (sort_by_In _ _ _)).
    apply (proj2 (dedup_In key_eqb key_eqb_eq _ _)). exact Hin.
Qed.

Lemma merge_actions_keys (df_actions : list WeightedAction)
    (location_tags : list LocationTag) (k : Key) :
  In k (map fst (merge_actions df_actions location_tags)) <->
  exists a t, In a df_actions /\ In t location_tags
              /\ wa_location_id a = lt_location_id t
              /\ k = (wa_user_id a, lt_tag_id t, lt_tag_text t).
Proof.
  unfold merge_actions. rewrite in_map_iff. split.
  - intros [[k' c] [Hk Hin]]. simpl in Hk. subst k'.
    apply in_flat_map in Hin. destruct Hin as [a [Ha Hin]].
    apply in_map_iff in Hin. destruct Hin as [t [Heq Ht]].
    apply filter_In in Ht. destruct Ht as [Ht Hloc]. apply Z.eqb_eq in Hloc.
    inversion Heq. exists a, t. auto.
  - intros [a [t [Ha [Ht [Hloc ->]]]]].
    exists ((wa_user_id a, lt_tag_id t, lt_tag_text t), wa_weight a * (lt_score t / 100.0)).
    split; [reflexivity|].
    apply in_flat_map. exists a. split; [exact Ha|].
    apply in_map_iff. exists t. split; [reflexivity|].
    apply filter_In. split; [exact Ht | apply Z.eqb_eq; exact Hloc].
Qed.

(** A user has accumulated sums exactly when one of the user's actions
    resolves to a venue with tag evidence and has a weight that is not
    zero. *)
Lemma user_has_sums_iff (now : R) (has_created_at : bool)
    (user_actions : list UserAction) (location_tags : list LocationTag)
    (locations : list Location) (u : string) :
  (exists m, user_max (accumulated now has_created_at user_actions location_tags locations) u
             = Some m)
  <-> exists a loc t,
        In (a, loc) (resolve_actions locations user_actions)
        /\ ua_user_id a = u
        /\ action_weight now has_created_at a <> 0
        /\ In t location_tags /\ lt_location_id t = loc.
Proof.
  unfold accumulated. split.
  - intros [m Hm]. apply user_max_attained in Hm. destruct Hm as [k [Hin Hk]].
    apply aggregate_In in Hin. destruct Hin as [Hin _].
    apply merge_actions_keys in Hin. destruct Hin as [w [t [Hw [Ht [Hloc Hkey]]]]].
    apply apply_action_weights_In in Hw. destruct Hw as [a [loc [Ha [Hr Hne]]]].
    subst w k. simpl in *. exists a, loc, t. auto.
  - intros [a [loc [t [Ha [Hu [Hne [Ht Hloc]]]]]]].
    set (w := mkWeightedAction (ua_user_id a) (lower (ua_action a)) loc
                (action_weight now has_created_at a)).
    set (merged := merge_actions
                     (_apply_action_weights now has_created_at
                        (resolve_actions locations user_actions)) location_tags).
    assert (Hk : In (wa_user_id w, lt_tag_id t, lt_tag_text t) (map fst merged)).
    { apply merge_actions_keys. exists w, t. split.
      - apply apply_action_weights_In. exists a, loc. auto.
      - simpl. auto. }
    assert (Hagg : In ((wa_user_id w, lt_tag_id t, lt_tag_text t),
                       Rsum (map snd (filter (fun r => key_eqb (fst r)
                                                 (wa_user_id w, lt_tag_id t, lt_tag_text t))
                                             merged)))
                      (aggregate merged)).
    { apply aggregate_In. auto. }
    unfold user_max.
    destruct (filter (fun r => String.eqb (key_user (fst r)) u) (aggregate merged))
      as [|first rest] eqn:Hg.
    + exfalso.
      assert (Hin : In ((wa_user_id w, lt_tag_id t, lt_tag_text t),
                        Rsum (map snd (filter (fun r => key_eqb (fst r)
                                                  (wa_user_id w, lt_tag_id t, lt_tag_text t))
                                              merged)))
                       (filter (fun r => String.eqb (key_user (fst r)) u) (aggregate merged))).
      { apply filter_In. split; [exact Hagg|]. simpl. apply String.eqb_eq. exact Hu. }
      rewrite Hg in Hin. contradiction.
    + eexists. reflexivity.
Qed.

(** C4, amended. For a user with accumulated sums whose maximum is [m]:
    every affinity row of the user carries the accumulated sum of its tag,
    and its score is that sum divided by [m], times 100, when [m] is
    positive and 0 when [m] is not; the table holds a row of the user, and
    the best one scores exactly 100 when [m] is positive and 0 otherwise
    (so a user whose sums are all non-positive has rows with score 0, not
    zero rows). *)
Theorem C4_affinity_normalised_by_user_maximum
    (now : R) (has_created_at : bool) (user_actions : list UserAction)
    (location_tags : list LocationTag) (locations : list Location)
    (u : string) (m : R)
    (Hm : user_max (accumulated now has_created_at user_actions location_tags locations) u
          = Some m) :
  (forall r,
      In r (fst (build_user_tag_affinities now has_created_at user_actions
                   location_tags locations)) ->
      ut_user_id r = u ->
      In ((u, ut_tag_id r, ut_tag_text r), ut_raw_score r)
         (accumulated now has_created_at user_actions location_tags locations)
      /\ ut_score r = if Rleb m 0 then 0 else ut_raw_score r / m * 100)
  /\ (exists r,
         In r (fst (build_user_tag_affinities now has_created_at user_actions
                      location_tags locations))
         /\ ut_user_id r = u
         /\ ut_score r = if Rleb m 0 then 0 else 100).
Proof.
  rewrite build_fst.
  set (agg := accumulated now has_created_at user_actions location_tags locations) in *.
  assert (Hrows : forall r,
             In r (normalize_all agg) -> ut_user_id r = u ->
             In ((u, ut_tag_id r, ut_tag_text r), ut_raw_score r) agg
             /\ ut_score r = (if Rleb m 0 then 0 else ut_raw_score r / m * 100)
             /\ ut_raw_score r <= m).
  { intros r Hin Hu. apply normalize_all_In in Hin.
    destruct Hin as [k [c [m' [Hagg [Hm' Hr]]]]]. subst r. simpl in *.
    rewrite Hu in Hm'. rewrite Hm in Hm'. inversion Hm'; subst m'.
    split; [rewrite <- Hu, key_surjective; exact Hagg|].
    split.
    - destruct (Rleb m 0); lra.
    - apply (user_max_ge agg k); [exact Hagg | rewrite Hu; exact Hm]. }
  split.
  - intros r Hin Hu. apply group_head_In, sort_by_In in Hin.
    destruct (Hrows r Hin Hu) as [H1 [H2 _]]. auto.
  - destruct (user_max_attained agg u m Hm) as [k [Hagg Hk]].
    set (a := mkUserTag (key_user k) (key_tag_id k) (key_tag_text k)
                (if Rleb m 0 then 0.0 else m / m * 100.0) m).
    assert (Ha : In a (sort_by affinity_leb (normalize_all agg))).
    { apply sort_by_In, normalize_all_In. exists k, m, m.
      split; [exact Hagg|]. split; [rewrite Hk; exact Hm | reflexivity]. }
    destruct (group_head_first 24 [] (sort_by affinity_leb (normalize_all agg)) a)
      as [b [Hb [Hbu Hle]]].
    { apply sort_by_sorted; [apply affinity_leb_total | apply affinity_leb_trans]. }
    { exact Ha. }
    { intros []. }
    exists b. split; [exact Hb|].
    assert (Hbu' : ut_user_id b = u) by (rewrite Hbu; exact Hk).
    split; [exact Hbu'|].
    apply group_head_In, sort_by_In in Hb.
    destruct (Hrows b Hb Hbu') as [_ [Hscore Hraw]].
    unfold affinity_leb in Hle. rewrite Hbu, string_compare_refl in Hle.
    apply Rleb_true_iff in Hle. rewrite Hscore in Hle |- *. simpl in Hle.
    destruct (Rleb m 0) eqn:E; [reflexivity|].
    apply Rleb_false_iff in E.
    assert (H0 : m / m = 1) by (field; lra).
    assert (H1 : m / m * 100.0 = 100) by (rewrite H0; lra).
    assert (H2 : ut_raw_score b / m * 100 <= 100).
    { apply Rmult_le_reg_r with (r := m); [exact E|].
      replace (ut_raw_score b / m * 100 * m) with (ut_raw_score b * 100) by (field; lra).
      lra. }
    lra.
Qed.

(** Every affinity row belongs to a user with accumulated sums. *)
Lemma affinity_rows_have_sums (now : R) (has_created_at : bool)
    (user_actions : list UserAction) (location_tags : list LocationTag)
    (locations : list Location) (r : UserTag) :
  In r (fst (build_user_tag_affinities now has_created_at user_actions location_tags
               locations)) ->
  exists m,
    user_max (accumulated now has_created_at user_actions location_tags locations)
      (ut_user_id r) = Some m.
Proof.
  rewrite build_fst. intros Hin.
  apply group_head_In in Hin. apply (proj1 (sort_by_In _ _ _)) in Hin.
  apply normalize_all_In in Hin. destruct Hin as [k [c [m [_ [Hm ->]]]]].
  exists m. exact Hm.
Qed.

Lemma like_weight :
  action_weight 0 true (mkUserAction "u" "p1" "like" (Some 0)) = 2.0.
Proof.
  rewrite action_weight_eq. simpl ua_created_at. rewrite age_days_zero.
  replace (- 0 / 30) with 0 by lra. rewrite exp_0.
  replace (table_weight (lower (ua_action (mkUserAction "u" "p1" "like" (Some 0)))))
    with 2.0 by reflexivity.
  lra.
Qed.

Lemma like_accumulated :
  accumulated 0 true like_log italian_tags italian_venue
  = [(("u"%string, 1%Z, "italian"%string), 2.0 * (92 / 100.0) + 0)].
Proof.
  unfold accumulated, like_log, italian_tags, italian_venue.
  replace (resolve_actions _ _)
    with [(mkUserAction "u" "p1" "like" (Some 0), 1%Z)] by reflexivity.
  unfold _apply_action_weights. cbn [map filter fst snd wa_weight ua_user_id ua_action].
  rewrite like_weight.
  rewrite (proj2 (Reqb_false_iff 2.0 0)) by lra. cbn [negb].
  reflexivity.
Qed.

(** The theorem at the one-like log: the user's only tag scores 100. *)
Lemma C4_witness_single_like :
  exists r,
    In r (fst (build_user_tag_affinities 0 true like_log italian_tags italian_venue))
    /\ ut_user_id r = "u"%string
    /\ ut_score r = if Rleb (2.0 * (92 / 100.0) + 0) 0 then 0 else 100.
Proof.
  apply (C4_affinity_normalised_by_user_maximum 0 true like_log italian_tags
           italian_venue "u" (2.0 * (92 / 100.0) + 0)).
  rewrite like_accumulated. reflexivity.
Defined.

(** *** Two runs at different clock readings *)

(** Generic facts on lists related row by row. *)
Section Forall2Facts.
Context {A B : Type} (rel : A -> B -> Prop).

Lemma Forall2_flat_map {C D : Type} (relc : C -> D -> Prop)
    (f : C -> list A) (g : D -> list B) (l1 : list C) (l2 : list D) :
  (forall c d, relc c d -> Forall2 rel (f c) (g d)) ->
  Forall2 relc l1 l2 -> Forall2 rel (flat_map f l1) (flat_map g l2).
Proof.
  intros Hfg. induction 1 as [|c d l1 l2 Hcd Hl IH]; simpl; [constructor|].
  apply Forall2_app; [apply Hfg; exact Hcd | exact IH].
Qed.

Lemma Forall2_map_same {C : Type} (f : C -> A) (g : C -> B) (l : list C) :
  (forall c, In c l -> rel (f c) (g c)) -> Forall2 rel (map f l) (map g l).
Proof.
  induction l as [|c l IH]; simpl; intros H; constructor.
  - apply H. left. reflexivity.
  - apply IH. intros c' Hc'. apply H. right. exact Hc'.
Qed.

Lemma Forall2_is_empty (l1 : list A) (l2 : list B) :
  Forall2 rel l1 l2 -> is_empty l1 = is_empty l2.
Proof. destruct 1; reflexivity. Qed.

Lemma Forall2_map_eq {C : Type} (f : A -> C) (g : B -> C) (l1 : list A) (l2 : list B) :
  (forall a b, rel a b -> f a = g b) ->
  Forall2 rel l1 l2 -> map f l1 = map g l2.
Proof.
  intros Hfg. induction 1 as [|a b l1 l2 Hab Hl IH]; simpl; [reflexivity|].
  rewrite (Hfg a b Hab), IH. reflexivity.
Qed.
End Forall2Facts.

Lemma same_event_refl (l : list UserAction) : Forall2 same_event l l.
Proof. induction l; constructor; [repeat split | assumption]. Qed.

Lemma age_days_past (now ts : R) : ts <= now -> age_days now (Some ts) = (now - ts) / 86400.
Proof.
  intros H. unfold age_days. simpl. apply Rmax_left.
  apply Rmult_le_pos; lra.
Qed.

Lemma decay_positive (now : R) (has_created_at : bool) (created_at : option R) :
  0 < decay now has_created_at created_at.
Proof.
  unfold decay. destruct has_created_at; [apply exp_pos | lra].
Qed.

(** Whether an action is dropped by the zero filter is decided by its
    type, not by the clock. *)
Lemma action_weight_zero (now : R) (has_created_at : bool) (a : UserAction) :
  action_weight now has_created_at a = 0 <-> table_weight (lower (ua_action a)) = 0.
Proof.
  unfold action_weight. rewrite table_weight_lookup.
  pose proof (decay_positive now has_created_at (ua_created_at a)) as Hpos.
  split; intros H.
  - apply Rmult_integral in H. destruct H; [assumption | lra].
  - rewrite H. ring.
Qed.

(** The synthesized logs of two runs hold the same events. *)
Lemma synthesize_rows_same (rng : nat -> string * Z) (clock1 clock2 : nat -> R)
    (place_lookup : list (Z * string)) (user_id : string) (chosen : list TagScore)
    (rows1 rows2 : list UserAction) :
  Forall2 same_event rows1 rows2 ->
  Forall2 same_event
    (fold_left (synthesize_row rng clock1 place_lookup user_id) chosen rows1)
    (fold_left (synthesize_row rng clock2 place_lookup user_id) chosen rows2).
Proof.
  revert rows1 rows2. induction chosen as [|record chosen IH]; intros rows1 rows2 H;
    simpl; [exact H|].
  apply IH. unfold synthesize_row.
  destruct (dict_get Z.eqb (tg_location_id record) place_lookup) as [place_id|]; [|exact H].
  destruct place_id as [|c place_id]; [exact H|].
  apply Forall2_app; [exact H|].
  constructor; [|constructor].
  rewrite (Forall2_length H). repeat split.
Qed.

Lemma synthesize_same (rng : nat -> string * Z) (clock1 clock2 : nat -> R)
    (locations : list Location) (location_tags : list LocationTag)
    (profiles : list Profile) :
  Forall2 same_event
    (synthesize_user_actions rng clock1 locations location_tags profiles)
    (synthesize_user_actions rng clock2 locations location_tags profiles).
Proof.
  unfold synthesize_user_actions.
  generalize (if is_empty profiles then SYNTHETIC_PROFILES else profiles).
  intros l.
  assert (H : Forall2 same_event (@nil UserAction) (@nil UserAction)) by constructor.
  revert H. generalize (@nil UserAction) at 1 3. generalize (@nil UserAction).
  induction l as [|profile l IH]; intros rows2 rows1 H; simpl; [exact H|].
  apply IH. apply synthesize_rows_same. exact H.
Qed.

Lemma ensure_user_actions_same (rng : nat -> string * Z) (clock1 clock2 : nat -> R)
    (user_actions : list UserAction) (locations : list Location)
    (location_tags : list LocationTag) (allow_synthetic : bool) :
  Forall2 same_event
    (fst (ensure_user_actions rng clock1 user_actions locations location_tags
            allow_synthetic))
    (fst (ensure_user_actions rng clock2 user_actions locations location_tags
            allow_synthetic))
  /\ snd (ensure_user_actions rng clock1 user_actions locations location_tags
            allow_synthetic)
     = snd (ensure_user_actions rng clock2 user_actions locations location_tags
              allow_synthetic).
Proof.
  unfold ensure_user_actions.
  destruct (is_empty user_actions && allow_synthetic); cbn [fst snd].
  - split; [apply synthesize_same | reflexivity].
  - split; [apply same_event_refl | reflexivity].
Qed.

Lemma resolve_actions_same (locations : list Location) (log1 log2 : list UserAction) :
  Forall2 same_event log1 log2 ->
  Forall2 same_resolved (resolve_actions locations log1) (resolve_actions locations log2).
Proof.
  intros H. unfold resolve_actions.
  apply (Forall2_flat_map same_resolved same_event); [|exact H].
  intros a b Hab. pose proof Hab as [_ [Hp _]]. rewrite Hp.
  destruct (dict_get String.eqb (ua_place_id b) (place_to_location locations));
    constructor; [|constructor].
  split; [exact Hab | reflexivity].
Qed.

Lemma apply_action_weights_same (now1 now2 : R) (has_created_at : bool)
    (actions1 actions2 : list (UserAction * Z)) :
  Forall2 same_resolved actions1 actions2 ->
  Forall2 same_weighted (_apply_action_weights now1 has_created_at actions1)
                        (_apply_action_weights now2 has_created_at actions2).
Proof.
  unfold _apply_action_weights.
  induction 1 as [|p q l1 l2 [[Hu [_ Ha]] Hloc] Hl IH]; simpl; [constructor|].
  assert (Hzero : action_weight now1 has_created_at (fst p) = 0
                  <-> action_weight now2 has_created_at (fst q) = 0).
  { rewrite !action_weight_zero, Ha. reflexivity. }
  destruct (Req_dec_T (action_weight now1 has_created_at (fst p)) 0) as [H0|H0].
  - rewrite (proj2 (Reqb_true_iff _ _) H0).
    rewrite (proj2 (Reqb_true_iff _ _) (proj1 Hzero H0)). exact IH.
  - rewrite (proj2 (Reqb_false_iff _ _) H0).
    assert (H0' : action_weight now2 has_created_at (fst q) <> 0)
      by (intros Hz; apply H0, Hzero, Hz).
    rewrite (proj2 (Reqb_false_iff _ _) H0'). simpl.
    constructor; [|exact IH].
    unfold same_weighted. simpl. rewrite Hu, Ha, Hloc. auto.
Qed.

Lemma merge_actions_same (df1 df2 : list WeightedAction) (location_tags : list LocationTag) :
  Forall2 same_weighted df1 df2 ->
  Forall2 (fun x y : Key * R => fst x = fst y)
          (merge_actions df1 location_tags) (merge_actions df2 location_tags).
Proof.
  intros H. unfold merge_actions.
  apply (Forall2_flat_map _ same_weighted); [|exact H].
  intros a b [Hu [_ Hl]]. rewrite Hl.
  apply Forall2_map_same. intros t _. simpl. rewrite Hu. reflexivity.
Qed.

Lemma history_of_same (df1 df2 : list WeightedAction) :
  Forall2 same_weighted df1 df2 -> history_of df1 = history_of df2.
Proof.
  intros H. unfold history_of.
  assert (Husers : map wa_user_id df1 = map wa_user_id df2).
  { apply (Forall2_map_eq same_weighted); [|exact H]. intros a b [Hab _]. exact Hab. }
  rewrite <- Husers. f_equal. apply map_ext. intros u. f_equal.
  unfold len. f_equal.
  clear Husers. induction H as [|a b l1 l2 [Hab _] Hl IH]; simpl; [reflexivity|].
  rewrite <- Hab. destruct (String.eqb (wa_user_id a) u); simpl; rewrite IH; reflexivity.
Qed.

(** The history summary of two logs with the same events, whatever the
    clock readings. *)
Lemma history_summary_same (now1 now2 : R) (has_created_at : bool)
    (log1 log2 : list UserAction) (location_tags : list LocationTag)
    (locations : list Location) :
  Forall2 same_event log1 log2 ->
  snd (build_user_tag_affinities now1 has_created_at log1 location_tags locations)
  = snd (build_user_tag_affinities now2 has_created_at log2 location_tags locations).
Proof.
  intros H. unfold build_user_tag_affinities.
  rewrite (Forall2_is_empty _ _ _ H).
  destruct (is_empty log2 || is_empty location_tags); [reflexivity|].
  pose proof (apply_action_weights_same now1 now2 has_created_at _ _
                (resolve_actions_same locations log1 log2 H)) as Hw.
  rewrite (Forall2_is_empty _ _ _ Hw).
  destruct (is_empty (_apply_action_weights now2 has_created_at _)); [reflexivity|].
  rewrite (Forall2_is_empty _ _ _ (merge_actions_same _ _ location_tags Hw)).
  destruct (is_empty (merge_actions _ _)); [reflexivity|].
  cbn [snd]. apply history_of_same. exact Hw.
Qed.

(** Without a [created_at] column the weighting reads no clock. *)
Lemma build_user_tag_affinities_no_clock (now1 now2 : R) (user_actions : list UserAction)
    (location_tags : list LocationTag) (locations : list Location) :
  build_user_tag_affinities now1 false user_actions location_tags locations
  = build_user_tag_affinities now2 false user_actions location_tags locations.
Proof. reflexivity. Qed.

Lemma resolve_actions_In (locations : list Location) (user_actions : list UserAction)
    (a : UserAction) (loc : Z) :
  In (a, loc) (resolve_actions locations user_actions) ->
  In a user_actions
  /\ dict_get String.eqb (ua_place_id a) (place_to_location locations) = Some loc.
Proof.
  unfold resolve_actions. rewrite in_flat_map. intros [a' [Hin H]].
  destruct (dict_get String.eqb (ua_place_id a') (place_to_location locations)) eqn:E;
    [|contradiction].
  destruct H as [H|[]]. inversion H; subst. auto.
Qed.

(** A run on a log that is not replaced by a synthetic one (it is not empty,
    or synthesis is disabled): its one clock reading is the first. *)
Lemma run_pipeline_real_log (set_iter : list string -> list string)
    (rng : nat -> string * Z) (clock : nat -> R) (has_created_at : bool)
    (locations : list Location) (location_tags : list LocationTag)
    (user_actions : list UserAction) (config : Blender.PipelineConfig) :
  is_empty user_actions && Blender.synthetic_users config = false ->
  Pipeline.run_pipeline set_iter rng clock has_created_at locations location_tags
    user_actions config
  = (fst (build_user_tag_affinities (clock O) has_created_at user_actions location_tags
            locations),
     snd (build_user_tag_affinities (clock O) has_created_at user_actions location_tags
            locations),
     Blender.build_recommendations set_iter locations
       (fst (build_user_tag_affinities (clock O) has_created_at user_actions location_tags
               locations))
       location_tags
       (snd (build_user_tag_affinities (clock O) has_created_at user_actions location_tags
               locations))
       user_actions config).
Proof.
  intros Hreal. unfold Pipeline.run_pipeline, ensure_user_actions.
  rewrite Hreal, orb_false_r.
  destruct (build_user_tag_affinities (clock O) has_created_at user_actions location_tags
              locations).
  reflexivity.
Qed.

(** The history summary of a run, in terms of the log it works on. *)
Lemma run_pipeline_history (set_iter : list string -> list string)
    (rng : nat -> string * Z) (clock : nat -> R) (has_created_at : bool)
    (locations : list Location) (location_tags : list LocationTag)
    (user_actions : list UserAction) (config : Blender.PipelineConfig) :
  exists now,
    snd (fst (Pipeline.run_pipeline set_iter rng clock has_created_at locations
                location_tags user_actions config))
    = snd (build_user_tag_affinities now
             (has_created_at
              || snd (ensure_user_actions rng clock user_actions locations location_tags
                        (Blender.synthetic_users config)))
             (fst (ensure_user_actions rng clock user_actions locations location_tags
                     (Blender.synthetic_users config)))
             location_tags locations).
Proof.
  unfold Pipeline.run_pipeline.
  destruct (ensure_user_actions rng clock user_actions locations location_tags
              (Blender.synthetic_users config)) as [log synthetic].
  cbn [fst snd].
  exists (clock (if synthetic then length log else O)).
  destruct (build_user_tag_affinities _ _ log location_tags locations). reflexivity.
Qed.

(** The affinity table of the one-like log at any clock reading at which the
    like has a positive weight [w]. *)
Lemma like_affinities (now : R) :
  0 < action_weight now true (mkUserAction "u" "p1" "like" (Some 0)) ->
  fst (build_user_tag_affinities now true like_log italian_tags italian_venue)
  = [mkUserTag "u" 1 "italian" 100
       (action_weight now true (mkUserAction "u" "p1" "like" (Some 0)) * (92 / 100.0) + 0)].
Proof.
  intros Hw.
  unfold build_user_tag_affinities, like_log, italian_tags, italian_venue.
  cbn [is_empty orb].
  replace (resolve_actions _ _)
    with [(mkUserAction "u" "p1" "like" (Some 0), 1%Z)] by reflexivity.
  unfold _apply_action_weights. cbn [map filter fst snd wa_weight ua_user_id ua_action].
  set (w := action_weight now true (mkUserAction "u" "p1" "like" (Some 0))) in *.
  rewrite (proj2 (Reqb_false_iff w 0)) by lra. cbn [negb is_empty].
  replace (merge_actions _ _)
    with [(("u"%string, 1%Z, "italian"%string), w * (92 / 100.0))] by reflexivity.
  cbn [is_empty].
  replace (aggregate _)
    with [(("u"%string, 1%Z, "italian"%string), w * (92 / 100.0) + 0)] by reflexivity.
  replace (normalize_all _)
    with [mkUserTag "u" 1 "italian"
            (if Rleb (w * (92 / 100.0) + 0) 0 then 0.0
             else (w * (92 / 100.0) + 0) / (w * (92 / 100.0) + 0) * 100.0)
            (w * (92 / 100.0) + 0)] by reflexivity.
  rewrite (proj2 (Rleb_false_iff (w * (92 / 100.0) + 0) 0)) by lra.
  replace ((w * (92 / 100.0) + 0) / (w * (92 / 100.0) + 0)) with 1 by (field; lra).
  replace (1 * 100.0) with 100 by lra.
  reflexivity.
Qed.

Lemma like_weight_at (now : R) :
  0 <= now ->
  action_weight now true (mkUserAction "u" "p1" "like" (Some 0))
  = 2.0 * exp (- (now / 86400) / 30).
Proof.
  intros H. rewrite action_weight_eq. simpl ua_created_at.
  rewrite age_days_past by exact H.
  replace (table_weight (lower (ua_action (mkUserAction "u" "p1" "like" (Some 0)))))
    with 2.0 by reflexivity.
  replace (now - 0) with now by ring. reflexivity.
Qed.

(** The log synthesized for the inventory of one venue tagged "italian":
    one row, for the persona that has the tag. *)
Lemma synthesize_italian (rng : nat -> string * Z) (clock : nat -> R) :
  synthesize_user_actions rng clock italian_venue italian_tags []
  = [mkUserAction "demo_date_night" "p1" (fst (rng O))
       (Some (clock O - IZR (snd (rng O)) * 86400))].
Proof. reflexivity. Qed.

(** The affinity table of a run that synthesizes its log. *)
Lemma run_pipeline_synthetic (set_iter : list string -> list string)
    (rng : nat -> string * Z) (clock : nat -> R) (has_created_at : bool)
    (locations : list Location) (location_tags : list LocationTag)
    (config : Blender.PipelineConfig) :
  Blender.synthetic_users config = true ->
  fst (fst (Pipeline.run_pipeline set_iter rng clock has_created_at locations
              location_tags [] config))
  = fst (build_user_tag_affinities
           (clock (length (synthesize_user_actions rng clock locations location_tags [])))
           true
           (synthesize_user_actions rng clock locations location_tags [])
           location_tags locations).
Proof.
  intros Hs. unfold Pipeline.run_pipeline, ensure_user_actions.
  cbn [is_empty andb]. rewrite Hs, orb_true_r.
  destruct (build_user_tag_affinities _ true _ location_tags locations). reflexivity.
Qed.

(** The affinity table of that one-row log at any clock reading at which
    the row has a positive weight. *)
Lemma persona_affinities (now : R) (action : string) (ts : option R) :
  0 < action_weight now true (mkUserAction "demo_date_night" "p1" action ts) ->
  fst (build_user_tag_affinities now true
         [mkUserAction "demo_date_night" "p1" action ts] italian_tags italian_venue)
  = [mkUserTag "demo_date_night" 1 "italian" 100
       (action_weight now true (mkUserAction "demo_date_night" "p1" action ts)
        * (92 / 100.0) + 0)].
Proof.
  intros Hw.
  unfold build_user_tag_affinities, italian_tags, italian_venue.
  cbn [is_empty orb].
  replace (resolve_actions _ _)
    with [(mkUserAction "demo_date_night" "p1" action ts, 1%Z)] by reflexivity.
  unfold _apply_action_weights. cbn [map filter fst snd wa_weight ua_user_id ua_action].
  set (w := action_weight now true (mkUserAction "demo_date_night" "p1" action ts)) in *.
  rewrite (proj2 (Reqb_false_iff w 0)) by lra. cbn [negb is_empty].
  replace (merge_actions _ _)
    with [(("demo_date_night"%string, 1%Z, "italian"%string), w * (92 / 100.0))]
    by reflexivity.
  cbn [is_empty].
  replace (aggregate _)
    with [(("demo_date_night"%string, 1%Z, "italian"%string), w * (92 / 100.0) + 0)]
    by reflexivity.
  replace (normalize_all _)
    with [mkUserTag "demo_date_night" 1 "italian"
            (if Rleb (w * (92 / 100.0) + 0) 0 then 0.0
             else (w * (92 / 100.0) + 0) / (w * (92 / 100.0) + 0) * 100.0)
            (w * (92 / 100.0) + 0)] by reflexivity.
  rewrite (proj2 (Rleb_false_iff (w * (92 / 100.0) + 0) 0)) by lra.
  replace ((w * (92 / 100.0) + 0) / (w * (92 / 100.0) + 0)) with 1 by (field; lra).
  replace (1 * 100.0) with 100 by lra.
  reflexivity.
Qed.

(** The weight of the generated row when the weighting reads the clock
    [delay] seconds after the row was stamped. *)
Lemma persona_weight (stamp delay : R) (action : string) (days : Z) :
  action = "save"%string \/ action = "like"%string \/ action = "detail_view"%string ->
  (0 <= days)%Z -> 0 <= delay ->
  0 < table_weight (lower action)
  /\ action_weight (stamp + delay) true
       (mkUserAction "demo_date_night" "p1" action (Some (stamp - IZR days * 86400)))
     = table_weight (lower action)
       * exp (- ((delay + IZR days * 86400) / 86400) / 30).
Proof.
  intros Hact Hdays Hdelay. apply IZR_le in Hdays.
  rewrite action_weight_eq. cbn [ua_created_at ua_action].
  rewrite age_days_past by lra.
  replace (stamp + delay - (stamp - IZR days * 86400)) with (delay + IZR days * 86400) by ring.
  split; [|reflexivity].
  destruct Hact as [-> | [-> | ->]].
  - replace (table_weight (lower "save")) with 3.0 by reflexivity. lra.
  - replace (table_weight (lower "like")) with 2.0 by reflexivity. lra.
  - replace (table_weight (lower "detail_view")) with 0.5 by reflexivity. lra.
Qed.

(** C9, as stated, fails. The same tables (one venue tagged "italian", one
    user who liked it at time 0) give different affinity tables when the
    pipeline runs at time 0 and when it runs thirty days later, because the
    weights decay with the age of the actions at the time of the run. It
    fails as well on an empty log, which the pipeline replaces by a
    synthesized one: whatever the first draw of the seeded generator, the
    row generated for that venue is stamped with one clock reading and
    weighted at a later one, and a run in which one second passes between
    the readings and a run in which two seconds pass give different
    affinity tables. *)
Lemma C9_counterexample_output_depends_on_clock :
  Pipeline.run_pipeline (fun l => l) constant_draws (at_instant 0) true italian_venue
    italian_tags like_log default_pipeline_config
  <> Pipeline.run_pipeline (fun l => l) constant_draws (at_instant (86400 * 30)) true
       italian_venue italian_tags like_log default_pipeline_config
  /\ ~ (exists rng : nat -> string * Z,
          (fst (rng O) = "save"%string \/ fst (rng O) = "like"%string
           \/ fst (rng O) = "detail_view"%string)
          /\ (0 <= snd (rng O))%Z
          /\ Pipeline.run_pipeline (fun l => l) rng (ticking 1) false italian_venue
               italian_tags [] default_pipeline_config
             = Pipeline.run_pipeline (fun l => l) rng (ticking 2) false italian_venue
                 italian_tags [] default_pipeline_config).
Proof.
  split.
  - rewrite !run_pipeline_real_log by reflexivity. unfold at_instant. intros Heq.
    apply (f_equal (fun t => fst (fst t))) in Heq. cbn [fst] in Heq.
    pose proof (exp_pos (- (0 / 86400) / 30)) as Hp1.
    pose proof (exp_pos (- (86400 * 30 / 86400) / 30)) as Hp2.
    rewrite !like_affinities in Heq by (rewrite like_weight_at by lra; lra).
    rewrite !like_weight_at in Heq by lra.
    inversion Heq as [Hraw].
    assert (He : exp (- (0 / 86400) / 30) = exp (- (86400 * 30 / 86400) / 30)) by lra.
    apply exp_inv in He. lra.
  - intros [rng [Hact [Hdays Heq]]].
    apply (f_equal (fun t => fst (fst t))) in Heq.
    rewrite !run_pipeline_synthetic in Heq by reflexivity.
    rewrite !synthesize_italian in Heq. cbn [length] in Heq.
    unfold ticking in Heq.
    replace (INR 0 * 1) with 0 in Heq by (simpl; ring).
    replace (INR 0 * 2) with 0 in Heq by (simpl; ring).
    replace (INR 1 * 1) with (0 + 1) in Heq by (simpl; ring).
    replace (INR 1 * 2) with (0 + 2) in Heq by (simpl; ring).
    destruct (persona_weight 0 1 (fst (rng O)) (snd (rng O)) Hact Hdays) as [Hw E1]; [lra|].
    destruct (persona_weight 0 2 (fst (rng O)) (snd (rng O)) Hact Hdays) as [_ E2]; [lra|].
    pose proof (exp_pos (- ((1 + IZR (snd (rng O)) * 86400) / 86400) / 30)) as Hp1.
    pose proof (exp_pos (- ((2 + IZR (snd (rng O)) * 86400) / 86400) / 30)) as Hp2.
    rewrite !persona_affinities in Heq
      by (first [rewrite E1 | rewrite E2]; apply Rmult_lt_0_compat; assumption).
    rewrite E1, E2 in Heq.
    inversion Heq as [Hraw].
    assert (He : exp (- ((1 + IZR (snd (rng O)) * 86400) / 86400) / 30)
                 = exp (- ((2 + IZR (snd (rng O)) * 86400) / 86400) / 30)) by nra.
    apply exp_inv in He. lra.
Qed.

(** C9, amended. Two runs of the pipeline on identical input tables, with
    the same draws of the seeded generator and the same iteration order of
    the user-id set but any clock readings, work on logs that hold the same
    events (users, places and action types; a synthesized log differs by
    its timestamps only), and they produce the same history summary,
    whether the log is read from the input or synthesized. When no clock is
    read, that is when the log read from the input is the one the run works
    on (it is not empty, or synthesis is disabled) and has no [created_at]
    column, the two runs produce the same three tables. *)
Theorem C9_runs_agree_on_history_and_without_timestamps
    (set_iter : list string -> list string) (rng : nat -> string * Z)
    (clock1 clock2 : nat -> R) (has_created_at : bool)
    (locations : list Location) (location_tags : list LocationTag)
    (user_actions : list UserAction) (config : Blender.PipelineConfig) :
  Forall2 same_event
    (fst (ensure_user_actions rng clock1 user_actions locations location_tags
            (Blender.synthetic_users config)))
    (fst (ensure_user_actions rng clock2 user_actions locations location_tags
            (Blender.synthetic_users config)))
  /\ snd (fst (Pipeline.run_pipeline set_iter rng clock1 has_created_at locations
                 location_tags user_actions config))
     = snd (fst (Pipeline.run_pipeline set_iter rng clock2 has_created_at locations
                   location_tags user_actions config))
  /\ (is_empty user_actions && Blender.synthetic_users config = false ->
      Pipeline.run_pipeline set_iter rng clock1 false locations location_tags
        user_actions config
      = Pipeline.run_pipeline set_iter rng clock2 false locations location_tags
          user_actions config).
Proof.
  destruct (ensure_user_actions_same rng clock1 clock2 user_actions locations
              location_tags (Blender.synthetic_users config)) as [Hlog Hsynthetic].
  split; [exact Hlog|]. split.
  - destruct (run_pipeline_history set_iter rng clock1 has_created_at locations
                location_tags user_actions config) as [now1 H1].
    destruct (run_pipeline_history set_iter rng clock2 has_created_at locations
                location_tags user_actions config) as [now2 H2].
    rewrite H1, H2, Hsynthetic. apply history_summary_same. exact Hlog.
  - intros Hreal. rewrite !run_pipeline_real_log by exact Hreal.
    rewrite (build_user_tag_affinities_no_clock (clock1 O) (clock2 O)). reflexivity.
Qed.

(** The theorem at the one-like log without its [created_at] column, for
    runs at time 0 and thirty days later. *)
Lemma C9_witness_log_without_timestamps :
  Pipeline.run_pipeline (fun l => l) constant_draws (at_instant 0) false italian_venue
    italian_tags like_log default_pipeline_config
  = Pipeline.run_pipeline (fun l => l) constant_draws (at_instant (86400 * 30)) false
      italian_venue italian_tags like_log default_pipeline_config.
Proof.
  apply (C9_runs_agree_on_history_and_without_timestamps (fun l => l) constant_draws
           (at_instant 0) (at_instant (86400 * 30)) false italian_venue italian_tags
           like_log default_pipeline_config).
  reflexivity.
Defined.

End UserProfilesProperties.

(* ================================================================== *)
(** ** Review-derived tags *)
(* ================================================================== *)

Section TaggingProperties.
Import Tagging.

Lemma group_key_eqb_eq (a b : GroupKey) : group_key_eqb a b = true <-> a = b.
Proof.
  unfold group_key_eqb. destruct a as [l1 t1], b as [l2 t2]. simpl.
  rewrite andb_true_iff, Z.eqb_eq, String.eqb_eq. split.
  - intros [-> ->]. reflexivity.
  - intros H. inversion H. auto.
Qed.

Lemma add_hit_NoDup (author : string) (grouped : list (GroupKey * GroupInfo)) (key : GroupKey) :
  NoDup (map fst grouped) -> NoDup (map fst (add_hit author grouped key)).
Proof. unfold add_hit. apply dict_set_NoDup. apply group_key_eqb_eq. Qed.

Lemma add_review_NoDup (grouped : list (GroupKey * GroupInfo)) (row : Review) :
  NoDup (map fst grouped) -> NoDup (map fst (add_review grouped row)).
Proof.
  unfold add_review. generalize (found_tags (lower (rv_text row))). intros tags.
  revert grouped. induction tags as [|t tags IH]; simpl; intros grouped H; [exact H|].
  apply IH. apply add_hit_NoDup. exact H.
Qed.

(** The keys of [grouped] are pairwise distinct. *)
Lemma fold_left_invariant {A B : Type} (P : A -> Prop) (f : A -> B -> A) (l : list B)
    (a : A) :
  (forall a x, P a -> P (f a x)) -> P a -> P (fold_left f l a).
Proof.
  intros Hstep. revert a. induction l as [|x l IH]; intros a H; [exact H|].
  simpl. apply IH, Hstep, H.
Qed.

Lemma group_hits_NoDup (reviews : list Review) (config : ReviewTagConfig) :
  NoDup (map fst (group_hits reviews config)).
Proof.
  unfold group_hits.
  apply (fold_left_invariant (fun g => NoDup (map fst g)) add_review).
  - intros g r H. apply add_review_NoDup. exact H.
  - constructor.
Qed.

Lemma review_tag_records_eq (reviews : list Review) (config : ReviewTagConfig) :
  _review_tag_records reviews config
  = flat_map (group_record config) (group_hits reviews config).
Proof.
  unfold _review_tag_records. destruct reviews as [|r reviews]; [|reflexivity].
  unfold group_hits. simpl. destruct (english_only config); reflexivity.
Qed.

(** The records of one group: none when both counts are below their
    thresholds, one otherwise. *)
Lemma group_record_In (config : ReviewTagConfig) (g : GroupKey * GroupInfo) (r : TagRecord) :
  In r (group_record config g) <->
  (min_unique_authors config <= len (authors (snd g))
   \/ min_mentions config <= mentions (snd g))%Z
  /\ r = mkTagRecord (fst (fst g)) (snd (fst g))
           (review_score config (len (authors (snd g))) (mentions (snd g)))
           "reviews" (mentions (snd g)) (len (authors (snd g))).
Proof.
  unfold group_record.
  destruct (len (authors (snd g)) <? min_unique_authors config)%Z eqn:E1;
    destruct (mentions (snd g) <? min_mentions config)%Z eqn:E2; simpl;
    try apply Z.ltb_lt in E1; try apply Z.ltb_ge in E1;
    try apply Z.ltb_lt in E2; try apply Z.ltb_ge in E2.
  - split; [contradiction|]. intros [[H|H] _]; lia.
  - split; [intros [H|[]]; split; [right; lia | auto] | intros [_ H]; auto].
  - split; [intros [H|[]]; split; [left; lia | auto] | intros [_ H]; auto].
  - split; [intros [H|[]]; split; [left; lia | auto] | intros [_ H]; auto].
Qed.

(** C5. A (venue, tag) group of review hits has a record exactly when
    [unique_authors >= min_unique_authors] or [mentions >= min_mentions],
    and the confidence of that record is
    [score_floor + 15 ln(1 + unique_authors) + 10 ln(1 + mentions)], capped
    at [score_cap]. *)
Theorem C5_review_group_gate_and_confidence
    (reviews : list Review) (config : ReviewTagConfig)
    (key : GroupKey) (info : GroupInfo)
    (Hgroup : In (key, info) (group_hits reviews config)) :
  ((exists r, In r (_review_tag_records reviews config)
              /\ tr_location_id r = fst key /\ tr_tag_text r = snd key)
   <-> (min_unique_authors config <= len (authors info)
        \/ min_mentions config <= mentions info)%Z)
  /\ (forall r,
        In r (_review_tag_records reviews config) ->
        tr_location_id r = fst key -> tr_tag_text r = snd key ->
        tr_score r
        = Rmin (score_cap config)
               (score_floor config + 15 * ln (1 + IZR (len (authors info)))
                + 10 * ln (1 + IZR (mentions info)))
        /\ tr_unique_authors r = len (authors info)
        /\ tr_mentions r = mentions info).
Proof.
  rewrite review_tag_records_eq.
  assert (Hown : forall r,
            In r (flat_map (group_record config) (group_hits reviews config)) ->
            tr_location_id r = fst key -> tr_tag_text r = snd key ->
            In r (group_record config (key, info))).
  { intros r Hin Hloc Htag. apply in_flat_map in Hin.
    destruct Hin as [[key' info'] [Hg Hr]].
    pose proof Hr as Hr'. apply group_record_In in Hr'. destruct Hr' as [_ Heq].
    simpl in Heq. subst r. simpl in Hloc, Htag.
    assert (Hk : key' = key) by (destruct key, key'; simpl in *; congruence).
    subst key'.
    rewrite (NoDup_keys_functional (group_hits reviews config) key info info'
               (group_hits_NoDup reviews config) Hgroup Hg).
    exact Hr. }
  split.
  - split.
    + intros [r [Hin [Hloc Htag]]]. apply (Hown r Hin Hloc) in Htag.
      apply group_record_In in Htag. simpl in Htag. tauto.
    + intros Hgate.
      exists (mkTagRecord (fst key) (snd key)
                (review_score config (len (authors info)) (mentions info))
                "reviews" (mentions info) (len (authors info))).
      split; [|split; reflexivity].
      apply in_flat_map. exists (key, info). split; [exact Hgroup|].
      apply group_record_In. simpl. auto.
  - intros r Hin Hloc Htag. apply (Hown r Hin Hloc) in Htag.
    apply group_record_In in Htag. simpl in Htag. destruct Htag as [_ ->]. simpl.
    unfold review_score, log1p. auto.
Qed.

Lemma sample_group_hits :
  group_hits sample_reviews default_review_config
  = [ ((1%Z, "cozy"%string), mkGroupInfo ["ann"%string; "bob"%string] 2);
      ((1%Z, "romantic"%string), mkGroupInfo ["bob"%string] 1);
      ((1%Z, "date_night"%string), mkGroupInfo ["bob"%string] 1) ].
Proof. vm_compute. reflexivity. Qed.

(** The theorem at the "cozy" group of the sample reviews: two mentions by
    two authors, kept by the author threshold. *)
Lemma C5_witness_two_authors :
  ((exists r, In r (_review_tag_records sample_reviews default_review_config)
              /\ tr_location_id r = 1%Z /\ tr_tag_text r = "cozy"%string)
   <-> (2 <= 2 \/ 3 <= 2)%Z)
  /\ (forall r,
        In r (_review_tag_records sample_reviews default_review_config) ->
        tr_location_id r = 1%Z -> tr_tag_text r = "cozy"%string ->
        tr_score r = Rmin 100.0 (20.0 + 15 * ln (1 + IZR 2) + 10 * ln (1 + IZR 2))
        /\ tr_unique_authors r = 2%Z
        /\ tr_mentions r = 2%Z).
Proof.
  apply (C5_review_group_gate_and_confidence sample_reviews default_review_config
           (1%Z, "cozy"%string) (mkGroupInfo ["ann"%string; "bob"%string] 2)).
  rewrite sample_group_hits. simpl. left. reflexivity.
Defined.

Lemma fold_left_flat_map {A B C : Type} (f : A -> C -> A) (h : B -> list C)
    (l : list B) (a : A) :
  fold_left f (flat_map h l) a = fold_left (fun acc x => fold_left f (h x) acc) l a.
Proof.
  revert a. induction l as [|x l IH]; simpl; intros a; [reflexivity|].
  rewrite fold_left_app. apply IH.
Qed.

Lemma fold_left_map {A B C : Type} (f : A -> C -> A) (g : B -> C) (l : list B) (a : A) :
  fold_left f (map g l) a = fold_left (fun acc x => f acc (g x)) l a.
Proof. revert a. induction l as [|x l IH]; simpl; intros a; [reflexivity | apply IH]. Qed.

Lemma fold_left_pointwise {A B : Type} (f g : A -> B -> A) (l : list B) (a : A) :
  (forall acc x, f acc x = g acc x) -> fold_left f l a = fold_left g l a.
Proof.
  intros H. revert a. induction l as [|x l IH]; simpl; intros a; [reflexivity|].
  rewrite H. apply IH.
Qed.

Lemma group_hits_events (reviews : list Review) (config : ReviewTagConfig) :
  group_hits reviews config = fold_left record_hit (hit_events reviews config) [].
Proof.
  unfold group_hits, hit_events. rewrite fold_left_flat_map.
  apply fold_left_pointwise. intros g row. unfold add_review.
  rewrite fold_left_map. reflexivity.
Qed.

Lemma author_add_In (name a : string) (s : list string) :
  In a (author_add name s) <-> a = name \/ In a s.
Proof.
  unfold author_add. destruct (existsb (String.eqb name) s) eqn:E.
  - split; [auto|]. intros [->|H]; [|exact H].
    apply existsb_exists in E. destruct E as [x [Hx Hn]].
    apply String.eqb_eq in Hn. subst x. exact Hx.
  - rewrite in_app_iff. simpl. split.
    + intros [H|[H|[]]]; auto.
    + intros [H|H]; auto.
Qed.

Lemma author_add_NoDup (name : string) (s : list string) :
  NoDup s -> NoDup (author_add name s).
Proof.
  intros H. unfold author_add. destruct (existsb (String.eqb name) s) eqn:E; [exact H|].
  apply NoDup_app; [exact H | constructor; [intros [] | constructor] |].
  intros x Hx [Hn|[]]. subst x.
  assert (Ht : existsb (String.eqb name) s = true).
  { apply existsb_exists. exists name. split; [exact Hx | apply String.eqb_refl]. }
  congruence.
Qed.

Lemma info_of_record_hit (grouped : list (GroupKey * GroupInfo)) (ev : GroupKey * string)
    (key : GroupKey) :
  info_of (record_hit grouped ev) key
  = if group_key_eqb (fst ev) key
    then mkGroupInfo (author_add (snd ev) (authors (info_of grouped key)))
                     (mentions (info_of grouped key) + 1)
    else info_of grouped key.
Proof.
  unfold record_hit. destruct (group_key_eqb (fst ev) key) eqn:E.
  - apply group_key_eqb_eq in E. subst key. unfold info_of at 1.
    rewrite (dict_get_set_same group_key_eqb group_key_eqb_eq). reflexivity.
  - unfold info_of at 1.
    rewrite (dict_get_set_other group_key_eqb group_key_eqb_eq).
    + reflexivity.
    + intros Heq. subst key.
      rewrite (proj2 (group_key_eqb_eq (fst ev) (fst ev)) eq_refl) in E. discriminate.
Qed.

Lemma record_hits_counts (events : list (GroupKey * string))
    (grouped : list (GroupKey * GroupInfo)) (key : GroupKey) :
  mentions (info_of (fold_left record_hit events grouped) key)
  = (mentions (info_of grouped key) + hit_count events key)%Z
  /\ (NoDup (authors (info_of grouped key)) ->
      NoDup (authors (info_of (fold_left record_hit events grouped) key)))
  /\ (forall a, In a (authors (info_of (fold_left record_hit events grouped) key))
                <-> In a (authors (info_of grouped key)) \/ In (key, a) events).
Proof.
  revert grouped. induction events as [|ev events IH]; intros grouped.
  - unfold hit_count, len. simpl. split; [lia|]. split; [auto|]. intros a. tauto.
  - cbn [fold_left]. destruct (IH (record_hit grouped ev)) as [Hm [Hnd Hin]].
    rewrite info_of_record_hit in Hm, Hnd, Hin.
    unfold hit_count, len in *. cbn [filter].
    destruct (group_key_eqb (fst ev) key) eqn:E.
    + apply group_key_eqb_eq in E. cbn [mentions authors] in *.
      split; [rewrite Hm; cbn [length]; lia|].
      split; [intros H; apply Hnd, author_add_NoDup, H|].
      intros a. rewrite Hin, author_add_In. cbn [In].
      destruct ev as [k name]. simpl in E. subst k. simpl.
      split.
      * intros [[->|H]|H]; auto.
      * intros [H|[H|H]]; auto. inversion H; auto.
    + split; [exact Hm|]. split; [exact Hnd|].
      intros a. rewrite Hin. cbn [In]. split; [tauto|].
      intros [H|[H|H]]; auto.
      subst ev. simpl in E.
      rewrite (proj2 (group_key_eqb_eq key key) eq_refl) in E. discriminate.
Qed.

(** The counts of a group: [mentions] is the number of (review, tag) hits of
    its key, and [authors] lists, without repetition, the authors of those
    hits, so that its length is the number of distinct authors. *)
Lemma group_hits_counts (reviews : list Review) (config : ReviewTagConfig)
    (key : GroupKey) (info : GroupInfo) :
  In (key, info) (group_hits reviews config) ->
  mentions info = hit_count (hit_events reviews config) key
  /\ NoDup (authors info)
  /\ (forall a, In a (authors info) <-> In (key, a) (hit_events reviews config)).
Proof.
  intros Hin.
  assert (Hinfo : info_of (group_hits reviews config) key = info).
  { unfold info_of.
    rewrite (dict_get_In group_key_eqb group_key_eqb_eq key info _ Hin
               (group_hits_NoDup reviews config)).
    reflexivity. }
  rewrite group_hits_events in Hinfo.
  destruct (record_hits_counts (hit_events reviews config) [] key) as [Hm [Hnd Ha]].
  rewrite Hinfo in Hm, Hnd, Ha. unfold info_of in Hm, Hnd, Ha. simpl in Hm, Hnd, Ha.
  split; [exact Hm|]. split; [apply Hnd; constructor|].
  intros a. rewrite Ha. tauto.
Qed.

End TaggingProperties.

(* ================================================================== *)
(** ** Hidden-gem signal *)
(* ================================================================== *)

Section HiddenGemsProperties.
Import HiddenGems.

Lemma min_max_scale_nth (values : list R) (i : nat) (v : R) :
  nth_error values i = Some v ->
  nth_error (_min_max_scale values) i = Some (min_max values v).
Proof.
  unfold _min_max_scale, min_max. destruct values as [|x rest]; [destruct i; discriminate|].
  intros H. destruct (isclose (list_min x rest) (list_max x rest)).
  - rewrite nth_error_map, H. reflexivity.
  - rewrite nth_error_map, H. reflexivity.
Qed.

Lemma map2_nth {A B C : Type} (f : A -> B -> C) (l1 : list A) (l2 : list B)
    (i : nat) (a : A) (b : B) :
  nth_error l1 i = Some a -> nth_error l2 i = Some b ->
  nth_error (map2 f l1 l2) i = Some (f a b).
Proof.
  unfold map2. revert l2 i. induction l1 as [|x l1 IH]; intros l2 i H1 H2.
  - destruct i; discriminate.
  - destruct l2 as [|y l2]; [destruct i; discriminate|].
    destruct i as [|i]; simpl in *.
    + inversion H1; inversion H2; subst. reflexivity.
    + apply IH; assumption.
Qed.

(** C7. When the regression is available, the frame has at least 50 rows
    and the fit succeeds, the primary path returns, and for every venue the
    signal is the positive part of (rating - expected rating) times
    [0.35 + 0.65 * min-max(log(1 + review_count))] when the venue has at
    least [min_reviews] reviews, and exactly 0 when it has fewer, whatever
    its residual. *)
Theorem C7_hidden_gem_signal
    {F : Type} (fit_predict : list (ModelRow F) -> option (list R))
    (model_df : list (ModelRow F)) (min_reviews : Z) (expected_rating : list R)
    (Hrows : (MIN_MODEL_ROWS <= len model_df)%Z)
    (Hfit : fit_predict model_df = Some expected_rating) :
  exists hype_residual signal,
    _fit_hype_model true fit_predict model_df min_reviews
    = Some (expected_rating, hype_residual, signal)
    /\ forall i row expected,
         nth_error model_df i = Some row ->
         nth_error expected_rating i = Some expected ->
         nth_error hype_residual i = Some (mr_rating row - expected)
         /\ (IZR min_reviews <= mr_user_ratings_total row ->
             nth_error signal i
             = Some (Rmax (mr_rating row - expected) 0
                     * review_confidence model_df (mr_user_ratings_total row)))
         /\ (mr_user_ratings_total row < IZR min_reviews ->
             nth_error signal i = Some 0).
Proof.
  unfold _fit_hype_model. cbn [negb].
  apply Z.ltb_ge in Hrows. rewrite Hrows, Hfit.
  eexists. eexists. split; [reflexivity|].
  intros i row expected Hrow Hexp.
  assert (Hres : nth_error (map2 Rminus (map mr_rating model_df) expected_rating) i
                 = Some (mr_rating row - expected)).
  { apply map2_nth; [rewrite nth_error_map, Hrow; reflexivity | exact Hexp]. }
  assert (Hcount : nth_error (map mr_user_ratings_total model_df) i
                   = Some (mr_user_ratings_total row)).
  { rewrite nth_error_map, Hrow. reflexivity. }
  assert (Hweight : nth_error (_min_max_scale (map log1p (map mr_user_ratings_total model_df))) i
                    = Some (min_max (map log1p (map mr_user_ratings_total model_df))
                                    (log1p (mr_user_ratings_total row)))).
  { apply min_max_scale_nth. rewrite nth_error_map, Hcount. reflexivity. }
  assert (Hscaled :
    nth_error
      (map2 (fun s w => s * (0.35 + 0.65 * w))
         (map (fun r => Rmax r 0) (map2 Rminus (map mr_rating model_df) expected_rating))
         (_min_max_scale (map log1p (map mr_user_ratings_total model_df)))) i
    = Some (Rmax (mr_rating row - expected) 0
            * review_confidence model_df (mr_user_ratings_total row))).
  { assert (Hpos : nth_error (map (fun r => Rmax r 0)
                                 (map2 Rminus (map mr_rating model_df) expected_rating)) i
                     = Some (Rmax (mr_rating row - expected) 0))
      by (rewrite nth_error_map, Hres; reflexivity).
    rewrite (map2_nth _ _ _ i _ _ Hpos Hweight).
    unfold review_confidence. rewrite map_map. reflexivity. }
  split; [exact Hres|]. split.
  - intros Hge. rewrite (map2_nth _ _ _ i _ _ Hscaled Hcount).
    rewrite (proj2 (Rleb_true_iff _ _) Hge). reflexivity.
  - intros Hlt. rewrite (map2_nth _ _ _ i _ _ Hscaled Hcount).
    rewrite (proj2 (Rleb_false_iff _ _) Hlt). f_equal. lra.
Qed.

(** The theorem at fifty venues with 5 reviews each and [min_reviews] 40:
    every signal is 0 although every residual is positive. *)
Lemma C7_witness_under_reviewed_venues :
  exists hype_residual signal,
    _fit_hype_model true flat_fit fifty_small_venues 40
    = Some (map (fun _ => 4.0) fifty_small_venues, hype_residual, signal)
    /\ forall i row expected,
         nth_error fifty_small_venues i = Some row ->
         nth_error (map (fun _ => 4.0) fifty_small_venues) i = Some expected ->
         nth_error hype_residual i = Some (mr_rating row - expected)
         /\ (IZR 40 <= mr_user_ratings_total row ->
             nth_error signal i
             = Some (Rmax (mr_rating row - expected) 0
                     * review_confidence fifty_small_venues (mr_user_ratings_total row)))
         /\ (mr_user_ratings_total row < IZR 40 ->
             nth_error signal i = Some 0).
Proof.
  apply (C7_hidden_gem_signal flat_fit fifty_small_venues 40
           (map (fun _ => 4.0) fifty_small_venues)).
  - vm_compute. discriminate.
  - reflexivity.
Defined.

End HiddenGemsProperties.

(* ================================================================== *)
(** ** Recommendation blender *)
(* ================================================================== *)

Section BlenderProperties.
Import Blender.

(** *** Adaptive weights *)

Lemma cold_adjusted_total (base : RecommendationWeights) (h : Z) :
  weights_total (cold_adjusted base h) = weights_total base.
Proof. unfold weights_total, cold_adjusted. simpl. lra. Qed.

Lemma weights_eq (a b : RecommendationWeights) :
  taste a = taste b -> trend_app a = trend_app b -> hidden_gems a = hidden_gems b ->
  quality a = quality b -> friend a = friend b -> bubble a = bubble b -> a = b.
Proof. destruct a, b. simpl. intros. subst. reflexivity. Qed.

Lemma adaptive_weights_cold (base : RecommendationWeights) (h : Z) :
  (h < 5)%Z -> _adaptive_weights base h = normalized (cold_adjusted base h).
Proof.
  intros Hh. unfold _adaptive_weights, normalized.
  apply Z.ltb_lt in Hh. rewrite Hh.
  assert (Hadj : mkRecommendationWeights
                   (taste base * (IZR h / 5.0))
                   (trend_app base + taste base * (1 - IZR h / 5.0) * 0.6)
                   (hidden_gems base)
                   (quality base + taste base * (1 - IZR h / 5.0) * 0.4)
                   (friend base) (bubble base)
                 = cold_adjusted base h).
  { unfold cold_adjusted. apply weights_eq; simpl; lra. }
  rewrite Hadj. reflexivity.
Qed.

Lemma adaptive_weights_warm (base : RecommendationWeights) (h : Z) :
  (5 <= h)%Z -> _adaptive_weights base h = normalized base.
Proof.
  intros Hh. unfold _adaptive_weights, normalized.
  apply Z.ltb_ge in Hh. rewrite Hh. reflexivity.
Qed.

Lemma normalized_total (w : RecommendationWeights) :
  weights_total w <> 0 -> weights_total (normalized w) = 1.
Proof.
  intros H. unfold normalized. rewrite (proj2 (Reqb_false_iff _ _) H).
  unfold weights_total in *. simpl. field. exact H.
Qed.

(** C6. For a user with fewer than 5 actions (and base weights that do not
    sum to zero) the adaptive weights are the base weights with the taste
    weight scaled by [action_count / 5] and the removed mass added 60% to the
    trend weight and 40% to the quality weight, all divided by their sum, so
    that they sum to 1; with an action count of 0 the taste weight is
    exactly 0. *)
Theorem C6_cold_start_reweighting
    (base : RecommendationWeights) (action_count : Z)
    (Hcold : (action_count < 5)%Z)
    (Hsum : weights_total base <> 0) :
  let removed := taste base - taste base * (IZR action_count / 5) in
  let total := weights_total base in
  let w := _adaptive_weights base action_count in
  taste w = taste base * (IZR action_count / 5) / total
  /\ trend_app w = (trend_app base + 0.6 * removed) / total
  /\ quality w = (quality base + 0.4 * removed) / total
  /\ hidden_gems w = hidden_gems base / total
  /\ friend w = friend base / total
  /\ bubble w = bubble base / total
  /\ weights_total w = 1
  /\ (action_count = 0%Z -> taste w = 0).
Proof.
  cbn zeta. rewrite adaptive_weights_cold by exact Hcold.
  assert (Ht : weights_total (cold_adjusted base action_count) <> 0)
    by (rewrite cold_adjusted_total; exact Hsum).
  assert (Hn : normalized (cold_adjusted base action_count)
               = mkRecommendationWeights
                   (taste (cold_adjusted base action_count) / weights_total base)
                   (trend_app (cold_adjusted base action_count) / weights_total base)
                   (hidden_gems (cold_adjusted base action_count) / weights_total base)
                   (quality (cold_adjusted base action_count) / weights_total base)
                   (friend (cold_adjusted base action_count) / weights_total base)
                   (bubble (cold_adjusted base action_count) / weights_total base)).
  { unfold normalized. rewrite (proj2 (Reqb_false_iff _ _) Ht).
    rewrite cold_adjusted_total. reflexivity. }
  repeat split; try (rewrite Hn; reflexivity).
  - apply normalized_total. exact Ht.
  - intros ->. rewrite Hn. simpl. lra.
Qed.

(** With no action at all the taste weight is 0 whatever the base weights,
    also when they sum to zero and are returned without renormalisation. *)
Lemma adaptive_weights_new_user_taste (base : RecommendationWeights) :
  taste (_adaptive_weights base 0) = 0.
Proof.
  rewrite adaptive_weights_cold by lia. unfold normalized.
  destruct (Reqb (weights_total (cold_adjusted base 0)) 0) eqn:E; simpl; [lra|].
  apply Reqb_false_iff in E. unfold Rdiv. lra.
Qed.

Lemma default_weights_total : weights_total default_weights = 1.
Proof. unfold weights_total, default_weights. simpl. lra. Qed.

(** The theorem at the default weights and a user with no action. *)
Lemma C6_witness_new_user :
  taste (_adaptive_weights default_weights 0)
  = taste default_weights * (IZR 0 / 5) / weights_total default_weights
  /\ trend_app (_adaptive_weights default_weights 0)
     = (trend_app default_weights
        + 0.6 * (taste default_weights - taste default_weights * (IZR 0 / 5)))
       / weights_total default_weights
  /\ quality (_adaptive_weights default_weights 0)
     = (quality default_weights
        + 0.4 * (taste default_weights - taste default_weights * (IZR 0 / 5)))
       / weights_total default_weights
  /\ hidden_gems (_adaptive_weights default_weights 0)
     = hidden_gems default_weights / weights_total default_weights
  /\ friend (_adaptive_weights default_weights 0)
     = friend default_weights / weights_total default_weights
  /\ bubble (_adaptive_weights default_weights 0)
     = bubble default_weights / weights_total default_weights
  /\ weights_total (_adaptive_weights default_weights 0) = 1
  /\ (0%Z = 0%Z -> taste (_adaptive_weights default_weights 0) = 0).
Proof.
  apply (C6_cold_start_reweighting default_weights 0).
  - lia.
  - rewrite default_weights_total. lra.
Defined.

(** *** The rows of the blender *)

Lemma blender_add_rank_In (start : Z) (rows : list Recommendation) (r : Recommendation) :
  In r (add_rank start rows) ->
  exists r0, In r0 rows
    /\ br_user_id r = br_user_id r0 /\ br_location_id r = br_location_id r0
    /\ br_weights r = br_weights r0.
Proof.
  revert start. induction rows as [|x rows IH]; simpl; intros start H; [contradiction|].
  destruct H as [H|H].
  - exists x. subst r. simpl. auto.
  - destruct (IH _ H) as [r0 [Hin Hr]]. exists r0. auto.
Qed.

Lemma candidate_row_In (locations : list Location) (taste_scores : list TasteRow)
    (weights : RecommendationWeights) (seen : list Z) (user_id : string) (loc_id : Z)
    (r : Recommendation) :
  In r (candidate_row locations taste_scores weights seen user_id loc_id) ->
  set_mem loc_id seen = false
  /\ br_user_id r = user_id /\ br_location_id r = loc_id /\ br_weights r = weights.
Proof.
  unfold candidate_row. destruct (set_mem loc_id seen); [contradiction|].
  destruct (find _ locations); [|contradiction].
  intros [H|[]]. subst r. simpl. auto.
Qed.

(** Every row of a user's list is for that user, for a candidate that is
    not in the user's seen set, and carries the user's adaptive weights. *)
Lemma user_recommendations_In (locations : list Location) (taste_scores : list TasteRow)
    (seen_locations : list (string * list Z)) (hist_lookup : list (string * Z))
    (config : PipelineConfig) (entry : string * list Z) (r : Recommendation) :
  In r (user_recommendations locations taste_scores seen_locations hist_lookup config entry) ->
  br_user_id r = fst entry
  /\ In (br_location_id r) (snd entry)
  /\ set_mem (br_location_id r) (bucket_of seen_locations (fst entry)) = false
  /\ br_weights r
     = _adaptive_weights (recommendation_weights config)
         (history_size_of hist_lookup (fst entry) (snd entry)).
Proof.
  unfold user_recommendations. intros H.
  apply blender_add_rank_In in H. destruct H as [r0 [Hin [Hu [Hl Hw]]]].
  apply head_In, sort_by_In, in_flat_map in Hin.
  destruct Hin as [loc [Hloc Hrow]]. apply candidate_row_In in Hrow.
  destruct Hrow as [Hseen [Hu0 [Hl0 Hw0]]].
  rewrite Hu, Hl, Hw, Hu0, Hl0, Hw0. auto.
Qed.

(** C10. A user of the candidate map who is absent from the history summary
    is given [len(candidates) // 4] as action count, whatever the number of
    candidates. With 20 candidates or more that count is at least 5, so the
    adaptive weights are the base weights without the cold-start reduction
    (divided by their sum, hence the base taste weight itself when they sum
    to 1), and the user's list is the one computed with those weights: the
    rows of the unseen inventory candidates, sorted by descending score,
    truncated and ranked. *)
Theorem C10_missing_history_defaults_to_quarter_of_candidates
    (hist_lookup : list (string * Z)) (user_id : string) (candidate_ids : list Z)
    (Habsent : dict_get String.eqb user_id hist_lookup = None) :
  history_size_of hist_lookup user_id candidate_ids = (len candidate_ids / 4)%Z
  /\ ((20 <= len candidate_ids)%Z ->
      (5 <= history_size_of hist_lookup user_id candidate_ids)%Z
      /\ (forall base,
            _adaptive_weights base (history_size_of hist_lookup user_id candidate_ids)
            = normalized base
            /\ (weights_total base = 1 ->
                taste (_adaptive_weights base
                         (history_size_of hist_lookup user_id candidate_ids))
                = taste base))
      /\ (forall locations taste_scores seen_locations config,
            user_recommendations locations taste_scores seen_locations hist_lookup
              config (user_id, candidate_ids)
            = add_rank 1
                (head (top_k_per_user config)
                   (sort_by (fun a b => Rleb (br_score b) (br_score a))
                      (flat_map
                         (candidate_row locations taste_scores
                            (normalized (recommendation_weights config))
                            (bucket_of seen_locations user_id) user_id)
                         candidate_ids)))
            /\ forall r,
                 In r (user_recommendations locations taste_scores seen_locations
                         hist_lookup config (user_id, candidate_ids)) ->
                 br_weights r = normalized (recommendation_weights config))).
Proof.
  assert (Hsize : history_size_of hist_lookup user_id candidate_ids
                  = (len candidate_ids / 4)%Z).
  { unfold history_size_of. rewrite Habsent. reflexivity. }
  split; [exact Hsize|]. intros Hmany.
  assert (Hwarm : (5 <= history_size_of hist_lookup user_id candidate_ids)%Z).
  { rewrite Hsize. apply Z.div_le_lower_bound; lia. }
  split; [exact Hwarm|]. split.
  - intros base. rewrite adaptive_weights_warm by exact Hwarm.
    split; [reflexivity|].
    intros Hone. unfold normalized.
    rewrite (proj2 (Reqb_false_iff (weights_total base) 0)) by lra.
    simpl. rewrite Hone. lra.
  - intros locations taste_scores seen_locations config. split.
    + unfold user_recommendations. cbn [fst snd].
      rewrite adaptive_weights_warm by exact Hwarm. reflexivity.
    + intros r Hin.
      apply user_recommendations_In in Hin. destruct Hin as [_ [_ [_ Hw]]].
      simpl in Hw. rewrite Hw. apply adaptive_weights_warm. exact Hwarm.
Qed.

(** The theorem at a user without history and with twenty candidates, two
    of which are in the inventory and one of these seen: the count is 5 and
    the user's list is the row of the unseen venue, with the default weights
    (they sum to 1). *)
Lemma C10_witness_twenty_candidates :
  history_size_of [] "new_user" twenty_candidates = 5%Z
  /\ map (fun r => (br_location_id r, br_rank r, taste (br_weights r)))
       (user_recommendations two_venues [] [("new_user"%string, [1%Z])] []
          default_pipeline_config ("new_user"%string, twenty_candidates))
     = [(2%Z, 1%Z, taste default_weights)].
Proof.
  destruct (C10_missing_history_defaults_to_quarter_of_candidates [] "new_user"
              twenty_candidates eq_refl) as [Hsize Hmany].
  split; [rewrite Hsize; reflexivity|].
  assert (H20 : (20 <= len twenty_candidates)%Z) by (vm_compute; discriminate).
  destruct (Hmany H20) as [_ [Hbase Hrows]].
  destruct (Hrows two_venues [] [("new_user"%string, [1%Z])] default_pipeline_config)
    as [Hlist _].
  rewrite Hlist.
  assert (Hw : normalized (recommendation_weights default_pipeline_config) = default_weights).
  { unfold normalized, default_pipeline_config. cbn [recommendation_weights].
    assert (Ht : weights_total default_weights = 1)
      by (unfold weights_total, default_weights; simpl; lra).
    rewrite Ht. rewrite (proj2 (Reqb_false_iff 1 0)) by lra.
    unfold default_weights. cbn [taste trend_app hidden_gems quality friend bubble].
    f_equal; lra. }
  rewrite Hw. reflexivity.
Defined.

(** *** Seen venues *)

Lemma set_mem_set_add (x y : Z) (s : list Z) :
  set_mem x (set_add y s) = true <-> x = y \/ set_mem x s = true.
Proof.
  unfold set_mem, set_add. destruct (existsb (Z.eqb y) s) eqn:E.
  - split; [auto|]. intros [->|H]; [exact E | exact H].
  - rewrite existsb_app. simpl. rewrite orb_false_r, orb_true_iff, Z.eqb_eq. tauto.
Qed.

Lemma seen_step_adds (grouped : list (string * list Z)) (a : UserAction) (loc : Z) :
  set_mem loc (bucket_of (seen_step grouped (a, loc)) (ua_user_id a)) = true.
Proof.
  unfold seen_step, bucket_of at 1. simpl. rewrite (dict_get_set_same String.eqb String.eqb_eq).
  apply set_mem_set_add. left. reflexivity.
Qed.

Lemma seen_step_keeps (grouped : list (string * list Z)) (row : UserAction * Z)
    (u : string) (loc : Z) :
  set_mem loc (bucket_of grouped u) = true ->
  set_mem loc (bucket_of (seen_step grouped row) u) = true.
Proof.
  intros H. unfold seen_step.
  destruct (string_dec u (ua_user_id (fst row))) as [->|Hne].
  - unfold bucket_of at 1. rewrite (dict_get_set_same String.eqb String.eqb_eq).
    apply set_mem_set_add. right. exact H.
  - unfold bucket_of at 1. rewrite (dict_get_set_other String.eqb String.eqb_eq) by exact Hne. exact H.
Qed.

Lemma seen_fold_keeps (rows : list (UserAction * Z)) (grouped : list (string * list Z))
    (u : string) (loc : Z) :
  set_mem loc (bucket_of grouped u) = true ->
  set_mem loc (bucket_of (fold_left seen_step rows grouped) u) = true.
Proof.
  revert grouped. induction rows as [|row rows IH]; simpl; intros grouped H; [exact H|].
  apply IH, seen_step_keeps, H.
Qed.

Lemma seen_fold_adds (rows : list (UserAction * Z)) (grouped : list (string * list Z))
    (a : UserAction) (loc : Z) :
  In (a, loc) rows ->
  set_mem loc (bucket_of (fold_left seen_step rows grouped) (ua_user_id a)) = true.
Proof.
  revert grouped. induction rows as [|row rows IH]; simpl; intros grouped H; [contradiction|].
  destruct H as [->|H].
  - apply seen_fold_keeps, seen_step_adds.
  - apply IH, H.
Qed.

(** Every action of the log that resolves to a venue id puts that id in the
    seen set of its user. *)
Lemma user_seen_locations_In (user_actions : list UserAction) (locations : list Location)
    (a : UserAction) (loc : Z) :
  In a user_actions ->
  dict_get String.eqb (ua_place_id a) (UserProfiles.place_to_location locations) = Some loc ->
  set_mem loc (bucket_of (_user_seen_locations user_actions locations) (ua_user_id a)) = true.
Proof.
  intros Hin Hres. unfold _user_seen_locations.
  destruct user_actions as [|a0 user_actions]; [contradiction|].
  cbn [is_empty].
  apply (seen_fold_adds _ [] a loc).
  unfold UserProfiles.resolve_actions. apply in_flat_map. exists a. split; [exact Hin|].
  rewrite Hres. left. reflexivity.
Qed.

(** C8. A venue that an action of the user's log resolves to (whatever the
    weight of the action, so in particular when it is not zero) is in no row
    of that user in the blender's output. *)
Theorem C8_seen_venues_are_excluded
    (set_iter : list string -> list string)
    (locations : list Location) (user_tags : list UserTag)
    (location_tags : list LocationTag) (user_history : list UserHistory)
    (user_actions : list UserAction) (config : PipelineConfig)
    (a : UserAction) (loc : Z)
    (Hlog : In a user_actions)
    (Hresolves : dict_get String.eqb (ua_place_id a)
                   (UserProfiles.place_to_location locations) = Some loc) :
  Forall (fun r => br_user_id r = ua_user_id a -> br_location_id r <> loc)
         (build_recommendations set_iter locations user_tags location_tags
            user_history user_actions config).
Proof.
  apply Forall_forall. intros r Hin Hu Hl. unfold build_recommendations in Hin.
  apply in_flat_map in Hin. destruct Hin as [entry [_ Hrow]].
  apply user_recommendations_In in Hrow. destruct Hrow as [Hu' [_ [Hseen _]]].
  rewrite <- Hu', Hu, Hl in Hseen.
  rewrite (user_seen_locations_In user_actions locations a loc Hlog Hresolves) in Hseen.
  discriminate.
Qed.

(** The theorem at the liked venue of the two-venue inventory. *)
Lemma C8_witness_liked_venue :
  Forall (fun r => br_user_id r = "u"%string -> br_location_id r <> 1%Z)
         (build_recommendations (fun l => l) two_venues [] [] [] like_log
            (mkPipelineConfig default_weights true 30)).
Proof.
  apply (C8_seen_venues_are_excluded (fun l => l) two_venues [] [] [] like_log
           (mkPipelineConfig default_weights true 30)
           (mkUserAction "u" "p1" "like" (Some 0)) 1%Z).
  - simpl. left. reflexivity.
  - reflexivity.
Defined.

(** In that example the user does get a row, for the venue that was not
    acted upon. *)
Lemma two_venues_output :
  map (fun r => (br_user_id r, br_location_id r, br_rank r))
      (build_recommendations (fun l => l) two_venues [] [] [] like_log
         (mkPipelineConfig default_weights true 30))
  = [("u"%string, 2%Z, 1%Z)].
Proof.
  unfold build_recommendations, candidate_map_of, two_venues, like_log.
  cbn [_taste_contributions is_empty orb map app ut_user_id uh_user_id ua_user_id].
  unfold top_ids.
  cbn [sort_by fold_right insert_by popularity_score hidden_gem_score].
  rewrite (proj2 (Rleb_true_iff 0 1)) by lra.
  rewrite (proj2 (Rleb_true_iff 0 0)) by lra.
  reflexivity.
Qed.

End BlenderProperties.

(** ** Further facts on sorted lists *)

Lemma StronglySorted_weaken {A : Type} (P Q : A -> A -> Prop) (l : list A) :
  (forall a b, P a b -> Q a b) -> StronglySorted P l -> StronglySorted Q l.
Proof.
  intros HPQ. induction 1 as [|x l Hs IH Hx]; constructor; [exact IH|].
  eapply Forall_impl; [|exact Hx]. intros b. apply HPQ.
Qed.

Section ProximalFurtherProperties.
Import Proximal.

(** *** Great-circle distance *)

Lemma asin_nonneg (x : R) : 0 <= x -> 0 <= asin x.
Proof.
  intros Hx. pose proof PI_RGT_0 as Hpi.
  destruct (Rle_dec 1 x) as [H1|H1].
  - unfold asin. destruct (Rle_dec x (-1)); [lra|].
    destruct (Rle_dec 1 x); [lra | contradiction].
  - destruct (Rle_dec 0 (asin x)) as [H|H]; [exact H|].
    exfalso. pose proof (asin_bound x) as [Hlo _].
    assert (Hs : sin (asin x) < 0) by (apply sin_lt_0_var; lra).
    rewrite sin_asin in Hs by lra. lra.
Qed.

Lemma haversine_distance_nonneg (lat1 lon1 lat2 lon2 : R) :
  0 <= haversine_distance lat1 lon1 lat2 lon2.
Proof.
  unfold haversine_distance.
  pose proof (asin_nonneg _ (sqrt_pos (sin (radians (lat2 - lat1) / 2) ^ 2
                               + cos (radians lat1) * cos (radians lat2)
                                 * sin (radians (lon2 - lon1) / 2) ^ 2))) as Hlo.
  lra.
Qed.

(** X1. The great-circle distance is never negative and never more than half
    the circumference of the sphere, it is 0 from a point to itself, and it
    does not depend on the order of its two points. *)
Theorem X1_haversine_distance_is_a_distance (lat1 lon1 lat2 lon2 : R) :
  0 <= haversine_distance lat1 lon1 lat2 lon2 <= PI * 6371
  /\ haversine_distance lat1 lon1 lat1 lon1 = 0
  /\ haversine_distance lat1 lon1 lat2 lon2 = haversine_distance lat2 lon2 lat1 lon1.
Proof.
  unfold haversine_distance. split; [|split].
  - pose proof (asin_bound (sqrt (sin (radians (lat2 - lat1) / 2) ^ 2
                                 + cos (radians lat1) * cos (radians lat2)
                                   * sin (radians (lon2 - lon1) / 2) ^ 2))) as [_ Hhi].
    pose proof (asin_nonneg _ (sqrt_pos (sin (radians (lat2 - lat1) / 2) ^ 2
                                 + cos (radians lat1) * cos (radians lat2)
                                   * sin (radians (lon2 - lon1) / 2) ^ 2))) as Hlo.
    split; lra.
  - unfold radians.
    replace ((lat1 - lat1) * PI / 180 / 2) with 0 by lra.
    replace ((lon1 - lon1) * PI / 180 / 2) with 0 by lra.
    rewrite sin_0.
    replace (0 ^ 2 + cos (lat1 * PI / 180) * cos (lat1 * PI / 180) * 0 ^ 2) with 0 by ring.
    rewrite sqrt_0, asin_0. ring.
  - unfold radians.
    replace ((lat1 - lat2) * PI / 180 / 2) with (- ((lat2 - lat1) * PI / 180 / 2)) by lra.
    replace ((lon1 - lon2) * PI / 180 / 2) with (- ((lon2 - lon1) * PI / 180 / 2)) by lra.
    rewrite !sin_neg.
    replace ((- sin ((lat2 - lat1) * PI / 180 / 2)) ^ 2
             + cos (lat2 * PI / 180) * cos (lat1 * PI / 180)
               * (- sin ((lon2 - lon1) * PI / 180 / 2)) ^ 2)
      with (sin ((lat2 - lat1) * PI / 180 / 2) ^ 2
            + cos (lat1 * PI / 180) * cos (lat2 * PI / 180)
              * sin ((lon2 - lon1) * PI / 180 / 2) ^ 2) by ring.
    reflexivity.
Qed.

(** *** The radius filter *)

Lemma keep_within_sorted_input (radius : R) (rows : list (Location * option R)) :
  Forall (fun row => snd row <= radius) (keep_within radius rows).
Proof.
  apply Forall_forall. intros [l d] Hin. apply keep_within_In in Hin. simpl. tauto.
Qed.

(** X2. The radius filter returns exactly the locations that have both
    coordinates and lie within the radius, each with its distance to the
    centre, in order of increasing distance; a location with a missing
    coordinate is never returned, and a larger radius returns at least the
    same locations. *)
Theorem X2_filter_by_radius_selects_and_sorts
    (center_lat center_lon : R) (locations : list Location) (radius : R) :
  (forall l d,
      In (l, d) (filter_by_radius center_lat center_lon locations radius)
      <-> In l locations
          /\ (exists la lo, lat l = Some la /\ lng l = Some lo
                            /\ d = haversine_distance center_lat center_lon la lo)
          /\ d <= radius)
  /\ StronglySorted (fun a b => snd a <= snd b)
       (filter_by_radius center_lat center_lon locations radius)
  /\ (forall radius' row,
        radius <= radius' ->
        In row (filter_by_radius center_lat center_lon locations radius) ->
        In row (filter_by_radius center_lat center_lon locations radius')).
Proof.
  split; [|split].
  - intros l d. rewrite filter_by_radius_In. unfold distance_of.
    destruct (lat l) as [la|], (lng l) as [lo|]; split.
    + intros [Hl [Hd Hr]]. inversion Hd. split; [exact Hl|]. split; [|lra].
      exists la, lo. auto.
    + intros [Hl [[la' [lo' [Hla [Hlo Hd]]]] Hr]]. inversion Hla; inversion Hlo; subst.
      auto.
    + intros [_ [Hd _]]. discriminate.
    + intros [_ [[la' [lo' [_ [Hlo _]]]] _]]. discriminate.
    + intros [_ [Hd _]]. discriminate.
    + intros [_ [[la' [lo' [Hla _]]] _]]. discriminate.
    + intros [_ [Hd _]]. discriminate.
    + intros [_ [[la' [lo' [Hla _]]] _]]. discriminate.
  - unfold filter_by_radius.
    pose proof (sort_by_sorted (fun a b : Nearby => Rleb (snd a) (snd b))) as Hs.
    eapply StronglySorted_weaken; [|apply Hs].
    + intros a b H. apply Rleb_true_iff in H. exact H.
    + intros a b. destruct (Rle_dec (snd a) (snd b)) as [H|H].
      * left. apply Rleb_true_iff. exact H.
      * right. apply Rleb_true_iff. lra.
    + intros a b c. rewrite !Rleb_true_iff. lra.
  - intros radius' [l d] Hle Hin. apply filter_by_radius_In in Hin.
    apply filter_by_radius_In. destruct Hin as [Hl [Hd Hr]]. split; [exact Hl|].
    split; [exact Hd | lra].
Qed.

(** *** Component scores *)

(** X3. For a positive radius the proximity score is 1 at distance 0,
    [exp (-2)] at the radius, strictly decreasing in the distance, and within
    (0, 1] for every distance that is not negative. *)
Theorem X3_proximity_score_decays_with_distance (max_distance : R)
    (Hradius : 0 < max_distance) :
  compute_proximity_score 0 max_distance = 1
  /\ compute_proximity_score max_distance max_distance = exp (-2)
  /\ (forall d1 d2, d1 < d2 ->
        compute_proximity_score d2 max_distance < compute_proximity_score d1 max_distance)
  /\ (forall d, 0 <= d -> 0 < compute_proximity_score d max_distance <= 1).
Proof.
  unfold compute_proximity_score. split; [|split; [|split]].
  - replace (-2 * 0 / max_distance) with 0 by (field; lra). apply exp_0.
  - replace (-2 * max_distance / max_distance) with (-2) by (field; lra). reflexivity.
  - intros d1 d2 Hlt. apply exp_increasing.
    apply Rmult_lt_compat_r; [apply Rinv_0_lt_compat; exact Hradius | lra].
  - intros d Hd. split; [apply exp_pos|].
    rewrite <- exp_0.
    destruct (Req_dec d 0) as [->|Hne].
    + replace (-2 * 0 / max_distance) with 0 by (field; lra). lra.
    + left. apply exp_increasing.
      assert (H : 0 < 2 * d / max_distance).
      { apply Rmult_lt_0_compat; [lra | apply Rinv_0_lt_compat; exact Hradius]. }
      replace (-2 * d / max_distance) with (- (2 * d / max_distance)) by (field; lra).
      lra.
Qed.

(** The theorem at the default radius of 2 km. *)
Lemma X3_witness_default_radius :
  compute_proximity_score 0 2 = 1
  /\ compute_proximity_score 2 2 = exp (-2)
  /\ (forall d1 d2, d1 < d2 -> compute_proximity_score d2 2 < compute_proximity_score d1 2)
  /\ (forall d, 0 <= d -> 0 < compute_proximity_score d 2 <= 1).
Proof.
  apply (X3_proximity_score_decays_with_distance 2). lra.
Defined.

Lemma log1p_nonneg (x : R) : 0 <= x -> 0 <= log1p x.
Proof.
  intros H. unfold log1p. destruct (Req_dec x 0) as [->|Hne].
  - replace (1 + 0) with 1 by ring. rewrite ln_1. lra.
  - left. rewrite <- ln_1. apply ln_increasing; lra.
Qed.

(** X4. For a rating between 0 and 5 (or missing, which counts as 3) and a
    review count that is not negative (or missing, which counts as 0), the
    quality score is 70% of the rating over 5 plus 30% of
    [min (1, ln (1 + reviews) / 10)]; it lies between 0 and 1, so the final
    clip never changes it. *)
Theorem X4_quality_score_bounds (row : Location)
    (Hrating : 0 <= fillna 3 (rating row) <= 5)
    (Hreviews : 0 <= fillna 0 (user_ratings_total row)) :
  compute_quality_score row
  = 0.7 * (fillna 3 (rating row) / 5)
    + 0.3 * Rmin (log1p (fillna 0 (user_ratings_total row)) / 10) 1
  /\ 0 <= compute_quality_score row <= 1.
Proof.
  unfold compute_quality_score.
  pose proof (log1p_nonneg _ Hreviews) as Hlog.
  set (rv := Rmin (log1p (fillna 0 (user_ratings_total row)) / 10) 1).
  assert (Hrv : 0 <= rv <= 1).
  { unfold rv. split; [apply Rmin_glb; lra | apply Rmin_r]. }
  assert (Hq : 0 <= 0.7 * (fillna 3 (rating row) / 5) + 0.3 * rv <= 1) by (split; lra).
  rewrite Rmin_left by lra. split; [reflexivity | exact Hq].
Qed.

(** The theorem at a venue without rating and without review count. *)
Lemma X4_witness_unrated_venue :
  compute_quality_score (mkLocation 1 "p1" None None None None 0 0 0)
  = 0.7 * (fillna 3 None / 5) + 0.3 * Rmin (log1p (fillna 0 None) / 10) 1
  /\ 0 <= compute_quality_score (mkLocation 1 "p1" None None None None 0 0 0) <= 1.
Proof.
  apply (X4_quality_score_bounds (mkLocation 1 "p1" None None None None 0 0 0)).
  - simpl. lra.
  - simpl. lra.
Defined.

Lemma Rsum_nonneg (l : list R) : Forall (fun x => 0 <= x) l -> 0 <= Rsum l.
Proof.
  induction 1 as [|x l Hx Hl IH]; simpl; lra.
Qed.

Lemma taste_merged_In (user_id : string) (location_ids : list Z)
    (user_tags : list UserTag) (location_tags : list LocationTag) (p : Z * R) :
  In p (taste_merged user_id location_ids user_tags location_tags) <->
  exists u t,
    In u user_tags /\ ut_user_id u = user_id
    /\ In t location_tags /\ In (lt_location_id t) location_ids
    /\ ut_tag_id u = lt_tag_id t
    /\ p = (lt_location_id t, (ut_score u / 100) * (lt_score t / 100)).
Proof.
  unfold taste_merged. rewrite in_flat_map. split.
  - intros [u [Hu Hin]]. apply filter_In in Hu. destruct Hu as [Hu Hid].
    apply String.eqb_eq in Hid. apply in_map_iff in Hin. destruct Hin as [t [Hp Ht]].
    apply filter_In in Ht. destruct Ht as [Ht Htag]. apply filter_In in Ht.
    destruct Ht as [Ht Hloc]. apply Z.eqb_eq in Htag.
    apply existsb_exists in Hloc. destruct Hloc as [z [Hz Hzeq]]. apply Z.eqb_eq in Hzeq.
    exists u, t. subst z. repeat split; auto.
  - intros [u [t [Hu [Hid [Ht [Hloc [Htag Hp]]]]]]]. exists u. split.
    + apply filter_In. split; [exact Hu | apply String.eqb_eq; exact Hid].
    + apply in_map_iff. exists t. split; [auto|].
      apply filter_In. split; [|apply Z.eqb_eq; exact Htag].
      apply filter_In. split; [exact Ht|].
      apply existsb_exists. exists (lt_location_id t). split; [exact Hloc | apply Z.eqb_refl].
Qed.

Lemma Rsum_pos (l : list R) (x : R) :
  Forall (fun y => 0 <= y) l -> In x l -> 0 < x -> 0 < Rsum l.
Proof.
  induction 1 as [|y l Hy Hl IH]; simpl; [contradiction|].
  intros [->|Hin] Hx.
  - pose proof (Rsum_nonneg l Hl). lra.
  - specialize (IH Hin Hx). lra.
Qed.

(** X5. The proximal taste score of a listed location (the series returned
    is indexed by the listed locations) is never above 1; it is 0 for a user
    without profile rows and for a location sharing no tag with the user's
    profile; when no affinity and no tag confidence is negative it is not
    negative, and it is positive as soon as the user has a positive affinity
    for a tag that the location carries with a positive confidence. *)
Theorem X5_taste_score_is_capped
    (user_id : string) (location_ids : list Z) (user_tags : list UserTag)
    (location_tags : list LocationTag) (loc : Z)
    (Hlisted : In loc location_ids) :
  compute_taste_score user_id location_ids user_tags location_tags loc <= 1
  /\ ((forall u, In u user_tags -> ut_user_id u <> user_id) ->
      compute_taste_score user_id location_ids user_tags location_tags loc = 0)
  /\ ((forall u t, In u user_tags -> In t location_tags -> ut_user_id u = user_id ->
                   lt_location_id t = loc -> ut_tag_id u <> lt_tag_id t) ->
      compute_taste_score user_id location_ids user_tags location_tags loc = 0)
  /\ ((forall u, In u user_tags -> 0 <= ut_score u) ->
      (forall t, In t location_tags -> 0 <= lt_score t) ->
      0 <= compute_taste_score user_id location_ids user_tags location_tags loc
      /\ ((exists u t, In u user_tags /\ In t location_tags
                       /\ ut_user_id u = user_id /\ lt_location_id t = loc
                       /\ ut_tag_id u = lt_tag_id t
                       /\ 0 < ut_score u /\ 0 < lt_score t) ->
          0 < compute_taste_score user_id location_ids user_tags location_tags loc)).
Proof.
  unfold compute_taste_score.
  set (group := filter (fun p => Z.eqb (fst p) loc)
                  (taste_merged user_id location_ids user_tags location_tags)).
  assert (Hgroup : forall p, In p group ->
            exists u t, In u user_tags /\ ut_user_id u = user_id
              /\ In t location_tags /\ In loc location_ids
              /\ lt_location_id t = loc /\ ut_tag_id u = lt_tag_id t
              /\ snd p = (ut_score u / 100) * (lt_score t / 100)).
  { intros p Hin. apply filter_In in Hin. destruct Hin as [Hin Hloc].
    apply Z.eqb_eq in Hloc. apply taste_merged_In in Hin.
    destruct Hin as [u [t [Hu [Hid [Ht [Hl [Htag Hp]]]]]]]. subst p. simpl in *.
    exists u, t. rewrite <- Hloc. repeat split; auto. }
  assert (Hempty : (forall p, ~ In p group) ->
            (if is_empty group then 0 else Rmin (Rsum (map snd group)) 1) = 0).
  { intros H. destruct group as [|p g]; [reflexivity|]. exfalso. apply (H p). left. reflexivity. }
  split; [|split; [|split]].
  - destruct (is_empty group); [lra | apply Rmin_r].
  - intros Hnone. apply Hempty. intros p Hin.
    destruct (Hgroup p Hin) as [u [t [Hu [Hid _]]]]. exact (Hnone u Hu Hid).
  - intros Hdisjoint. apply Hempty. intros p Hin.
    destruct (Hgroup p Hin) as [u [t [Hu [Hid [Ht [_ [Hl [Htag _]]]]]]]].
    exact (Hdisjoint u t Hu Ht Hid Hl Htag).
  - intros Hu Ht.
    assert (Hnonneg : Forall (fun x => 0 <= x) (map snd group)).
    { apply Forall_forall.
      intros x Hx. apply in_map_iff in Hx. destruct Hx as [p [Hp Hin]]. subst x.
      destruct (Hgroup p Hin) as [u [t [Hinu [_ [Hint [_ [_ [_ Hval]]]]]]]].
      rewrite Hval. specialize (Hu u Hinu). specialize (Ht t Hint).
      apply Rmult_le_pos; lra. }
    split.
    + destruct (is_empty group); [lra|].
      apply Rmin_glb; [|lra]. apply Rsum_nonneg. exact Hnonneg.
    + intros [u [t [Hinu [Hint [Hid [Hl [Htag [Hpu Hpt]]]]]]]].
      assert (Hin : In (loc, (ut_score u / 100) * (lt_score t / 100)) group).
      { apply filter_In. split; [|apply Z.eqb_refl].
        apply taste_merged_In. exists u, t. rewrite Hl. repeat split; auto. }
      assert (Hsum : 0 < Rsum (map snd group)).
      { apply (Rsum_pos _ ((ut_score u / 100) * (lt_score t / 100))); [exact Hnonneg | |].
        - apply in_map_iff. exists (loc, (ut_score u / 100) * (lt_score t / 100)).
          split; [reflexivity | exact Hin].
        - apply Rmult_lt_0_compat; lra. }
      destruct group as [|p g]; [contradiction|]. cbn [is_empty].
      apply Rmin_glb_lt; [exact Hsum | lra].
Qed.

(** The theorem at the venue tagged "italian" and a user whose only
    affinity is for that tag: the entry of the venue is positive. *)
Lemma X5_witness_shared_tag :
  0 < compute_taste_score "u" [1%Z] [mkUserTag "u" 1 "italian" 100 1] italian_tags 1%Z.
Proof.
  destruct (X5_taste_score_is_capped "u" [1%Z] [mkUserTag "u" 1 "italian" 100 1]
              italian_tags 1%Z (or_introl eq_refl)) as [_ [_ [_ Hsigns]]].
  apply Hsigns.
  - intros u [<-|[]]. simpl. lra.
  - intros t [<-|[]]. simpl. lra.
  - exists (mkUserTag "u" 1 "italian" 100 1), (mkLocationTag 1 1 "italian" 92).
    simpl. repeat split; auto; lra.
Defined.

(** *** The result frame *)

Lemma add_rank_ranked (start : Z) (rows : list Recommendation) :
  ranked_from start (add_rank start rows).
Proof.
  revert start. induction rows as [|r rows IH]; intros start; simpl; [exact I|].
  split; [reflexivity | apply IH].
Qed.

Lemma add_rank_final_scores (start : Z) (rows : list Recommendation) :
  map final_score (add_rank start rows) = map final_score rows.
Proof.
  revert start. induction rows as [|r rows IH]; intros start; simpl; [reflexivity|].
  rewrite IH. reflexivity.
Qed.

Lemma by_descending_score_map (rows : list Recommendation) :
  by_descending_score rows <-> StronglySorted (fun x y => y <= x) (map final_score rows).
Proof.
  unfold by_descending_score. induction rows as [|r rows IH]; simpl.
  - split; constructor.
  - split; intros H; inversion H as [|? ? Hs Hf]; subst; constructor.
    + apply IH. exact Hs.
    + apply Forall_forall. intros x Hx. apply in_map_iff in Hx.
      destruct Hx as [b [<- Hb]]. rewrite Forall_forall in Hf. apply Hf. exact Hb.
    + apply IH. exact Hs.
    + apply Forall_forall. intros b Hb. rewrite Forall_forall in Hf. apply Hf.
      apply in_map. exact Hb.
Qed.

Lemma ranked_rows_ranked (user_id : string) (user_tags : list UserTag)
    (location_tags : list LocationTag) (config : ProximalConfig) (nearby : list Nearby) :
  ranked_from 1 (ranked_rows user_id user_tags location_tags config nearby)
  /\ by_descending_score (ranked_rows user_id user_tags location_tags config nearby).
Proof.
  unfold ranked_rows. split; [apply add_rank_ranked|].
  apply by_descending_score_map. rewrite add_rank_final_scores.
  apply by_descending_score_map. unfold by_descending_score.
  eapply StronglySorted_weaken;
    [|apply (sort_by_sorted (fun a b : Recommendation => Rleb (final_score b) (final_score a)))].
  - intros a b H. apply Rleb_true_iff in H. exact H.
  - intros a b. destruct (Rle_dec (final_score b) (final_score a)) as [H|H].
    + left. apply Rleb_true_iff. exact H.
    + right. apply Rleb_true_iff. lra.
  - intros a b c. rewrite !Rleb_true_iff. lra.
Qed.

Lemma firstn_ranked (n : nat) (start : Z) (rows : list Recommendation) :
  ranked_from start rows -> ranked_from start (firstn n rows).
Proof.
  revert start rows. induction n as [|n IH]; intros start rows H; [exact I|].
  destruct rows as [|r rows]; [exact I|]. simpl in *. destruct H as [Hr Hrest].
  split; [exact Hr | apply IH; exact Hrest].
Qed.

Lemma firstn_sorted {A : Type} (P : A -> A -> Prop) (n : nat) (l : list A) :
  StronglySorted P l -> StronglySorted P (firstn n l).
Proof.
  revert l. induction n as [|n IH]; intros l H; [constructor|].
  destruct l as [|x l]; [constructor|]. inversion H as [|? ? Hs Hf]; subst.
  simpl. constructor; [apply IH; exact Hs|].
  apply Forall_forall. intros y Hy. rewrite Forall_forall in Hf. apply Hf.
  eapply firstn_incl. exact Hy.
Qed.

Lemma head_firstn {A : Type} (n : Z) (l : list A) : exists k, head n l = firstn k l.
Proof. unfold head. destruct (0 <=? n)%Z; eexists; reflexivity. Qed.

Lemma head_length {A : Type} (n : Z) (l : list A) :
  (0 <= n)%Z -> (len (head n l) <= n)%Z.
Proof.
  intros H. unfold head, len. apply Z.leb_le in H. rewrite H. apply Z.leb_le in H.
  rewrite length_firstn. lia.
Qed.

(** The frame returned by one invocation. *)
Lemma head_ranked_rows (user_id : string) (user_tags : list UserTag)
    (location_tags : list LocationTag) (config : ProximalConfig) (nearby : list Nearby) :
  ranked_from 1 (head (max_results config)
                   (ranked_rows user_id user_tags location_tags config nearby))
  /\ by_descending_score (head (max_results config)
                            (ranked_rows user_id user_tags location_tags config nearby)).
Proof.
  destruct (head_firstn (max_results config)
              (ranked_rows user_id user_tags location_tags config nearby)) as [k ->].
  destruct (ranked_rows_ranked user_id user_tags location_tags config nearby) as [Hr Hs].
  split; [apply firstn_ranked; exact Hr | apply firstn_sorted; exact Hs].
Qed.

(** X6. The frame a call returns is ranked 1, 2, 3, ... in order, its final
    scores never increase down the frame, and it has at most [max_results]
    rows (when [max_results] is not negative). *)
Theorem X6_result_is_ranked_sorted_and_truncated
    (fuel : nat) (user_id : string) (center_lat center_lon : R)
    (locations : list Location) (user_tags : list UserTag)
    (location_tags : list LocationTag) (config : ProximalConfig)
    (rows : list Recommendation)
    (Hreturns : build_proximal_recommendations fuel user_id center_lat center_lon
                  locations user_tags location_tags config = Some rows) :
  ranked_from 1 rows
  /\ by_descending_score rows
  /\ ((0 <= max_results config)%Z -> (len rows <= max_results config)%Z).
Proof.
  revert config Hreturns. induction fuel as [|fuel IH]; intros config; [discriminate|].
  cbn [build_proximal_recommendations].
  destruct (is_empty (nearby_rows center_lat center_lon locations config)).
  { intros H. inversion H. split; [exact I|]. split; [constructor|]. unfold len. simpl. lia. }
  destruct (expansion _ _ _ _ _ _ _) as [config'|] eqn:E.
  - intros H. apply expansion_Some in E. destruct E as [-> _].
    apply (IH _ H).
  - intros H. inversion H.
    destruct (head_ranked_rows user_id user_tags location_tags config
                (nearby_rows center_lat center_lon locations config)) as [Hr Hs].
    split; [exact Hr|]. split; [exact Hs|]. apply head_length.
Qed.

(** The call on the radius-expansion example returns without recursion. *)
Lemma example_build :
  build_proximal_recommendations 1 "u" 0 0 example_locations [] [] example_config
  = Some (head 50 (ranked_rows "u" [] [] example_config
                     (nearby_rows 0 0 example_locations example_config))).
Proof.
  assert (Hlen : length (nearby_rows 0 0 example_locations example_config) = 3%nat).
  { rewrite (nearby_rows_doubled 0 0 example_locations example_config example_count_2).
    rewrite filter_by_radius_length. exact example_count_4. }
  cbn [build_proximal_recommendations].
  rewrite is_empty_length, Hlen. cbn [Nat.eqb].
  change (max_results example_config) with 50%Z.
  rewrite (expansion_decision 0 0 example_locations "u" [] [] example_config)
    by (unfold len; rewrite Hlen; simpl; lia).
  unfold len. rewrite Hlen.
  change (radius_km example_config * 3) with (2 * 3).
  rewrite example_count_6. reflexivity.
Qed.

(** The theorem at the radius-expansion example. *)
Lemma X6_witness_example_frame :
  ranked_from 1 (head 50 (ranked_rows "u" [] [] example_config
                            (nearby_rows 0 0 example_locations example_config)))
  /\ by_descending_score (head 50 (ranked_rows "u" [] [] example_config
                                     (nearby_rows 0 0 example_locations example_config)))
  /\ ((0 <= max_results example_config)%Z ->
      (len (head 50 (ranked_rows "u" [] [] example_config
                       (nearby_rows 0 0 example_locations example_config)))
       <= max_results example_config)%Z).
Proof.
  apply (X6_result_is_ranked_sorted_and_truncated 1 "u" 0 0 example_locations [] []
           example_config).
  exact example_build.
Defined.

Lemma ranked_rows_fields (user_id : string) (user_tags : list UserTag)
    (location_tags : list LocationTag) (config : ProximalConfig) (nearby : list Nearby)
    (r : Recommendation) :
  In r (ranked_rows user_id user_tags location_tags config nearby) ->
  exists row, In row nearby
    /\ rec_location_id r = location_id (fst row)
    /\ distance_km r = snd row
    /\ rec_quality_score r = compute_quality_score (fst row)
    /\ final_score r = taste_weight config * taste_score r
                       + proximity_weight config * proximity_score r
                       + quality_weight config * rec_quality_score r.
Proof.
  unfold ranked_rows. intros H.
  apply add_rank_In in H. destruct H as [r0 [Hin [Hid [Hd [Ht [Hp [Hq Hf]]]]]]].
  apply (proj1 (sort_by_In _ _ _)) in Hin. apply in_map_iff in Hin.
  destruct Hin as [row [Hrow Hin]]. exists row. split; [exact Hin|].
  rewrite Hid, Hd, Hq, Hf, Ht, Hp. subst r0. simpl. auto.
Qed.

Lemma nearby_rows_In (center_lat center_lon : R) (locations : list Location)
    (config : ProximalConfig) (l : Location) (d : R) :
  In (l, d) (nearby_rows center_lat center_lon locations config) ->
  In l locations /\ distance_of center_lat center_lon l = Some d
  /\ 0 <= d <= radius_km config * 2.
Proof.
  unfold nearby_rows.
  assert (Hpos : distance_of center_lat center_lon l = Some d -> 0 <= d).
  { unfold distance_of. destruct (lat l), (lng l); try discriminate.
    intros H. inversion H. apply haversine_distance_nonneg. }
  destruct (is_empty (filter_by_radius center_lat center_lon locations (radius_km config)));
    intros Hin; apply filter_by_radius_In in Hin; destruct Hin as [Hl [Hd Hr]];
    specialize (Hpos Hd); (split; [exact Hl|]); (split; [exact Hd|]); lra.
Qed.

(** X7. Every row a call returns is a venue of the inventory that has both
    coordinates; its [distance_km] is the great-circle distance of that
    venue from the centre and is at most twice the radius of the last
    invocation; its quality score is the venue's, and its final score is the
    sum of its taste, proximity and quality scores weighted by the caller's
    weights. *)
Theorem X7_result_rows_are_scored_venues
    (fuel : nat) (user_id : string) (center_lat center_lon : R)
    (locations : list Location) (user_tags : list UserTag)
    (location_tags : list LocationTag) (config : ProximalConfig)
    (rows : list Recommendation)
    (Hreturns : build_proximal_recommendations fuel user_id center_lat center_lon
                  locations user_tags location_tags config = Some rows) :
  Forall (fun row =>
            exists l,
              In l locations
              /\ rec_location_id row = location_id l
              /\ distance_of center_lat center_lon l = Some (distance_km row)
              /\ 0 <= distance_km row
                 <= last (radius_trace fuel center_lat center_lon locations user_id
                            user_tags location_tags config) 0 * 2
              /\ rec_quality_score row = compute_quality_score l
              /\ final_score row
                 = taste_weight config * taste_score row
                   + proximity_weight config * proximity_score row
                   + quality_weight config * rec_quality_score row)
         rows.
Proof.
  revert config Hreturns. induction fuel as [|fuel IH]; intros config; [discriminate|].
  cbn [build_proximal_recommendations radius_trace].
  destruct (is_empty (nearby_rows center_lat center_lon locations config)).
  { intros H. inversion H. constructor. }
  destruct (expansion _ _ _ _ _ _ _) as [config'|] eqn:E.
  - intros H. apply expansion_Some in E. destruct E as [-> _].
    specialize (IH _ H). destruct fuel as [|fuel]; [discriminate|].
    exact IH.
  - intros H. inversion H. apply Forall_forall. intros row Hin.
    apply head_In, ranked_rows_fields in Hin.
    destruct Hin as [[l d] [Hnear [Hid [Hd [Hq Hf]]]]]. simpl in *.
    apply nearby_rows_In in Hnear. destruct Hnear as [Hl [Hdist Hb]].
    exists l. rewrite Hd. cbn [last]. tauto.
Qed.

(** The theorem at the radius-expansion example. *)
Lemma X7_witness_example_frame :
  Forall (fun row =>
            exists l,
              In l example_locations
              /\ rec_location_id row = location_id l
              /\ distance_of 0 0 l = Some (distance_km row)
              /\ 0 <= distance_km row
                 <= last (radius_trace 1 0 0 example_locations "u" [] [] example_config) 0 * 2
              /\ rec_quality_score row = compute_quality_score l
              /\ final_score row
                 = taste_weight example_config * taste_score row
                   + proximity_weight example_config * proximity_score row
                   + quality_weight example_config * rec_quality_score row)
         (head 50 (ranked_rows "u" [] [] example_config
                     (nearby_rows 0 0 example_locations example_config))).
Proof.
  apply (X7_result_rows_are_scored_venues 1 "u" 0 0 example_locations [] []
           example_config).
  exact example_build.
Defined.

Lemma build_empty_iff (fuel : nat) (user_id : string) (center_lat center_lon : R)
    (locations : list Location) (user_tags : list UserTag)
    (location_tags : list LocationTag) (config : ProximalConfig)
    (rows : list Recommendation) :
  (1 <= max_results config)%Z ->
  build_proximal_recommendations fuel user_id center_lat center_lon locations
    user_tags location_tags config = Some rows ->
  (rows = [] <-> nearby_rows center_lat center_lon locations config = []).
Proof.
  intros Hmax. revert config Hmax. induction fuel as [|fuel IH]; intros config Hmax;
    [discriminate|].
  cbn [build_proximal_recommendations].
  destruct (nearby_rows center_lat center_lon locations config) as [|n0 nearby] eqn:Hn.
  { cbn [is_empty]. intros H. inversion H. tauto. }
  cbn [is_empty].
  destruct (expansion _ _ _ _ _ _ _) as [config'|] eqn:E.
  - intros H. apply expansion_Some in E. destruct E as [-> Hlt].
    apply IH in H; [|exact Hmax]. simpl in Hlt.
    split; [|discriminate]. intros Hrows. apply H in Hrows.
    pose proof (nearby_rows_length_ge center_lat center_lon locations
                  (mkProximalConfig (radius_km config * 3) (min_results config)
                     (max_results config) (taste_weight config)
                     (proximity_weight config) (quality_weight config))) as Hge.
    rewrite Hrows in Hge. simpl in Hge. lia.
  - intros H. inversion H as [Hrows]. split; [|discriminate]. intros Hnil.
    exfalso.
    assert (Hlen : length (head (max_results config)
                             (ranked_rows user_id user_tags location_tags config
                                (n0 :: nearby))) = 0%nat) by (rewrite Hnil; reflexivity).
    unfold head in Hlen.
    replace (0 <=? max_results config)%Z with true in Hlen by (symmetry; apply Z.leb_le; lia).
    rewrite length_firstn, ranked_rows_length in Hlen. simpl in Hlen. lia.
Qed.

(** X8. When at least one result is allowed, a call returns an empty frame
    exactly when no venue with coordinates lies within the requested radius
    nor within twice that radius; the call returns for every inventory. *)
Theorem X8_empty_result_means_nothing_nearby
    (user_id : string) (center_lat center_lon : R)
    (locations : list Location) (user_tags : list UserTag)
    (location_tags : list LocationTag) (config : ProximalConfig)
    (Hmax : (1 <= max_results config)%Z) :
  exists rows,
    build_proximal_recommendations (S (length locations)) user_id center_lat center_lon
      locations user_tags location_tags config = Some rows
    /\ (rows = []
        <-> filter_by_radius center_lat center_lon locations (radius_km config) = []
            /\ filter_by_radius center_lat center_lon locations (radius_km config * 2) = []).
Proof.
  destruct (build_terminates user_id center_lat center_lon locations user_tags
              location_tags (S (length locations)) config) as [rows Hrows]; [lia|].
  exists rows. split; [exact Hrows|].
  rewrite (build_empty_iff _ _ _ _ _ _ _ _ _ Hmax Hrows).
  unfold nearby_rows.
  destruct (filter_by_radius center_lat center_lon locations (radius_km config)) as [|x l];
    cbn [is_empty].
  - tauto.
  - split; [discriminate|]. intros [H _]. discriminate.
Qed.

(** The theorem at the radius-expansion example. *)
Lemma X8_witness_example :
  exists rows,
    build_proximal_recommendations (S (length example_locations)) "u" 0 0
      example_locations [] [] example_config = Some rows
    /\ (rows = []
        <-> filter_by_radius 0 0 example_locations (radius_km example_config) = []
            /\ filter_by_radius 0 0 example_locations (radius_km example_config * 2) = []).
Proof.
  apply (X8_empty_result_means_nothing_nearby "u" 0 0 example_locations [] []
           example_config).
  simpl. lia.
Defined.

End ProximalFurtherProperties.

(** ** Further properties of the user profile builder *)

Lemma NoDup_app_intro {A : Type} (l1 l2 : list A) :
  NoDup l1 -> NoDup l2 -> (forall x, In x l1 -> ~ In x l2) -> NoDup (l1 ++ l2).
Proof.
  induction l1 as [|x l1 IH]; simpl; intros H1 H2 Hd; [exact H2|].
  inversion H1 as [|? ? Hx H1']; subst. constructor.
  - rewrite in_app_iff. intros [H|H]; [contradiction|]. exact (Hd x (or_introl eq_refl) H).
  - apply IH; auto.
Qed.

Lemma NoDup_map_filter {V K : Type} (keep : V -> bool) (image : V -> K) (rows : list V)
    (Hdistinct : NoDup (map image rows)) :
  NoDup (map image (filter keep rows)).
Proof.
  induction rows as [|row rows IH]; simpl in *; [constructor|].
  inversion Hdistinct as [|? ? Hrow Hrest]; subst.
  destruct (keep row); [|auto]. simpl. constructor; [|auto].
  intros Hin. apply Hrow. apply in_map_iff in Hin. destruct Hin as [y [Hy Hin]].
  apply filter_In in Hin. apply in_map_iff. exists y. tauto.
Qed.

Lemma dedup_NoDup {K : Type} (eqb : K -> K -> bool)
    (eqb_eq : forall a b, eqb a b = true <-> a = b) (l : list K) :
  NoDup (dedup eqb l).
Proof.
  induction l as [|x l IH]; simpl; [constructor|]. constructor.
  - rewrite filter_In. intros [_ H]. apply negb_true_iff in H.
    assert (Hx : eqb x x = true) by (apply eqb_eq; reflexivity). congruence.
  - pose proof (NoDup_map_filter (fun y => negb (eqb x y)) (fun y => y) (dedup eqb l)) as H.
    rewrite !map_id in H. apply H. exact IH.
Qed.

Lemma sort_by_NoDup_map {A B : Type} (leb : A -> A -> bool) (f : A -> B) (l : list A) :
  NoDup (map f l) -> NoDup (map f (sort_by leb l)).
Proof.
  intros H. eapply Permutation_NoDup; [|exact H].
  apply Permutation_map, Permutation_sym, sort_by_perm.
Qed.

Lemma exp_le_1 (x : R) : x <= 0 -> exp x <= 1.
Proof.
  intros [H|H].
  - left. rewrite <- exp_0. apply exp_increasing. exact H.
  - subst x. rewrite exp_0. lra.
Qed.

Section UserProfilesFurtherProperties.
Import UserProfiles.

Lemma age_days_nonneg (now : R) (created_at : option R) : 0 <= age_days now created_at.
Proof. unfold age_days. apply Rmax_r. Qed.

Lemma decay_eq (now : R) (created_at : option R) :
  decay now true created_at = exp (- age_days now created_at / 30).
Proof. unfold decay, RECENCY_HALFLIFE_DAYS. replace 30.0 with 30 by lra. reflexivity. Qed.

Lemma decay_bounds (now : R) (has_created_at : bool) (created_at : option R) :
  0 < decay now has_created_at created_at <= 1.
Proof.
  destruct has_created_at.
  - rewrite decay_eq. split; [apply exp_pos|]. apply exp_le_1.
    pose proof (age_days_nonneg now created_at). lra.
  - unfold decay. lra.
Qed.

(** X9. The recency factor of an action lies in (0, 1]; it is 1 for an
    action whose timestamp is missing, did not parse, or is not before the
    clock reading; of two actions the older one never has the larger
    factor; an action exactly 30 days old has the factor exp(-1); and the
    magnitude of an action's weight never exceeds that of its type's table
    weight. *)
Theorem X9_recency_decay_bounds (now : R) (has_created_at : bool) :
  (forall created_at, 0 < decay now has_created_at created_at <= 1)
  /\ decay now has_created_at None = 1
  /\ (forall ts, now <= ts -> decay now has_created_at (Some ts) = 1)
  /\ (forall ts1 ts2, ts1 <= ts2 ->
        decay now has_created_at (Some ts1) <= decay now has_created_at (Some ts2))
  /\ decay now true (Some (now - 30 * 86400)) = exp (- 1)
  /\ (forall a, Rabs (action_weight now has_created_at a)
                <= Rabs (table_weight (lower (ua_action a)))).
Proof.
  split; [intros c; apply decay_bounds|].
  split.
  { destruct has_created_at; [|unfold decay; lra].
    rewrite decay_eq. unfold age_days. simpl.
    rewrite Rmax_left by lra. replace (- 0 / 30) with 0 by lra. apply exp_0. }
  split.
  { intros ts Hts. destruct has_created_at; [|unfold decay; lra].
    rewrite decay_eq. unfold age_days. simpl.
    rewrite Rmax_right by lra. replace (- 0 / 30) with 0 by lra. apply exp_0. }
  split.
  { intros ts1 ts2 Hts. destruct has_created_at; [|unfold decay; lra].
    rewrite !decay_eq. unfold age_days. simpl.
    assert (Hage : Rmax ((now - ts2) / 86400) 0 <= Rmax ((now - ts1) / 86400) 0).
    { apply Rle_max_compat_r. lra. }
    destruct (Rle_lt_or_eq_dec _ _ Hage) as [Hlt|Heq].
    - left. apply exp_increasing. lra.
    - rewrite Heq. lra. }
  split.
  { rewrite decay_eq. unfold age_days. simpl.
    replace ((now - (now - 30 * 86400)) / 86400) with 30 by lra.
    rewrite Rmax_left by lra. f_equal. lra. }
  intros a. unfold action_weight. rewrite table_weight_lookup, Rabs_mult.
  pose proof (decay_bounds now has_created_at (ua_created_at a)) as Hd.
  rewrite (Rabs_right (decay _ _ _)) by lra.
  pose proof (Rabs_pos (table_weight (lower (ua_action a)))). nra.
Qed.

(** *** The shape of the affinity table *)

Lemma build_unfolded (now : R) (has_created_at : bool) (user_actions : list UserAction)
    (location_tags : list LocationTag) (locations : list Location) :
  build_user_tag_affinities now has_created_at user_actions location_tags locations
  = let df_actions := kept_actions now has_created_at user_actions locations in
    let merged := merge_actions df_actions location_tags in
    if is_empty merged then ([], [])
    else (group_head 25 [] (sort_by affinity_leb (normalize_all (aggregate merged))),
          history_of df_actions).
Proof.
  unfold build_user_tag_affinities, kept_actions. cbn zeta.
  destruct user_actions as [|a user_actions]; [reflexivity|].
  destruct location_tags as [|t location_tags].
  { cbn [is_empty orb]. rewrite merge_actions_nil_r. reflexivity. }
  cbn [is_empty orb].
  destruct (_apply_action_weights _ _ _) as [|w df]; reflexivity.
Qed.

Lemma group_head_sorted (rel : UserTag -> UserTag -> Prop) (n : nat) (prev : list string)
    (rows : list UserTag) :
  StronglySorted rel rows -> StronglySorted rel (group_head n prev rows).
Proof.
  intros Hs. revert prev. induction Hs as [|x rows Hs IH Hx]; intros prev; simpl;
    [constructor|].
  destruct (count_occ string_dec prev (ut_user_id x) <? n)%nat; [|apply IH].
  constructor; [apply IH|].
  rewrite Forall_forall in *. intros y Hy. apply Hx. eapply group_head_In. exact Hy.
Qed.

Lemma group_head_count (n : nat) (prev : list string) (rows : list UserTag) (u : string) :
  (length (rows_of_user u (group_head n prev rows)) + count_occ string_dec prev u
   <= Nat.max n (count_occ string_dec prev u))%nat.
Proof.
  unfold rows_of_user. revert prev. induction rows as [|x rows IH]; intros prev; simpl; [lia|].
  specialize (IH (ut_user_id x :: prev)). simpl in IH.
  destruct (count_occ string_dec prev (ut_user_id x) <? n)%nat eqn:E.
  - apply Nat.ltb_lt in E. simpl.
    destruct (string_dec (ut_user_id x) u) as [Hu|Hu].
    + rewrite (proj2 (String.eqb_eq _ _) Hu). simpl. subst u. lia.
    + rewrite (proj2 (String.eqb_neq _ _) Hu). lia.
  - apply Nat.ltb_ge in E.
    destruct (string_dec (ut_user_id x) u) as [Hu|Hu]; [subst u|]; lia.
Qed.

Lemma group_head_NoDup_map {B : Type} (f : UserTag -> B) (n : nat) (prev : list string)
    (rows : list UserTag) :
  NoDup (map f rows) -> NoDup (map f (group_head n prev rows)).
Proof.
  revert prev. induction rows as [|x rows IH]; intros prev H; simpl; [constructor|].
  inversion H as [|? ? Hx H']; subst.
  destruct (count_occ string_dec prev (ut_user_id x) <? n)%nat; [|apply IH; exact H'].
  simpl. constructor; [|apply IH; exact H'].
  intros Hin. apply Hx. apply in_map_iff in Hin. destruct Hin as [y [Hy Hin]].
  apply in_map_iff. exists y. split; [exact Hy|]. eapply group_head_In. exact Hin.
Qed.

Lemma normalize_all_score_le (agg : list (Key * R)) (r : UserTag) :
  In r (normalize_all agg) -> ut_score r <= 100.
Proof.
  intros Hin. apply normalize_all_In in Hin. destruct Hin as [k [c [m [Hagg [Hm Hr]]]]].
  subst r. simpl. pose proof (user_max_ge _ _ _ _ Hagg Hm) as Hle.
  destruct (Rleb m 0) eqn:E; [lra|]. apply Rleb_false_iff in E.
  assert (c / m <= 1).
  { unfold Rdiv. apply Rmult_le_reg_r with m; [exact E|].
    rewrite Rmult_assoc, Rinv_l by lra. lra. }
  lra.
Qed.

(** X10. The affinity table is ordered by user, and within a user by
    descending score; it holds at most 25 rows of any user; and no score in
    it exceeds 100. *)
Theorem X10_affinity_table_is_sorted_and_truncated
    (now : R) (has_created_at : bool) (user_actions : list UserAction)
    (location_tags : list LocationTag) (locations : list Location) :
  let table := fst (build_user_tag_affinities now has_created_at user_actions
                      location_tags locations) in
  StronglySorted
    (fun a b => String.compare (ut_user_id a) (ut_user_id b) = Lt
                \/ (ut_user_id a = ut_user_id b /\ ut_score b <= ut_score a))
    table
  /\ (forall u, (length (rows_of_user u table) <= 25)%nat)
  /\ Forall (fun r => ut_score r <= 100) table.
Proof.
  cbn zeta. rewrite build_fst.
  set (agg := accumulated now has_created_at user_actions location_tags locations).
  split; [|split].
  - apply group_head_sorted.
    eapply StronglySorted_weaken;
      [|apply (sort_by_sorted affinity_leb affinity_leb_total affinity_leb_trans)].
    intros a b. unfold affinity_leb.
    destruct (String.compare (ut_user_id a) (ut_user_id b)) eqn:E; try discriminate; auto.
    intros H. right. split; [apply String.compare_eq_iff; exact E|].
    apply Rleb_true_iff. exact H.
  - intros u. pose proof (group_head_count 25 [] (sort_by affinity_leb (normalize_all agg)) u)
      as H. change (count_occ string_dec [] u) with 0%nat in H.
    rewrite Nat.max_0_r, Nat.add_0_r in H. exact H.
  - apply Forall_forall. intros r Hin.
    apply group_head_In, (proj1 (sort_by_In _ _ _)) in Hin.
    eapply normalize_all_score_le. exact Hin.
Qed.

Lemma aggregate_keys_NoDup (merged : list (Key * R)) : NoDup (map fst (aggregate merged)).
Proof.
  unfold aggregate. rewrite map_map. simpl. rewrite map_id.
  eapply Permutation_NoDup; [apply Permutation_sym, sort_by_perm|].
  apply dedup_NoDup. apply key_eqb_eq.
Qed.

Lemma normalize_keys (group : list (Key * R)) :
  map affinity_key (_normalize group) = map fst group.
Proof.
  unfold _normalize. destruct group as [|first rest]; [reflexivity|].
  rewrite map_map. apply map_ext. intros r. unfold affinity_key. simpl.
  apply key_surjective.
Qed.

Lemma normalize_all_keys_NoDup (agg : list (Key * R)) :
  NoDup (map fst agg) -> NoDup (map affinity_key (normalize_all agg)).
Proof.
  intros Hagg. unfold normalize_all.
  assert (Husers : NoDup (sort_by String.leb
                            (dedup String.eqb (map (fun r => key_user (fst r)) agg)))).
  { eapply Permutation_NoDup; [apply Permutation_sym, sort_by_perm|].
    apply dedup_NoDup. apply String.eqb_eq. }
  induction Husers as [|u users Hu Husers IH]; simpl; [constructor|].
  rewrite map_app. apply NoDup_app_intro.
  - rewrite normalize_keys. apply NoDup_map_filter. exact Hagg.
  - exact IH.
  - intros k Hk1 Hk2. rewrite normalize_keys in Hk1.
    apply in_map_iff in Hk1. destruct Hk1 as [row [Hrow Hin1]].
    apply filter_In in Hin1. destruct Hin1 as [_ Hu1]. apply String.eqb_eq in Hu1.
    apply in_map_iff in Hk2. destruct Hk2 as [r [Hr Hin2]].
    apply in_flat_map in Hin2. destruct Hin2 as [u' [Hu' Hin2]].
    assert (Hkey : In (affinity_key r)
                      (map affinity_key
                         (_normalize (filter (fun r0 => String.eqb (key_user (fst r0)) u') agg))))
      by (apply in_map; exact Hin2).
    rewrite normalize_keys in Hkey. apply in_map_iff in Hkey.
    destruct Hkey as [row' [Hrow' Hin']]. apply filter_In in Hin'.
    destruct Hin' as [_ Hu2]. apply String.eqb_eq in Hu2.
    apply Hu. replace u with u'; [exact Hu'|].
    rewrite <- Hu1, <- Hu2. rewrite Hrow, Hrow', Hr. reflexivity.
Qed.

Lemma action_weight_in_table (now : R) (has_created_at : bool) (a : UserAction) :
  action_weight now has_created_at a <> 0 <-> in_weight_table a = true.
Proof.
  unfold action_weight, in_weight_table.
  pose proof (decay_bounds now has_created_at (ua_created_at a)) as Hd.
  split.
  - destruct (dict_get String.eqb (lower (ua_action a)) DEFAULT_ACTION_WEIGHTS);
      [reflexivity|]. cbn [fillna]. intros H. exfalso. apply H. lra.
  - intros Hin H0. apply Rmult_integral in H0. destruct H0 as [H0|H0]; [|lra].
    revert Hin H0. unfold DEFAULT_ACTION_WEIGHTS. cbn [dict_get].
    repeat (destruct (String.eqb _ (lower (ua_action a))); [simpl; intros _; lra|]).
    discriminate.
Qed.

Lemma kept_actions_In (now : R) (has_created_at : bool) (user_actions : list UserAction)
    (locations : list Location) (w : WeightedAction) :
  In w (kept_actions now has_created_at user_actions locations) ->
  exists a, In a user_actions
    /\ wa_user_id w = ua_user_id a
    /\ dict_get String.eqb (ua_place_id a) (place_to_location locations)
       = Some (wa_location_id w)
    /\ in_weight_table a = true
    /\ wa_weight w = action_weight now has_created_at a.
Proof.
  unfold kept_actions. intros H. apply apply_action_weights_In in H.
  destruct H as [a [loc [Hin [Hw Hnz]]]]. apply resolve_actions_In in Hin.
  destruct Hin as [Hin Hloc]. exists a. subst w. simpl.
  split; [exact Hin|]. split; [reflexivity|]. split; [exact Hloc|].
  split; [|reflexivity]. apply (action_weight_in_table now has_created_at). exact Hnz.
Qed.

Lemma affinity_row_origin (now : R) (has_created_at : bool) (user_actions : list UserAction)
    (location_tags : list LocationTag) (locations : list Location) (r : UserTag) :
  In r (fst (build_user_tag_affinities now has_created_at user_actions location_tags
               locations)) ->
  exists w t,
    In w (kept_actions now has_created_at user_actions locations)
    /\ In t location_tags
    /\ wa_location_id w = lt_location_id t
    /\ affinity_key r = (wa_user_id w, lt_tag_id t, lt_tag_text t).
Proof.
  rewrite build_fst. intros Hin.
  apply group_head_In, (proj1 (sort_by_In _ _ _)), normalize_all_In in Hin.
  destruct Hin as [k [c [m [Hagg [_ Hr]]]]].
  unfold accumulated in Hagg. apply aggregate_In in Hagg. destruct Hagg as [Hk _].
  apply merge_actions_keys in Hk. destruct Hk as [w [t [Hw [Ht [Hloc Hk]]]]].
  exists w, t. split; [exact Hw|]. split; [exact Ht|]. split; [exact Hloc|].
  subst r. unfold affinity_key. simpl. rewrite key_surjective. exact Hk.
Qed.

(** X11. The affinity table holds at most one row for a (user, tag id, tag
    text) key, and every row of it comes from the log and the tag evidence:
    the user has an action of a type of the weight table on a venue of the
    inventory, and that venue carries the tag. *)
Theorem X11_affinity_rows_are_unique_and_grounded
    (now : R) (has_created_at : bool) (user_actions : list UserAction)
    (location_tags : list LocationTag) (locations : list Location) :
  let table := fst (build_user_tag_affinities now has_created_at user_actions
                      location_tags locations) in
  NoDup (map affinity_key table)
  /\ Forall (fun r =>
               exists a t,
                 In a user_actions /\ In t location_tags
                 /\ ua_user_id a = ut_user_id r
                 /\ in_weight_table a = true
                 /\ dict_get String.eqb (ua_place_id a) (place_to_location locations)
                    = Some (lt_location_id t)
                 /\ lt_tag_id t = ut_tag_id r /\ lt_tag_text t = ut_tag_text r)
            table.
Proof.
  cbn zeta. split.
  - rewrite build_fst. apply group_head_NoDup_map, sort_by_NoDup_map.
    apply normalize_all_keys_NoDup. apply aggregate_keys_NoDup.
  - apply Forall_forall. intros r Hin. apply affinity_row_origin in Hin.
    destruct Hin as [w [t [Hw [Ht [Hloc Hk]]]]]. apply kept_actions_In in Hw.
    destruct Hw as [a [Ha [Hu [Hplace [Htab _]]]]].
    exists a, t. unfold affinity_key in Hk. inversion Hk.
    rewrite <- Hloc. repeat split; auto. congruence.
Qed.

(** *** The history summary *)

Lemma history_of_In (df_actions : list WeightedAction) (e : UserHistory) :
  In e (history_of df_actions) <->
  (exists w, In w df_actions /\ wa_user_id w = uh_user_id e)
  /\ uh_n_actions e
     = len (filter (fun a => String.eqb (wa_user_id a) (uh_user_id e)) df_actions).
Proof.
  unfold history_of. rewrite sort_by_In, in_map_iff. split.
  - intros [u [He Hu]]. apply (proj1 (sort_by_In _ _ _)) in Hu.
    apply dedup_In in Hu; [|apply String.eqb_eq]. apply in_map_iff in Hu.
    subst e. simpl. split; [|reflexivity].
    destruct Hu as [w [Hw Hin]]. exists w. auto.
  - intros [[w [Hin Hw]] Hn]. exists (uh_user_id e). split.
    + destruct e as [u n]. simpl in *. rewrite Hn. reflexivity.
    + apply sort_by_In. apply dedup_In; [apply String.eqb_eq|].
      apply in_map_iff. exists w. auto.
Qed.

Lemma history_of_users_NoDup (df_actions : list WeightedAction) :
  NoDup (map uh_user_id (history_of df_actions)).
Proof.
  unfold history_of. apply sort_by_NoDup_map. rewrite map_map. simpl. rewrite map_id.
  eapply Permutation_NoDup; [apply Permutation_sym, sort_by_perm|].
  apply dedup_NoDup. apply String.eqb_eq.
Qed.

Lemma history_of_sorted (df_actions : list WeightedAction) :
  StronglySorted (fun a b => (uh_n_actions b <= uh_n_actions a)%Z) (history_of df_actions).
Proof.
  unfold history_of.
  eapply StronglySorted_weaken; [|apply sort_by_sorted].
  - intros a b H. apply Z.leb_le. exact H.
  - intros a b. rewrite !Z.leb_le. lia.
  - intros a b c. rewrite !Z.leb_le. lia.
Qed.

(** X12. The history summary has one entry per user; an entry counts the
    user's actions that resolve to a venue of the inventory and carry a
    non-zero weight, and that count is at least 1; the entries are in
    descending order of the count; and every user with a row in the affinity
    table has an entry. *)
Theorem X12_history_counts_weighted_actions
    (now : R) (has_created_at : bool) (user_actions : list UserAction)
    (location_tags : list LocationTag) (locations : list Location) :
  let result := build_user_tag_affinities now has_created_at user_actions location_tags
                  locations in
  let kept := kept_actions now has_created_at user_actions locations in
  NoDup (map uh_user_id (snd result))
  /\ Forall (fun e =>
               uh_n_actions e
               = len (filter (fun a => String.eqb (wa_user_id a) (uh_user_id e)) kept)
               /\ (1 <= uh_n_actions e)%Z)
            (snd result)
  /\ StronglySorted (fun a b => (uh_n_actions b <= uh_n_actions a)%Z) (snd result)
  /\ (forall r, In r (fst result) ->
                exists e, In e (snd result) /\ uh_user_id e = ut_user_id r).
Proof.
  cbn zeta.
  split; [|split; [|split]].
  - rewrite build_unfolded. cbn zeta. destruct (is_empty _); [constructor|].
    apply history_of_users_NoDup.
  - rewrite build_unfolded. cbn zeta. destruct (is_empty _); [constructor|].
    apply Forall_forall. intros e He. apply history_of_In in He.
    destruct He as [[w [Hin Hw]] Hn]. split; [exact Hn|]. rewrite Hn.
    assert (Hne : In w (filter (fun a => String.eqb (wa_user_id a) (uh_user_id e))
                          (kept_actions now has_created_at user_actions locations))).
    { apply filter_In. split; [exact Hin|]. apply String.eqb_eq. exact Hw. }
    unfold len. destruct (filter _ _); [contradiction|]. simpl length. lia.
  - rewrite build_unfolded. cbn zeta. destruct (is_empty _); [constructor|].
    apply history_of_sorted.
  - intros r Hr. pose proof (affinity_row_origin _ _ _ _ _ _ Hr) as Ho.
    destruct Ho as [w [t [Hw [Ht [Hloc Hk]]]]].
    rewrite build_unfolded in *. cbn zeta in *.
    destruct (is_empty _); [contradiction|]. cbn [snd].
    exists (mkUserHistory (ut_user_id r)
              (len (filter (fun a => String.eqb (wa_user_id a) (ut_user_id r))
                      (kept_actions now has_created_at user_actions locations)))).
    split; [|reflexivity]. apply history_of_In. simpl. split; [|reflexivity].
    exists w. split; [exact Hw|]. unfold affinity_key in Hk. inversion Hk. reflexivity.
Qed.

(** *** Actions that do not count *)

Lemma kept_actions_cons (now : R) (has_created_at : bool) (a : UserAction)
    (user_actions : list UserAction) (locations : list Location) :
  kept_actions now has_created_at (a :: user_actions) locations
  = (if known_place locations a && in_weight_table a
     then kept_actions now has_created_at [a] locations else [])
    ++ kept_actions now has_created_at user_actions locations.
Proof.
  unfold kept_actions, _apply_action_weights, resolve_actions, known_place. cbn [flat_map].
  rewrite map_app, filter_app. f_equal.
  destruct (dict_get String.eqb (ua_place_id a) (place_to_location locations)) as [loc|];
    [|reflexivity].
  cbn [andb app map filter fst snd wa_weight].
  destruct (in_weight_table a) eqn:E; [reflexivity|].
  assert (Hw : action_weight now has_created_at a = 0).
  { destruct (Req_dec_T (action_weight now has_created_at a) 0) as [H|H]; [exact H|].
    apply action_weight_in_table in H. congruence. }
  rewrite Hw, (proj2 (Reqb_true_iff 0 0)) by reflexivity. reflexivity.
Qed.

Lemma kept_actions_filter (now : R) (has_created_at : bool)
    (user_actions : list UserAction) (locations : list Location) :
  kept_actions now has_created_at
    (filter (fun a => known_place locations a && in_weight_table a) user_actions) locations
  = kept_actions now has_created_at user_actions locations.
Proof.
  induction user_actions as [|a user_actions IH]; [reflexivity|].
  rewrite (kept_actions_cons _ _ a user_actions). cbn [filter].
  destruct (known_place locations a && in_weight_table a) eqn:E.
  - rewrite kept_actions_cons, E, IH. reflexivity.
  - rewrite IH. reflexivity.
Qed.

(** X13. Actions on venues that are not in the inventory and actions whose
    type is not in the weight table do not count: removing them from the
    log changes neither the affinity table nor the history summary. *)
Theorem X13_unknown_venues_and_types_are_ignored
    (now : R) (has_created_at : bool) (user_actions : list UserAction)
    (location_tags : list LocationTag) (locations : list Location) :
  build_user_tag_affinities now has_created_at
    (filter (fun a => known_place locations a && in_weight_table a) user_actions)
    location_tags locations
  = build_user_tag_affinities now has_created_at user_actions location_tags locations.
Proof.
  rewrite !build_unfolded. cbn zeta. rewrite kept_actions_filter. reflexivity.
Qed.

End UserProfilesFurtherProperties.

(** ** Further properties of the blender *)

Lemma div_unit (x t : R) : 0 < t -> 0 <= x <= t -> 0 <= x / t <= 1.
Proof.
  intros Ht [H0 H1]. unfold Rdiv. pose proof (Rinv_0_lt_compat t Ht) as Hi. split.
  - apply Rmult_le_pos; lra.
  - apply Rmult_le_reg_r with t; [exact Ht|]. rewrite Rmult_assoc, Rinv_l by lra. lra.
Qed.

Lemma div_le (x y t : R) : 0 < t -> x <= y -> x / t <= y / t.
Proof.
  intros Ht H. unfold Rdiv. apply Rmult_le_compat_r; [|exact H].
  left. apply Rinv_0_lt_compat. exact Ht.
Qed.

(** Sets of integers. *)

Lemma set_mem_In (x : Z) (s : list Z) : set_mem x s = true <-> In x s.
Proof.
  unfold set_mem. rewrite existsb_exists. split.
  - intros [y [Hin Hy]]. apply Z.eqb_eq in Hy. subst y. exact Hin.
  - intros Hin. exists x. split; [exact Hin | apply Z.eqb_refl].
Qed.

Lemma set_add_In (x y : Z) (s : list Z) : In x (set_add y s) <-> x = y \/ In x s.
Proof. rewrite <- !set_mem_In. apply set_mem_set_add. Qed.

Lemma set_add_NoDup (x : Z) (s : list Z) : NoDup s -> NoDup (set_add x s).
Proof.
  intros H. unfold set_add. destruct (existsb (Z.eqb x) s) eqn:E; [exact H|].
  apply NoDup_app_intro; [exact H | constructor; [intros [] | constructor] |].
  intros y Hy [Hx|[]]. subst y. apply set_mem_In in Hy. unfold set_mem in Hy. congruence.
Qed.

Lemma set_update_In (x : Z) (xs s : list Z) : In x (set_update s xs) <-> In x s \/ In x xs.
Proof.
  unfold set_update. revert s. induction xs as [|y xs IH]; intros s; simpl; [tauto|].
  rewrite IH, set_add_In. intuition congruence.
Qed.

Lemma set_update_NoDup (xs s : list Z) : NoDup s -> NoDup (set_update s xs).
Proof.
  unfold set_update. revert s. induction xs as [|y xs IH]; intros s H; simpl; [exact H|].
  apply IH, set_add_NoDup, H.
Qed.

(** Dictionaries of sets, as the grouping loops build them. *)

Lemma bucket_of_dict_set (k u : string) (v : list Z) (c : list (string * list Z)) :
  Blender.bucket_of (dict_set String.eqb k v c) u
  = if String.eqb k u then v else Blender.bucket_of c u.
Proof.
  unfold Blender.bucket_of. destruct (String.eqb k u) eqn:E.
  - apply String.eqb_eq in E. subst u.
    rewrite (dict_get_set_same String.eqb String.eqb_eq). reflexivity.
  - apply String.eqb_neq in E.
    rewrite (dict_get_set_other String.eqb String.eqb_eq) by congruence. reflexivity.
Qed.

Lemma dict_set_key_In {V : Type} (k u : string) (v : V) (c : list (string * V)) :
  In u (map fst (dict_set String.eqb k v c)) <-> u = k \/ In u (map fst c).
Proof.
  rewrite (dict_set_keys String.eqb). destruct (existsb _ (map fst c)) eqn:E.
  - apply existsb_exists in E. destruct E as [k' [Hin Hk]]. apply String.eqb_eq in Hk.
    subst k'. intuition congruence.
  - rewrite in_app_iff. simpl. intuition congruence.
Qed.

Lemma dict_set_values {V : Type} (P : V -> Prop) (k : string) (v : V) (c : list (string * V)) :
  P v -> Forall (fun e => P (snd e)) c ->
  Forall (fun e => P (snd e)) (dict_set String.eqb k v c).
Proof.
  intros Hv. induction c as [|[k' v'] c IH]; simpl; intros H.
  - constructor; [exact Hv | constructor].
  - inversion H; subst. destruct (String.eqb k' k); constructor; auto.
Qed.

Lemma bucket_of_values (P : list Z -> Prop) (c : list (string * list Z)) (u : string) :
  P [] -> Forall (fun e => P (snd e)) c -> P (Blender.bucket_of c u).
Proof.
  intros Hnil H. unfold Blender.bucket_of.
  induction c as [|[k v] c IH]; simpl; [exact Hnil|].
  inversion H; subst. destruct (String.eqb k u); auto.
Qed.

Lemma dict_get_key_In {V : Type} (u : string) (c : list (string * V)) :
  In u (map fst c) <-> exists v, dict_get String.eqb u c = Some v.
Proof.
  induction c as [|[k v] c IH]; simpl.
  - split; [contradiction | intros [v H]; discriminate].
  - destruct (String.eqb k u) eqn:E.
    + apply String.eqb_eq in E. split; [eexists; reflexivity | auto].
    + apply String.eqb_neq in E. rewrite IH. split; [intros [H|H]; [contradiction|exact H] | auto].
Qed.

Section Grouping.
Context {A : Type} (ku : A -> string) (kv : A -> Z).

Lemma group_step_bucket (c : list (string * list Z)) (x : A) (u : string) :
  Blender.bucket_of (group_step ku kv c x) u
  = if String.eqb (ku x) u then set_add (kv x) (Blender.bucket_of c (ku x))
    else Blender.bucket_of c u.
Proof. unfold group_step. apply bucket_of_dict_set. Qed.

Lemma grouping_In (rows : list A) (c : list (string * list Z)) (u : string) (id : Z) :
  In id (Blender.bucket_of (fold_left (group_step ku kv) rows c) u)
  <-> In id (Blender.bucket_of c u) \/ exists x, In x rows /\ ku x = u /\ kv x = id.
Proof.
  revert c. induction rows as [|x rows IH]; intros c; cbn [fold_left In].
  - split; [auto | intros [H|[x [[] _]]]; exact H].
  - rewrite IH, group_step_bucket.
    destruct (String.eqb (ku x) u) eqn:E.
    + apply String.eqb_eq in E. rewrite set_add_In. subst u. split.
      * intros [[H|H]|[y [Hy H]]]; [right; exists x; auto | auto | right; exists y; tauto].
      * intros [H|[y [[Hy|Hy] [Hu Hv]]]]; [auto | subst y; auto |].
        right. exists y. auto.
    + apply String.eqb_neq in E. split.
      * intros [H|[y [Hy H]]]; [auto | right; exists y; tauto].
      * intros [H|[y [[Hy|Hy] [Hu Hv]]]]; [auto | subst y; contradiction |].
        right. exists y. auto.
Qed.

Lemma grouping_keys (rows : list A) (c : list (string * list Z)) (u : string) :
  In u (map fst (fold_left (group_step ku kv) rows c))
  <-> In u (map fst c) \/ exists x, In x rows /\ ku x = u.
Proof.
  revert c. induction rows as [|x rows IH]; intros c; cbn [fold_left In].
  - split; [auto | intros [H|[x [[] _]]]; exact H].
  - rewrite IH. unfold group_step. rewrite dict_set_key_In. split.
    + intros [[H|H]|[y [Hy H]]]; [right; exists x; auto | auto | right; exists y; tauto].
    + intros [H|[y [[Hy|Hy] Hu]]]; [auto | subst y; auto |]. right. exists y. auto.
Qed.

Lemma grouping_keys_NoDup (rows : list A) (c : list (string * list Z)) :
  NoDup (map fst c) -> NoDup (map fst (fold_left (group_step ku kv) rows c)).
Proof.
  revert c. induction rows as [|x rows IH]; intros c H; cbn [fold_left]; [exact H|].
  apply IH. unfold group_step. apply (dict_set_NoDup String.eqb String.eqb_eq). exact H.
Qed.

Lemma grouping_buckets_NoDup (rows : list A) (c : list (string * list Z)) :
  Forall (fun e => NoDup (snd e)) c ->
  Forall (fun e => NoDup (snd e)) (fold_left (group_step ku kv) rows c).
Proof.
  revert c. induction rows as [|x rows IH]; intros c H; cbn [fold_left]; [exact H|].
  apply IH. unfold group_step. apply (dict_set_values (fun s => NoDup s)); [|exact H].
  apply set_add_NoDup. apply (bucket_of_values (fun s => NoDup s)); [constructor | exact H].
Qed.

End Grouping.

Section BlenderFurtherProperties.
Import Blender.

Lemma normalized_components (w : RecommendationWeights) :
  0 < weights_total w ->
  normalized w
  = mkRecommendationWeights
      (taste w / weights_total w) (trend_app w / weights_total w)
      (hidden_gems w / weights_total w) (quality w / weights_total w)
      (friend w / weights_total w) (bubble w / weights_total w).
Proof.
  intros H. unfold normalized. rewrite (proj2 (Reqb_false_iff _ _)) by lra. reflexivity.
Qed.

Lemma normalized_in_unit (w : RecommendationWeights) :
  weights_nonneg w -> 0 < weights_total w -> weights_in_unit (normalized w).
Proof.
  intros Hn Ht. rewrite normalized_components by exact Ht.
  unfold weights_nonneg, weights_in_unit, weights_total in *. simpl.
  repeat split; apply div_unit; lra.
Qed.

Lemma cold_ratio_bounds (h : Z) : (0 <= h < 5)%Z -> 0 <= IZR h / 5 < 1.
Proof.
  intros [H0 H5]. apply IZR_le in H0. apply IZR_lt in H5. lra.
Qed.

Lemma cold_adjusted_nonneg (base : RecommendationWeights) (h : Z) :
  weights_nonneg base -> (0 <= h < 5)%Z -> weights_nonneg (cold_adjusted base h).
Proof.
  intros Hn Hh. pose proof (cold_ratio_bounds h Hh) as Hr.
  unfold weights_nonneg, cold_adjusted in *. simpl.
  destruct Hn as [Ht [Htr [Hhg [Hq [Hf Hb]]]]].
  assert (0 <= taste base * (IZR h / 5) <= taste base) by nra.
  repeat split; lra.
Qed.

(** X14. With base weights that are not negative and do not all vanish, and
    a history size that is not negative, the adaptive weights lie between 0
    and 1 and sum to 1. A longer history never lowers the taste weight and
    never raises the trend or the quality weight; the hidden-gem, friend
    and bubble weights do not depend on the history; and from 5 actions on
    the weights do not change any more. *)
Theorem X14_adaptive_weights_form_a_distribution
    (base : RecommendationWeights) (h1 h2 : Z)
    (Hbase : weights_nonneg base)
    (Hsum : 0 < weights_total base)
    (Hhistory : (0 <= h1 <= h2)%Z) :
  let w1 := _adaptive_weights base h1 in
  let w2 := _adaptive_weights base h2 in
  weights_in_unit w1 /\ weights_total w1 = 1
  /\ taste w1 <= taste w2 /\ trend_app w2 <= trend_app w1 /\ quality w2 <= quality w1
  /\ hidden_gems w1 = hidden_gems w2 /\ friend w1 = friend w2 /\ bubble w1 = bubble w2
  /\ ((5 <= h1)%Z -> w1 = w2).
Proof.
  cbn zeta.
  assert (Hshape : forall h, (0 <= h)%Z ->
            exists w, _adaptive_weights base h = normalized w
                      /\ weights_nonneg w /\ weights_total w = weights_total base
                      /\ w = (if (h <? 5)%Z then cold_adjusted base h else base)).
  { intros h Hh. destruct (h <? 5)%Z eqn:E.
    - apply Z.ltb_lt in E. exists (cold_adjusted base h).
      split; [apply adaptive_weights_cold; exact E|].
      split; [apply cold_adjusted_nonneg; [exact Hbase | lia]|].
      split; [apply cold_adjusted_total | reflexivity].
    - apply Z.ltb_ge in E. exists base.
      split; [apply adaptive_weights_warm; exact E|]. auto. }
  destruct (Hshape h1) as [a1 [E1 [N1 [T1 S1]]]]; [lia|].
  destruct (Hshape h2) as [a2 [E2 [N2 [T2 S2]]]]; [lia|].
  rewrite E1, E2.
  split; [apply normalized_in_unit; [exact N1 | lra]|].
  split; [apply normalized_total; lra|].
  rewrite !normalized_components by lra. rewrite T1, T2. simpl.
  assert (Hcmp : taste a1 <= taste a2 /\ trend_app a2 <= trend_app a1
                 /\ quality a2 <= quality a1 /\ hidden_gems a1 = hidden_gems a2
                 /\ friend a1 = friend a2 /\ bubble a1 = bubble a2
                 /\ ((5 <= h1)%Z -> a1 = a2)).
  { subst a1 a2. destruct Hbase as [Ht _].
    destruct (h1 <? 5)%Z eqn:C1; destruct (h2 <? 5)%Z eqn:C2;
      try apply Z.ltb_lt in C1; try apply Z.ltb_ge in C1;
      try apply Z.ltb_lt in C2; try apply Z.ltb_ge in C2; try lia.
    - pose proof (cold_ratio_bounds h1 ltac:(lia)) as R1.
      pose proof (cold_ratio_bounds h2 ltac:(lia)) as R2.
      assert (IZR h1 <= IZR h2) by (apply IZR_le; lia).
      assert (taste base * (IZR h1 / 5) <= taste base * (IZR h2 / 5))
        by (apply Rmult_le_compat_l; lra).
      unfold cold_adjusted. simpl. repeat split; try lra. lia.
    - pose proof (cold_ratio_bounds h1 ltac:(lia)) as R1.
      assert (taste base * (IZR h1 / 5) <= taste base) by nra.
      unfold cold_adjusted. simpl. repeat split; try lra. lia.
    - repeat split; try lra. }
  destruct Hcmp as [C1 [C2 [C3 [C4 [C5 [C6 C7]]]]]].
  repeat split; try (apply div_le; assumption); try congruence.
  intros H5. rewrite (C7 H5). reflexivity.
Qed.

(** The theorem at the default weights, for histories of 2 and of 7 actions. *)
Lemma X14_witness_default_weights :
  let w1 := _adaptive_weights default_weights 2 in
  let w2 := _adaptive_weights default_weights 7 in
  weights_in_unit w1 /\ weights_total w1 = 1
  /\ taste w1 <= taste w2 /\ trend_app w2 <= trend_app w1 /\ quality w2 <= quality w1
  /\ hidden_gems w1 = hidden_gems w2 /\ friend w1 = friend w2 /\ bubble w1 = bubble w2
  /\ ((5 <= 2)%Z -> w1 = w2).
Proof.
  apply (X14_adaptive_weights_form_a_distribution default_weights 2 7).
  - unfold weights_nonneg, default_weights. simpl. lra.
  - unfold weights_total, default_weights. simpl. lra.
  - lia.
Defined.

(** *** Taste contributions *)

Lemma taste_key_eqb_eq (a b : TasteKey) : taste_key_eqb a b = true <-> a = b.
Proof.
  destruct a as [u1 l1], b as [u2 l2]. unfold taste_key_eqb. simpl.
  rewrite andb_true_iff, String.eqb_eq, Z.eqb_eq. split.
  - intros [-> ->]. reflexivity.
  - intros H. inversion H. auto.
Qed.

Lemma taste_contributions_eq (user_tags : list UserTag) (location_tags : list LocationTag) :
  _taste_contributions user_tags location_tags
  = map (fun k =>
           mkTasteRow (fst k) (snd k)
             (Rsum (map snd (filter (fun r => taste_key_eqb (fst r) k)
                               (taste_merge user_tags location_tags)))))
        (sort_by taste_key_leb
           (dedup taste_key_eqb (map fst (taste_merge user_tags location_tags)))).
Proof.
  unfold _taste_contributions, taste_merge.
  destruct user_tags as [|u user_tags]; [reflexivity|].
  destruct location_tags as [|t location_tags]; [|reflexivity].
  cbn [is_empty orb filter].
  assert (H : forall l : list UserTag,
            flat_map (fun u0 => map (fun t : LocationTag =>
                                       ((ut_user_id u0, lt_location_id t),
                                        ut_score u0 / 100.0 * (lt_score t / 100.0))) [])
                     l = []).
  { induction l as [|x l IH]; simpl; [reflexivity | exact IH]. }
  rewrite H. reflexivity.
Qed.

Lemma taste_merge_components (user_tags : list UserTag) (location_tags : list LocationTag)
    (u : string) (loc : Z) :
  map snd (filter (fun r => taste_key_eqb (fst r) (u, loc))
             (taste_merge user_tags location_tags))
  = taste_components user_tags location_tags u loc.
Proof.
  unfold taste_merge, taste_components.
  induction user_tags as [|ut user_tags IH]; [reflexivity|].
  unfold TasteKey in *. cbn [flat_map]. rewrite filter_app, map_app, IH. f_equal. clear IH.
  induction location_tags as [|t location_tags IHt]; cbn [filter map].
  - destruct (String.eqb (ut_user_id ut) u); reflexivity.
  - destruct (Z.eqb (ut_tag_id ut) (lt_tag_id t)); cbn [andb map filter fst];
      [|exact IHt].
    unfold taste_key_eqb at 1. cbn [fst snd].
    destruct (String.eqb (ut_user_id ut) u) eqn:Eu; cbn [andb].
    + destruct (Z.eqb (lt_location_id t) loc); cbn [map snd].
      * f_equal. rewrite <- IHt. reflexivity.
      * rewrite <- IHt. reflexivity.
    + rewrite IHt. reflexivity.
Qed.

Lemma taste_merge_keys (user_tags : list UserTag) (location_tags : list LocationTag)
    (k : TasteKey) :
  In k (map fst (taste_merge user_tags location_tags))
  <-> exists ut t, In ut user_tags /\ In t location_tags
                   /\ ut_tag_id ut = lt_tag_id t
                   /\ k = (ut_user_id ut, lt_location_id t).
Proof.
  unfold taste_merge. rewrite in_map_iff. split.
  - intros [[k' c] [Hk Hin]]. simpl in Hk. subst k'.
    apply in_flat_map in Hin. destruct Hin as [ut [Hut Hin]].
    apply in_map_iff in Hin. destruct Hin as [t [Ht Hin]].
    apply filter_In in Hin. destruct Hin as [Hin Htag]. apply Z.eqb_eq in Htag.
    exists ut, t. inversion Ht. auto.
  - intros [ut [t [Hut [Ht [Htag Hk]]]]].
    exists (k, (ut_score ut / 100.0) * (lt_score t / 100.0)). split; [reflexivity|].
    apply in_flat_map. exists ut. split; [exact Hut|].
    apply in_map_iff. exists t. split; [rewrite Hk; reflexivity|].
    apply filter_In. split; [exact Ht|]. apply Z.eqb_eq. exact Htag.
Qed.

Lemma taste_of_rows (f : TasteKey -> R) (keys : list TasteKey) (u : string) (loc : Z) :
  taste_of (map (fun k => mkTasteRow (fst k) (snd k) (f k)) keys) u loc
  = if existsb (fun k => taste_key_eqb k (u, loc)) keys then f (u, loc) else 0.0.
Proof.
  unfold taste_of. induction keys as [|[u' l'] keys IH]; [reflexivity|].
  cbn [map filter existsb fst snd ts_user_id]. unfold taste_key_eqb at 1. cbn [fst snd].
  destruct (String.eqb u' u) eqn:Eu; cbn [andb find ts_location_id].
  - destruct (Z.eqb l' loc) eqn:El; cbn [orb].
    + apply String.eqb_eq in Eu. apply Z.eqb_eq in El. subst. reflexivity.
    + exact IH.
  - exact IH.
Qed.

(** X15. The taste frame has one row for a (user, venue) pair, and it has
    one exactly when some affinity of the user and some evidence of the
    venue are on the same tag. The taste value the blender looks up for a
    pair is the sum, over the user's affinities and the venue's evidence on
    the same tag, of (affinity score / 100) x (evidence score / 100); it is 0
    for a pair without a common tag. *)
Theorem X15_taste_is_the_sum_over_shared_tags
    (user_tags : list UserTag) (location_tags : list LocationTag) :
  let taste_scores := _taste_contributions user_tags location_tags in
  NoDup (map taste_key taste_scores)
  /\ (forall u loc,
        (exists r, In r taste_scores /\ taste_key r = (u, loc))
        <-> exists ut t, In ut user_tags /\ In t location_tags
                         /\ ut_user_id ut = u /\ lt_location_id t = loc
                         /\ ut_tag_id ut = lt_tag_id t)
  /\ (forall u loc,
        taste_of taste_scores u loc = Rsum (taste_components user_tags location_tags u loc)).
Proof.
  cbn zeta. rewrite taste_contributions_eq.
  set (merged := taste_merge user_tags location_tags).
  split; [|split].
  - rewrite map_map. unfold taste_key. cbn [ts_user_id ts_location_id].
    rewrite (map_ext _ (fun k => k)) by (intros [a b]; reflexivity). rewrite map_id.
    eapply Permutation_NoDup; [apply Permutation_sym, sort_by_perm|].
    apply dedup_NoDup. apply taste_key_eqb_eq.
  - intros u loc. split.
    + intros [r [Hin Hk]]. apply in_map_iff in Hin. destruct Hin as [k [Hr Hin]].
      apply (proj1 (sort_by_In _ _ _)) in Hin.
      apply (proj1 (dedup_In _ taste_key_eqb_eq _ _)) in Hin.
      apply taste_merge_keys in Hin. destruct Hin as [ut [t [Hut [Ht [Htag Hkey]]]]].
      exists ut, t. subst r k. unfold taste_key in Hk. simpl in Hk. inversion Hk. auto.
    + intros [ut [t [Hut [Ht [Hu [Hl Htag]]]]]].
      exists (mkTasteRow u loc
                (Rsum (map snd (filter (fun r => taste_key_eqb (fst r) (u, loc)) merged)))).
      split; [|reflexivity]. apply in_map_iff. exists (u, loc). split; [reflexivity|].
      apply sort_by_In. apply (proj2 (dedup_In _ taste_key_eqb_eq _ _)).
      apply taste_merge_keys. exists ut, t. subst. auto.
  - intros u loc.
    rewrite (taste_of_rows
               (fun k => Rsum (map snd (filter (fun r => taste_key_eqb (fst r) k) merged)))).
    destruct (existsb _ _) eqn:E.
    + unfold merged. rewrite taste_merge_components. reflexivity.
    + rewrite <- taste_merge_components. fold merged.
      assert (Hnone : filter (fun r => taste_key_eqb (fst r) (u, loc)) merged = []).
      { destruct (filter _ merged) as [|row rest] eqn:Hf; [reflexivity|]. exfalso.
        assert (Hrow : In row (filter (fun r => taste_key_eqb (fst r) (u, loc)) merged))
          by (rewrite Hf; left; reflexivity).
        apply filter_In in Hrow. destruct Hrow as [Hin Hk]. apply taste_key_eqb_eq in Hk.
        assert (Hex : existsb (fun k => taste_key_eqb k (u, loc))
                        (sort_by taste_key_leb (dedup taste_key_eqb (map fst merged))) = true).
        { apply existsb_exists. exists (u, loc). split; [|apply taste_key_eqb_eq; reflexivity].
          apply sort_by_In. apply (proj2 (dedup_In _ taste_key_eqb_eq _ _)).
          rewrite <- Hk. apply in_map. exact Hin. }
        congruence. }
      rewrite Hnone. simpl. lra.
Qed.

(** *** Candidate sets *)

Lemma candidate_sets_eq (set_iter : list string -> list string)
    (taste_scores : list TasteRow) (top_trend_ids top_hidden_ids : list Z)
    (all_user_ids : list string) :
  _candidate_sets set_iter taste_scores top_trend_ids top_hidden_ids all_user_ids
  = let candidates := fold_left (group_step ts_user_id ts_location_id) taste_scores [] in
    fold_left (top_step (dedup Z.eqb top_trend_ids) (dedup Z.eqb top_hidden_ids))
      (set_iter (dedup String.eqb (map fst candidates ++ all_user_ids)))
      candidates.
Proof. reflexivity. Qed.

Lemma top_fold_In (top_trend top_hidden : list Z) (users : list string)
    (c : list (string * list Z)) (u : string) (id : Z) :
  In id (bucket_of (fold_left (top_step top_trend top_hidden) users c) u)
  <-> In id (bucket_of c u)
      \/ (In u users /\ (In id top_trend \/ In id top_hidden)).
Proof.
  revert c. induction users as [|x users IH]; intros c; cbn [fold_left In]; [tauto|].
  rewrite IH. unfold top_step. rewrite bucket_of_dict_set.
  destruct (String.eqb x u) eqn:E.
  - apply String.eqb_eq in E. subst x. rewrite !set_update_In. tauto.
  - apply String.eqb_neq in E. intuition congruence.
Qed.

Lemma top_fold_keys (top_trend top_hidden : list Z) (users : list string)
    (c : list (string * list Z)) (u : string) :
  In u (map fst (fold_left (top_step top_trend top_hidden) users c))
  <-> In u (map fst c) \/ In u users.
Proof.
  revert c. induction users as [|x users IH]; intros c; cbn [fold_left In]; [tauto|].
  rewrite IH. unfold top_step. rewrite dict_set_key_In. intuition congruence.
Qed.

Lemma top_fold_keys_NoDup (top_trend top_hidden : list Z) (users : list string)
    (c : list (string * list Z)) :
  NoDup (map fst c) -> NoDup (map fst (fold_left (top_step top_trend top_hidden) users c)).
Proof.
  revert c. induction users as [|x users IH]; intros c H; cbn [fold_left]; [exact H|].
  apply IH. unfold top_step. apply (dict_set_NoDup String.eqb String.eqb_eq). exact H.
Qed.

Lemma top_fold_buckets_NoDup (top_trend top_hidden : list Z) (users : list string)
    (c : list (string * list Z)) :
  Forall (fun e => NoDup (snd e)) c ->
  Forall (fun e => NoDup (snd e)) (fold_left (top_step top_trend top_hidden) users c).
Proof.
  revert c. induction users as [|x users IH]; intros c H; cbn [fold_left]; [exact H|].
  apply IH. unfold top_step. apply (dict_set_values (fun s => NoDup s)); [|exact H].
  apply set_update_NoDup, set_update_NoDup.
  apply (bucket_of_values (fun s => NoDup s)); [constructor | exact H].
Qed.

Lemma candidate_sets_keys_NoDup (set_iter : list string -> list string)
    (taste_scores : list TasteRow) (top_trend_ids top_hidden_ids : list Z)
    (all_user_ids : list string) :
  NoDup (map fst (_candidate_sets set_iter taste_scores top_trend_ids top_hidden_ids
                    all_user_ids)).
Proof.
  rewrite candidate_sets_eq. cbn zeta.
  apply top_fold_keys_NoDup, grouping_keys_NoDup. constructor.
Qed.

Lemma candidate_sets_buckets_NoDup (set_iter : list string -> list string)
    (taste_scores : list TasteRow) (top_trend_ids top_hidden_ids : list Z)
    (all_user_ids : list string) :
  Forall (fun e => NoDup (snd e))
         (_candidate_sets set_iter taste_scores top_trend_ids top_hidden_ids all_user_ids).
Proof.
  rewrite candidate_sets_eq. cbn zeta.
  apply top_fold_buckets_NoDup, grouping_buckets_NoDup. constructor.
Qed.

(** X16. Provided the iteration over the set of user ids visits exactly its
    elements: the candidate map has a key for exactly the users that were
    passed in or have a row in the taste frame, and a venue is in the bucket
    of such a user exactly when the user has a taste row for it or it is one
    of the popular or of the hidden-gem venues. No key occurs twice and no
    bucket lists a venue twice. *)
Theorem X16_candidates_are_taste_venues_and_top_venues
    (set_iter : list string -> list string)
    (taste_scores : list TasteRow) (top_trend_ids top_hidden_ids : list Z)
    (all_user_ids : list string)
    (Hiter : forall l x, In x (set_iter l) <-> In x l) :
  let candidates := _candidate_sets set_iter taste_scores top_trend_ids top_hidden_ids
                      all_user_ids in
  (forall u, In u (map fst candidates)
             <-> In u all_user_ids \/ has_taste_row taste_scores u)
  /\ (forall u id,
        In id (bucket_of candidates u)
        <-> (exists row, In row taste_scores /\ ts_user_id row = u /\ ts_location_id row = id)
            \/ ((In u all_user_ids \/ has_taste_row taste_scores u)
                /\ (In id top_trend_ids \/ In id top_hidden_ids)))
  /\ NoDup (map fst candidates)
  /\ Forall (fun e => NoDup (snd e)) candidates.
Proof.
  cbn zeta.
  split; [|split; [|split;
    [apply candidate_sets_keys_NoDup | apply candidate_sets_buckets_NoDup]]].
  - intros u. rewrite candidate_sets_eq. cbn zeta.
    rewrite top_fold_keys, Hiter, (dedup_In _ String.eqb_eq), in_app_iff, grouping_keys.
    unfold has_taste_row. simpl. tauto.
  - intros u id. rewrite candidate_sets_eq. cbn zeta.
    rewrite top_fold_In, Hiter, (dedup_In _ String.eqb_eq), in_app_iff, grouping_keys,
      grouping_In, !(dedup_In _ Z.eqb_eq).
    unfold has_taste_row, bucket_of. simpl. tauto.
Qed.

(** The theorem for an iteration in the order given, at two users with one
    taste row each. *)
Lemma X16_witness_two_users :
  let taste_scores := _taste_contributions two_user_tags two_venue_tags in
  let candidates := _candidate_sets in_given_order taste_scores [1%Z] [2%Z]
                      ["ann"%string; "bob"%string] in
  (forall u, In u (map fst candidates)
             <-> In u ["ann"%string; "bob"%string] \/ has_taste_row taste_scores u)
  /\ (forall u id,
        In id (bucket_of candidates u)
        <-> (exists row, In row taste_scores /\ ts_user_id row = u /\ ts_location_id row = id)
            \/ ((In u ["ann"%string; "bob"%string] \/ has_taste_row taste_scores u)
                /\ (In id [1%Z] \/ In id [2%Z])))
  /\ NoDup (map fst candidates)
  /\ Forall (fun e => NoDup (snd e)) candidates.
Proof.
  apply (X16_candidates_are_taste_venues_and_top_venues in_given_order).
  intros l x. unfold in_given_order. tauto.
Defined.

(** *** Seen venues *)

Lemma seen_locations_eq (user_actions : list UserAction) (locations : list Location) :
  _user_seen_locations user_actions locations
  = fold_left (group_step (fun row : UserAction * Z => ua_user_id (fst row)) snd)
      (UserProfiles.resolve_actions locations user_actions) [].
Proof. unfold _user_seen_locations. destruct user_actions; reflexivity. Qed.

Lemma seen_locations_iff (user_actions : list UserAction) (locations : list Location)
    (u : string) (loc : Z) :
  set_mem loc (bucket_of (_user_seen_locations user_actions locations) u) = true
  <-> exists a, In a user_actions /\ ua_user_id a = u
                /\ dict_get String.eqb (ua_place_id a)
                     (UserProfiles.place_to_location locations) = Some loc.
Proof.
  rewrite seen_locations_eq, set_mem_In, grouping_In. unfold bucket_of at 1. simpl. split.
  - intros [[]|[[a l] [Hin [Hu Hl]]]]. simpl in Hu, Hl. subst l.
    apply resolve_actions_In in Hin. exists a. tauto.
  - intros [a [Hin [Hu Hres]]]. right. exists (a, loc). simpl.
    split; [|auto]. unfold UserProfiles.resolve_actions. apply in_flat_map.
    exists a. split; [exact Hin|]. rewrite Hres. left. reflexivity.
Qed.

(** X17. A venue is in the seen set of a user exactly when an action of
    that user, of whatever type, resolves to it through the inventory; the
    seen map has no key twice and no set lists a venue twice. *)
Theorem X17_seen_set_is_the_users_resolved_venues
    (user_actions : list UserAction) (locations : list Location) :
  let seen := _user_seen_locations user_actions locations in
  (forall u loc,
      set_mem loc (bucket_of seen u) = true
      <-> exists a, In a user_actions /\ ua_user_id a = u
                    /\ dict_get String.eqb (ua_place_id a)
                         (UserProfiles.place_to_location locations) = Some loc)
  /\ NoDup (map fst seen)
  /\ Forall (fun e => NoDup (snd e)) seen.
Proof.
  cbn zeta. split; [intros u loc; apply seen_locations_iff|].
  rewrite seen_locations_eq.
  split; [apply grouping_keys_NoDup | apply grouping_buckets_NoDup]; constructor.
Qed.

(** *** The output frame *)

Lemma blender_add_rank_fields (start : Z) (rows : list Recommendation) (r : Recommendation) :
  In r (add_rank start rows) ->
  exists r0, In r0 rows
    /\ br_user_id r = br_user_id r0 /\ br_location_id r = br_location_id r0
    /\ br_score r = br_score r0 /\ br_taste_score r = br_taste_score r0
    /\ br_trend_score r = br_trend_score r0
    /\ br_hidden_gem_score r = br_hidden_gem_score r0
    /\ br_quality_score r = br_quality_score r0
    /\ br_weights r = br_weights r0.
Proof.
  revert start. induction rows as [|x rows IH]; simpl; intros start H; [contradiction|].
  destruct H as [H|H].
  - exists x. subst r. simpl. tauto.
  - destruct (IH _ H) as [r0 [Hin Hr]]. exists r0. tauto.
Qed.

Lemma blender_add_rank_ranked (start : Z) (rows : list Recommendation) :
  ranks_from start (add_rank start rows).
Proof.
  revert start. induction rows as [|r rows IH]; intros start; simpl; [exact I|].
  split; [reflexivity | apply IH].
Qed.

Lemma blender_add_rank_locations (start : Z) (rows : list Recommendation) :
  map br_location_id (add_rank start rows) = map br_location_id rows.
Proof.
  revert start. induction rows as [|r rows IH]; intros start; simpl; [reflexivity|].
  rewrite IH. reflexivity.
Qed.

Lemma blender_add_rank_scores (start : Z) (rows : list Recommendation) :
  map br_score (add_rank start rows) = map br_score rows.
Proof.
  revert start. induction rows as [|r rows IH]; intros start; simpl; [reflexivity|].
  rewrite IH. reflexivity.
Qed.

Lemma blender_add_rank_length (start : Z) (rows : list Recommendation) :
  length (add_rank start rows) = length rows.
Proof.
  revert start. induction rows as [|r rows IH]; intros start; simpl; [reflexivity|].
  rewrite IH. reflexivity.
Qed.

Lemma sorted_by_map {A B : Type} (f : A -> B) (P : B -> B -> Prop) (l : list A) :
  StronglySorted P (map f l) <-> StronglySorted (fun a b => P (f a) (f b)) l.
Proof.
  induction l as [|x l IH]; simpl.
  - split; constructor.
  - split; intros H; inversion H as [|? ? Hs Hf]; subst; constructor.
    + apply IH. exact Hs.
    + rewrite Forall_map in Hf. exact Hf.
    + apply IH. exact Hs.
    + rewrite Forall_map. exact Hf.
Qed.

Lemma firstn_NoDup {A : Type} (n : nat) (l : list A) : NoDup l -> NoDup (firstn n l).
Proof.
  revert l. induction n as [|n IH]; intros l H; [constructor|].
  destruct l as [|x l]; [constructor|]. inversion H as [|? ? Hx Hl]; subst.
  simpl. constructor; [|apply IH; exact Hl].
  intros Hin. apply Hx. eapply firstn_incl. exact Hin.
Qed.

Lemma candidate_row_fields (locations : list Location) (taste_scores : list TasteRow)
    (weights : RecommendationWeights) (seen : list Z) (user_id : string) (loc_id : Z)
    (r : Recommendation) :
  In r (candidate_row locations taste_scores weights seen user_id loc_id) <->
  set_mem loc_id seen = false
  /\ exists l, find (fun l => Z.eqb (location_id l) loc_id) locations = Some l
     /\ r = mkRecommendation user_id loc_id 0
              (taste weights * taste_of taste_scores user_id loc_id
               + trend_app weights * popularity_score l
               + hidden_gems weights * hidden_gem_score l
               + quality weights * quality_score l)
              (taste_of taste_scores user_id loc_id) (popularity_score l)
              (hidden_gem_score l) (quality_score l) weights.
Proof.
  unfold candidate_row. destruct (set_mem loc_id seen).
  - split; [contradiction | intros [H _]; discriminate].
  - destruct (find _ locations) as [l|].
    + simpl. split.
      * intros [H|[]]. split; [reflexivity|]. exists l. auto.
      * intros [_ [l' [Hl Hr]]]. inversion Hl; subst l'. auto.
    + split; [contradiction | intros [_ [l [H _]]]; discriminate].
Qed.

Lemma candidate_rows_locations_NoDup (locations : list Location)
    (taste_scores : list TasteRow) (weights : RecommendationWeights) (seen : list Z)
    (user_id : string) (ids : list Z) :
  NoDup ids ->
  NoDup (map br_location_id
           (flat_map (candidate_row locations taste_scores weights seen user_id) ids)).
Proof.
  induction 1 as [|id ids Hid Hnd IH]; simpl; [constructor|].
  rewrite map_app. apply NoDup_app_intro; [| exact IH |].
  - unfold candidate_row. destruct (set_mem id seen); [constructor|].
    destruct (find _ locations); simpl; repeat constructor. intros [].
  - intros x Hx1 Hx2. apply in_map_iff in Hx1. destruct Hx1 as [r1 [Hr1 Hin1]].
    apply candidate_row_In in Hin1. destruct Hin1 as [_ [_ [Hl1 _]]].
    apply in_map_iff in Hx2. destruct Hx2 as [r2 [Hr2 Hin2]].
    apply in_flat_map in Hin2. destruct Hin2 as [id2 [Hid2 Hin2]].
    apply candidate_row_In in Hin2. destruct Hin2 as [_ [_ [Hl2 _]]].
    apply Hid. congruence.
Qed.

Lemma score_leb_total (a b : Recommendation) :
  Rleb (br_score b) (br_score a) = true \/ Rleb (br_score a) (br_score b) = true.
Proof. rewrite !Rleb_true_iff. lra. Qed.

Lemma score_leb_trans (a b c : Recommendation) :
  Rleb (br_score b) (br_score a) = true -> Rleb (br_score c) (br_score b) = true ->
  Rleb (br_score c) (br_score a) = true.
Proof. rewrite !Rleb_true_iff. lra. Qed.

Lemma user_recommendations_shape (locations : list Location) (taste_scores : list TasteRow)
    (seen_locations : list (string * list Z)) (hist_lookup : list (string * Z))
    (config : PipelineConfig) (entry : string * list Z) :
  let rows := user_recommendations locations taste_scores seen_locations hist_lookup
                config entry in
  ranks_from 1 rows
  /\ StronglySorted (fun a b => br_score b <= br_score a) rows
  /\ (NoDup (snd entry) -> NoDup (map br_location_id rows))
  /\ ((0 <= top_k_per_user config)%Z -> (len rows <= top_k_per_user config)%Z).
Proof.
  cbn zeta. unfold user_recommendations. cbn zeta.
  set (cand := flat_map _ (snd entry)).
  set (sorted := sort_by _ cand).
  split; [apply blender_add_rank_ranked|]. split; [|split].
  - apply (sorted_by_map br_score (fun x y => y <= x)).
    rewrite blender_add_rank_scores. apply sorted_by_map.
    destruct (head_firstn (top_k_per_user config) sorted) as [k ->].
    apply firstn_sorted.
    eapply StronglySorted_weaken;
      [|apply (sort_by_sorted (fun a b => Rleb (br_score b) (br_score a)))].
    + intros a b H. apply Rleb_true_iff. exact H.
    + intros a b. apply score_leb_total.
    + intros a b c. apply score_leb_trans.
  - intros Hnd. rewrite blender_add_rank_locations.
    destruct (head_firstn (top_k_per_user config) sorted) as [k ->].
    rewrite <- firstn_map. apply firstn_NoDup. apply sort_by_NoDup_map.
    apply candidate_rows_locations_NoDup. exact Hnd.
  - intros Hk. unfold len. rewrite blender_add_rank_length. apply head_length. exact Hk.
Qed.

Lemma rows_for_other (u : string) (rows : list Recommendation) :
  (forall r, In r rows -> br_user_id r <> u) -> rows_for u rows = [].
Proof.
  unfold rows_for. induction rows as [|r rows IH]; simpl; intros H; [reflexivity|].
  rewrite (proj2 (String.eqb_neq _ _)) by (apply H; auto). apply IH. intros x Hx. apply H. auto.
Qed.

Lemma rows_for_same (u : string) (rows : list Recommendation) :
  (forall r, In r rows -> br_user_id r = u) -> rows_for u rows = rows.
Proof.
  unfold rows_for. induction rows as [|r rows IH]; simpl; intros H; [reflexivity|].
  rewrite (proj2 (String.eqb_eq _ _)) by (apply H; auto). f_equal.
  apply IH. intros x Hx. apply H. auto.
Qed.

Lemma rows_for_frame (f : string * list Z -> list Recommendation)
    (candidate_map : list (string * list Z)) (u : string) :
  (forall entry r, In r (f entry) -> br_user_id r = fst entry) ->
  NoDup (map fst candidate_map) ->
  rows_for u (flat_map f candidate_map)
  = match dict_get String.eqb u candidate_map with
    | Some ids => f (u, ids)
    | None => []
    end.
Proof.
  intros Hf. induction candidate_map as [|[k ids] c IH]; simpl; intros Hnd; [reflexivity|].
  inversion Hnd as [|? ? Hk Hc]; subst. unfold rows_for in *. rewrite filter_app.
  destruct (String.eqb k u) eqn:E.
  - apply String.eqb_eq in E. subst k.
    fold (rows_for u (f (u, ids))). fold (rows_for u (flat_map f c)).
    rewrite rows_for_same by (intros r Hr; apply (Hf (u, ids)); exact Hr).
    rewrite rows_for_other; [apply app_nil_r|].
    intros r Hr Hu. apply in_flat_map in Hr. destruct Hr as [entry [He Hr]].
    apply Hf in Hr. apply Hk. apply in_map_iff. exists entry. split; [congruence | exact He].
  - apply String.eqb_neq in E. rewrite IH by exact Hc.
    fold (rows_for u (f (k, ids))).
    rewrite rows_for_other; [reflexivity|].
    intros r Hr. apply Hf in Hr. simpl in Hr. congruence.
Qed.

Lemma candidate_map_keys_NoDup (set_iter : list string -> list string)
    (locations : list Location) (user_tags : list UserTag)
    (location_tags : list LocationTag) (user_history : list UserHistory)
    (user_actions : list UserAction) :
  NoDup (map fst (candidate_map_of set_iter locations user_tags location_tags
                    user_history user_actions)).
Proof. unfold candidate_map_of. apply candidate_sets_keys_NoDup. Qed.

Lemma candidate_map_buckets_NoDup (set_iter : list string -> list string)
    (locations : list Location) (user_tags : list UserTag)
    (location_tags : list LocationTag) (user_history : list UserHistory)
    (user_actions : list UserAction) :
  Forall (fun e => NoDup (snd e))
         (candidate_map_of set_iter locations user_tags location_tags user_history
            user_actions).
Proof. unfold candidate_map_of. apply candidate_sets_buckets_NoDup. Qed.

(** X18. In the output frame the rows of any one user carry the ranks 1, 2,
    3, ... in frame order, their scores never increase with the rank, no
    venue occurs in two of them, and there are at most [top_k_per_user] of
    them (when that bound is not negative). *)
Theorem X18_each_user_gets_a_ranked_list
    (set_iter : list string -> list string)
    (locations : list Location) (user_tags : list UserTag)
    (location_tags : list LocationTag) (user_history : list UserHistory)
    (user_actions : list UserAction) (config : PipelineConfig) (u : string) :
  let rows := rows_for u (build_recommendations set_iter locations user_tags
                            location_tags user_history user_actions config) in
  ranks_from 1 rows
  /\ StronglySorted (fun a b => br_score b <= br_score a) rows
  /\ NoDup (map br_location_id rows)
  /\ ((0 <= top_k_per_user config)%Z -> (len rows <= top_k_per_user config)%Z).
Proof.
  cbn zeta. unfold build_recommendations. cbn zeta.
  rewrite rows_for_frame;
    [| intros entry r Hr; apply user_recommendations_In in Hr; tauto
     | apply candidate_map_keys_NoDup].
  destruct (dict_get String.eqb u _) as [ids|] eqn:Hget.
  - pose proof (user_recommendations_shape locations
                  (_taste_contributions user_tags location_tags)
                  (_user_seen_locations user_actions locations)
                  (hist_lookup_of user_history) config (u, ids)) as Hshape.
    cbn zeta in Hshape. destruct Hshape as [H1 [H2 [H3 H4]]].
    split; [exact H1|]. split; [exact H2|]. split; [|exact H4].
    apply H3. simpl.
    pose proof (candidate_map_buckets_NoDup set_iter locations user_tags location_tags
                  user_history user_actions) as Hb.
    apply (bucket_of_values (fun s => NoDup s)) with (u := u) in Hb; [|constructor].
    unfold bucket_of in Hb. rewrite Hget in Hb. exact Hb.
  - simpl. repeat split; try constructor. intros H. unfold len. simpl. exact H.
Qed.

(** X19. Every row of the output frame is a venue of the inventory that is
    a candidate of the row's user and that the user has not acted on; its
    trend, hidden-gem and quality components are that venue's scores, its
    taste component is the user's taste value for the venue, and its score
    is the sum of the four components weighted by the row's weights, which
    are the adaptive weights for the user's history size. *)
Theorem X19_rows_are_weighted_sums_over_inventory_venues
    (set_iter : list string -> list string)
    (locations : list Location) (user_tags : list UserTag)
    (location_tags : list LocationTag) (user_history : list UserHistory)
    (user_actions : list UserAction) (config : PipelineConfig) :
  let candidate_map := candidate_map_of set_iter locations user_tags location_tags
                         user_history user_actions in
  Forall (fun r =>
            exists l ids,
              find (fun l => Z.eqb (location_id l) (br_location_id r)) locations = Some l
              /\ dict_get String.eqb (br_user_id r) candidate_map = Some ids
              /\ In (br_location_id r) ids
              /\ (forall a, In a user_actions -> ua_user_id a = br_user_id r ->
                            dict_get String.eqb (ua_place_id a)
                              (UserProfiles.place_to_location locations)
                            <> Some (br_location_id r))
              /\ br_trend_score r = popularity_score l
              /\ br_hidden_gem_score r = hidden_gem_score l
              /\ br_quality_score r = quality_score l
              /\ br_taste_score r
                 = taste_of (_taste_contributions user_tags location_tags)
                     (br_user_id r) (br_location_id r)
              /\ br_weights r
                 = _adaptive_weights (recommendation_weights config)
                     (history_size_of (hist_lookup_of user_history) (br_user_id r) ids)
              /\ br_score r
                 = taste (br_weights r) * br_taste_score r
                   + trend_app (br_weights r) * br_trend_score r
                   + hidden_gems (br_weights r) * br_hidden_gem_score r
                   + quality (br_weights r) * br_quality_score r)
         (build_recommendations set_iter locations user_tags location_tags user_history
            user_actions config).
Proof.
  cbn zeta. apply Forall_forall. intros r Hin. unfold build_recommendations in Hin.
  cbn zeta in Hin. apply in_flat_map in Hin. destruct Hin as [[u ids] [Hentry Hrow]].
  pose proof (user_recommendations_In _ _ _ _ _ _ _ Hrow) as [Hu [Hids [Hseen Hw]]].
  simpl in Hu, Hids, Hseen, Hw.
  unfold user_recommendations in Hrow. cbn zeta in Hrow.
  apply blender_add_rank_fields in Hrow.
  destruct Hrow as [r0 [Hr0 [Eu [El [Es [Et [Etr [Eh [Eq Ew]]]]]]]]].
  apply head_In, (proj1 (sort_by_In _ _ _)), in_flat_map in Hr0.
  destruct Hr0 as [id [Hid Hr0]]. apply candidate_row_fields in Hr0.
  destruct Hr0 as [_ [l [Hfind Hr0]]]. subst r0. simpl in *.
  exists l, ids. rewrite El, Hu.
  split; [exact Hfind|].
  split; [apply (dict_get_In String.eqb String.eqb_eq);
          [exact Hentry | apply candidate_map_keys_NoDup]|].
  split; [rewrite <- El; exact Hids|].
  split.
  { intros a Ha Hau Hres.
    pose proof (user_seen_locations_In user_actions locations a id Ha Hres) as Hs.
    rewrite Hau in Hs. rewrite El in Hseen. congruence. }
  rewrite Etr, Eh, Eq, Et, Es, Ew. repeat split; reflexivity.
Qed.

(** *** The popular and the hidden-gem venues *)

Lemma sorted_app_order {A : Type} (P : A -> A -> Prop) (l1 l2 : list A) :
  StronglySorted P (l1 ++ l2) -> forall a b, In a l1 -> In b l2 -> P a b.
Proof.
  induction l1 as [|x l1 IH]; simpl; intros H a b Ha Hb; [contradiction|].
  inversion H as [|? ? Hs Hf]; subst. destruct Ha as [Ha|Ha].
  - subst x. rewrite Forall_forall in Hf. apply Hf. apply in_or_app. auto.
  - apply IH; assumption.
Qed.

(** X20. The 250 ids taken for a score column are those of the best-scoring
    venues: the inventory splits into the selected venues, in descending
    order of the score, and the others, none of which scores higher than a
    selected one; all venues are selected when there are at most 250. *)
Theorem X20_top_ids_are_the_best_scoring_venues
    (score : Location -> R) (locations : list Location) :
  exists selected rest,
    Permutation (selected ++ rest) locations
    /\ top_ids score locations = map location_id selected
    /\ length selected = Nat.min 250 (length locations)
    /\ StronglySorted (fun a b => score b <= score a) selected
    /\ (forall a b, In a selected -> In b rest -> score b <= score a).
Proof.
  set (sorted := sort_by (fun a b => Rleb (score b) (score a)) locations).
  assert (Hsorted : StronglySorted (fun a b => score b <= score a) sorted).
  { eapply StronglySorted_weaken;
      [|apply (sort_by_sorted (fun a b => Rleb (score b) (score a)))].
    - intros a b H. apply Rleb_true_iff. exact H.
    - intros a b. rewrite !Rleb_true_iff. lra.
    - intros a b c. rewrite !Rleb_true_iff. lra. }
  exists (firstn 250 sorted), (skipn 250 sorted).
  split; [rewrite firstn_skipn; apply sort_by_perm|].
  split; [reflexivity|].
  split; [rewrite length_firstn; unfold sorted; rewrite sort_by_length; reflexivity|].
  split; [apply firstn_sorted; exact Hsorted|].
  apply sorted_app_order. rewrite firstn_skipn. exact Hsorted.
Qed.

(** *** Nothing else is filtered *)

Lemma blender_add_rank_keeps (start : Z) (rows : list Recommendation) (r0 : Recommendation) :
  In r0 rows ->
  exists r, In r (add_rank start rows)
            /\ br_user_id r = br_user_id r0 /\ br_location_id r = br_location_id r0.
Proof.
  revert start. induction rows as [|x rows IH]; simpl; intros start H; [contradiction|].
  destruct H as [H|H].
  - subst x. eexists. split; [left; reflexivity|]. simpl. auto.
  - destruct (IH (start + 1)%Z H) as [r [Hr Hf]]. exists r. auto.
Qed.

Lemma candidate_rows_length (locations : list Location) (taste_scores : list TasteRow)
    (weights : RecommendationWeights) (seen : list Z) (user_id : string) (ids : list Z) :
  (length (flat_map (candidate_row locations taste_scores weights seen user_id) ids)
   <= length ids)%nat.
Proof.
  induction ids as [|id ids IH]; simpl; [lia|]. rewrite length_app.
  assert (length (candidate_row locations taste_scores weights seen user_id id) <= 1)%nat.
  { unfold candidate_row. destruct (set_mem id seen); [simpl; lia|].
    destruct (find _ locations); simpl; lia. }
  lia.
Qed.

Lemma dict_get_Some_In {V : Type} (u : string) (v : V) (c : list (string * V)) :
  dict_get String.eqb u c = Some v -> In (u, v) c.
Proof.
  induction c as [|[k v'] c IH]; simpl; [discriminate|].
  destruct (String.eqb k u) eqn:E.
  - apply String.eqb_eq in E. intros H. inversion H. subst. auto.
  - auto.
Qed.

(** X21. Nothing but the seen filter, the inventory check and the
    truncation removes a candidate: a candidate of a user that is in the
    inventory and that no action of the user resolves to has a row in the
    output, provided [top_k_per_user] is at least the number of the user's
    candidates. *)
Theorem X21_unseen_inventory_candidates_are_recommended
    (set_iter : list string -> list string)
    (locations : list Location) (user_tags : list UserTag)
    (location_tags : list LocationTag) (user_history : list UserHistory)
    (user_actions : list UserAction) (config : PipelineConfig)
    (u : string) (ids : list Z) (id : Z)
    (Hcandidates : dict_get String.eqb u
                     (candidate_map_of set_iter locations user_tags location_tags
                        user_history user_actions) = Some ids)
    (Hcandidate : In id ids)
    (Hinventory : exists l, In l locations /\ location_id l = id)
    (Hunseen : forall a, In a user_actions -> ua_user_id a = u ->
                         dict_get String.eqb (ua_place_id a)
                           (UserProfiles.place_to_location locations) <> Some id)
    (Htop : (len ids <= top_k_per_user config)%Z) :
  exists r,
    In r (build_recommendations set_iter locations user_tags location_tags user_history
            user_actions config)
    /\ br_user_id r = u /\ br_location_id r = id.
Proof.
  unfold build_recommendations. cbn zeta.
  set (taste_scores := _taste_contributions user_tags location_tags).
  set (seen_locations := _user_seen_locations user_actions locations).
  set (weights := _adaptive_weights (recommendation_weights config)
                    (history_size_of (hist_lookup_of user_history) u ids)).
  assert (Hseen : set_mem id (bucket_of seen_locations u) = false).
  { destruct (set_mem id (bucket_of seen_locations u)) eqn:E; [|reflexivity].
    apply seen_locations_iff in E. destruct E as [a [Ha [Hu Hres]]].
    exfalso. exact (Hunseen a Ha Hu Hres). }
  destruct Hinventory as [l0 [Hl0 Hid0]].
  destruct (find (fun l => Z.eqb (location_id l) id) locations) as [l|] eqn:Hfind.
  2:{ exfalso. apply (find_none _ _ Hfind) in Hl0. apply Z.eqb_neq in Hl0. contradiction. }
  set (rows := flat_map (candidate_row locations taste_scores weights
                           (bucket_of seen_locations u) u) ids).
  assert (Hrow : exists r0, In r0 rows /\ br_user_id r0 = u /\ br_location_id r0 = id).
  { eexists. split.
    - apply in_flat_map. exists id. split; [exact Hcandidate|].
      apply candidate_row_fields. split; [exact Hseen|]. exists l. split; [exact Hfind|].
      reflexivity.
    - simpl. auto. }
  destruct Hrow as [r0 [Hr0 [Hu0 Hi0]]].
  set (sorted := sort_by (fun a b => Rleb (br_score b) (br_score a)) rows).
  assert (Hhead : head (top_k_per_user config) sorted = sorted).
  { apply head_all. unfold len, sorted. rewrite sort_by_length.
    pose proof (candidate_rows_length locations taste_scores weights
                  (bucket_of seen_locations u) u ids) as Hlen.
    fold rows in Hlen. unfold len in Htop. lia. }
  destruct (blender_add_rank_keeps 1 sorted r0) as [r [Hr [Hu Hi]]].
  { apply sort_by_In. exact Hr0. }
  exists r. split; [|split; congruence].
  apply in_flat_map. exists (u, ids). split; [apply dict_get_Some_In; exact Hcandidates|].
  unfold user_recommendations. cbn zeta. cbn [fst snd].
  fold weights. fold rows. fold sorted. rewrite Hhead. exact Hr.
Qed.

Lemma two_venues_candidates :
  dict_get String.eqb "u"%string
    (candidate_map_of in_given_order two_venues [] [] [] like_log)
  = Some [1%Z; 2%Z].
Proof.
  unfold candidate_map_of, two_venues, like_log.
  cbn [_taste_contributions is_empty orb map app ut_user_id uh_user_id ua_user_id].
  unfold top_ids.
  cbn [sort_by fold_right insert_by popularity_score hidden_gem_score].
  rewrite (proj2 (Rleb_true_iff 0 1)) by lra.
  rewrite (proj2 (Rleb_true_iff 0 0)) by lra.
  reflexivity.
Qed.

(** The theorem at the two-venue inventory, for the venue the user has not
    liked. *)
Lemma X21_witness_unliked_venue :
  exists r,
    In r (build_recommendations in_given_order two_venues [] [] [] like_log
            default_pipeline_config)
    /\ br_user_id r = "u"%string /\ br_location_id r = 2%Z.
Proof.
  apply (X21_unseen_inventory_candidates_are_recommended in_given_order two_venues
           [] [] [] like_log default_pipeline_config "u" [1%Z; 2%Z] 2%Z).
  - exact two_venues_candidates.
  - simpl. auto.
  - eexists. split; [right; left; reflexivity | reflexivity].
  - intros a [Ha|[]] _. subst a. discriminate.
  - unfold len. simpl. lia.
Defined.

End BlenderFurtherProperties.

(** ** Further properties of the review tagging *)

Section TaggingFurtherProperties.
Import Tagging.

Lemma keyword_tags_NoDup : NoDup (map fst REVIEW_TAG_KEYWORDS).
Proof.
  unfold REVIEW_TAG_KEYWORDS. cbn [map fst].
  repeat (constructor; [cbn [In]; intros H; repeat (destruct H as [H|H]; [discriminate|]);
                        exact H|]).
  constructor.
Qed.

Lemma found_tags_NoDup (text : string) : NoDup (found_tags text).
Proof. unfold found_tags. apply NoDup_map_filter. exact keyword_tags_NoDup. Qed.

Lemma found_tags_In (text tag : string) :
  In tag (found_tags text)
  <-> exists keywords, In (tag, keywords) REVIEW_TAG_KEYWORDS
                       /\ existsb (fun kw => contains kw text) keywords = true.
Proof.
  unfold found_tags. rewrite in_map_iff. split.
  - intros [[t kws] [Ht Hin]]. simpl in Ht. subst t. apply filter_In in Hin.
    exists kws. exact Hin.
  - intros [kws [Hin Hex]]. exists (tag, kws). split; [reflexivity|].
    apply filter_In. auto.
Qed.

Lemma record_hit_keys (events : list (GroupKey * string))
    (grouped : list (GroupKey * GroupInfo)) (key : GroupKey) :
  In key (map fst (fold_left record_hit events grouped))
  -> In key (map fst grouped) \/ exists a, In (key, a) events.
Proof.
  revert grouped. induction events as [|[k a] events IH]; intros grouped; cbn [fold_left].
  - auto.
  - intros H. apply IH in H. destruct H as [H|[b Hb]].
    + unfold record_hit in H. rewrite (dict_set_keys group_key_eqb) in H.
      destruct (existsb _ (map fst grouped)); [auto|].
      apply in_app_iff in H. destruct H as [H|[H|[]]]; [auto|].
      simpl in H. subst k. right. exists a. left. reflexivity.
    + right. exists b. right. exact Hb.
Qed.

Lemma found_tags_incl (text tag : string) :
  In tag (found_tags text) -> In tag (map fst REVIEW_TAG_KEYWORDS).
Proof.
  unfold found_tags. intros H.
  apply (proj1 (in_map_iff fst (filter _ REVIEW_TAG_KEYWORDS) tag)) in H.
  destruct H as [e [He Hin]].
  apply (proj1 (filter_In _ e REVIEW_TAG_KEYWORDS)) in Hin. destruct Hin as [Hin _].
  rewrite <- He. exact (in_map fst REVIEW_TAG_KEYWORDS e Hin).
Qed.

Lemma hit_events_tags (reviews : list Review) (config : ReviewTagConfig)
    (key : GroupKey) (a : string) :
  In (key, a) (hit_events reviews config) -> In (snd key) (map fst REVIEW_TAG_KEYWORDS).
Proof.
  unfold hit_events. intros H. apply in_flat_map in H. destruct H as [row [_ H]].
  apply in_map_iff in H. destruct H as [tag [Hk Htag]].
  injection Hk as Hkey _. rewrite <- Hkey. cbn [snd].
  exact (found_tags_incl _ _ Htag).
Qed.

Lemma review_score_bounds (config : ReviewTagConfig) (unique_authors mentions : Z) :
  (1 <= unique_authors)%Z -> (1 <= mentions)%Z ->
  Rmin (score_cap config) (score_floor config + 25 * ln 2)
  <= review_score config unique_authors mentions <= score_cap config.
Proof.
  intros Hu Hm. unfold review_score, log1p. cbn zeta.
  assert (Hln : forall n, (1 <= n)%Z -> ln 2 <= ln (1 + IZR n)).
  { intros n Hn. apply IZR_le in Hn.
    destruct (Req_dec (1 + IZR n) 2) as [E|E]; [rewrite E; lra|].
    left. apply ln_increasing; lra. }
  pose proof (Hln _ Hu). pose proof (Hln _ Hm).
  split; [|apply Rmin_l].
  apply Rmin_glb; [apply Rmin_l|].
  eapply Rle_trans; [apply Rmin_r|]. lra.
Qed.

(** X22. The review-derived records hold at most one record for a (venue,
    tag) pair. The mention count of a record is the number of hits of its
    tag in the venue's reviews, its author count is at least 1 and at most
    the mention count, its tag is a key of the keyword table, its source is
    "reviews", and its confidence lies between
    [min(score_cap, score_floor + 25 ln 2)] and [score_cap]. *)
Theorem X22_review_records_are_one_per_venue_and_tag
    (reviews : list Review) (config : ReviewTagConfig) :
  let records := _review_tag_records reviews config in
  NoDup (map (fun r => (tr_location_id r, tr_tag_text r)) records)
  /\ Forall (fun r =>
               tr_mentions r
               = hit_count (hit_events reviews config) (tr_location_id r, tr_tag_text r)
               /\ (1 <= tr_unique_authors r <= tr_mentions r)%Z
               /\ In (tr_tag_text r) (map fst REVIEW_TAG_KEYWORDS)
               /\ tr_source r = "reviews"%string
               /\ Rmin (score_cap config) (score_floor config + 25 * ln 2)
                  <= tr_score r <= score_cap config)
            records.
Proof.
  cbn zeta. rewrite review_tag_records_eq. split.
  - pose proof (group_hits_NoDup reviews config) as Hnd.
    induction (group_hits reviews config) as [|[key info] groups IH]; simpl;
      [constructor|].
    inversion Hnd as [|? ? Hk Hnd']; subst. rewrite map_app.
    apply NoDup_app_intro; [| apply IH; exact Hnd' |].
    + unfold group_record. cbn zeta. destruct (_ && _)%bool; simpl; repeat constructor.
      intros [].
    + intros k Hk1 Hk2. apply in_map_iff in Hk1. destruct Hk1 as [r1 [Hr1 Hin1]].
      apply group_record_In in Hin1. destruct Hin1 as [_ Hin1]. simpl in Hin1.
      apply in_map_iff in Hk2. destruct Hk2 as [r2 [Hr2 Hin2]].
      apply in_flat_map in Hin2. destruct Hin2 as [[key2 info2] [Hg Hin2]].
      apply group_record_In in Hin2. destruct Hin2 as [_ Hin2]. simpl in Hin2.
      apply Hk. apply in_map_iff. exists (key2, info2). split; [|exact Hg].
      subst r1 r2. simpl in *. subst k. destruct key, key2. simpl in *. congruence.
  - apply Forall_forall. intros r Hin. apply in_flat_map in Hin.
    destruct Hin as [[key info] [Hg Hr]]. apply group_record_In in Hr.
    destruct Hr as [_ Hr]. simpl in Hr.
    destruct (group_hits_counts reviews config key info Hg) as [Hm [Hnd Hauth]].
    assert (Hkey : exists a, In (key, a) (hit_events reviews config)).
    { assert (Hin : In key (map fst (group_hits reviews config)))
        by (apply in_map_iff; exists (key, info); auto).
      rewrite group_hits_events in Hin. apply record_hit_keys in Hin.
      destruct Hin as [[]|Hin]. exact Hin. }
    destruct Hkey as [a Ha].
    assert (Hone : (1 <= len (authors info))%Z).
    { apply Hauth in Ha. unfold len. destruct (authors info); [contradiction|].
      simpl length. lia. }
    assert (Hle : (len (authors info) <= mentions info)%Z).
    { rewrite Hm. unfold hit_count, len. apply inj_le.
      rewrite <- (length_map snd (filter _ (hit_events reviews config))).
      apply NoDup_incl_length; [exact Hnd|].
      intros b Hb. apply Hauth in Hb. apply in_map_iff. exists (key, b).
      split; [reflexivity|]. apply filter_In. split; [exact Hb|].
      apply group_key_eqb_eq. reflexivity. }
    subst r. cbn [tr_location_id tr_tag_text tr_mentions tr_unique_authors tr_source
                  tr_score].
    replace (fst key, snd key) with key by (destruct key; reflexivity).
    split; [exact Hm|]. split; [lia|].
    split; [eapply hit_events_tags; exact Ha|]. split; [reflexivity|].
    apply review_score_bounds; lia.
Qed.

Lemma filter_eq_length_le_1 (tag : string) (l : list string) :
  NoDup l -> (length (filter (fun x => String.eqb x tag) l) <= 1)%nat.
Proof.
  induction 1 as [|x l Hx Hnd IH]; simpl; [lia|].
  destruct (String.eqb x tag) eqn:E; [|exact IH].
  apply String.eqb_eq in E. subst x. simpl.
  assert (Hnone : filter (fun x => String.eqb x tag) l = []).
  { destruct (filter _ l) as [|y rest] eqn:Hf; [reflexivity|]. exfalso.
    assert (Hy : In y (filter (fun x => String.eqb x tag) l)) by (rewrite Hf; left; reflexivity).
    apply filter_In in Hy. destruct Hy as [Hy Hey]. apply String.eqb_eq in Hey.
    subst y. contradiction. }
  rewrite Hnone. simpl. lia.
Qed.

Lemma row_hits_le (row : Review) (key : GroupKey) :
  (length (filter (fun ev : GroupKey * string => group_key_eqb (fst ev) key)
             (map (fun tag_text =>
                     ((rv_location_id row, tag_text), author_or_anon (rv_author_name row)))
                  (found_tags (lower (rv_text row)))))
   <= if Z.eqb (rv_location_id row) (fst key) then 1 else 0)%nat.
Proof.
  pose proof (filter_eq_length_le_1 (snd key) _ (found_tags_NoDup (lower (rv_text row))))
    as Hle.
  assert (Hcount : forall tags,
            (length (filter (fun ev : GroupKey * string => group_key_eqb (fst ev) key)
                       (map (fun tag_text =>
                               ((rv_location_id row, tag_text),
                                author_or_anon (rv_author_name row)))
                            tags))
             = if Z.eqb (rv_location_id row) (fst key)
               then length (filter (fun x => String.eqb x (snd key)) tags) else 0)%nat).
  { induction tags as [|t tags IH]; cbn [map filter fst].
    - destruct (Z.eqb _ _); reflexivity.
    - unfold group_key_eqb at 1. cbn [fst snd].
      destruct (Z.eqb (rv_location_id row) (fst key)); cbn [andb]; [|exact IH].
      destruct (String.eqb t (snd key)); cbn [length]; rewrite IH; reflexivity. }
  rewrite Hcount. destruct (Z.eqb _ _); [exact Hle | lia].
Qed.

(** X23. A review counts at most once for a tag, however many keywords of
    the tag it contains: the tags found in a text are distinct keys of the
    keyword table, a tag being found exactly when one of its keywords occurs
    in the text, and the mention count of a record never exceeds the number
    of reviews of its venue. *)
Theorem X23_a_review_counts_once_per_tag
    (reviews : list Review) (config : ReviewTagConfig) :
  (forall text,
      NoDup (found_tags text)
      /\ forall tag,
           In tag (found_tags text)
           <-> exists keywords,
                 In (tag, keywords) REVIEW_TAG_KEYWORDS
                 /\ existsb (fun kw => contains kw text) keywords = true)
  /\ Forall (fun r =>
               (tr_mentions r
                <= len (filter (fun rv => Z.eqb (rv_location_id rv) (tr_location_id r))
                          reviews))%Z)
            (_review_tag_records reviews config).
Proof.
  split; [intros text; split; [apply found_tags_NoDup | intros tag; apply found_tags_In]|].
  rewrite review_tag_records_eq. apply Forall_forall. intros r Hin.
  apply in_flat_map in Hin. destruct Hin as [[key info] [Hg Hr]].
  apply group_record_In in Hr. destruct Hr as [_ Hr]. simpl in Hr.
  destruct (group_hits_counts reviews config key info Hg) as [Hm _].
  subst r. cbn [tr_mentions tr_location_id]. rewrite Hm.
  unfold hit_count, hit_events, len. apply inj_le.
  set (df := if english_only config
             then filter (fun r => String.prefix "en" (rv_language r)) reviews
             else reviews).
  assert (Hdf : (length (filter (fun rv => Z.eqb (rv_location_id rv) (fst key)) df)
                 <= length (filter (fun rv => Z.eqb (rv_location_id rv) (fst key)) reviews))%nat).
  { unfold df. destruct (english_only config); [|lia].
    clear. induction reviews as [|rv reviews IH]; simpl; [lia|].
    destruct (String.prefix "en" (rv_language rv)); simpl;
      destruct (Z.eqb (rv_location_id rv) (fst key)); simpl; lia. }
  eapply Nat.le_trans; [|exact Hdf]. clear Hdf.
  clearbody df. induction df as [|row df IH]; [simpl; lia|].
  cbn [flat_map]. rewrite filter_app, length_app.
  pose proof (row_hits_le row key) as Hrow. cbn [filter].
  destruct (Z.eqb (rv_location_id row) (fst key)); cbn [length].
  - exact (Nat.add_le_mono _ 1 _ _ Hrow IH).
  - exact (Nat.add_le_mono _ 0 _ _ Hrow IH).
Qed.

End TaggingFurtherProperties.

(** ** Properties of the rule-based tags and of the join with the catalog *)

Lemma string_eqb_cases (s t : string) :
  (String.eqb s t = true /\ s = t) \/ (String.eqb s t = false /\ s <> t).
Proof.
  destruct (String.eqb s t) eqn:E; [left | right]; split; try reflexivity.
  - apply String.eqb_eq. exact E.
  - apply String.eqb_neq. exact E.
Qed.

Section TaggingRulesProperties.
Import TaggingRules.

Lemma types_fold_app (location_id : Z) (types : list string) (records : list TagRow) :
  fold_left (fun records t =>
               match dict_get String.eqb t CATEGORY_TYPES with
               | Some tag_text =>
                   _add_tag_record records location_id tag_text 75 "google_types" (MetaType t)
               | None => records
               end)
            types records
  = records
    ++ flat_map (fun t =>
                   match dict_get String.eqb t CATEGORY_TYPES with
                   | Some tag_text => [mkTagRow location_id tag_text 75 "google_types" (MetaType t)]
                   | None => []
                   end)
                types.
Proof.
  revert records. induction types as [|t types IH]; intros records; cbn [fold_left flat_map].
  - rewrite app_nil_r. reflexivity.
  - rewrite IH. destruct (dict_get String.eqb t CATEGORY_TYPES).
    + unfold _add_tag_record. rewrite <- app_assoc. reflexivity.
    + reflexivity.
Qed.

Lemma row_tags_eq (records : list TagRow) (row : LocationRow) :
  row_tags records row
  = records
    ++ (if negb (String.eqb (lr_cuisine_primary row) EmptyString)
           && negb (String.eqb (lr_cuisine_primary row) "unknown")
        then [mkTagRow (lr_location_id row) (lr_cuisine_primary row) 92 "cuisine_detected"
                (MetaField "cuisine_primary")]
        else [])
    ++ flat_map (fun t =>
                   match dict_get String.eqb t CATEGORY_TYPES with
                   | Some tag_text =>
                       [mkTagRow (lr_location_id row) tag_text 75 "google_types" (MetaType t)]
                   | None => []
                   end)
                (lr_types_list row)
    ++ (if String.eqb (lr_price_bucket row) "value"
        then [mkTagRow (lr_location_id row) "great_value" 80 "price_level"
                (MetaPriceLevel (lr_price_level row))]
        else if String.eqb (lr_price_bucket row) "premium"
        then [mkTagRow (lr_location_id row) "pricey" 80 "price_level"
                (MetaPriceLevel (lr_price_level row))]
        else [])
    ++ (if lr_is_open_late row
        then [mkTagRow (lr_location_id row) "open_late" 70 "opening_hours" MetaEmpty]
        else [])
    ++ (if lr_is_open_early row
        then [mkTagRow (lr_location_id row) "open_early" 70 "opening_hours" MetaEmpty]
        else [])
    ++ (if lr_is_sunday_open row
        then [mkTagRow (lr_location_id row) "sunday_open" 65 "opening_hours" MetaEmpty]
        else []).
Proof.
  unfold row_tags. cbn zeta. rewrite types_fold_app. unfold _add_tag_record.
  destruct (negb _ && negb _)%bool;
    destruct (String.eqb (lr_price_bucket row) "value");
    destruct (String.eqb (lr_price_bucket row) "premium");
    destruct (lr_is_open_late row); destruct (lr_is_open_early row);
    destruct (lr_is_sunday_open row);
    repeat rewrite <- app_assoc; repeat rewrite app_nil_r; reflexivity.
Qed.

Lemma row_tags_app (records : list TagRow) (row : LocationRow) :
  row_tags records row = records ++ records_of_row row.
Proof.
  unfold records_of_row, _deterministic_tags. cbn [fold_left].
  rewrite (row_tags_eq records), (row_tags_eq []). reflexivity.
Qed.

Lemma deterministic_tags_fold (df : list LocationRow) (records : list TagRow) :
  fold_left row_tags df records = records ++ flat_map records_of_row df.
Proof.
  revert records. induction df as [|row df IH]; intros records; cbn [fold_left flat_map].
  - rewrite app_nil_r. reflexivity.
  - rewrite IH, row_tags_app, <- app_assoc. reflexivity.
Qed.

(** X24. The rule-based records of a frame are the records of its rows,
    row after row. A row contributes: a record of its cuisine at confidence
    92 unless the cuisine is empty or "unknown"; for each of its types that
    is a key of the category table, a record of the category at 75 (so two
    types of one category give two records); "great_value" at 80 when its
    price bucket is "value" and "pricey" at 80 when it is "premium"; and
    "open_late" at 70, "open_early" at 70 and "sunday_open" at 65 according
    to its schedule flags; and nothing else. *)
Theorem X24_rule_based_records_of_a_venue (df : list LocationRow) :
  _deterministic_tags df = flat_map records_of_row df
  /\ forall row rec,
       In rec (records_of_row row) <->
       (lr_cuisine_primary row <> EmptyString /\ lr_cuisine_primary row <> "unknown"%string
        /\ rec = mkTagRow (lr_location_id row) (lr_cuisine_primary row) 92
                   "cuisine_detected" (MetaField "cuisine_primary"))
       \/ (exists t tag_text,
              In t (lr_types_list row)
              /\ dict_get String.eqb t CATEGORY_TYPES = Some tag_text
              /\ rec = mkTagRow (lr_location_id row) tag_text 75 "google_types" (MetaType t))
       \/ (lr_price_bucket row = "value"%string
           /\ rec = mkTagRow (lr_location_id row) "great_value" 80 "price_level"
                      (MetaPriceLevel (lr_price_level row)))
       \/ (lr_price_bucket row = "premium"%string
           /\ rec = mkTagRow (lr_location_id row) "pricey" 80 "price_level"
                      (MetaPriceLevel (lr_price_level row)))
       \/ (lr_is_open_late row = true
           /\ rec = mkTagRow (lr_location_id row) "open_late" 70 "opening_hours" MetaEmpty)
       \/ (lr_is_open_early row = true
           /\ rec = mkTagRow (lr_location_id row) "open_early" 70 "opening_hours" MetaEmpty)
       \/ (lr_is_sunday_open row = true
           /\ rec = mkTagRow (lr_location_id row) "sunday_open" 65 "opening_hours" MetaEmpty).
Proof.
  split; [unfold _deterministic_tags; apply (deterministic_tags_fold df [])|].
  intros row rec. unfold records_of_row, _deterministic_tags. cbn [fold_left].
  rewrite row_tags_eq. cbn [app]. rewrite !in_app_iff, in_flat_map.
  assert (Hc : In rec (if negb (String.eqb (lr_cuisine_primary row) EmptyString)
                          && negb (String.eqb (lr_cuisine_primary row) "unknown")
                       then [mkTagRow (lr_location_id row) (lr_cuisine_primary row) 92
                               "cuisine_detected" (MetaField "cuisine_primary")]
                       else [])
               <-> lr_cuisine_primary row <> EmptyString
                   /\ lr_cuisine_primary row <> "unknown"%string
                   /\ rec = mkTagRow (lr_location_id row) (lr_cuisine_primary row) 92
                              "cuisine_detected" (MetaField "cuisine_primary")).
  { destruct (string_eqb_cases (lr_cuisine_primary row) EmptyString) as [[-> E1]|[-> E1]];
      destruct (string_eqb_cases (lr_cuisine_primary row) "unknown") as [[-> E2]|[-> E2]];
      cbn [negb andb In]; intuition congruence. }
  assert (Ht : (exists t, In t (lr_types_list row)
                  /\ In rec match dict_get String.eqb t CATEGORY_TYPES with
                            | Some tag_text =>
                                [mkTagRow (lr_location_id row) tag_text 75 "google_types"
                                   (MetaType t)]
                            | None => []
                            end)
               <-> exists t tag_text,
                     In t (lr_types_list row)
                     /\ dict_get String.eqb t CATEGORY_TYPES = Some tag_text
                     /\ rec = mkTagRow (lr_location_id row) tag_text 75 "google_types"
                                (MetaType t)).
  { split.
    - intros [t [Hin Hrec]]. destruct (dict_get String.eqb t CATEGORY_TYPES) as [tag|] eqn:E;
        [|contradiction]. destruct Hrec as [Hrec|[]]. exists t, tag. auto.
    - intros [t [tag [Hin [Hget Hrec]]]]. exists t. rewrite Hget. split; [exact Hin|].
      left. auto. }
  assert (Hp : In rec (if String.eqb (lr_price_bucket row) "value"
                       then [mkTagRow (lr_location_id row) "great_value" 80 "price_level"
                               (MetaPriceLevel (lr_price_level row))]
                       else if String.eqb (lr_price_bucket row) "premium"
                       then [mkTagRow (lr_location_id row) "pricey" 80 "price_level"
                               (MetaPriceLevel (lr_price_level row))]
                       else [])
               <-> (lr_price_bucket row = "value"%string
                    /\ rec = mkTagRow (lr_location_id row) "great_value" 80 "price_level"
                               (MetaPriceLevel (lr_price_level row)))
                   \/ (lr_price_bucket row = "premium"%string
                       /\ rec = mkTagRow (lr_location_id row) "pricey" 80 "price_level"
                                  (MetaPriceLevel (lr_price_level row)))).
  { destruct (String.eqb (lr_price_bucket row) "value") eqn:E1.
    - apply String.eqb_eq in E1. rewrite E1. cbn [In]. split.
      + intros [H|[]]. left. auto.
      + intros [[_ H]|[H _]]; [auto | discriminate].
    - apply String.eqb_neq in E1.
      destruct (String.eqb (lr_price_bucket row) "premium") eqn:E2.
      + apply String.eqb_eq in E2. cbn [In]. split.
        * intros [H|[]]. right. auto.
        * intros [[H _]|[_ H]]; [contradiction | auto].
      + apply String.eqb_neq in E2. cbn [In]. split; [contradiction|].
        intros [[H _]|[H _]]; contradiction. }
  assert (Hflag : forall (b : bool) (x : TagRow),
             In rec (if b then [x] else []) <-> b = true /\ rec = x).
  { intros b x. destruct b; cbn [In]; intuition congruence. }
  rewrite Hc, Ht, Hp, !Hflag. rewrite or_assoc. reflexivity.
Qed.

(** X25. The price bucket of a venue is "value" exactly when its price
    level is at most 1, "mid" exactly when it is 2, "premium" exactly when
    it is at least 3, and "unknown" otherwise: when the level is missing,
    and also when it lies strictly between 1 and 3 without being 2. *)
Theorem X25_price_bucket_thresholds (price_level : option R) :
  (_price_bucket price_level = "value"%string
   <-> exists p, price_level = Some p /\ p <= 1)
  /\ (_price_bucket price_level = "mid"%string <-> price_level = Some 2)
  /\ (_price_bucket price_level = "premium"%string
      <-> exists p, price_level = Some p /\ 3 <= p)
  /\ (_price_bucket price_level = "unknown"%string
      <-> price_level = None
          \/ exists p, price_level = Some p /\ 1 < p < 3 /\ p <> 2).
Proof.
  unfold _price_bucket. destruct price_level as [p|].
  - destruct (Rleb p 1) eqn:E1;
      [apply Rleb_true_iff in E1 | apply Rleb_false_iff in E1].
    + repeat split; try discriminate; try (intros _; exists p; split; [reflexivity | lra]).
      * intros H. inversion H. lra.
      * intros [q [Hq Hle]]. inversion Hq. lra.
      * intros [H|[q [Hq Hle]]]; [discriminate | inversion Hq; lra].
    + destruct (Reqb p 2) eqn:E2;
        [apply Reqb_true_iff in E2 | apply Reqb_false_iff in E2].
      * subst p. repeat split; try discriminate; try reflexivity.
        -- intros [q [Hq Hle]]. inversion Hq. lra.
        -- intros [q [Hq Hle]]. inversion Hq. lra.
        -- intros [H|[q [Hq [_ Hne]]]]; [discriminate | inversion Hq; lra].
      * destruct (Rleb 3 p) eqn:E3;
          [apply Rleb_true_iff in E3 | apply Rleb_false_iff in E3].
        -- repeat split; try discriminate;
             try (intros _; exists p; split; [reflexivity | lra]).
           ++ intros [q [Hq Hle]]. inversion Hq. lra.
           ++ intros H. inversion H. lra.
           ++ intros [H|[q [Hq [Hr _]]]]; [discriminate | inversion Hq; lra].
        -- repeat split; try discriminate.
           ++ intros [q [Hq Hle]]. inversion Hq. lra.
           ++ intros H. inversion H. lra.
           ++ intros [q [Hq Hle]]. inversion Hq. lra.
           ++ intros _. right. exists p. split; [reflexivity|]. split; [lra | exact E2].
  - repeat split; try discriminate; try (intros [q [Hq _]]; discriminate); auto.
Qed.

(** *** The join with the catalog *)

Lemma catalog_texts_eq :
  map (fun tag => TagTaxonomy.td_text (snd tag)) TagTaxonomy.tag_dataframe
  = map TagTaxonomy.td_text TagTaxonomy.iter_tag_definitions.
Proof. reflexivity. Qed.

Lemma catalog_ids_outside (tag_text : string) :
  ~ In tag_text (map TagTaxonomy.td_text TagTaxonomy.iter_tag_definitions) ->
  catalog_ids tag_text = [].
Proof.
  rewrite <- catalog_texts_eq. unfold catalog_ids.
  induction TagTaxonomy.tag_dataframe as [|tag tags IH]; cbn [map filter In];
    [reflexivity|].
  intros H. destruct (string_eqb_cases tag_text (TagTaxonomy.td_text (snd tag)))
    as [[_ E]|[-> _]].
  - exfalso. apply H. left. symmetry. exact E.
  - apply IH. intros Hin. apply H. right. exact Hin.
Qed.

Lemma catalog_ids_cases (tag_text : string) :
  (tag_text = "cafe"%string /\ catalog_ids tag_text = [13%Z; 45%Z])
  \/ (tag_text <> "cafe"%string
      /\ exists id, catalog_ids tag_text = [id] /\ (1 <= id <= 47)%Z)
  \/ (~ In tag_text (map TagTaxonomy.td_text TagTaxonomy.iter_tag_definitions)
      /\ catalog_ids tag_text = []).
Proof.
  destruct (in_dec string_dec tag_text
              (map TagTaxonomy.td_text TagTaxonomy.iter_tag_definitions)) as [Hin|Hout].
  - cbn in Hin.
    repeat (destruct Hin as [Hin|Hin];
            [subst tag_text;
             first [ left; split; reflexivity
                   | right; left; split;
                     [discriminate | eexists; split; [reflexivity | cbn; lia]] ]|]).
    contradiction.
  - right. right. split; [exact Hout | apply catalog_ids_outside; exact Hout].
Qed.

Lemma build_location_tags_eq (locations : list LocationRow)
    (reviews : list Tagging.Review) (config : ReviewTagConfig) :
  build_location_tags locations reviews config
  = flat_map rows_of_record
      (_deterministic_tags locations
       ++ map review_row (Tagging._review_tag_records reviews config)).
Proof.
  unfold build_location_tags. cbn zeta.
  destruct (_deterministic_tags locations ++ _) as [|rec records] eqn:E; [reflexivity|].
  cbn [is_empty]. apply flat_map_ext. intros r.
  unfold rows_of_record, catalog_ids. rewrite map_map. reflexivity.
Qed.

Lemma review_record_tags (reviews : list Tagging.Review) (config : ReviewTagConfig)
    (r : Tagging.TagRecord) :
  In r (Tagging._review_tag_records reviews config) ->
  In (Tagging.tr_tag_text r) (map fst Tagging.REVIEW_TAG_KEYWORDS).
Proof.
  intros Hin. rewrite review_tag_records_eq in Hin. apply in_flat_map in Hin.
  destruct Hin as [[key info] [Hg Hr]]. apply group_record_In in Hr.
  destruct Hr as [_ Hr]. rewrite Hr. cbn [Tagging.tr_tag_text fst snd].
  assert (Hk : In key (map fst (Tagging.group_hits reviews config)))
    by (apply in_map_iff; exists (key, info); auto).
  rewrite group_hits_events in Hk. apply record_hit_keys in Hk.
  destruct Hk as [[]|[a Ha]]. exact (hit_events_tags _ _ _ _ Ha).
Qed.

Lemma keyword_tags_in_catalog (tag_text : string) :
  In tag_text (map fst Tagging.REVIEW_TAG_KEYWORDS) ->
  exists id, catalog_ids tag_text = [id].
Proof.
  intros Htag.
  assert (Hall : forallb (fun t => match catalog_ids t with
                                   | [_] => true
                                   | _ => false
                                   end)
                         (map fst Tagging.REVIEW_TAG_KEYWORDS) = true)
    by (vm_compute; reflexivity).
  rewrite forallb_forall in Hall. specialize (Hall _ Htag).
  destruct (catalog_ids tag_text) as [|id [|id' ids]]; try discriminate.
  exists id. reflexivity.
Qed.

Lemma build_location_tags_In (locations : list LocationRow)
    (reviews : list Tagging.Review) (config : ReviewTagConfig) (row : LocationTagRow) :
  In row (build_location_tags locations reviews config)
  <-> exists rec,
        In rec (_deterministic_tags locations
                ++ map review_row (Tagging._review_tag_records reviews config))
        /\ In (ltr_tag_id row) (catalog_ids (row_tag_text rec))
        /\ row = mkLocationTagRow (row_location_id rec) (ltr_tag_id row)
                   (row_tag_text rec) (row_score rec) (row_source rec)
                   (row_metadata rec).
Proof.
  split.
  - intros H. rewrite build_location_tags_eq in H.
    apply (proj1 (in_flat_map rows_of_record _ row)) in H.
    destruct H as [rec [Hrec Hrow]]. exists rec. split; [exact Hrec|].
    apply (proj1 (in_map_iff _ (catalog_ids (row_tag_text rec)) row)) in Hrow.
    destruct Hrow as [id [Hrow Hid]].
    assert (Eid : ltr_tag_id row = id) by (rewrite <- Hrow; reflexivity).
    rewrite Eid. split; [exact Hid | symmetry; exact Hrow].
  - intros [rec [Hrec [Hid Hrow]]]. rewrite build_location_tags_eq.
    apply (proj2 (in_flat_map rows_of_record _ row)). exists rec. split; [exact Hrec|].
    apply (proj2 (in_map_iff _ (catalog_ids (row_tag_text rec)) row)).
    exists (ltr_tag_id row). split; [symmetry; exact Hrow | exact Hid].
Qed.

Lemma catalog_ids_range (tag_text : string) (id : Z) :
  In id (catalog_ids tag_text) -> (1 <= id <= 47)%Z.
Proof.
  intros Hid.
  destruct (catalog_ids_cases tag_text) as [[_ E]|[[_ [id' [E Hb]]]|[_ E]]];
    rewrite E in Hid.
  - destruct Hid as [H|[H|[]]]; rewrite <- H; lia.
  - destruct Hid as [H|[]]. rewrite <- H. exact Hb.
  - destruct Hid.
Qed.

(** X26. The frame of venue tags holds, for every rule-based or
    review-derived record, one row per catalog entry with the record's tag
    text, carrying that entry's id: none for a text that is not in the
    catalog (such as a cuisine the catalog does not list), two for the text
    "cafe", which the catalog lists as tag 13 and as tag 45, and exactly one
    for every other text of the catalog. Every tag id lies between 1 and
    47, and every review-derived record has exactly one row. *)
Theorem X26_venue_tags_join_the_catalog
    (locations : list LocationRow) (reviews : list Tagging.Review)
    (config : ReviewTagConfig) :
  let records := _deterministic_tags locations
                 ++ map review_row (Tagging._review_tag_records reviews config) in
  (forall row,
      In row (build_location_tags locations reviews config)
      <-> exists rec,
            In rec records
            /\ In (ltr_tag_id row) (catalog_ids (row_tag_text rec))
            /\ row = mkLocationTagRow (row_location_id rec) (ltr_tag_id row)
                       (row_tag_text rec) (row_score rec) (row_source rec)
                       (row_metadata rec))
  /\ (forall tag_text,
        (tag_text = "cafe"%string /\ catalog_ids tag_text = [13%Z; 45%Z])
        \/ (tag_text <> "cafe"%string
            /\ exists id, catalog_ids tag_text = [id] /\ (1 <= id <= 47)%Z)
        \/ (~ In tag_text (map TagTaxonomy.td_text TagTaxonomy.iter_tag_definitions)
            /\ catalog_ids tag_text = []))
  /\ Forall (fun row => (1 <= ltr_tag_id row <= 47)%Z)
            (build_location_tags locations reviews config)
  /\ Forall (fun r => exists id, catalog_ids (Tagging.tr_tag_text r) = [id])
            (Tagging._review_tag_records reviews config).
Proof.
  cbn zeta.
  split; [intros row; apply build_location_tags_In|].
  split; [exact catalog_ids_cases|]. split.
  - apply Forall_forall. intros row Hin. apply build_location_tags_In in Hin.
    destruct Hin as [rec [_ [Hid _]]]. exact (catalog_ids_range _ _ Hid).
  - apply Forall_forall. intros r Hin.
    apply keyword_tags_in_catalog. eapply review_record_tags. exact Hin.
Qed.

End TaggingRulesProperties.

(** ** Properties of the scalings and of the hidden-gem scores *)

Lemma list_min_le_init (x : R) (l : list R) : list_min x l <= x.
Proof.
  revert x. induction l as [|y l IH]; intros x; simpl; [lra|].
  eapply Rle_trans; [apply IH | apply Rmin_l].
Qed.

Lemma list_min_le (x : R) (l : list R) (y : R) : In y l -> list_min x l <= y.
Proof.
  revert x. induction l as [|z l IH]; intros x; simpl; [contradiction|].
  intros [H|H].
  - subst z. eapply Rle_trans; [apply list_min_le_init | apply Rmin_r].
  - apply IH. exact H.
Qed.

Lemma list_min_In (x : R) (l : list R) : In (list_min x l) (x :: l).
Proof.
  revert x. induction l as [|z l IH]; intros x; simpl; [auto|].
  destruct (IH (Rmin x z)) as [H|H].
  - unfold Rmin in H at 1. destruct (Rle_dec x z); rewrite <- H; auto.
  - auto.
Qed.

Section ScalingProperties.
Variable close : R -> R -> bool.
Hypothesis close_refl : forall a, close a a = true.

Lemma scale_with_scaling : min_max_scaling close (scale_with close).
Proof.
  intros values. destruct values as [|x rest].
  { simpl. split; [reflexivity|]. split; [constructor|].
    split; [intros i j v w sv sw H; destruct i; discriminate|].
    split; [intros i v H; destruct i; discriminate|].
    split; [intros lo hi []|]. intros _. constructor. }
  unfold scale_with.
  set (m := list_min x rest). set (M := list_max x rest). set (values := x :: rest).
  assert (Hm : forall v, In v values -> m <= v).
  { intros v [Hv|Hv]; [subst v; apply list_min_le_init | apply list_min_le; exact Hv]. }
  assert (HM : forall v, In v values -> v <= M).
  { intros v [Hv|Hv]; [subst v; apply list_max_ge_init | apply list_max_ge; exact Hv]. }
  assert (Hmin : In m values) by apply list_min_In.
  assert (Hmax : In M values) by apply list_max_In.
  assert (Hzeros : Forall (fun s => s = 0) (map (fun _ : R => 0) values)).
  { apply Forall_forall. intros s Hs. apply in_map_iff in Hs. destruct Hs as [_ [Hs _]].
    auto. }
  assert (Hextremes : forall lo hi, In lo values -> In hi values ->
            (forall w, In w values -> lo <= w <= hi) -> lo = m /\ hi = M).
  { intros lo hi Hlo Hhi Hall. split; apply Rle_antisym.
    - apply Hall. exact Hmin.
    - apply Hm. exact Hlo.
    - apply HM. exact Hhi.
    - apply Hall. exact Hmax. }
  destruct (close m M) eqn:E.
  - split; [apply length_map|].
    split; [eapply Forall_impl; [|exact Hzeros]; intros s Hs; simpl in Hs; lra|].
    split.
    { intros i j v w sv sw _ _ Hi Hj _.
      apply nth_error_In in Hi. apply nth_error_In in Hj.
      rewrite Forall_forall in Hzeros. rewrite (Hzeros _ Hi), (Hzeros _ Hj). lra. }
    split; [intros i v Hv _; rewrite nth_error_map, Hv; reflexivity|].
    split; [|intros _; exact Hzeros].
    intros lo hi Hlo Hhi Hall. destruct (Hextremes lo hi Hlo Hhi Hall) as [-> ->].
    rewrite E. exact Hzeros.
  - assert (Hlt : m < M).
    { destruct (Rle_lt_or_eq_dec m M (Hm M Hmax)) as [H|H]; [exact H|].
      rewrite H, close_refl in E. discriminate. }
    assert (Hscale : forall v, m <= v <= M -> 0 <= (v - m) / (M - m) <= 1).
    { intros v Hv. apply div_unit; lra. }
    split; [apply length_map|].
    split.
    { apply Forall_forall. intros s Hs. apply in_map_iff in Hs.
      destruct Hs as [v [Hs Hv]]. subst s. apply Hscale. split; [apply Hm | apply HM]; exact Hv. }
    split.
    { intros i j v w sv sw Hv Hw Hi Hj Hle.
      rewrite nth_error_map, Hv in Hi. rewrite nth_error_map, Hw in Hj.
      inversion Hi. inversion Hj. apply div_le; lra. }
    split.
    { intros i v Hv Hleast. rewrite nth_error_map, Hv. simpl. f_equal.
      assert (v = m) by (apply Rle_antisym; [apply Hleast; exact Hmin
                                            | apply Hm; eapply nth_error_In; exact Hv]).
      subst v. unfold Rdiv. ring. }
    split.
    { intros lo hi Hlo Hhi Hall. destruct (Hextremes lo hi Hlo Hhi Hall) as [-> ->].
      rewrite E. intros i Hv. rewrite nth_error_map, Hv. simpl. f_equal.
      unfold Rdiv. apply Rinv_r. lra. }
    intros Hconst. exfalso. pose proof (Hconst m M Hmin Hmax). lra.
Qed.

End ScalingProperties.

Section HiddenGemScoresProperties.
Import HiddenGems HiddenGemScores.

Lemma np_isclose_refl (a : R) : isclose a a = true.
Proof.
  unfold isclose. apply Rleb_true_iff.
  replace (a - a) with 0 by ring. rewrite Rabs_R0.
  pose proof (Rabs_pos a). lra.
Qed.

Lemma math_isclose_refl (a : R) : TaggingRules.isclose a a = true.
Proof.
  unfold TaggingRules.isclose. apply Rleb_true_iff.
  replace (a - a) with 0 by ring. rewrite Rabs_R0.
  eapply Rle_trans; [|apply Rmax_r]. lra.
Qed.

Lemma hidden_gems_scale_eq (values : list R) :
  _min_max_scale values = scale_with isclose values.
Proof. reflexivity. Qed.

Lemma tagging_scale_eq (values : list R) :
  TaggingRules._min_max_scale values = scale_with TaggingRules.isclose values.
Proof. reflexivity. Qed.

Lemma min_max_scaling_ext (close : R -> R -> bool) (f g : list R -> list R) :
  (forall values, f values = g values) ->
  min_max_scaling close g -> min_max_scaling close f.
Proof. intros Hfg Hg values. rewrite Hfg. apply Hg. Qed.

(** X27. Both min-max scalings (the one of the venue loader, which tests
    the extremes with [math.isclose], and the one of the hidden-gem
    scoring, which tests them with [np.isclose]) keep the length of the
    series, give results between 0 and 1 in the order of the cells and send
    a smallest cell to 0; when the smallest and the largest cell pass the
    closeness test every cell is sent to 0, and when they do not a largest
    cell is sent to 1; a constant series and the empty series are sent to
    zeros. *)
Theorem X27_min_max_scaling_stays_in_the_unit_interval :
  min_max_scaling TaggingRules.isclose TaggingRules._min_max_scale
  /\ min_max_scaling isclose _min_max_scale.
Proof.
  split.
  - apply (min_max_scaling_ext _ _ (scale_with TaggingRules.isclose) tagging_scale_eq).
    apply scale_with_scaling. exact math_isclose_refl.
  - apply (min_max_scaling_ext _ _ (scale_with isclose) hidden_gems_scale_eq).
    apply scale_with_scaling. exact np_isclose_refl.
Qed.

(** *** The target transformation of the regression *)

Lemma clip_bounds (y lo hi : R) : lo <= hi -> lo <= clip y lo hi <= hi.
Proof.
  intros H. unfold clip, Rmin, Rmax.
  destruct (Rle_dec y lo); destruct (Rle_dec _ hi); lra.
Qed.

Lemma clip_inside (y lo hi : R) : lo <= y <= hi -> clip y lo hi = y.
Proof.
  intros H. unfold clip, Rmin, Rmax.
  destruct (Rle_dec y lo); destruct (Rle_dec _ hi); lra.
Qed.

Lemma logistic_logit (n : R) : 0 < n < 1 -> 1 / (1 + exp (- ln (n / (1 - n)))) = n.
Proof.
  intros Hn.
  assert (Hpos : 0 < n / (1 - n)) by (apply Rdiv_lt_0_compat; lra).
  rewrite exp_Ropp, exp_ln by exact Hpos. field. lra.
Qed.

(** X28. The inverse target transformation undoes the target
    transformation up to the clamping of the rating into [1.01, 4.99]: a
    rating within that range is recovered exactly, one outside comes back as
    the nearest bound. Whatever its argument, the inverse transformation
    returns values strictly between 1 and 5. *)
Theorem X28_rating_transform_round_trip (y_in z : list R) :
  _rating_inverse_transform (_rating_transform y_in)
  = map (fun y => clip y 1.01 4.99) y_in
  /\ (Forall (fun y => 1.01 <= y <= 4.99) y_in ->
      _rating_inverse_transform (_rating_transform y_in) = y_in)
  /\ Forall (fun y => 1 < y < 5) (_rating_inverse_transform z).
Proof.
  assert (Hround : _rating_inverse_transform (_rating_transform y_in)
                   = map (fun y => clip y 1.01 4.99) y_in).
  { unfold _rating_inverse_transform, _rating_transform. rewrite map_map.
    apply map_ext. intros y. cbn zeta.
    pose proof (clip_bounds y 1.01 4.99 ltac:(lra)) as Hc.
    set (c := clip y 1.01 4.99) in *.
    replace 4.0 with 4 by lra. replace 1.0 with 1 by lra.
    rewrite logistic_logit by lra. lra. }
  split; [exact Hround|]. split.
  - intros Hin. rewrite Hround. rewrite <- (map_id y_in) at 2.
    apply map_ext_in. intros y Hy. rewrite Forall_forall in Hin.
    apply clip_inside. apply Hin. exact Hy.
  - apply Forall_forall. intros y Hy. unfold _rating_inverse_transform in Hy.
    apply in_map_iff in Hy. destruct Hy as [v [Hy _]]. subst y. cbn zeta.
    pose proof (exp_pos (- v)) as He.
    assert (Hn : 0 < 1 / (1 + exp (- v)) < 1).
    { split.
      - apply Rdiv_lt_0_compat; lra.
      - apply Rmult_lt_reg_r with (1 + exp (- v)); [lra|].
        unfold Rdiv. rewrite Rmult_assoc, Rinv_l by lra. lra. }
    lra.
Qed.

(** *** The rating model and its fallbacks *)

Lemma map2_nth_inv {A B C : Type} (f : A -> B -> C) (l1 : list A) (l2 : list B)
    (i : nat) (c : C) :
  nth_error (map2 f l1 l2) i = Some c ->
  exists a b, nth_error l1 i = Some a /\ nth_error l2 i = Some b /\ c = f a b.
Proof.
  unfold map2. revert l2 i. induction l1 as [|x l1 IH]; intros l2 i H.
  - destruct i; discriminate.
  - destruct l2 as [|y l2]; [destruct i; discriminate|].
    destruct i as [|i]; simpl in *.
    + inversion H. exists x, y. auto.
    + apply IH. exact H.
Qed.

Lemma np_scale_in_unit (values : list R) : Forall (fun s => 0 <= s <= 1) (_min_max_scale values).
Proof.
  rewrite hidden_gems_scale_eq.
  apply (scale_with_scaling isclose np_isclose_refl values).
Qed.

Lemma fit_hype_model_none {F : Type} (_SKLEARN_AVAILABLE : bool)
    (fit_predict : list (ModelRow F) -> option (list R))
    (model_df : list (ModelRow F)) (min_reviews : Z) :
  _SKLEARN_AVAILABLE = false
  \/ (len model_df < MIN_MODEL_ROWS)%Z
  \/ fit_predict model_df = None ->
  _fit_hype_model _SKLEARN_AVAILABLE fit_predict model_df min_reviews = None.
Proof.
  unfold _fit_hype_model. intros [H|[H|H]].
  - rewrite H. reflexivity.
  - apply Z.ltb_lt in H. rewrite H. destruct _SKLEARN_AVAILABLE; reflexivity.
  - rewrite H. destruct _SKLEARN_AVAILABLE; cbn [negb]; [|reflexivity].
    destruct (len model_df <? MIN_MODEL_ROWS)%Z; reflexivity.
Qed.

(** X29. The rating model gives no result exactly when the regression
    library is missing, the model frame has fewer than 50 rows, or the
    fit fails. When it gives one, the expected ratings are the fit's
    predictions, no signal is negative, and the signal of a venue never
    exceeds the positive part of its residual. *)
Theorem X29_rating_model_fallbacks_and_signal_bounds
    {F : Type} (_SKLEARN_AVAILABLE : bool)
    (fit_predict : list (ModelRow F) -> option (list R))
    (model_df : list (ModelRow F)) (min_reviews : Z) :
  (_fit_hype_model _SKLEARN_AVAILABLE fit_predict model_df min_reviews = None
   <-> _SKLEARN_AVAILABLE = false
       \/ (len model_df < MIN_MODEL_ROWS)%Z
       \/ fit_predict model_df = None)
  /\ forall expected resid signal,
       _fit_hype_model _SKLEARN_AVAILABLE fit_predict model_df min_reviews
       = Some (expected, resid, signal) ->
       fit_predict model_df = Some expected
       /\ Forall (fun s => 0 <= s) signal
       /\ forall i s r,
            nth_error signal i = Some s -> nth_error resid i = Some r -> s <= Rmax r 0.
Proof.
  unfold _fit_hype_model.
  destruct _SKLEARN_AVAILABLE; cbn [negb];
    [|split; [split; auto | intros; discriminate]].
  destruct (len model_df <? MIN_MODEL_ROWS)%Z eqn:Erows.
  { apply Z.ltb_lt in Erows. split; [split; auto | intros; discriminate]. }
  apply Z.ltb_ge in Erows.
  destruct (fit_predict model_df) as [expected_rating|] eqn:Efit.
  2:{ split; [split; auto | intros; discriminate]. }
  split.
  { split; [discriminate|]. intros [H|[H|H]]; [discriminate | lia | discriminate]. }
  intros expected resid0 signal0 H. inversion H as [[He Hr Hs]]. clear H.
  subst expected resid0 signal0.
  split; [reflexivity|].
  set (resid := map2 Rminus (map mr_rating model_df) expected_rating) in *.
  set (signal := map2 _ _ (map mr_user_ratings_total model_df)) in *.
  assert (Hcell : forall i s,
            nth_error signal i = Some s ->
            exists r w, nth_error resid i = Some r /\ 0 <= w <= 1
                        /\ (s = Rmax r 0 * (0.35 + 0.65 * w) \/ s = 0.0)).
  { intros i s Hi. unfold signal in Hi.
    apply map2_nth_inv in Hi. destruct Hi as [s1 [c [H1 [_ Hgate]]]].
    apply map2_nth_inv in H1. destruct H1 as [s0 [w [H0 [Hw Hmul]]]].
    rewrite nth_error_map in H0. fold resid in H0.
    destruct (nth_error resid i) as [r|]; [|discriminate].
    exists r, w. split; [reflexivity|]. split.
    - apply nth_error_In in Hw. pose proof (np_scale_in_unit
        (map log1p (map mr_user_ratings_total model_df))) as Hu.
      rewrite Forall_forall in Hu. apply Hu. exact Hw.
    - simpl in H0. inversion H0. subst s0 s1.
      destruct (Rleb (IZR min_reviews) c); [left | right]; exact Hgate. }
  split.
  - apply Forall_forall. intros s Hin. apply In_nth_error in Hin. destruct Hin as [i Hi].
    destruct (Hcell i s Hi) as [r [w [_ [Hw [Hs'|Hs']]]]]; rewrite Hs'; [|lra].
    pose proof (Rmax_r r 0). apply Rmult_le_pos; lra.
  - intros i s r Hi Hres. destruct (Hcell i s Hi) as [r' [w [Hr' [Hw [Hs'|Hs']]]]];
      rewrite Hres in Hr'; inversion Hr'; subst r'; rewrite Hs'.
    + pose proof (Rmax_r r 0). nra.
    + pose proof (Rmax_r r 0). lra.
Qed.

(** *** The scored frame *)

Lemma combine_seq_nth {A : Type} (l : list A) (a i : nat) :
  nth_error (combine (seq a (length l)) l) i
  = option_map (fun x => ((a + i)%nat, x)) (nth_error l i).
Proof.
  revert a i. induction l as [|x l IH]; intros a i; simpl.
  - destruct i; reflexivity.
  - destruct i as [|i]; simpl.
    + rewrite Nat.add_0_r. reflexivity.
    + rewrite IH. rewrite Nat.add_succ_r. reflexivity.
Qed.

Lemma with_columns_length (scores : list R) (source : string)
    (expected hype signal : nat -> option R) :
  length (with_columns scores source expected hype signal) = length scores.
Proof.
  unfold with_columns. rewrite length_map, length_combine, length_seq. lia.
Qed.

Lemma with_columns_nth (scores : list R) (source : string)
    (expected hype signal : nat -> option R) (i : nat) :
  nth_error (with_columns scores source expected hype signal) i
  = option_map (fun s => mkScoredRow s source (expected i) (hype i) (signal i))
               (nth_error scores i).
Proof.
  unfold with_columns. rewrite nth_error_map, combine_seq_nth.
  destruct (nth_error scores i); reflexivity.
Qed.

Lemma with_columns_In (scores : list R) (source : string)
    (expected hype signal : nat -> option R) (r : ScoredRow) :
  In r (with_columns scores source expected hype signal) ->
  exists i s, nth_error scores i = Some s
              /\ r = mkScoredRow s source (expected i) (hype i) (signal i).
Proof.
  intros H. apply In_nth_error in H. destruct H as [i Hi].
  rewrite with_columns_nth in Hi. destruct (nth_error scores i) as [s|] eqn:E;
    [|discriminate]. inversion Hi. exists i, s. auto.
Qed.

Lemma dict_get_combine_key {V : Type} (i : nat) (index : list nat) (values : list V) (v : V) :
  dict_get Nat.eqb i (combine index values) = Some v -> In i index.
Proof.
  revert values. induction index as [|k index IH]; intros values; simpl; [discriminate|].
  destruct values as [|x values]; [discriminate|]. simpl.
  destruct (Nat.eqb k i) eqn:E.
  - apply Nat.eqb_eq in E. auto.
  - intros H. right. eapply IH. exact H.
Qed.

Lemma at_index_absent {V : Type} (default : V) (index : list nat) (values : list V)
    (i : nat) :
  ~ In i index -> at_index default index values i = default.
Proof.
  intros H. unfold at_index.
  destruct (dict_get Nat.eqb i (combine index values)) as [v|] eqn:E; [|reflexivity].
  exfalso. apply H. eapply dict_get_combine_key. exact E.
Qed.

Lemma prepare_model_frame_index {F : Type} (locations : list (VenueRow F)) (i : nat) :
  In i (map fst (_prepare_model_frame locations)) ->
  exists row y, nth_error locations i = Some row /\ vr_rating row = Some y.
Proof.
  unfold _prepare_model_frame. rewrite in_map_iff.
  intros [[k m] [Hk Hin]]. simpl in Hk. subst k. apply in_flat_map in Hin.
  destruct Hin as [[j row] [Hjr Hin]]. simpl in Hin.
  destruct (vr_rating row) as [y|] eqn:Ey; [|contradiction].
  destruct Hin as [Hin|[]]. inversion Hin. subst j.
  apply In_nth_error in Hjr. destruct Hjr as [n Hn].
  rewrite combine_seq_nth in Hn. destruct (nth_error locations n) as [row'|] eqn:En;
    [|discriminate]. simpl in Hn. inversion Hn. subst. exists row, y. auto.
Qed.

Lemma legacy_length {F : Type} (has_residual_popularity : bool) (df : list (VenueRow F)) :
  length (_legacy_hidden_gem has_residual_popularity df) = length df.
Proof.
  unfold _legacy_hidden_gem. destruct has_residual_popularity; cbn [negb].
  - rewrite hidden_gems_scale_eq.
    destruct (scale_with_scaling isclose np_isclose_refl
                (map (fun r => Rabs (Rmin (fillna 0 (vr_residual_popularity r)) 0)) df))
      as [Hlen _].
    rewrite Hlen. apply length_map.
  - apply length_map.
Qed.

Lemma legacy_in_unit {F : Type} (has_residual_popularity : bool) (df : list (VenueRow F)) :
  Forall (fun s => 0 <= s <= 1) (_legacy_hidden_gem has_residual_popularity df).
Proof.
  unfold _legacy_hidden_gem. destruct has_residual_popularity; cbn [negb].
  - apply np_scale_in_unit.
  - apply Forall_forall. intros s Hs. apply in_map_iff in Hs. destruct Hs as [_ [Hs _]].
    subst s. lra.
Qed.

Lemma combine_nth {A B : Type} (l1 : list A) (l2 : list B) (k : nat) (a : A) (b : B) :
  nth_error l1 k = Some a -> nth_error l2 k = Some b ->
  nth_error (combine l1 l2) k = Some (a, b).
Proof.
  revert l2 k. induction l1 as [|x l1 IH]; intros l2 k H1 H2; [destruct k; discriminate|].
  destruct l2 as [|y l2]; [destruct k; discriminate|].
  destruct k as [|k]; simpl in *.
  - inversion H1. inversion H2. reflexivity.
  - apply IH; assumption.
Qed.

Lemma combine_keys_NoDup {V : Type} (index : list nat) (values : list V) :
  NoDup index -> NoDup (map fst (combine index values)).
Proof.
  revert values. induction index as [|k index IH]; intros values H; [constructor|].
  destruct values as [|v values]; [constructor|].
  inversion H as [|? ? Hk Hrest]; subst. simpl. constructor; [|apply IH; exact Hrest].
  intros Hin. apply Hk. apply in_map_iff in Hin. destruct Hin as [[k' v'] [Hk' Hin]].
  simpl in Hk'. subst k'. eapply in_combine_l. exact Hin.
Qed.

Lemma at_index_present {V : Type} (default : V) (index : list nat) (values : list V)
    (k i : nat) (v : V) :
  NoDup index -> nth_error index k = Some i -> nth_error values k = Some v ->
  at_index default index values i = v.
Proof.
  intros Hnd Hi Hv. unfold at_index.
  rewrite (dict_get_In Nat.eqb Nat.eqb_eq i v (combine index values)).
  - reflexivity.
  - eapply nth_error_In. apply combine_nth; eassumption.
  - apply combine_keys_NoDup. exact Hnd.
Qed.

Section ModelFrame.
Context {F : Type}.

Lemma rated_labels (a : nat) (locations : list (VenueRow F)) :
  (forall i, In i (map fst (rated_from a locations)) -> (a <= i)%nat)
  /\ NoDup (map fst (rated_from a locations)).
Proof.
  revert a. induction locations as [|row locations IH]; intros a.
  - split; [intros i [] | constructor].
  - destruct (IH (S a)) as [Hge Hnd]. unfold rated_from in *. cbn [length seq combine flat_map].
    cbn [fst snd]. destruct (vr_rating row) as [y|]; cbn [app map fst].
    + split.
      * intros i [Hi|Hi]; [lia|]. apply Hge in Hi. lia.
      * constructor; [|exact Hnd]. intros Hin. apply Hge in Hin. lia.
    + split; [|exact Hnd]. intros i Hi. apply Hge in Hi. lia.
Qed.

Lemma prepare_model_frame_labels (locations : list (VenueRow F)) :
  NoDup (map fst (_prepare_model_frame locations)).
Proof. exact (proj2 (rated_labels 0 locations)). Qed.

Lemma prepare_model_frame_rated (locations : list (VenueRow F)) (i : nat)
    (row : VenueRow F) (y : R) :
  nth_error locations i = Some row -> vr_rating row = Some y ->
  exists k m, nth_error (_prepare_model_frame locations) k = Some (i, m)
              /\ mr_rating m = y.
Proof.
  intros Hrow Hy.
  assert (Hin : In (i, mkModelRow F y (fillna 0 (vr_user_ratings_total row))
                         (vr_features row))
                   (_prepare_model_frame locations)).
  { unfold _prepare_model_frame. apply in_flat_map. exists (i, row). split.
    - apply (nth_error_In _ i). rewrite combine_seq_nth, Hrow. reflexivity.
    - cbn [fst snd]. rewrite Hy. left. reflexivity. }
  apply In_nth_error in Hin. destruct Hin as [k Hk]. exists k. eexists.
  split; [exact Hk | reflexivity].
Qed.

End ModelFrame.

Lemma fit_hype_model_some {F : Type} (_SKLEARN_AVAILABLE : bool)
    (fit_predict : list (ModelRow F) -> option (list R))
    (model_df : list (ModelRow F)) (min_reviews : Z) (exp resid signal : list R) :
  _fit_hype_model _SKLEARN_AVAILABLE fit_predict model_df min_reviews
  = Some (exp, resid, signal) ->
  fit_predict model_df = Some exp
  /\ resid = map2 Rminus (map mr_rating model_df) exp.
Proof.
  unfold _fit_hype_model. destruct _SKLEARN_AVAILABLE; cbn [negb]; [|discriminate].
  destruct (len model_df <? MIN_MODEL_ROWS)%Z; [discriminate|].
  destruct (fit_predict model_df) as [expected|]; [|discriminate].
  intros H. inversion H. auto.
Qed.

(** X30. Provided the regression returns one prediction per row: the
    scored frame has one row per venue, every hidden-gem score lies between
    0 and 1, and all rows name the same source, "rating_model" or
    "popularity_residual" (the latter without a signal column). Without the
    regression library or with fewer than 50 rated venues the source is
    "popularity_residual" and no venue has an expected rating. A venue
    without a rating never has an expected rating or a residual, and under
    the rating model its score is 0. When the rating model gives a result,
    every venue with a rating has an expected rating, and its residual is
    its rating minus that expectation. *)
Theorem X30_hidden_gem_scores_of_the_frame
    {F : Type} (_SKLEARN_AVAILABLE : bool)
    (fit_predict : list (ModelRow F) -> option (list R))
    (has_residual_popularity : bool) (locations : list (VenueRow F)) (min_reviews : Z)
    (Hfit : forall df expected,
        fit_predict df = Some expected -> length expected = length df) :
  let scored := add_hidden_gem_scores _SKLEARN_AVAILABLE fit_predict
                  has_residual_popularity locations min_reviews in
  length scored = length locations
  /\ Forall (fun r => 0 <= hidden_gem_score r <= 1) scored
  /\ (Forall (fun r => hidden_gem_source r = "rating_model"%string) scored
      \/ Forall (fun r => hidden_gem_source r = "popularity_residual"%string
                          /\ hidden_gem_signal r = None) scored)
  /\ (_SKLEARN_AVAILABLE = false
      \/ (len (_prepare_model_frame locations) < MIN_MODEL_ROWS)%Z ->
      Forall (fun r => hidden_gem_source r = "popularity_residual"%string
                       /\ expected_rating r = None /\ hype_residual r = None) scored)
  /\ (forall i row r,
        nth_error locations i = Some row -> vr_rating row = None ->
        nth_error scored i = Some r ->
        expected_rating r = None /\ hype_residual r = None
        /\ (hidden_gem_source r = "rating_model"%string -> hidden_gem_score r = 0))
  /\ (forall i row y r,
        nth_error locations i = Some row -> vr_rating row = Some y ->
        nth_error scored i = Some r ->
        _fit_hype_model _SKLEARN_AVAILABLE fit_predict
          (map snd (_prepare_model_frame locations)) min_reviews <> None ->
        exists e, expected_rating r = Some e /\ hype_residual r = Some (y - e)).
Proof.
  cbn zeta. unfold add_hidden_gem_scores. cbn zeta.
  set (model_df := _prepare_model_frame locations).
  assert (Hunrated : forall i row, nth_error locations i = Some row ->
                                   vr_rating row = None -> ~ In i (map fst model_df)).
  { intros i row Hrow Hnone Hin. apply prepare_model_frame_index in Hin.
    destruct Hin as [row' [y [Hrow' Hy]]]. congruence. }
  pose proof (fit_hype_model_none _SKLEARN_AVAILABLE fit_predict (map snd model_df)
                min_reviews) as Hnone.
  destruct (_fit_hype_model _SKLEARN_AVAILABLE fit_predict (map snd model_df) min_reviews)
    as [[[exp resid] signal]|] eqn:Eres.
  - set (index := map fst model_df) in *.
    set (signal_full := map (at_index 0.0 index signal) (seq 0 (length locations))).
    assert (Hexp : forall i row, nth_error locations i = Some row -> vr_rating row = None ->
                     at_index None index (map Some exp) i = None
                     /\ at_index None index (map Some resid) i = None
                     /\ at_index 0.0 index signal i = 0.0).
    { intros i row Hrow Hr. pose proof (Hunrated i row Hrow Hr) as Hout.
      rewrite !at_index_absent by exact Hout. auto. }
    assert (Hrated : forall i row y,
               nth_error locations i = Some row -> vr_rating row = Some y ->
               exists e, at_index None index (map Some exp) i = Some e
                         /\ at_index None index (map Some resid) i = Some (y - e)).
    { intros i row y Hrow Hy.
      destruct (fit_hype_model_some _ _ _ _ _ _ _ Eres) as [Hpred Hresid].
      destruct (prepare_model_frame_rated locations i row y Hrow Hy) as [k [m [Hk Hm]]].
      fold model_df in Hk.
      assert (Hlen : length exp = length model_df)
        by (rewrite (Hfit _ _ Hpred); apply length_map).
      assert (Hke : exists e, nth_error exp k = Some e).
      { destruct (nth_error exp k) as [e|] eqn:E; [eexists; reflexivity|].
        apply nth_error_None in E. assert (k < length model_df)%nat
          by (apply nth_error_Some; congruence). lia. }
      destruct Hke as [e He]. exists e.
      assert (Hi : nth_error index k = Some i)
        by (unfold index; rewrite nth_error_map, Hk; reflexivity).
      assert (Hnd : NoDup index) by apply prepare_model_frame_labels.
      split.
      - apply (at_index_present None index (map Some exp) k i (Some e) Hnd Hi).
        rewrite nth_error_map, He. reflexivity.
      - apply (at_index_present None index (map Some resid) k i (Some (y - e)) Hnd Hi).
        rewrite nth_error_map, Hresid.
        rewrite (map2_nth Rminus _ _ k y e); [reflexivity | | exact He].
        rewrite !nth_error_map, Hk. cbn [option_map snd]. rewrite Hm. reflexivity. }
    destruct (max_le_zero signal_full).
    + split; [rewrite with_columns_length; apply legacy_length|].
      split.
      { apply Forall_forall. intros r Hr. apply with_columns_In in Hr.
        destruct Hr as [i [s [Hs Hr]]]. subst r. cbn [hidden_gem_score].
        pose proof (legacy_in_unit has_residual_popularity locations) as Hu.
        rewrite Forall_forall in Hu. apply Hu. eapply nth_error_In. exact Hs. }
      split.
      { right. apply Forall_forall. intros r Hr. apply with_columns_In in Hr.
        destruct Hr as [i [s [_ Hr]]]. subst r. auto. }
      split.
      { intros [H|H]; exfalso.
        - discriminate (Hnone (or_introl H)).
        - assert (H' : (len (map snd model_df) < MIN_MODEL_ROWS)%Z)
            by (unfold len in *; rewrite length_map; exact H).
          discriminate (Hnone (or_intror (or_introl H'))). }
      split.
      { intros i row r Hrow Hr Hi. rewrite with_columns_nth in Hi.
        destruct (nth_error (_legacy_hidden_gem has_residual_popularity locations) i)
          as [s|]; [|discriminate]. inversion Hi.
        cbn [expected_rating hype_residual hidden_gem_source hidden_gem_score].
        destruct (Hexp i row Hrow Hr) as [H1 [H2 _]].
        split; [exact H1|]. split; [exact H2|]. discriminate. }
      intros i row y r Hrow Hy Hi _. rewrite with_columns_nth in Hi.
      destruct (nth_error (_legacy_hidden_gem has_residual_popularity locations) i)
        as [s|]; [|discriminate]. inversion Hi.
      cbn [expected_rating hype_residual]. exact (Hrated i row y Hrow Hy).
    + set (clipped := map (fun s => Rmax s 0) signal_full).
      destruct (scale_with_scaling isclose np_isclose_refl clipped)
        as [Hlen [Hunit [_ [Hleast _]]]].
      rewrite <- hidden_gems_scale_eq in Hlen, Hunit, Hleast.
      split.
      { rewrite with_columns_length, Hlen. unfold clipped, signal_full.
        rewrite !length_map, length_seq. reflexivity. }
      split.
      { apply Forall_forall. intros r Hr. apply with_columns_In in Hr.
        destruct Hr as [i [s [Hs Hr]]]. subst r. cbn [hidden_gem_score].
        rewrite Forall_forall in Hunit. apply Hunit. eapply nth_error_In. exact Hs. }
      split.
      { left. apply Forall_forall. intros r Hr. apply with_columns_In in Hr.
        destruct Hr as [i [s [_ Hr]]]. subst r. auto. }
      split.
      { intros [H|H]; exfalso.
        - discriminate (Hnone (or_introl H)).
        - assert (H' : (len (map snd model_df) < MIN_MODEL_ROWS)%Z)
            by (unfold len in *; rewrite length_map; exact H).
          discriminate (Hnone (or_intror (or_introl H'))). }
      split.
      { intros i row r Hrow Hr Hi. rewrite with_columns_nth in Hi.
        destruct (nth_error (_min_max_scale clipped) i) as [s|] eqn:Es; [|discriminate].
        inversion Hi.
        cbn [expected_rating hype_residual hidden_gem_source hidden_gem_score].
        destruct (Hexp i row Hrow Hr) as [H1 [H2 H3]].
        split; [exact H1|]. split; [exact H2|]. intros _.
        assert (Hcell : nth_error clipped i = Some 0).
        { unfold clipped, signal_full. rewrite !nth_error_map.
          assert (Hseq : nth_error (seq 0 (length locations)) i = Some i).
          { assert (Hlt : (i < length locations)%nat)
              by (apply nth_error_Some; congruence).
            rewrite nth_error_seq. apply Nat.ltb_lt in Hlt. rewrite Hlt. reflexivity. }
          rewrite Hseq. cbn [option_map]. rewrite H3. f_equal.
          apply Rmax_right. lra. }
        rewrite (Hleast i 0 Hcell) in Es.
        - inversion Es. reflexivity.
        - intros w Hw. unfold clipped in Hw. apply in_map_iff in Hw.
          destruct Hw as [v [Hw _]]. subst w. apply Rmax_r. }
      intros i row y r Hrow Hy Hi _. rewrite with_columns_nth in Hi.
      destruct (nth_error (_min_max_scale clipped) i) as [s|]; [|discriminate].
      inversion Hi. cbn [expected_rating hype_residual]. exact (Hrated i row y Hrow Hy).
  - split; [rewrite with_columns_length; apply legacy_length|].
    split.
    { apply Forall_forall. intros r Hr. apply with_columns_In in Hr.
      destruct Hr as [i [s [Hs Hr]]]. subst r. cbn [hidden_gem_score].
      pose proof (legacy_in_unit has_residual_popularity locations) as Hu.
      rewrite Forall_forall in Hu. apply Hu. eapply nth_error_In. exact Hs. }
    split.
    { right. apply Forall_forall. intros r Hr. apply with_columns_In in Hr.
      destruct Hr as [i [s [_ Hr]]]. subst r. auto. }
    split.
    { intros _. apply Forall_forall. intros r Hr. apply with_columns_In in Hr.
      destruct Hr as [i [s [_ Hr]]]. subst r. auto. }
    split.
    { intros i row r Hrow Hr Hi. rewrite with_columns_nth in Hi.
      destruct (nth_error (_legacy_hidden_gem has_residual_popularity locations) i)
        as [s|]; [|discriminate]. inversion Hi.
      cbn [expected_rating hype_residual hidden_gem_source hidden_gem_score].
      split; [reflexivity|]. split; [reflexivity|]. discriminate. }
    intros i row y r _ _ _ Hne. exfalso. apply Hne. reflexivity.
Qed.

(** The theorem for a regression that predicts 4.0 everywhere, at a frame
    of sixty rated venues and one unrated venue. *)
Lemma X30_witness_sixty_venues :
  let scored := add_hidden_gem_scores true flat_fit false sixty_rated_venues
                  DEFAULT_MIN_REVIEWS in
  length scored = length sixty_rated_venues
  /\ Forall (fun r => 0 <= hidden_gem_score r <= 1) scored
  /\ (Forall (fun r => hidden_gem_source r = "rating_model"%string) scored
      \/ Forall (fun r => hidden_gem_source r = "popularity_residual"%string
                          /\ hidden_gem_signal r = None) scored)
  /\ (true = false
      \/ (len (_prepare_model_frame sixty_rated_venues) < MIN_MODEL_ROWS)%Z ->
      Forall (fun r => hidden_gem_source r = "popularity_residual"%string
                       /\ expected_rating r = None /\ hype_residual r = None) scored)
  /\ (forall i row r,
        nth_error sixty_rated_venues i = Some row -> vr_rating row = None ->
        nth_error scored i = Some r ->
        expected_rating r = None /\ hype_residual r = None
        /\ (hidden_gem_source r = "rating_model"%string -> hidden_gem_score r = 0))
  /\ (forall i row y r,
        nth_error sixty_rated_venues i = Some row -> vr_rating row = Some y ->
        nth_error scored i = Some r ->
        _fit_hype_model true flat_fit
          (map snd (_prepare_model_frame sixty_rated_venues)) DEFAULT_MIN_REVIEWS <> None ->
        exists e, expected_rating r = Some e /\ hype_residual r = Some (y - e)).
Proof.
  apply (X30_hidden_gem_scores_of_the_frame true flat_fit false sixty_rated_venues
           DEFAULT_MIN_REVIEWS).
  intros df expected H. unfold flat_fit in H. inversion H. apply length_map.
Defined.

End HiddenGemScoresProperties.
